(* ===== verification/_CoqProject ===== *)
-Q . S2P
Prelude.v
Dll.v
Pages.v
Buddy.v
BuddySpec.v
Tlsf.v
TlsfSpec.v
Slab.v
SlabSpec.v
Serial.v
Paging.v
PageTree.v
PagingSpec.v
PagingProps.v
OsConstants.v
Arch.v
Interrupts.v
InterruptsSpec.v
Gdt.v
Timer.v
Vga.v
Framebuffer.v
FramebufferSpec.v
Limine.v
LimineSpec.v
Pmm.v
Boot.v
BootSpec.v
LimineOld.v
BootPaging.v
BootLog.v
BootMain.v
BootRun.v
Conformance.v
