(* ===== verification/Prelude.v ===== *)
(** * A verified model of the kernel

    This development models the memory core of the kernel in this repository
    and proves what makes it correct.  It is a shallow embedding: every
    operation of the source is an executable function in a state-and-panic
    monad, over the state the source keeps and the memory its raw pointers
    reach, and the theorems are about those functions.

    ** The program and its parts

    - abalone/src/buddy.rs, the buddy page allocator, hands out runs of pages
      of the direct map.  [Buddy] is the model (free lists threaded through the
      free pages, pair bitmaps, statistics) with its representation invariant;
      [BuddySpec] relates it to an abstract pool of pages, proves the contract
      and discharges the interface [PageAllocator] of [Pages].
    - abalone/src/tlsf.rs, the kernel heap.  [Tlsf] models block headers in
      memory, the two-level size classes and their bitmaps, splitting, merging,
      pools and the GlobalAlloc wrapper; [TlsfSpec] holds the theorems.
    - abalone/src/slab.rs, typed object caches over the page allocator.
      [Slab] is proved against [PageAllocator], [SlabSpec] runs clients of a
      cache and instantiates it with the buddy allocator.
    - mantle/src/{prot,table,walker,pml4}.rs, the page tables.  [Paging] is the
      model, [PageTree] the theory of table trees and hardware walks,
      [PagingSpec] the symbolic executions, [PagingProps] the theorems and a
      concrete run over the buddy allocator.
    - src/limine_data.rs copies the boot loader's answers into plain values and
      later returns its memory: [Limine]; [LimineSpec] says what is copied.
    - src/dead_code/pmm.rs, a bitmap of the first 64 GiB's pages: [Pmm].
    - src/arch.rs, the guard that saves and clears the interrupt flag: [Arch].
    - src/memory/{heap,stack,vmm}.rs, src/post_stack_state.rs, src/process.rs
      and src/main.rs bring the kernel up.  [Boot] models them over the state of
      all components ([Kernel]); [zoom] runs a component's operation on its
      part.  [BootSpec] proves what is registered with the page allocator and
      when, [BootPaging] what happens to the page tables meanwhile: there the
      walker runs on tables the allocator does not own, through the frame
      source [buddy_over].  [BootLog] has the log the sequence prints.
      [BootMain] composes everything: [kernel_main] run from the kernel's entry.
      [BootRun] goes on from there: clients allocate from the heap and from the
      process table's cache, write, print and take interrupts over the same
      state, in any order.
    - src/gdt.rs, the segments and the task state: [Gdt].
    - src/writers/serial.rs, src/panic.rs and src/testing.rs, the serial log,
      the panic handlers and the test runner: [Serial].
    - src/interrupts/ and src/timer.rs: vectors, statistics, dispatch table,
      interrupt controllers, handlers and the descriptor table are [Interrupts],
      over a history of port and register accesses; [InterruptsSpec] has the
      theorems and a small interleaving semantics of the controller lock;
      [Timer] is the tick counter and the polling wait.
    - src/writers/framebuffer.rs, the console: [Framebuffer] draws glyphs into
      memory, [FramebufferSpec] refines it to a terminal.  [Vga] is the text
      writer of src/writers/vga_buffer.rs with its statics; the macros of that
      file print on the framebuffer and are [print] and [println] of [Boot].
    - src/writers/limine_data.rs, the older copy of the boot data that is left
      in the tree: [LimineOld].
    - src/os_constants.rs, enums and page arithmetic of the target:
      [OsConstants].
    - the repository's own tests (src/tests.rs and the components' [tests]
      modules) are programs of the model in [Conformance], and pass.

    Control flows as in main.rs: [kernel_main] is [kernel_main_setup], the
    switch of the stack and [kernel_main_continue].  The first harvests, logs
    the memory map, loads the segments, sets up interrupts and timer, seeds the
    buddy allocator and the heap, makes the process table, programs the PAT,
    maps the local APIC and the framebuffer, allocates the kernel's stack,
    installs its own page tables and releases the boot loader's memory; the
    second registers the old stack's region, prints, and enables interrupts.
    In [BootRun] a step of [run_step] is one call of a client, and [world] adds
    to the kernel's state what its clients hold and what they have printed.

    Interfaces: [FrameSource] and [PageAllocator] ([Pages]) between the buddy
    allocator and its clients, discharged by [buddy_frames], [buddy_pages] and
    [buddy_over]; [Bitwise] and [Align] for the bitwise crate; [LimineTypes] for
    the boot protocol.
    [Dll] holds the theory of the doubly linked lists that all three
    allocators thread through memory; this file holds machine integers, the
    monad, memory, weakest preconditions and the lemmas on bits the rest uses.

    ** Conventions

    The kernel is built with Cargo's dev profile, so overflow, a shift by too
    much, an index out of bounds, a failed [assert!], [debug_assert!] or
    [expect], and a misaligned link in a slab's slot are all the outcome
    [Panic].  [wp c s Q] says that [c] run from
    [s] neither panics nor exhausts its fuel and ends in [Q]; it is total
    correctness.  Integers are [Z] with the checks and the truncations of
    their width written out.  Memory is a map from byte addresses to the
    scalar stored there; the source reads each address at one width only.
    The allocators' locks are not modelled: every public function of the
    allocators takes its lock for the whole call, so calls are atomic steps.
    The lock of the interrupt controllers is part of their history
    ([PicsLock], [PicsUnlock]), that of the serial port part of its state.

    ** Loops and fuel

    The buddy loops carry fuel: [split_loop] and [coalesce_loop] at most the
    number of orders, [add_region_loop] at most the page count; the theorems
    that the calls return ([buddy_calls_return] and the [wp] lemmas) prove that
    the fuel given by the model is enough under the contract.  [sleep_loop] takes
    the numbers of ticks that arrive between its polls; [OutOfFuel] there means that
    it still spins, and so it means in [serial_lock] of a port that is held.
    All other loops count down the iterations the source counts up.

    ** Code outside the repository

    The bitwise crate (page-table entries, alignment, invlpg, wrmsr) is a git
    submodule that is not present: its functions are parameters with their
    documented behaviour as laws ([BitwiseLaws] in [Paging], [AlignLaws] in
    [Limine], where rounding up may also panic when it overflows), instantiated
    in the witnesses.  The limine crate's responses are
    an argument ([Responses]) and its type numbers the parameter [LimineTypes];
    what a device answers to a port read is the section variable [device] of
    [Interrupts]; the handlers that other code registers are opaque numbers.
    The descriptor table's encoding is [GdtCrate] and the addresses of the
    interrupt stacks [Image], in [Gdt]; the serial port is the bytes handed to
    the uart_16550 crate.

    ** What the theorems show

    Buddy: held blocks never overlap and the free lists, bitmaps and counters
    describe exactly the free pages; the allocator refines a pool of pages
    whose regions may touch but are not merged across their border; calls return;
    registering beyond the bitmaps panics.
    TLSF: allocation and release keep the heap consistent and payloads disjoint,
    the search is a good fit, and three defects (a stale back link, huge
    requests, over-aligned releases); clients that release in reverse order of
    allocation never meet the first ([stacked]). Slab: objects never overlap, their bytes
    survive other operations, slabs return to the allocator, and three defects.
    Paging: map, translate, unmap and map_mmio against the hardware walk, and
    the kernel's own tables map exactly the direct map and the image.

    Boot: on a machine with enough memory ([machine_ok] of [BootMain] lists what
    is asked of it: a memory map without overlaps and within 512.5 MiB above the
    lowest usable page, the boot loader's tables in memory the allocator does
    not manage, as many free pages as the tables, stack and heap need) the whole sequence returns, and [boot_done] describes
    the running kernel, its log included. From there, in every sequence of
    clients' calls, what is held never overlaps and stays off the stack and the
    page tables ([kernel_runs_safe]), and the next call returns
    ([kernel_runs_total]); a heap object may be released there while the block
    in front of it is in use or its back link is right, and without such a
    condition by clients that release in reverse order ([lifo_clients_safe]). The data harvested is the boot loader's, or a panic. The
    heap's set-up registers exactly the usable pages outside the kernel, the
    release exactly the reclaimable ones outside the boot stack; the guard page
    and the APIC window do not survive the change of page tables. Interrupts:
    every hardware vector's handler does what its line needs, exceptions panic
    or return as meant, registration round-trips, and [mask_irq] can deadlock.
    Timer: when the wait returns. Consoles: the framebuffer shows an abstract
    terminal, the VGA buffer the last rows of a layout. Bitmap allocator: a pool
    that hands out its lowest page. Interrupt guards: nested ones bracket
    critical sections. Constants: page arithmetic. Serial port: a panic is
    reported unless it interrupts a print; the test runner's transcript. Stale
    copy: its release hands the running stack to the allocator.

    ** Not modelled

    The seastar crate's table of processes around the slab cache, whose
    submodule is not present: [Boot] has the cache, its pages and the size of a
    process as the parameter [ProcessType]. The contents of stacks. Inline assembly is modelled by
    its effect on the processor record or as an argument (the stack pointer, the
    answer of CPUID). src/memory/main.rs, an older copy of the boot sequence in
    no module tree, does not type-check: it uses names that nothing defines.
    Locks other than the interrupt controller's and the serial port's are taken
    for whole calls and not modelled; in particular a handler does not interrupt
    a call in [BootRun]. *)

From Stdlib Require Export ZArith Lia.
From stdpp Require Export base numbers gmap functions.
From stdpp Require Export list.
Open Scope Z_scope.

(** ** Machine integers *)

(** The target is x86_64: [usize] and [u64] are 64 bits wide. *)
Definition W64 : Z := 2 ^ 64.
Definition W32 : Z := 2 ^ 32.
Definition usize_MAX : Z := 2 ^ 64 - 1.

(** [usize::trailing_zeros] and [usize::leading_zeros]. *)
Fixpoint pos_ctz (p : positive) : Z :=
  match p with
  | xO q => 1 + pos_ctz q
  | _ => 0
  end.

Definition trailing_zeros (x : Z) : Z :=
  match x with
  | Zpos p => pos_ctz p
  | _ => 64
  end.

Definition leading_zeros (x : Z) : Z :=
  if x =? 0 then 64 else 63 - Z.log2 x.

(** Rust's [!x] at 64, 32 and 8 bits. *)
Definition not64 (x : Z) : Z := Z.lxor x usize_MAX.
Definition not32 (x : Z) : Z := Z.lxor x (W32 - 1).
Definition not8 (x : Z) : Z := Z.lxor x 255.

(** ** Outcomes and the state-and-panic monad

    The kernel is built with Cargo's dev profile (the Makefile uses
    [target/x86_64-crusty_os/debug/kernel]), so an arithmetic overflow, an
    index out of bounds, a failed [assert!] or [expect] all panic.  [OutOfFuel]
    is the outcome of a bounded loop that ran out of its bound; every total
    correctness theorem excludes it together with [Panic]. *)
Inductive outcome (A : Type) : Type :=
| Ok (a : A)
| Panic
| OutOfFuel.
Arguments Ok {A} _.
Arguments Panic {A}.
Arguments OutOfFuel {A}.

Definition M (S A : Type) : Type := S -> outcome (A * S).

Definition ret {S A} (a : A) : M S A := fun s => Ok (a, s).
Definition panic {S A} : M S A := fun _ => Panic.
Definition out_of_fuel {S A} : M S A := fun _ => OutOfFuel.
Definition bind {S A B} (c : M S A) (k : A -> M S B) : M S B :=
  fun s => match c s with
           | Ok (a, s') => k a s'
           | Panic => Panic
           | OutOfFuel => OutOfFuel
           end.
Definition get {S} : M S S := fun s => Ok (s, s).
Definition put {S} (s : S) : M S unit := fun _ => Ok (tt, s).
Definition gets {S A} (f : S -> A) : M S A := fun s => Ok (f s, s).
Definition modify {S} (f : S -> S) : M S unit := fun s => Ok (tt, f s).
Definition assert {S} (b : bool) : M S unit := if b then ret tt else panic.
(** [Option::expect]. *)
Definition expect {S A} (o : option A) : M S A :=
  match o with Some a => ret a | None => panic end.

Declare Scope kernel_scope.
Delimit Scope kernel_scope with kernel.
Notation "'let*' x ':=' c 'in' k" := (bind c (fun x => k))
  (at level 10, x name, c at level 100, k at level 200,
   format "'[v' 'let*'  x  ':='  c  'in' '/' k ']'") : kernel_scope.
Notation "c ;; k" := (bind c (fun _ => k))
  (at level 100, k at level 200, right associativity,
   format "'[v' c ;; '/' k ']'") : kernel_scope.
Open Scope kernel_scope.

(** Checked unsigned arithmetic at 64 bits. *)
Definition uadd {S} (a b : Z) : M S Z := if a + b <? W64 then ret (a + b) else panic.
Definition usub {S} (a b : Z) : M S Z := if b <=? a then ret (a - b) else panic.
Definition umul {S} (a b : Z) : M S Z := if a * b <? W64 then ret (a * b) else panic.
Definition uadd32 {S} (a b : Z) : M S Z := if a + b <? W32 then ret (a + b) else panic.
(** Checked division (the divisor may be zero). *)
Definition udiv {S} (a b : Z) : M S Z := if b =? 0 then panic else ret (a / b).
(** [a << k]: the shift amount is checked, the result is truncated. *)
Definition ushl {S} (a k : Z) : M S Z :=
  if (0 <=? k) && (k <? 64) then ret (Z.shiftl a k mod W64) else panic.

(** [a << k] on [u32]. *)
Definition ushl32 {S} (a k : Z) : M S Z :=
  if (0 <=? k) && (k <? 32) then ret (Z.shiftl a k mod W32) else panic.
(** [a >> k]: the shift amount is checked. *)
Definition ushr {S} (a k : Z) : M S Z :=
  if (0 <=? k) && (k <? 64) then ret (Z.shiftr a k) else panic.
Definition ushr32 {S} (a k : Z) : M S Z :=
  if (0 <=? k) && (k <? 32) then ret (Z.shiftr a k) else panic.

(** Array indexing with Rust's bounds check. *)
Definition aget {S A} (l : list A) (i : Z) : M S A :=
  if 0 <=? i then expect (l !! Z.to_nat i) else panic.
Definition aset {S A} (l : list A) (i : Z) (x : A) : M S (list A) :=
  if (0 <=? i) && (i <? Z.of_nat (length l)) then ret (<[Z.to_nat i := x]> l) else panic.

(** [for i in lo..lo+n]. *)
Fixpoint for_range {S} (lo : Z) (n : nat) (body : Z -> M S unit) : M S unit :=
  match n with
  | O => ret tt
  | S n' => body lo ;; for_range (lo + 1) n' body
  end.

(** ** Memory

    Physical memory as the kernel's raw pointers see it: one cell per scalar
    field, keyed by the byte address of the field.  The allocators only ever
    access a given address at one width, so a cell is read back exactly as it
    was last written; a cell nobody wrote reads as 0, and every theorem is
    stated for an arbitrary initial memory. *)
Abbreviation mem := (gmap Z Z).
Definition rd (m : mem) (a : Z) : Z := default 0 (m !! a).
Definition wr (m : mem) (a v : Z) : mem := <[a := v]> m.

(** A heap component runs on its own state paired with the memory. *)
Definition load {C} (a : Z) : M (C * mem) Z := gets (fun s => rd (snd s) a).
Definition store {C} (a v : Z) : M (C * mem) unit :=
  modify (fun s => (fst s, wr (snd s) a v)).

(** Updating the component's own state. *)
Definition upd {C} (f : C -> C) : M (C * mem) unit := modify (fun s => (f (fst s), snd s)).

(** Only cells satisfying [P] may differ. *)
Definition writes_only (P : Z -> Prop) (m m' : mem) : Prop :=
  forall x, ~ P x -> rd m' x = rd m x.

(** ** Weakest preconditions

    [wp c s Q]: run from [s], [c] neither panics nor runs out of fuel and ends
    with a value and a state satisfying [Q]. *)
Definition wp {S A} (c : M S A) (s : S) (Q : A -> S -> Prop) : Prop :=
  match c s with
  | Ok (a, s') => Q a s'
  | Panic => False
  | OutOfFuel => False
  end.

(** ** Structural rules *)
Section wp_rules.
Context {S : Type}.

Lemma wp_ret {A} (a : A) (s : S) Q : Q a s -> wp (ret a) s Q.
Proof. done. Qed.

Lemma wp_bind {A B} (c : M S A) (k : A -> M S B) (s : S) Q :
  wp c s (fun a s' => wp (k a) s' Q) -> wp (bind c k) s Q.
Proof. unfold wp, bind. by destruct (c s) as [[a s']| |]. Qed.

Lemma wp_mono {A} (c : M S A) (s : S) (Q Q' : A -> S -> Prop) :
  wp c s Q -> (forall a s', Q a s' -> Q' a s') -> wp c s Q'.
Proof. unfold wp. destruct (c s) as [[a s']| |]; naive_solver. Qed.

Lemma wp_and {A} (c : M S A) (s : S) (Q1 Q2 : A -> S -> Prop) :
  wp c s Q1 -> wp c s Q2 -> wp c s (fun a s' => Q1 a s' /\ Q2 a s').
Proof. unfold wp. destruct (c s) as [[a s']| |]; naive_solver. Qed.

(** A weakest precondition is a total correctness statement about the run. *)
Lemma wp_run {A} (c : M S A) (s : S) Q :
  wp c s Q <-> exists a s', c s = Ok (a, s') /\ Q a s'.
Proof. unfold wp. destruct (c s) as [[a s']| |]; naive_solver. Qed.

Lemma wp_get (s : S) Q : Q s s -> wp get s Q.
Proof. done. Qed.
Lemma wp_put (s s' : S) Q : Q tt s' -> wp (put s') s Q.
Proof. done. Qed.
Lemma wp_gets {A} (f : S -> A) (s : S) Q : Q (f s) s -> wp (gets f) s Q.
Proof. done. Qed.
Lemma wp_modify (f : S -> S) (s : S) Q : Q tt (f s) -> wp (modify f) s Q.
Proof. done. Qed.
Lemma wp_assert (b : bool) (s : S) Q : b = true -> Q tt s -> wp (assert b) s Q.
Proof. by intros ->. Qed.
Lemma wp_expect {A} (o : option A) a (s : S) Q : o = Some a -> Q a s -> wp (expect o) s Q.
Proof. by intros ->. Qed.

Lemma wp_uadd a b (s : S) Q : a + b < W64 -> Q (a + b) s -> wp (uadd a b) s Q.
Proof. intros. unfold uadd. by rewrite (proj2 (Z.ltb_lt _ _)). Qed.
Lemma wp_usub a b (s : S) Q : b <= a -> Q (a - b) s -> wp (usub a b) s Q.
Proof. intros. unfold usub. by rewrite (proj2 (Z.leb_le _ _)). Qed.
Lemma wp_umul a b (s : S) Q : a * b < W64 -> Q (a * b) s -> wp (umul a b) s Q.
Proof. intros. unfold umul. by rewrite (proj2 (Z.ltb_lt _ _)). Qed.
Lemma wp_uadd32 a b (s : S) Q : a + b < W32 -> Q (a + b) s -> wp (uadd32 a b) s Q.
Proof. intros. unfold uadd32. by rewrite (proj2 (Z.ltb_lt _ _)). Qed.
Lemma wp_udiv a b (s : S) Q : b <> 0 -> Q (a / b) s -> wp (udiv a b) s Q.
Proof. intros. unfold udiv. by rewrite (proj2 (Z.eqb_neq _ _)). Qed.
Lemma wp_ushl a k (s : S) Q : 0 <= a -> 0 <= k < 64 -> a * 2 ^ k < W64 -> Q (a * 2 ^ k) s -> wp (ushl a k) s Q.
Proof.
  intros Ha Hk Hlt HQ. unfold ushl. rewrite (proj2 (Z.leb_le 0 k)), (proj2 (Z.ltb_lt k 64)) by lia. simpl.
  rewrite Z.shiftl_mul_pow2, Z.mod_small; [done| |lia]. pose proof (Z.pow_nonneg 2 k). lia.
Qed.
Lemma wp_ushl_1 k (s : S) Q : 0 <= k < 64 -> Q (2 ^ k) s -> wp (ushl 1 k) s Q.
Proof.
  intros Hk HQ. unfold ushl.
  rewrite (proj2 (Z.leb_le 0 k)), (proj2 (Z.ltb_lt k 64)) by lia. simpl.
  rewrite Z.shiftl_1_l, Z.mod_small; [done|].
  split; [apply Z.pow_nonneg; lia|]. apply Z.pow_lt_mono_r; lia.
Qed.

Lemma wp_ushl32_1 k (s : S) Q : 0 <= k < 32 -> Q (2 ^ k) s -> wp (ushl32 1 k) s Q.
Proof.
  intros Hk HQ. unfold ushl32.
  rewrite (proj2 (Z.leb_le 0 k)), (proj2 (Z.ltb_lt k 32)) by lia. simpl.
  rewrite Z.shiftl_1_l, Z.mod_small; [done|].
  split; [apply Z.pow_nonneg; lia|]. apply Z.pow_lt_mono_r; lia.
Qed.
Lemma wp_ushr32 a k (s : S) Q : 0 <= k < 32 -> Q (Z.shiftr a k) s -> wp (ushr32 a k) s Q.
Proof.
  intros Hk HQ. unfold ushr32.
  by rewrite (proj2 (Z.leb_le 0 k)), (proj2 (Z.ltb_lt k 32)) by lia.
Qed.

Lemma wp_aget {A} (l : list A) i x (s : S) Q :
  0 <= i -> l !! Z.to_nat i = Some x -> Q x s -> wp (aget l i) s Q.
Proof.
  intros Hi Hl HQ. unfold aget. rewrite (proj2 (Z.leb_le 0 i)) by done. by rewrite Hl.
Qed.
Lemma wp_aset {A} (l : list A) i x (s : S) Q :
  0 <= i < Z.of_nat (length l) -> Q (<[Z.to_nat i := x]> l) s -> wp (aset l i x) s Q.
Proof.
  intros Hi HQ. unfold aset.
  by rewrite (proj2 (Z.leb_le 0 i)), (proj2 (Z.ltb_lt _ _)) by lia.
Qed.

(** Reaching a panic: everything before it runs. *)
Lemma panic_bind {A B} (c : M S A) (k : A -> M S B) (s : S) :
  wp c s (fun a s' => k a s' = Panic) -> bind c k s = Panic.
Proof. unfold wp, bind. by destruct (c s) as [[a s']| |]. Qed.
Lemma panic_here {A B} (c : M S A) (k : A -> M S B) (s : S) : c s = Panic -> bind c k s = Panic.
Proof. unfold bind. by intros ->. Qed.
Lemma panic_aget {A} (l : list A) i (s : S) : Z.of_nat (length l) <= i -> aget l i s = Panic.
Proof.
  intros Hi. unfold aget. destruct (0 <=? i); [|done].
  by rewrite lookup_ge_None_2 by lia.
Qed.
End wp_rules.

(** A counted loop runs by its invariant. *)
Lemma wp_for_range {S} (I : Z -> S -> Prop) lo n (body : Z -> M S unit) s Q :
  I lo s ->
  (forall i s, lo <= i < lo + Z.of_nat n -> I i s -> wp (body i) s (fun _ s' => I (i + 1) s')) ->
  (forall s, I (lo + Z.of_nat n) s -> Q tt s) ->
  wp (for_range lo n body) s Q.
Proof.
  revert lo s. induction n as [|n IH]; intros lo s HI Hb HQ; cbn [for_range].
  - apply HQ. by rewrite Z.add_0_r.
  - apply wp_bind. eapply wp_mono; [apply Hb; [lia|done]|]. intros [] s' HI'. apply IH; [done| |].
    + intros i s1 Hi. apply Hb. lia.
    + intros s1. replace (lo + 1 + Z.of_nat n) with (lo + Z.of_nat (Datatypes.S n)) by lia. apply HQ.
Qed.

Lemma wp_load {C} a (c : C) (m : mem) (Q : Z -> C * mem -> Prop) :
  Q (rd m a) (c, m) -> wp (load a) (c, m) Q.
Proof. done. Qed.
Lemma wp_store {C} a v (c : C) (m : mem) (Q : unit -> C * mem -> Prop) :
  Q tt (c, wr m a v) -> wp (store a v) (c, m) Q.
Proof. done. Qed.

(** One symbolic execution step; arithmetic side conditions go to [lia]. *)
Ltac wp_step :=
  lazymatch goal with
  | |- wp (bind _ _) _ _ => apply wp_bind
  | |- wp (ret _) _ _ => apply wp_ret
  | |- wp get _ _ => apply wp_get
  | |- wp (put _) _ _ => apply wp_put
  | |- wp (gets _) _ _ => apply wp_gets
  | |- wp (modify _) _ _ => apply wp_modify
  | |- wp (load _) (_, _) _ => apply wp_load
  | |- wp (store _ _) (_, _) _ => apply wp_store
  | |- wp (assert _) _ _ => apply wp_assert; [try lia|]
  | |- wp (uadd _ _) _ _ => apply wp_uadd; [try lia|]
  | |- wp (usub _ _) _ _ => apply wp_usub; [try lia|]
  | |- wp (umul _ _) _ _ => apply wp_umul; [try lia|]
  | |- wp (uadd32 _ _) _ _ => apply wp_uadd32; [try lia|]
  | |- wp (udiv _ _) _ _ => apply wp_udiv; [try lia|]
  | |- wp (ushl 1 _) _ _ => apply wp_ushl_1; [try lia|]
  | |- wp (aget _ _) _ _ => eapply wp_aget; [try lia|try eassumption|]
  | |- wp (aset _ _ _) _ _ => apply wp_aset; [try lia|]
  end; cbn [fst snd].
Ltac wp_steps := repeat wp_step.

(** ** Concrete runs *)

(** Value and final state of a run, for executing the model on inputs. *)
Definition result {S A} (c : M S A) (s : S) : option A :=
  match c s with Ok (a, _) => Some a | _ => None end.
Definition final {S A} (c : M S A) (s : S) : S :=
  match c s with Ok (_, s') => s' | _ => s end.

Lemma run_ok {S A} (c : M S A) (s : S) a : result c s = Some a -> c s = Ok (a, final c s).
Proof. unfold result, final. destruct (c s) as [[a' s']| |]; congruence. Qed.

(** A run has one outcome. *)
Lemma run_inj {S A} (c : M S A) (s s1 s2 : S) a b : c s = Ok (a, s1) -> c s = Ok (b, s2) -> a = b /\ s1 = s2.
Proof. intros H1 H2. rewrite H1 in H2. by injection H2. Qed.

Lemma wp_result {S A} (c : M S A) (s : S) Q : wp c s Q -> exists a, result c s = Some a /\ Q a (final c s).
Proof. unfold wp, result, final. destruct (c s) as [[a s']| |]; naive_solver. Qed.

(** Turn a successful run into the postcondition of its [wp] lemma. *)
Ltac use_run W Hrun :=
  let H := fresh "Hpost" in
  pose proof W as H; unfold wp in H; rewrite Hrun in H; cbn [fst snd] in H.

(** ** Memory cells *)
Lemma rd_wr m a v b : rd (wr m a v) b = if decide (a = b) then v else rd m b.
Proof. unfold rd, wr. case_decide; subst; [by rewrite lookup_insert_eq|by rewrite lookup_insert_ne]. Qed.
Lemma rd_wr_eq m a v : rd (wr m a v) a = v.
Proof. rewrite rd_wr. by rewrite decide_True. Qed.
Lemma rd_wr_ne m a v b : a <> b -> rd (wr m a v) b = rd m b.
Proof. intros. rewrite rd_wr. by rewrite decide_False. Qed.

Create Rewrite HintDb cells.
#[export] Hint Rewrite rd_wr_eq : cells.
#[export] Hint Rewrite rd_wr_ne using (solve [lia | congruence]) : cells.
(** Read through every store whose address the context separates. *)
Ltac cells := autorewrite with cells.

Lemma writes_only_weaken (P P' : Z -> Prop) m m' :
  (forall x, P x -> P' x) -> writes_only P m m' -> writes_only P' m m'.
Proof. unfold writes_only. eauto. Qed.
Lemma writes_only_trans P m1 m2 m3 :
  writes_only P m1 m2 -> writes_only P m2 m3 -> writes_only P m1 m3.
Proof. intros H1 H2 x Hx. by rewrite H2, H1. Qed.
Lemma writes_only_refl P m : writes_only P m m.
Proof. done. Qed.

Lemma writes_only_wr (P : Z -> Prop) m a v : P a -> writes_only P m (wr m a v).
Proof. intros Ha x Hx. apply rd_wr_ne. by intros ->. Qed.

(** Every cell that changed satisfies [P]. *)
Definition changes (P : Z -> Prop) (m m' : mem) : Prop := forall x, rd m' x <> rd m x -> P x.

Lemma changes_refl P m : changes P m m.
Proof. intros x Hx. done. Qed.
Lemma changes_trans P m1 m2 m3 : changes P m1 m2 -> changes P m2 m3 -> changes P m1 m3.
Proof.
  intros H1 H2 x Hx. destruct (decide (rd m3 x = rd m2 x)) as [E|E]; [|by apply H2].
  apply H1. by rewrite <- E.
Qed.
Lemma changes_weaken (P P' : Z -> Prop) m m' : (forall x, P x -> P' x) -> changes P m m' -> changes P' m m'.
Proof. intros HP H x Hx. by apply HP, H. Qed.
Lemma changes_eq (P : Z -> Prop) m m' x : changes P m m' -> ~ P x -> rd m' x = rd m x.
Proof. intros H Hx. destruct (decide (rd m' x = rd m x)) as [|E]; [done|by apply H in E]. Qed.
Lemma changes_wr (P : Z -> Prop) m a v : P a -> changes P m (wr m a v).
Proof. intros Ha x Hx. rewrite rd_wr in Hx. case_decide; [by subst|done]. Qed.

(** ** Bit arithmetic *)
Lemma pos_ctz_nonneg p : 0 <= pos_ctz p.
Proof. induction p; simpl; lia. Qed.
Lemma pos_ctz_divide p : (2 ^ pos_ctz p | Z.pos p).
Proof.
  induction p as [p IH|p IH|]; simpl; try apply Z.divide_1_l.
  pose proof (pos_ctz_nonneg p). rewrite Z.pow_add_r by lia.
  rewrite (Pos2Z.inj_xO p). by apply Z.mul_divide_mono_l.
Qed.
Lemma trailing_zeros_nonneg x : 0 <= trailing_zeros x.
Proof. destruct x; simpl; try lia. apply pos_ctz_nonneg. Qed.
Lemma trailing_zeros_divide x : 0 < x -> (2 ^ trailing_zeros x | x).
Proof. destruct x; simpl; try lia. intros _. apply pos_ctz_divide. Qed.

(** [trailing_zeros] is the largest power of two dividing the number. *)
Lemma trailing_zeros_max x j : 0 < x -> 0 <= j -> (2 ^ j | x) -> j <= trailing_zeros x.
Proof.
  destruct x as [|p|]; try lia. intros _. simpl. revert j.
  induction p as [p IH|p IH|]; intros j Hj [c Hc]; simpl.
  - destruct (decide (j = 0)); [lia|]. replace j with (j - 1 + 1) in Hc by lia.
    rewrite Z.pow_add_r in Hc by lia. lia.
  - pose proof (pos_ctz_nonneg p). destruct (decide (j = 0)); [lia|].
    specialize (IH (j - 1) ltac:(lia)). enough (j - 1 <= pos_ctz p) by lia. apply IH.
    exists c. replace j with (j - 1 + 1) in Hc by lia. rewrite Z.pow_add_r in Hc by lia. lia.
  - destruct (decide (j = 0)); [lia|]. replace j with (j - 1 + 1) in Hc by lia.
    rewrite Z.pow_add_r in Hc by lia. lia.
Qed.

(** No bit below [trailing_zeros] is set. *)
Lemma trailing_zeros_low x i : 0 < x -> 0 <= i -> Z.testbit x i = true -> trailing_zeros x <= i.
Proof.
  intros Hx Hi Hb. destruct (Z.le_gt_cases (trailing_zeros x) i) as [|Hlt]; [done|exfalso].
  destruct (trailing_zeros_divide x Hx) as [c Hc]. rewrite Hc in Hb.
  rewrite Z.mul_pow2_bits_low in Hb by lia. done.
Qed.

(** [trailing_zeros] is the index of a set bit. *)
Lemma trailing_zeros_bit x : 0 < x -> Z.testbit x (trailing_zeros x) = true.
Proof.
  destruct x as [|p|]; try lia. intros _. simpl.
  induction p as [p IH|p IH|]; cbn [pos_ctz]; [done| |done].
  pose proof (pos_ctz_nonneg p). rewrite (Pos2Z.inj_xO p), Z.add_1_l, Z.double_bits_succ. exact IH.
Qed.

Lemma leading_zeros_log2 x : 0 < x -> 64 - 1 - leading_zeros x = Z.log2 x.
Proof. intros. unfold leading_zeros. destruct (Z.eqb_spec x 0); lia. Qed.

Lemma pow2_pos k : 0 < 2 ^ k \/ k < 0.
Proof. destruct (Z_lt_le_dec k 0); [lia|]. left. apply Z.pow_pos_nonneg; lia. Qed.

Lemma divide_pow2_le a b x : 0 <= a <= b -> (2 ^ b | x) -> (2 ^ a | x).
Proof.
  intros Hab Hd. etrans; [|exact Hd]. exists (2 ^ (b - a)).
  rewrite <- Z.pow_add_r by lia. f_equal; lia.
Qed.

Lemma pow2_succ k : 0 <= k -> 2 ^ (k + 1) = 2 * 2 ^ k.
Proof. intros. rewrite Z.pow_add_r by lia. lia. Qed.

(** Clearing the low [k] bits is rounding down to a multiple of [2^k]. *)
Lemma land_not64_mask x k :
  0 <= x < W64 -> 0 <= k <= 64 -> Z.land x (not64 (2 ^ k - 1)) = x - x mod 2 ^ k.
Proof.
  intros Hx Hk. unfold not64, usize_MAX, W64 in *.
  assert (Z.lxor (2 ^ k - 1) (2 ^ 64 - 1) = Z.shiftl (2 ^ (64 - k) - 1) k) as ->.
  { replace (2 ^ k - 1) with (Z.ones k) by (rewrite Z.ones_equiv; lia).
    replace (2 ^ 64 - 1) with (Z.ones 64) by (rewrite Z.ones_equiv; lia).
    replace (2 ^ (64 - k) - 1) with (Z.ones (64 - k)) by (rewrite Z.ones_equiv; lia).
    apply Z.bits_inj'; intros i Hi. rewrite Z.lxor_spec, Z.shiftl_spec by lia.
    rewrite !Z.testbit_ones by lia.
    repeat match goal with |- context [?a <? ?b] => destruct (Z.ltb_spec a b) end;
    repeat match goal with |- context [?a <=? ?b] => destruct (Z.leb_spec a b) end; simpl; (lia || done). }
  replace (x - x mod 2 ^ k) with (Z.shiftl (x / 2 ^ k) k).
  2: { rewrite Z.shiftl_mul_pow2 by lia. pose proof (Z.div_mod x (2 ^ k)).
       pose proof (Z.pow_pos_nonneg 2 k). lia. }
  rewrite <- Z.shiftr_div_pow2 by lia.
  apply Z.bits_inj'; intros i Hi. rewrite Z.land_spec, !Z.shiftl_spec by lia.
  destruct (Z_lt_le_dec i k).
  { rewrite !(Z.testbit_neg_r _ (i - k)) by lia. by rewrite andb_false_r. }
  rewrite Z.shiftr_spec by lia. replace (i - k + k) with i by lia.
  replace (2 ^ (64 - k) - 1) with (Z.ones (64 - k)) by (rewrite Z.ones_equiv; lia).
  rewrite Z.testbit_ones by lia.
  destruct (Z.ltb_spec (i - k) (64 - k)), (Z.leb_spec 0 (i - k)); try lia; simpl.
  { by rewrite andb_true_r. }
  rewrite (Z.bits_above_log2 x i); [done|lia|].
  destruct (decide (x = 0)) as [->|]; [simpl; lia|].
  apply Z.log2_lt_pow2; [lia|]. apply Z.lt_le_trans with (2 ^ 64); [lia|].
  apply Z.pow_le_mono_r; lia.
Qed.

(** Bits at and above the width of a number are clear. *)
Lemma testbit_above x n i : 0 <= x < 2 ^ n -> n <= i -> Z.testbit x i = false.
Proof.
  intros Hx Hi. destruct (decide (x = 0)) as [->|]; [apply Z.bits_0|].
  apply Z.bits_above_log2; [lia|]. apply Z.lt_le_trans with n; [|done].
  apply Z.log2_lt_pow2; lia.
Qed.

(** Masking with a 64-bit complement clears the bits of the mask. *)
Lemma land_not64_ldiff x b : 0 <= x < W64 -> Z.land x (not64 b) = Z.ldiff x b.
Proof.
  intros Hx. apply Z.bits_inj'; intros i Hi.
  unfold not64, usize_MAX. rewrite Z.land_spec, Z.ldiff_spec, Z.lxor_spec.
  destruct (Z_lt_le_dec i 64).
  - replace (2 ^ 64 - 1) with (Z.ones 64) by (rewrite Z.ones_equiv; lia).
    by rewrite Z.ones_spec_low, xorb_true_r by lia.
  - by rewrite (testbit_above x 64 i) by (unfold W64 in Hx; lia).
Qed.

(** A word whose two low bits are flags. *)
Lemma testbit_4k k r i : 0 <= r < 4 -> 0 <= i ->
  Z.testbit (4 * k + r) i = if i <? 2 then Z.testbit r i else Z.testbit k (i - 2).
Proof.
  intros Hr Hi. destruct (Z.ltb_spec i 2).
  - rewrite <- (Z.mod_pow2_bits_low (4 * k + r) 2 i) by lia. f_equal.
    change (2 ^ 2) with 4. rewrite Z.add_comm, Z.mul_comm, Z.mod_add, Z.mod_small; lia.
  - replace i with (i - 2 + 2) at 1 by lia. rewrite <- Z.div_pow2_bits by lia. f_equal.
    change (2 ^ 2) with 4. rewrite Z.add_comm, Z.mul_comm, Z.div_add, Z.div_small; lia.
Qed.

Lemma bits_range a n :
  0 <= n -> (forall i, n <= i -> Z.testbit a i = false) -> 0 <= a -> a < 2 ^ n.
Proof.
  intros Hn Hb Ha. destruct (Z_lt_le_dec a (2 ^ n)); [done|exfalso].
  pose proof (Z.pow_pos_nonneg 2 n ltac:(lia) Hn).
  assert (n <= Z.log2 a) by (rewrite <- (Z.log2_pow2 n) by lia; by apply Z.log2_le_mono).
  pose proof (Z.bit_log2 a ltac:(lia)) as Hc. by rewrite Hb in Hc by lia.
Qed.

(** Setting and clearing one bit of a 32-bit word. *)
Lemma set_bit w k n i : 0 <= w < 2 ^ n -> 0 <= k < n -> 0 <= i ->
  Z.testbit (Z.lor w (2 ^ k)) i = Z.testbit w i || (i =? k) /\ 0 <= Z.lor w (2 ^ k) < 2 ^ n.
Proof.
  intros Hw Hk Hi. assert (forall j, 0 <= j ->
    Z.testbit (Z.lor w (2 ^ k)) j = Z.testbit w j || (j =? k)) as Hbit.
  { intros j Hj. rewrite Z.lor_spec, Z.pow2_bits_eqb by lia. f_equal. apply Z.eqb_sym. }
  split; [by apply Hbit|]. split; [apply Z.lor_nonneg; split; [lia|apply Z.pow_nonneg; lia]|].
  apply bits_range; [lia| |apply Z.lor_nonneg; split; [lia|apply Z.pow_nonneg; lia]].
  intros j Hj. rewrite Hbit, (testbit_above w n) by lia. destruct (Z.eqb_spec j k); [lia|done].
Qed.

Lemma clear_bit32 w k i : 0 <= w < W32 -> 0 <= k < 32 -> 0 <= i ->
  Z.testbit (Z.land w (not32 (2 ^ k))) i = Z.testbit w i && negb (i =? k) /\
  0 <= Z.land w (not32 (2 ^ k)) <= w.
Proof.
  intros Hw Hk Hi. assert (forall j, 0 <= j ->
    Z.testbit (Z.land w (not32 (2 ^ k))) j = Z.testbit w j && negb (j =? k)) as Hbit.
  { intros j Hj. unfold not32, W32. rewrite Z.land_spec, Z.lxor_spec, Z.pow2_bits_eqb by lia.
    destruct (Z_lt_le_dec j 32).
    - replace (2 ^ 32 - 1) with (Z.ones 32) by (rewrite Z.ones_equiv; lia).
      rewrite Z.ones_spec_low, xorb_true_r by lia. do 2 f_equal. apply Z.eqb_sym.
    - by rewrite (testbit_above w 32) by (unfold W32 in Hw; lia). }
  assert (0 <= Z.land w (not32 (2 ^ k))) by (apply Z.land_nonneg; lia).
  split; [by apply Hbit|]. split; [done|]. apply Z.ldiff_le; [lia|].
  apply Z.bits_inj'; intros j Hj. rewrite Z.ldiff_spec, Hbit, Z.bits_0 by done.
  by destruct (Z.testbit w j), (j =? k).
Qed.

Lemma flags_4k k r b : 0 <= r < 4 -> 0 <= b < 4 ->
  Z.lor (4 * k + r) b = 4 * k + Z.lor r b /\ Z.land (4 * k + r) b = Z.land r b /\
  Z.ldiff (4 * k + r) b = 4 * k + Z.ldiff r b.
Proof.
  intros Hr Hb. assert (forall c i, 0 <= c < 4 -> 2 <= i -> Z.testbit c i = false) as Hhi
    by (intros; apply (testbit_above _ 2); lia).
  assert (0 <= Z.lor r b < 4) by (split; [apply Z.lor_nonneg; lia|];
    apply (bits_range _ 2); [lia|intros i Hi; by rewrite Z.lor_spec, !Hhi|apply Z.lor_nonneg; lia]).
  assert (0 <= Z.ldiff r b < 4) by (split; [apply Z.ldiff_nonneg; lia|];
    apply (bits_range _ 2); [lia|intros i Hi; by rewrite Z.ldiff_spec, !Hhi|apply Z.ldiff_nonneg; lia]).
  split_and!; apply Z.bits_inj'; intros i Hi;
    rewrite ?Z.lor_spec, ?Z.land_spec, ?Z.ldiff_spec, ?testbit_4k by lia;
    (destruct (Z.ltb_spec i 2); [by rewrite ?Z.lor_spec, ?Z.ldiff_spec|]).
  - by rewrite (Hhi b), orb_false_r.
  - by rewrite (Hhi b), !andb_false_r.
  - by rewrite (Hhi b), andb_true_r.
Qed.

(** Evaluate the bit operations on constants, then finish by arithmetic. *)
Ltac bits_const :=
  repeat match goal with
  | |- context [Z.lor ?a ?b] => let v := eval vm_compute in (Z.lor a b) in change (Z.lor a b) with v
  | |- context [Z.land ?a ?b] => let v := eval vm_compute in (Z.land a b) in change (Z.land a b) with v
  | |- context [Z.ldiff ?a ?b] => let v := eval vm_compute in (Z.ldiff a b) in change (Z.ldiff a b) with v
  end; cbn [Z.b2z negb Z.eqb]; first [lia | done].

(** ** Integer sums *)
Definition zsum (l : list Z) : Z := foldr Z.add 0 l.

#[export] Instance zsum_perm : Proper ((≡ₚ) ==> (=)) zsum.
Proof. intros l l' H. induction H; simpl; lia. Qed.

Lemma zsum_nonneg l : (forall x, x ∈ l -> 0 <= x) -> 0 <= zsum l.
Proof.
  induction l as [|x l IH]; intros H; [done|]. unfold zsum in *; simpl.
  pose proof (H x ltac:(set_solver)). specialize (IH ltac:(set_solver)). lia.
Qed.

(** A sum over duplicate-free indices after changing one summand. *)
Lemma zsum_insert (f : Z -> Z) k v l :
  NoDup l -> k ∈ l -> zsum (<[k := v]> f <$> l) = zsum (f <$> l) - f k + v.
Proof.
  induction l as [|x l IH]; [set_solver|]. intros [Hx Hnd]%NoDup_cons Hk.
  rewrite !fmap_cons. change (zsum (?a :: ?r)) with (a + zsum r).
  apply elem_of_cons in Hk as [->|Hk].
  - rewrite fn_lookup_insert. replace (<[x:=v]> f <$> l) with (f <$> l); [lia|].
    apply list_fmap_ext. intros i y Hy. rewrite fn_lookup_insert_ne; [done|].
    intros ->. apply Hx. by eapply list_elem_of_lookup_2.
  - rewrite IH by done. rewrite fn_lookup_insert_ne by (intros ->; done). lia.
Qed.
