(* ===== verification/Dll.v ===== *)
(** * Intrusive doubly-linked lists in memory

    The three allocators (src: abalone/src/buddy.rs, slab.rs, tlsf.rs) all
    thread a doubly-linked list through the objects they manage: [FreeBlock]
    of the buddy allocator, [SlabHeader] of the slab cache, [BlockHeader] of
    TLSF.  The lists differ only in the byte offsets of the two link fields, so
    this file is parameterised by them: [po] is the offset of the backward link
    and [no] the offset of the forward link; the null pointer is 0.

    [dlist m h l]: in memory [m] the list with head pointer [h] visits exactly
    the nodes [l], in that order, with consistent backward links.  The lemmas
    give the effect of the two write sequences the allocators use, pushing a
    node at the head and unlinking a node anywhere. *)

From S2P Require Import Prelude.

Section dll.
Context (po no : Z).

(** Segment from [p] (whose backward link is [prev]) up to [nx] excluded. *)
Fixpoint dseg (m : mem) (prev p : Z) (l : list Z) (nx : Z) : Prop :=
  match l with
  | [] => p = nx
  | x :: l' => p = x /\ x <> 0 /\ rd m (x + po) = prev /\ dseg m x (rd m (x + no)) l' nx
  end.

Definition dlist (m : mem) (h : Z) (l : list Z) : Prop := dseg m 0 h l 0.

(** The link cells of the nodes do not overlap. *)
Definition sep_nodes (l : list Z) : Prop :=
  forall x y, x ∈ l -> y ∈ l -> x + po <> y + no.

(** Writes of a push at the head: both links of the node, then the backward
    link of the old head if there is one. *)
Definition push_mem (m : mem) (h node : Z) : mem :=
  let m1 := wr (wr m (node + po) 0) (node + no) h in
  if h =? 0 then m1 else wr m1 (h + po) node.

(** Writes of an unlink of a node with links [p] and [n]. *)
Definition unlink_mem (m : mem) (p n : Z) : mem :=
  let m1 := if p =? 0 then m else wr m (p + no) n in
  if n =? 0 then m1 else wr m1 (n + po) p.

Lemma dseg_ext m m' l : forall prev p nx,
  (forall x, x ∈ l -> rd m' (x + po) = rd m (x + po) /\ rd m' (x + no) = rd m (x + no)) ->
  dseg m prev p l nx -> dseg m' prev p l nx.
Proof.
  induction l as [|x l IH]; [done|].
  intros prev p nx Hx (-> & Hnz & Hprev & Hl).
  destruct (Hx x) as [Hp Hn]; [apply elem_of_cons; auto|].
  cbn [dseg]. rewrite Hp, Hn. split_and!; auto. apply IH; [|done].
  intros y Hy. apply Hx, elem_of_cons; auto.
Qed.

Lemma dlist_ext m m' h l :
  (forall x, x ∈ l -> rd m' (x + po) = rd m (x + po) /\ rd m' (x + no) = rd m (x + no)) ->
  dlist m h l -> dlist m' h l.
Proof. apply dseg_ext. Qed.

Lemma dseg_app m l1 l2 : forall prev p nx,
  dseg m prev p (l1 ++ l2) nx <->
  exists mid, dseg m prev p l1 mid /\ dseg m (default prev (last l1)) mid l2 nx.
Proof.
  induction l1 as [|x l1 IH]; intros prev p nx.
  { simpl. split; [intros H; exists p; auto|]. by intros (mid & -> & H). }
  replace (default prev (last (x :: l1))) with (default x (last l1))
    by (rewrite last_cons; by destruct (last l1)).
  cbn [app dseg]. rewrite (IH x). split.
  - intros (-> & Hnz & Hp & mid & H1 & H2). exists mid. auto.
  - intros (mid & (-> & Hnz & Hp & H1) & H2). split_and!; eauto.
Qed.

Lemma dseg_head m prev p l nx : dseg m prev p l nx -> p = default nx (head l).
Proof. destruct l; simpl; naive_solver. Qed.

Lemma dlist_head m h l : dlist m h l -> h = default 0 (head l).
Proof. apply dseg_head. Qed.

Lemma dseg_nonzero m l : forall prev p nx x, dseg m prev p l nx -> x ∈ l -> x <> 0.
Proof.
  induction l as [|y l IH]; intros prev p nx x Hd Hx; [by apply elem_of_nil in Hx|].
  destruct Hd as (-> & Hnz & _ & Hl). apply elem_of_cons in Hx as [->|Hx]; eauto.
Qed.

Lemma dlist_nonzero m h l x : dlist m h l -> x ∈ l -> x <> 0.
Proof. apply dseg_nonzero. Qed.

Lemma dlist_null m h l : dlist m h l -> h = 0 <-> l = [].
Proof.
  intros Hd. split; [|intros ->; exact Hd].
  intros ->. destruct l as [|x l]; [done|]. destruct Hd as (Hx & Hnz & _). congruence.
Qed.

(** The memory determines the list. *)
Lemma dseg_functional m l : forall l' prev prev' p,
  dseg m prev p l 0 -> dseg m prev' p l' 0 -> l = l'.
Proof.
  induction l as [|x l IH]; intros [|y l'] prev prev' p; simpl; [done|naive_solver..|].
  intros (-> & _ & _ & H1) (<- & _ & _ & H2). f_equal. by eapply IH.
Qed.

Lemma dlist_functional m h l l' : dlist m h l -> dlist m h l' -> l = l'.
Proof. apply dseg_functional. Qed.

(** The links of a node in the middle of a list are its neighbours. *)
Lemma dlist_middle m h l1 x l2 :
  dlist m h (l1 ++ x :: l2) ->
  rd m (x + po) = default 0 (last l1) /\ rd m (x + no) = default 0 (head l2).
Proof.
  intros (mid & _ & Hx)%dseg_app. simpl in Hx.
  destruct Hx as (-> & _ & Hp & Hn). split; [done|]. by eapply dseg_head.
Qed.

(** The two links of the pushed node may be written in either order. *)
Lemma push_mem_comm m h node : po <> no ->
  push_mem m h node =
    (let m1 := wr (wr m (node + no) h) (node + po) 0 in if h =? 0 then m1 else wr m1 (h + po) node).
Proof. intros Hne. unfold push_mem, wr. by rewrite (insert_insert_ne m) by lia. Qed.

Lemma push_mem_other m h node a :
  a <> node + po -> a <> node + no -> (h <> 0 -> a <> h + po) ->
  rd (push_mem m h node) a = rd m a.
Proof.
  intros H1 H2 H3. unfold push_mem. destruct (Z.eqb_spec h 0); by rewrite !rd_wr_ne by lia.
Qed.

Lemma unlink_mem_other m p n a :
  (p <> 0 -> a <> p + no) -> (n <> 0 -> a <> n + po) -> rd (unlink_mem m p n) a = rd m a.
Proof.
  intros H1 H2. unfold unlink_mem.
  destruct (Z.eqb_spec p 0), (Z.eqb_spec n 0); by rewrite ?rd_wr_ne by lia.
Qed.

Lemma push_mem_changes m h node :
  changes (fun x => x = node + po \/ x = node + no \/ (h <> 0 /\ x = h + po)) m (push_mem m h node).
Proof.
  intros x Hx. destruct (decide (x = node + po)); [auto|]. destruct (decide (x = node + no)); [auto|].
  destruct (decide (h = 0 \/ x <> h + po)) as [Hd|Hd]; [|right; right; lia].
  exfalso. apply Hx, push_mem_other; lia.
Qed.

Lemma unlink_mem_changes m p n :
  changes (fun x => (p <> 0 /\ x = p + no) \/ (n <> 0 /\ x = n + po)) m (unlink_mem m p n).
Proof.
  intros x Hx. destruct (decide ((p = 0 \/ x <> p + no) /\ (n = 0 \/ x <> n + po))) as [Hd|Hd]; [|lia].
  exfalso. apply Hx, unlink_mem_other; lia.
Qed.

Lemma sep_nodes_sub l l' : (forall x, x ∈ l' -> x ∈ l) -> sep_nodes l -> sep_nodes l'.
Proof. unfold sep_nodes. eauto. Qed.

(** Redirecting the backward link of the first node of a segment. *)
Lemma dseg_set_prev m m' q q' p l nx :
  dseg m q p l nx -> NoDup l ->
  (l <> [] -> rd m' (p + po) = q') ->
  (forall y, y ∈ l -> rd m' (y + no) = rd m (y + no)) ->
  (forall y, y ∈ l -> y <> p -> rd m' (y + po) = rd m (y + po)) ->
  dseg m' q' p l nx.
Proof.
  destruct l as [|x l]; [done|]. intros (-> & Hnz & _ & Hl) [Hx _]%NoDup_cons Hp Hn Hb.
  split_and!; auto. rewrite Hn by (apply elem_of_cons; auto).
  eapply dseg_ext; [|exact Hl]. intros y Hy.
  split; [apply Hb|apply Hn]; rewrite ?elem_of_cons; auto. by intros ->.
Qed.

Lemma dlist_push m h node l :
  dlist m h l -> NoDup (node :: l) -> node <> 0 -> sep_nodes (node :: l) ->
  dlist (push_mem m h node) node (node :: l).
Proof.
  intros Hd [Hni Hnd]%NoDup_cons Hnz Hsep.
  assert (forall x y, x ∈ node :: l -> y ∈ node :: l -> x + po <> y + no) as Hs by exact Hsep.
  pose proof (dlist_head _ _ _ Hd) as Hh.
  assert (h <> 0 -> h ∈ l) as Hhl.
  { destruct l; simpl in Hh; subst; [done|]. intros. apply elem_of_cons; auto. }
  assert (node + po <> node + no) by (apply Hs; apply elem_of_cons; auto).
  assert (rd (push_mem m h node) (node + no) = h) as Hno.
  { unfold push_mem. destruct (Z.eqb_spec h 0) as [|Hz]; [by rewrite rd_wr_eq|].
    rewrite rd_wr_ne, rd_wr_eq; [done|]. apply Hs; apply elem_of_cons; auto. }
  split_and!; [done|done| |rewrite Hno].
  { unfold push_mem. destruct (Z.eqb_spec h 0) as [|Hz].
    - rewrite rd_wr_ne by done. by rewrite rd_wr_eq.
    - rewrite rd_wr_ne, rd_wr_ne, rd_wr_eq; [done|done|].
      intros ?. apply Hni. by replace node with h by lia; auto. }
  eapply dseg_set_prev; [exact Hd|done| | |].
  - intros Hl. unfold push_mem. destruct (Z.eqb_spec h 0) as [->|]; [|by rewrite rd_wr_eq].
    by destruct Hl; apply (dlist_null m 0 l).
  - intros y Hy. apply push_mem_other.
    + apply not_eq_sym, Hs; rewrite elem_of_cons; auto.
    + intros ?. apply Hni. by replace node with y by lia.
    + intros ?. apply not_eq_sym, Hs; rewrite elem_of_cons; auto.
  - intros y Hy Hyh. apply push_mem_other; [|apply Hs; rewrite elem_of_cons; auto|lia].
    intros ?. apply Hni. by replace node with y by lia.
Qed.

Lemma dlist_unlink m h l1 x l2 :
  dlist m h (l1 ++ x :: l2) -> NoDup (l1 ++ x :: l2) -> sep_nodes (l1 ++ x :: l2) ->
  let p := rd m (x + po) in
  let n := rd m (x + no) in
  dlist (unlink_mem m p n) (if p =? 0 then n else h) (l1 ++ l2).
Proof.
  intros Hd Hnd Hsep p n. destruct (dlist_middle _ _ _ _ _ Hd) as [Hp Hn].
  fold p in Hp. fold n in Hn. set (m' := unlink_mem m p n).
  assert (forall y z, y ∈ l1 ++ x :: l2 -> z ∈ l1 ++ x :: l2 -> y + po <> z + no) as Hs
    by exact Hsep.
  assert (n <> 0 -> n ∈ l2) as Hn2.
  { rewrite Hn. destruct l2; simpl; [done|]. intros. apply elem_of_cons; auto. }
  assert (p <> 0 -> p ∈ l1) as Hp1.
  { rewrite Hp. destruct (last l1) eqn:E; simpl; [|done]. intros _. by apply last_Some_elem_of. }
  apply NoDup_app in Hnd as (Hnd1 & Hdis & Hnd2). apply NoDup_cons in Hnd2 as [Hx2 Hnd2].
  assert (forall y, y ∈ l1 -> y <> p -> rd m' (y + po) = rd m (y + po)
                                       /\ rd m' (y + no) = rd m (y + no)) as Hf1.
  { intros y Hy Hyp. split; apply unlink_mem_other; intros Hz; try lia;
      try (apply Hs; set_solver).
    - intros ?. assert (y = n) as -> by lia. apply (Hdis n); set_solver.
    - apply not_eq_sym, Hs; set_solver. }
  apply dseg_app in Hd as (mid & H1 & H2). simpl in H2. destruct H2 as (-> & Hxz & _ & H2).
  fold n in H2.
  assert (dseg m' p n l2 0) as H2'.
  { eapply dseg_set_prev; [exact H2|done| | |].
    - intros Hl. unfold m', unlink_mem. destruct (Z.eqb_spec n 0) as [E|]; [|by rewrite rd_wr_eq].
      destruct l2 as [|z l2]; [done|]. destruct H2 as (? & ? & _). congruence.
    - intros y Hy. apply unlink_mem_other; intros Hz.
      + intros ?. assert (y = p) as -> by lia. apply (Hdis p); set_solver.
      + apply not_eq_sym, Hs; set_solver.
    - intros y Hy Hyn. apply unlink_mem_other; intros Hz; [apply Hs; set_solver|lia]. }
  destruct l1 as [|z l1 _] using rev_ind.
  { simpl in Hp. by rewrite Hp in *. }
  rewrite last_snoc in Hp. simpl in Hp.
  assert (p <> 0) as Hpz by (eapply (dseg_nonzero m); [exact H1|set_solver]).
  rewrite (proj2 (Z.eqb_neq p 0)) by done. rewrite <- app_assoc. simpl.
  apply NoDup_app in Hnd1 as (Hnd1 & Hdis1 & _).
  apply dseg_app in H1 as (mid1 & H11 & H12). simpl in H12. destruct H12 as (-> & _ & H12 & _).
  apply dseg_app. exists z. split.
  { eapply dseg_ext; [|exact H11]. intros y Hy. apply Hf1; [set_solver|].
    rewrite Hp. intros ->. apply (Hdis1 z); set_solver. }
  rewrite <- Hp in *. split_and!; [done|done| |].
  - rewrite <- H12. apply unlink_mem_other; intros ?; [apply Hs; set_solver|].
    intros ?. assert (p = n) as E by lia. apply (Hdis p); [set_solver|]. rewrite E. set_solver.
  - replace (rd m' (p + no)) with n; [done|]. unfold m', unlink_mem.
    rewrite (proj2 (Z.eqb_neq p 0)) by done.
    destruct (Z.eqb_spec n 0); rewrite ?rd_wr_eq; [done|].
    rewrite rd_wr_ne, rd_wr_eq; [done|]. apply Hs; set_solver.
Qed.
End dll.
