(* ===== verification/Pages.v ===== *)
(** * The page-allocator interface

    What the buddy allocator (abalone/src/buddy.rs) promises to its clients.
    [FrameSource] is what those need that only allocate: the page tables (which
    are never freed) and the kernel stacks.  [PageAllocator] adds the release,
    which the slab cache (abalone/src/slab.rs) uses too.  A held block is an
    order with the address of its first byte.  The laws are proved for the
    buddy allocator in [BuddySpec], and in [BootPaging] for the buddy allocator
    next to page tables that it does not own; the clients' theorems use only
    the classes. *)

From S2P Require Import Prelude.

(** Bytes of the block of [2^order] pages at [ptr]. *)
Definition block_size (order : Z) : Z := 2 ^ order * 4096.
Definition in_block (bl : Z * Z) (x : Z) : Prop := snd bl <= x < snd bl + block_size (fst bl).
Definition block_disj (b1 b2 : Z * Z) : Prop := forall x, in_block b1 x -> in_block b2 x -> False.

(** [pages_kept A m m']: the bytes of the held blocks are untouched. *)
Definition pages_kept (A : gset (Z * Z)) (m m' : mem) : Prop :=
  forall bl x, bl ∈ A -> in_block bl x -> rd m' x = rd m x.

Class FrameSource (C : Type) := {
  pa_alloc : Z -> M (C * mem) (option Z);
  (** the allocator is consistent and its clients hold the blocks [A] *)
  pa_inv : C -> mem -> gset (Z * Z) -> Prop;
  (** room in the call counters for [n] more allocations *)
  pa_can_alloc : nat -> C -> Prop;
  pa_can_less : forall n c, pa_can_alloc (S n) c -> pa_can_alloc n c;
  (** the range of addresses managed, and the free pages in it *)
  pa_lo : C -> Z;
  pa_hi : C -> Z;
  pa_frames : C -> Z;
  pa_window : forall c m A order ptr, pa_inv c m A -> (order, ptr) ∈ A ->
    pa_lo c <= ptr /\ ptr + block_size order <= pa_hi c;
  pa_disj : forall c m A b1 b2, pa_inv c m A -> b1 ∈ A -> b2 ∈ A -> b1 <> b2 -> block_disj b1 b2;
  pa_alloc_spec : forall c m A order n,
    pa_inv c m A -> pa_can_alloc (S n) c -> 0 <= order < 17 ->
    wp (pa_alloc order) (c, m) (fun r s' =>
      match r with
      | None => s' = (c, m) /\ (order = 0 -> pa_frames c <= 0)
      | Some ptr =>
          pa_inv (fst s') (snd s') ({[(order, ptr)]} ∪ A) /\
          0 < ptr /\ ptr + block_size order <= W64 /\ ptr mod 4096 = 0 /\
          (forall bl, bl ∈ A -> block_disj (order, ptr) bl) /\
          pages_kept A m (snd s') /\
          pa_can_alloc n (fst s') /\
          pa_lo (fst s') = pa_lo c /\ pa_hi (fst s') = pa_hi c /\
          pa_frames (fst s') = pa_frames c - 2 ^ order
      end);
  (** a client may write to the blocks it holds *)
  pa_frame : forall c m m' A,
    pa_inv c m A ->
    (forall x, rd m' x <> rd m x -> exists bl, bl ∈ A /\ in_block bl x) ->
    pa_inv c m' A
}.

Class PageAllocator (C : Type) := {
  pa_source :: FrameSource C;
  pa_dealloc : Z -> Z -> M (C * mem) unit;
  (** room in the call counters for one release *)
  pa_can_free : C -> Prop;
  pa_alloc_can_free : forall c m A order n,
    pa_inv c m A -> pa_can_alloc (S n) c -> 0 <= order < 17 ->
    wp (pa_alloc order) (c, m) (fun _ s' => pa_can_free c -> pa_can_free (fst s'));
  pa_dealloc_spec : forall c m A order ptr,
    pa_inv c m A -> pa_can_free c -> (order, ptr) ∈ A ->
    wp (pa_dealloc ptr order) (c, m) (fun _ s' =>
      pa_inv (fst s') (snd s') (A ∖ {[(order, ptr)]}) /\
      pages_kept (A ∖ {[(order, ptr)]}) m (snd s'))
}.

(** Calling the page allocator from a component with its own state [X]. *)
Definition page_call {X C A} (f : M (C * mem) A) : M (X * C * mem) A := fun s =>
  match f (snd (fst s), snd s) with
  | Ok (a, s') => Ok (a, ((fst (fst s), fst s'), snd s'))
  | Panic => Panic
  | OutOfFuel => OutOfFuel
  end.

Lemma wp_page_call {X C A} (f : M (C * mem) A) (c : X) (pc : C) m (Q : A -> X * C * mem -> Prop) :
  wp f (pc, m) (fun a s' => Q a ((c, fst s'), snd s')) -> wp (page_call f) ((c, pc), m) Q.
Proof. unfold wp, page_call. cbn [fst snd]. by destruct (f (pc, m)) as [[a s']| |]. Qed.

Lemma pa_changes {C} {PA : FrameSource C} pc m m' A :
  pa_inv pc m A -> changes (fun x => exists bl, bl ∈ A /\ in_block bl x) m m' -> pa_inv pc m' A.
Proof. intros HI Hc. by eapply pa_frame. Qed.

Lemma kept_changes A m m' : pages_kept A m m' <-> changes (fun x => forall bl, bl ∈ A -> ~ in_block bl x) m m'.
Proof.
  split.
  - intros Hk x Hx bl Hbl Hin. by apply Hx, (Hk bl).
  - intros Hc bl x Hbl Hin. eapply changes_eq; [done|]. intros H. by apply (H bl).
Qed.
