(* ===== verification/Buddy.v ===== *)
(** * The buddy page allocator (abalone/src/buddy.rs, abalone/src/lib.rs)

    [BuddyAllocator] is the struct of the source: the base address, one free
    list head and one pair bitmap per order, and the statistics.  Free-list
    nodes ([FreeBlock]: [prev] at byte 0, [next] at byte 8) live in the free
    pages themselves, so every operation runs on the allocator paired with the
    memory.  The bounded loops carry fuel: splitting and coalescing move one
    order per iteration and an order is below [BUDDY_MAX_ORDER], so
    [BUDDY_MAX_ORDER] rounds suffice; [add_region] hands out at least one page
    per iteration, so [page_count + 1] rounds suffice.

    [rep b m F] relates the machine state to the list [F k] of free page
    indices of each order, and [owned] adds the blocks handed out.  The
    theorems show that every operation preserves ownership (no block is ever
    handed out twice, no page is lost, nothing outside the free pages is
    written), that allocation fails exactly when no block is large enough, and
    that the statistics account for every page. *)

From S2P Require Import Prelude Dll.

(** ** Constants and data (lib.rs) *)

Definition PAGE_SIZE : Z := 4096.
Definition BUDDY_MAX_ORDER : Z := 17.

Record AllocStats := mkStats {
  total_bytes : Z;
  used_bytes : Z;
  free_bytes : Z;
  alloc_count : Z;
  dealloc_count : Z;
  peak_bytes : Z
}.

Definition zero_stats : AllocStats := mkStats 0 0 0 0 0 0.

(** ** Pair bitmap *)

(** [(1 << (BUDDY_MAX_ORDER - 1)) / 64 + 1] words. *)
Definition BITMAP_WORDS : Z := Z.shiftl 1 (BUDDY_MAX_ORDER - 1) / 64 + 1.

Record Bitmap := mkBitmap { words : list Z }.

Definition Bitmap_new : Bitmap := mkBitmap (replicate (Z.to_nat BITMAP_WORDS) 0).

Definition toggle {S} (bm : Bitmap) (bit : Z) : M S Bitmap :=
  let* w := aget (words bm) (bit / 64) in
  let* ws := aset (words bm) (bit / 64) (Z.lxor w (Z.shiftl 1 (bit mod 64))) in
  ret (mkBitmap ws).

Definition test {S} (bm : Bitmap) (bit : Z) : M S bool :=
  let* w := aget (words bm) (bit / 64) in
  ret (Z.land (Z.shiftr w (bit mod 64)) 1 =? 1).

(** ** The allocator *)

(** Field offsets of [FreeBlock]. *)
Definition FB_PREV : Z := 0.
Definition FB_NEXT : Z := 8.

Record BuddyAllocator := mkBuddy {
  base : Z;
  total_pages : Z;
  free_lists : list Z;
  bitmaps : list Bitmap;
  stats : AllocStats
}.

Definition BuddyAllocator_new : BuddyAllocator :=
  mkBuddy 0 0 (replicate (Z.to_nat BUDDY_MAX_ORDER) 0)
    (replicate (Z.to_nat BUDDY_MAX_ORDER) Bitmap_new) zero_stats.

Abbreviation BState := (BuddyAllocator * mem)%type.

Definition with_free_lists (fl : list Z) (b : BuddyAllocator) : BuddyAllocator :=
  mkBuddy (base b) (total_pages b) fl (bitmaps b) (stats b).
Definition with_bitmaps (bms : list Bitmap) (b : BuddyAllocator) : BuddyAllocator :=
  mkBuddy (base b) (total_pages b) (free_lists b) bms (stats b).
Definition with_stats (st : AllocStats) (b : BuddyAllocator) : BuddyAllocator :=
  mkBuddy (base b) (total_pages b) (free_lists b) (bitmaps b) st.
Definition with_base (a : Z) (b : BuddyAllocator) : BuddyAllocator :=
  mkBuddy a (total_pages b) (free_lists b) (bitmaps b) (stats b).
Definition with_total (n : Z) (b : BuddyAllocator) : BuddyAllocator :=
  mkBuddy (base b) n (free_lists b) (bitmaps b) (stats b).

(** [self.free_lists[order] = p]. *)
Definition set_free_list (order p : Z) : M BState unit :=
  let* b := gets fst in
  let* fl := aset (free_lists b) order p in
  upd (with_free_lists fl).

(** [self.bitmaps[order].toggle(bit)]. *)
Definition toggle_bit (order bit : Z) : M BState unit :=
  let* b := gets fst in
  let* bm := aget (bitmaps b) order in
  let* bm' := toggle bm bit in
  let* bms := aset (bitmaps b) order bm' in
  upd (with_bitmaps bms).

Definition set_base (virt_base : Z) : M BState unit :=
  let* b := gets fst in
  assert (total_pages b =? 0) ;;
  assert (virt_base mod PAGE_SIZE =? 0) ;;
  upd (with_base virt_base).

Definition free_block (page_idx order : Z) : M BState unit :=
  let* b := gets fst in
  let* off := umul page_idx PAGE_SIZE in
  let* node := uadd (base b) off in
  store (node + FB_PREV) 0 ;;
  let* head := aget (free_lists b) order in
  store (node + FB_NEXT) head ;;
  (if negb (head =? 0) then store (head + FB_PREV) node else ret tt) ;;
  set_free_list order node ;;
  toggle_bit order (Z.shiftr page_idx (order + 1)).

(** Order of the next block [add_region] frees: the largest one that is both
    naturally aligned and fits in the remaining page count. *)
Definition region_order (offset_pages remaining : Z) : Z :=
  let align_order :=
    Z.min (if offset_pages =? 0 then BUDDY_MAX_ORDER - 1 else trailing_zeros offset_pages)
          (BUDDY_MAX_ORDER - 1) in
  let size_order := 64 - 1 - leading_zeros remaining in
  let size_order := Z.min size_order (BUDDY_MAX_ORDER - 1) in
  Z.min align_order size_order.

Fixpoint add_region_loop (fuel : nat) (offset_pages remaining : Z) : M BState unit :=
  match fuel with
  | O => out_of_fuel
  | S fuel =>
      if 0 <? remaining then
        let order := region_order offset_pages remaining in
        let* block_pages := ushl 1 order in
        free_block offset_pages order ;;
        let* offset_pages := uadd offset_pages block_pages in
        let* remaining := usub remaining block_pages in
        add_region_loop fuel offset_pages remaining
      else ret tt
  end.

Definition add_region (virt_base page_count : Z) : M BState unit :=
  let* b := gets fst in
  assert (negb (base b =? 0)) ;;
  assert (base b <=? virt_base) ;;
  let* off := usub virt_base (base b) in
  add_region_loop (S (Z.to_nat page_count)) (off / PAGE_SIZE) page_count ;;
  let* b := gets fst in
  let* total := uadd (total_pages b) page_count in
  let* bytes := umul total PAGE_SIZE in
  let st := stats b in
  let* free := usub bytes (used_bytes st) in
  upd (with_total total) ;;
  upd (with_stats (mkStats bytes (used_bytes st) free
                     (alloc_count st) (dealloc_count st) (peak_bytes st))).

(** [(order..BUDDY_MAX_ORDER).find(|&k| !self.free_lists[k].is_null())]. *)
Definition find_order (fl : list Z) (order : Z) : option Z :=
  List.find (fun k => negb (default 0 (fl !! Z.to_nat k) =? 0))
    (seqZ order (BUDDY_MAX_ORDER - order)).

Fixpoint split_loop (fuel : nat) (order current_order current_page : Z) : M BState unit :=
  match fuel with
  | O => out_of_fuel
  | S fuel =>
      if order <? current_order then
        let* current_order := usub current_order 1 in
        let* half := ushl 1 current_order in
        let* buddy_page := uadd current_page half in
        free_block buddy_page current_order ;;
        split_loop fuel order current_order current_page
      else ret tt
  end.

(** Statistics of an allocation of [2^order] pages. *)
Definition alloc_stats (order : Z) : M BState unit :=
  let* pages := ushl 1 order in
  let* bytes := umul pages PAGE_SIZE in
  let* b := gets fst in
  let st := stats b in
  let* used := uadd (used_bytes st) bytes in
  let* free := usub (free_bytes st) bytes in
  let* count := uadd (alloc_count st) 1 in
  let peak := if peak_bytes st <? used then used else peak_bytes st in
  upd (with_stats (mkStats (total_bytes st) used free count (dealloc_count st) peak)).

Definition alloc_pages (order : Z) : M BState (option Z) :=
  assert (order <? BUDDY_MAX_ORDER) ;;
  let* b := gets fst in
  match find_order (free_lists b) order with
  | None => ret None
  | Some found_order =>
      let* block_ptr := aget (free_lists b) found_order in
      let* next := load (block_ptr + FB_NEXT) in
      set_free_list found_order next ;;
      (if negb (next =? 0) then store (next + FB_PREV) 0 else ret tt) ;;
      let* off := usub block_ptr (base b) in
      let page_idx := off / PAGE_SIZE in
      toggle_bit found_order (Z.shiftr page_idx (found_order + 1)) ;;
      split_loop (Z.to_nat BUDDY_MAX_ORDER) order found_order page_idx ;;
      alloc_stats order ;;
      let* b := gets fst in
      let* off := umul page_idx PAGE_SIZE in
      let* ptr := uadd (base b) off in
      ret (Some ptr)
  end.

(** Unlinking a free buddy in [dealloc_pages]. *)
Definition unlink_buddy (ord buddy : Z) : M BState unit :=
  let* prev := load (buddy + FB_PREV) in
  let* next := load (buddy + FB_NEXT) in
  (if negb (prev =? 0) then store (prev + FB_NEXT) next else set_free_list ord next) ;;
  let* prev := load (buddy + FB_PREV) in
  let* next := load (buddy + FB_NEXT) in
  (if negb (next =? 0) then store (next + FB_PREV) prev else ret tt).

(** The coalescing loop; returns the page index and order of the merged block. *)
Fixpoint coalesce_loop (fuel : nat) (page_idx ord : Z) : M BState (Z * Z) :=
  match fuel with
  | O => out_of_fuel
  | S fuel =>
      if ord <? BUDDY_MAX_ORDER - 1 then
        let* bit := ushl 1 ord in
        let buddy_idx := Z.lxor page_idx bit in
        let pair_bit := Z.shiftr page_idx (ord + 1) in
        let* b := gets fst in
        let* bm := aget (bitmaps b) ord in
        let* free := test bm pair_bit in
        if free : bool then
          let* off := umul buddy_idx PAGE_SIZE in
          let* buddy_addr := uadd (base b) off in
          unlink_buddy ord buddy_addr ;;
          toggle_bit ord pair_bit ;;
          coalesce_loop fuel (Z.min page_idx buddy_idx) (ord + 1)
        else ret (page_idx, ord)
      else ret (page_idx, ord)
  end.

(** Statistics of a deallocation of [2^order] pages. *)
Definition dealloc_stats (order : Z) : M BState unit :=
  let* pages := ushl 1 order in
  let* bytes := umul pages PAGE_SIZE in
  let* b := gets fst in
  let st := stats b in
  let* used := usub (used_bytes st) bytes in
  let* free := uadd (free_bytes st) bytes in
  let* count := uadd (dealloc_count st) 1 in
  upd (with_stats (mkStats (total_bytes st) used free (alloc_count st) count (peak_bytes st))).

Definition dealloc_pages (addr order : Z) : M BState unit :=
  let* b := gets fst in
  assert ((base b <=? addr) && ((addr - base b) mod PAGE_SIZE =? 0)) ;;
  assert (order <? BUDDY_MAX_ORDER) ;;
  let* merged := coalesce_loop (Z.to_nat BUDDY_MAX_ORDER) ((addr - base b) / PAGE_SIZE) order in
  free_block (fst merged) (snd merged) ;;
  dealloc_stats order.

(** ** Abstract state *)

(** A block is an order together with its first page index. *)
Abbreviation block := (Z * Z)%type.

Definition disj (b1 b2 : block) : Prop :=
  snd b1 + 2 ^ fst b1 <= snd b2 \/ snd b2 + 2 ^ fst b2 <= snd b1.

(** Index bound of a pair bitmap: [64 * BITMAP_WORDS]. *)
Definition BITMAP_BITS : Z := 64 * BITMAP_WORDS.

(** Pages whose pair bits exist at every order: two per bit of the order-0
    bitmap.  Beyond this index the bounds check of [toggle] can panic. *)
Definition CAPACITY : Z := 2 * BITMAP_BITS.

(** A block the allocator can manage: aligned, addressable without overflow,
    and inside the capacity of the bitmaps. *)
Definition block_ok (a : Z) (bl : block) : Prop :=
  0 <= fst bl < BUDDY_MAX_ORDER /\ 0 <= snd bl /\ (2 ^ fst bl | snd bl) /\
  a + (snd bl + 2 ^ fst bl) * PAGE_SIZE <= W64 /\
  snd bl + 2 ^ fst bl <= CAPACITY.

Definition page_addr (a p : Z) : Z := a + p * PAGE_SIZE.

(** Page index of a byte address, and the pages of a block. *)
Definition page_of (a x : Z) : Z := (x - a) / PAGE_SIZE.
Definition bpage (bl : block) (p : Z) : Prop := snd bl <= p < snd bl + 2 ^ fst bl.

(** The free blocks, the pages they cover, and their bytes. *)
Definition free (F : Z -> list Z) (bl : block) : Prop := snd bl ∈ F (fst bl).
Definition cover (F : Z -> list Z) (p : Z) : Prop := exists bl, free F bl /\ bpage bl p.
Definition in_free (a : Z) (F : Z -> list Z) (x : Z) : Prop := cover F (page_of a x).

(** [pair_bit l k i]: exactly one of the two buddies of pair [i] is in [l]. *)
Definition pair_bit (l : list Z) (k i : Z) : bool :=
  xorb (bool_decide (2 * i * 2 ^ k ∈ l)) (bool_decide ((2 * i + 1) * 2 ^ k ∈ l)).

Definition head_of (b : BuddyAllocator) (k : Z) : Z := default 0 (free_lists b !! Z.to_nat k).

Definition bm_bit (bm : Bitmap) (i : Z) : bool :=
  Z.testbit (default 0 (words bm !! Z.to_nat (i / 64))) (i mod 64).

(** The representation invariant: the machine state holds the free lists [F]. *)
Record rep (b : BuddyAllocator) (m : mem) (F : Z -> list Z) : Prop := mkRep {
  rep_base : 0 < base b;
  rep_heads : length (free_lists b) = Z.to_nat BUDDY_MAX_ORDER;
  rep_maps : length (bitmaps b) = Z.to_nat BUDDY_MAX_ORDER;
  rep_words : forall k bm, bitmaps b !! k = Some bm ->
    length (words bm) = Z.to_nat BITMAP_WORDS;
  rep_list : forall k, 0 <= k < BUDDY_MAX_ORDER ->
    dlist FB_PREV FB_NEXT m (head_of b k) (page_addr (base b) <$> F k);
  rep_ok : forall bl, free F bl -> block_ok (base b) bl;
  rep_nodup : forall k, NoDup (F k);
  rep_disj : forall b1 b2, free F b1 -> free F b2 -> b1 <> b2 -> disj b1 b2;
  rep_bits : forall k bm, 0 <= k -> bitmaps b !! Z.to_nat k = Some bm ->
    forall i, 0 <= i < BITMAP_BITS -> bm_bit bm i = pair_bit (F k) k i
}.

(** [same_meta]: everything but the lists and bitmaps is unchanged. *)
Definition same_meta (b b' : BuddyAllocator) : Prop :=
  base b' = base b /\ total_pages b' = total_pages b /\ stats b' = stats b.

(** ** Arithmetic of aligned blocks *)

Lemma aligned_slot k p :
  0 <= k -> (2 ^ k | p) ->
  p = 2 * (p / 2 ^ (k + 1)) * 2 ^ k \/ p = (2 * (p / 2 ^ (k + 1)) + 1) * 2 ^ k.
Proof.
  intros Hk [c ->]. pose proof (Z.pow_pos_nonneg 2 k).
  rewrite pow2_succ by lia. replace (2 * 2 ^ k) with (2 ^ k * 2) by lia.
  rewrite <- Z.div_div by lia. rewrite Z.div_mul by lia.
  pose proof (Z.div_mod c 2). pose proof (Z.mod_pos_bound c 2).
  destruct (decide (c mod 2 = 0)); [left|right]; f_equal; lia.
Qed.

Lemma slot_index k i d : 0 <= k -> 0 <= d < 2 -> (2 * i + d) * 2 ^ k / 2 ^ (k + 1) = i.
Proof.
  intros Hk Hd. pose proof (Z.pow_pos_nonneg 2 k).
  rewrite pow2_succ by lia. rewrite Z.div_mul_cancel_r by lia.
  replace (2 * i + d) with (d + i * 2) by lia. rewrite Z.div_add by lia.
  rewrite Z.div_small; lia.
Qed.

Definition buddy_of (k p : Z) : Z := Z.lxor p (2 ^ k).

Lemma lxor_pow2 k q : 0 <= k -> 0 <= q -> Z.testbit q k = false -> Z.lxor q (2 ^ k) = q + 2 ^ k.
Proof.
  intros Hk Hq Hb. rewrite Z.add_nocarry_lxor; [done|].
  apply Z.bits_inj'; intros i Hi. rewrite Z.land_spec, Z.bits_0, Z.pow2_bits_eqb by lia.
  destruct (Z.eqb_spec k i) as [<-|]; [by rewrite Hb|by rewrite andb_false_r].
Qed.

Lemma testbit_slot k i d : 0 <= k -> Z.testbit ((2 * i + d) * 2 ^ k) k = Z.odd d.
Proof.
  intros Hk. rewrite Z.testbit_odd, Z.shiftr_div_pow2 by lia.
  rewrite Z.div_mul by (apply Z.pow_nonzero; lia).
  replace (2 * i + d) with (d + 2 * i) by lia. by rewrite Z.odd_add_mul_2.
Qed.

(** The two slots of a pair are each other's buddies. *)
Lemma buddy_even k i : 0 <= k -> 0 <= i -> buddy_of k (2 * i * 2 ^ k) = (2 * i + 1) * 2 ^ k.
Proof.
  intros Hk Hi. pose proof (Z.pow_pos_nonneg 2 k). unfold buddy_of.
  rewrite lxor_pow2; [lia|lia|nia|].
  replace (2 * i) with (2 * i + 0) by lia. by rewrite testbit_slot.
Qed.
Lemma buddy_odd k i : 0 <= k -> 0 <= i -> buddy_of k ((2 * i + 1) * 2 ^ k) = 2 * i * 2 ^ k.
Proof.
  intros Hk Hi. rewrite <- buddy_even by done. unfold buddy_of.
  by rewrite Z.lxor_assoc, Z.lxor_nilpotent, Z.lxor_0_r.
Qed.

(** Everything the coalescing step needs to know about a buddy. *)
Lemma buddy_facts k p :
  0 <= k -> 0 <= p -> (2 ^ k | p) ->
  let q := buddy_of k p in
  let r := Z.min p q in
  0 <= q /\ (2 ^ k | q) /\ q / 2 ^ (k + 1) = p / 2 ^ (k + 1) /\
  0 <= r /\ (2 ^ (k + 1) | r) /\ r / 2 ^ (k + 1) = p / 2 ^ (k + 1) /\
  ((p = r /\ q = r + 2 ^ k) \/ (q = r /\ p = r + 2 ^ k)).
Proof.
  intros Hk Hp Hd. pose proof (Z.pow_pos_nonneg 2 k).
  assert (0 <= p / 2 ^ (k + 1)) by (apply Z.div_pos; [|apply Z.pow_pos_nonneg]; lia).
  set (i := p / 2 ^ (k + 1)) in *.
  pose proof (slot_index k i 0 Hk ltac:(lia)) as S0. rewrite Z.add_0_r in S0.
  pose proof (slot_index k i 1 Hk ltac:(lia)) as S1.
  assert ((2 ^ (k + 1) | 2 * i * 2 ^ k)) by (exists i; rewrite pow2_succ; lia).
  destruct (aligned_slot k p Hk Hd) as [E|E]; fold i in E; simpl; rewrite E.
  - rewrite buddy_even by lia. rewrite Z.min_l by lia.
    split_and!; first [exact S0|exact S1|assumption|lia|by eexists|nia].
  - rewrite buddy_odd by lia. rewrite Z.min_r by lia.
    split_and!; first [exact S0|exact S1|assumption|lia|by eexists|nia].
Qed.

(** ** Pair bits *)

Lemma bool_decide_cons (x p : Z) (l : list Z) :
  p ∉ l -> bool_decide (x ∈ p :: l) = xorb (x =? p) (bool_decide (x ∈ l)).
Proof.
  intros Hp. destruct (Z.eqb_spec x p) as [->|].
  - rewrite bool_decide_true by (apply elem_of_cons; auto). by rewrite bool_decide_false.
  - rewrite xorb_false_l. apply bool_decide_ext. rewrite elem_of_cons. naive_solver.
Qed.

Lemma pair_bit_ext l l' k i : (forall x, x ∈ l <-> x ∈ l') -> pair_bit l k i = pair_bit l' k i.
Proof. intros H. unfold pair_bit. f_equal; apply bool_decide_ext, H. Qed.

Lemma pair_bit_cons l k p i :
  0 <= k -> (2 ^ k | p) -> p ∉ l ->
  pair_bit (p :: l) k i = xorb (pair_bit l k i) (i =? p / 2 ^ (k + 1)).
Proof.
  intros Hk Hd Hp. unfold pair_bit. rewrite !bool_decide_cons by done.
  set (A := bool_decide (2 * i * 2 ^ k ∈ l)). set (B := bool_decide ((2 * i + 1) * 2 ^ k ∈ l)).
  replace (i =? p / 2 ^ (k + 1)) with
    (xorb (2 * i * 2 ^ k =? p) ((2 * i + 1) * 2 ^ k =? p)).
  { by destruct A, B, (_ =? p), (_ =? p). }
  pose proof (Z.pow_pos_nonneg 2 k).
  pose proof (slot_index k i 0 Hk ltac:(lia)) as S0. rewrite Z.add_0_r in S0.
  pose proof (slot_index k i 1 Hk ltac:(lia)) as S1.
  destruct (Z.eqb_spec i (p / 2 ^ (k + 1))) as [E|E].
  - destruct (aligned_slot k p Hk Hd) as [Ep|Ep]; rewrite <- E in Ep; rewrite Ep.
    + rewrite Z.eqb_refl, (proj2 (Z.eqb_neq _ _)); [done|nia].
    + rewrite Z.eqb_refl, (proj2 (Z.eqb_neq (2 * i * 2 ^ k) _)); [done|nia].
  - rewrite !(proj2 (Z.eqb_neq _ p)); [done| |]; intros Ep; apply E; congruence.
Qed.

Lemma pair_bit_buddy l k p :
  0 <= k -> 0 <= p -> (2 ^ k | p) -> p ∉ l ->
  pair_bit l k (p / 2 ^ (k + 1)) = bool_decide (buddy_of k p ∈ l).
Proof.
  intros Hk Hp Hd Hl. unfold pair_bit. pose proof (Z.pow_pos_nonneg 2 k).
  assert (0 <= p / 2 ^ (k + 1)) by (apply Z.div_pos; [|apply Z.pow_pos_nonneg]; lia).
  set (i := p / 2 ^ (k + 1)) in *.
  destruct (aligned_slot k p Hk Hd) as [E|E]; fold i in E.
  - rewrite <- E. rewrite (bool_decide_false (p ∈ l)) by done. rewrite xorb_false_l.
    rewrite E. by rewrite buddy_even by lia.
  - rewrite <- E. rewrite (bool_decide_false (p ∈ l)) by done. rewrite xorb_false_r.
    rewrite E. by rewrite buddy_odd by lia.
Qed.

(** ** Bitmap operations *)

Lemma div64_bound i : 0 <= i < BITMAP_BITS -> 0 <= i / 64 < BITMAP_WORDS.
Proof.
  unfold BITMAP_BITS. intros. split; [apply Z.div_pos; lia|apply Z.div_lt_upper_bound; lia].
Qed.

Lemma wp_toggle {S} bm bit (s : S) Q :
  0 <= bit < BITMAP_BITS -> length (words bm) = Z.to_nat BITMAP_WORDS ->
  (forall bm', length (words bm') = Z.to_nat BITMAP_WORDS ->
    (forall i, 0 <= i -> bm_bit bm' i = xorb (bm_bit bm i) (i =? bit)) -> Q bm' s) ->
  wp (toggle bm bit) s Q.
Proof.
  intros Hb Hlen HQ. pose proof (div64_bound bit Hb) as Hd. unfold toggle.
  destruct (lookup_lt_is_Some_2 (words bm) (Z.to_nat (bit / 64))) as [w Hw]; [lia|].
  wp_steps. apply HQ; simpl; [by rewrite length_insert|].
  intros i Hi. unfold bm_bit; simpl.
  destruct (decide (i / 64 = bit / 64)) as [E|E].
  - rewrite E, list_lookup_insert_eq by lia. rewrite Hw. simpl.
    pose proof (Z.mod_pos_bound i 64). pose proof (Z.mod_pos_bound bit 64).
    rewrite Z.lxor_spec, Z.shiftl_1_l, Z.pow2_bits_eqb by lia. f_equal.
    pose proof (Z.div_mod i 64). pose proof (Z.div_mod bit 64).
    destruct (Z.eqb_spec (bit mod 64) (i mod 64)), (Z.eqb_spec i bit); lia.
  - assert (0 <= i / 64) by (apply Z.div_pos; lia).
    rewrite list_lookup_insert_ne by (intros ?; apply E; lia).
    destruct (Z.eqb_spec i bit) as [->|]; [done|]. by rewrite xorb_false_r.
Qed.

Lemma wp_test {S} bm bit (s : S) Q :
  0 <= bit < BITMAP_BITS -> length (words bm) = Z.to_nat BITMAP_WORDS ->
  Q (bm_bit bm bit) s -> wp (test bm bit) s Q.
Proof.
  intros Hb Hlen HQ. pose proof (div64_bound bit Hb) as Hd. unfold test.
  destruct (lookup_lt_is_Some_2 (words bm) (Z.to_nat (bit / 64))) as [w Hw]; [lia|].
  wp_steps. unfold bm_bit in HQ. rewrite Hw in HQ. simpl in HQ.
  pose proof (Z.mod_pos_bound bit 64).
  replace (Z.land (Z.shiftr w (bit mod 64)) 1 =? 1) with (Z.testbit w (bit mod 64)); [done|].
  change 1 with (Z.ones 1) at 1. rewrite Z.land_ones, Z.testbit_odd by lia.
  rewrite Zmod_odd. by destruct (Z.odd _).
Qed.

(** ** Node addresses *)

#[export] Instance page_addr_inj a : Inj (=) (=) (page_addr a).
Proof. intros x y. unfold page_addr, PAGE_SIZE. lia. Qed.

Lemma sep_pages a (l : list Z) : sep_nodes FB_PREV FB_NEXT (page_addr a <$> l).
Proof.
  intros x y (p & -> & _)%list_elem_of_fmap (q & -> & _)%list_elem_of_fmap.
  unfold page_addr, FB_PREV, FB_NEXT, PAGE_SIZE. lia.
Qed.

Lemma nodup_pages a (l : list Z) : NoDup l -> NoDup (page_addr a <$> l).
Proof. apply NoDup_fmap_2, _. Qed.

Lemma block_pos bl : block_ok 0 bl \/ 0 <= fst bl -> 0 < 2 ^ fst bl.
Proof. unfold block_ok. intros [H|H]; apply Z.pow_pos_nonneg; lia. Qed.

Lemma disj_sym b1 b2 : disj b1 b2 -> disj b2 b1.
Proof. unfold disj. lia. Qed.

Lemma disj_irrefl bl : 0 <= fst bl -> ~ disj bl bl.
Proof. intros H. pose proof (Z.pow_pos_nonneg 2 (fst bl)). unfold disj. lia. Qed.

(** The link cells of a block lie in its first page. *)
Lemma in_block_cell a k p c :
  0 <= k -> 0 <= c < PAGE_SIZE -> bpage (k, p) (page_of a (page_addr a p + c)).
Proof.
  intros Hk Hc. unfold bpage, page_of, page_addr, PAGE_SIZE in *; simpl.
  pose proof (Z.pow_pos_nonneg 2 k). replace (a + p * 4096 + c - a) with (c + p * 4096) by lia.
  rewrite Z.div_add, Z.div_small by lia. lia.
Qed.

Lemma free_cell b m F k p c :
  rep b m F -> p ∈ F k -> 0 <= c < PAGE_SIZE -> in_free (base b) F (page_addr (base b) p + c).
Proof.
  intros R Hp Hc. exists (k, p). split; [done|]. apply in_block_cell; [|done].
  destruct (rep_ok _ _ _ R (k, p)) as (? & _); [done|simpl in *; lia].
Qed.

Lemma bit_bound a k p : block_ok a (k, p) -> 0 <= p / 2 ^ (k + 1) < BITMAP_BITS.
Proof.
  intros (Hk & Hp & _ & _ & Hb). simpl in *. unfold CAPACITY in Hb.
  pose proof (Z.pow_pos_nonneg 2 k). rewrite pow2_succ by lia.
  split; [apply Z.div_pos; lia|apply Z.div_lt_upper_bound; nia].
Qed.

Lemma order_bits a k p : block_ok a (k, p) -> Z.shiftr p (k + 1) = p / 2 ^ (k + 1).
Proof. intros (Hk & _). simpl in *. apply Z.shiftr_div_pow2. lia. Qed.

Lemma rep_head_lookup b m F k :
  rep b m F -> 0 <= k < BUDDY_MAX_ORDER -> free_lists b !! Z.to_nat k = Some (head_of b k).
Proof.
  intros R Hk. destruct (lookup_lt_is_Some_2 (free_lists b) (Z.to_nat k)) as [h Hh].
  { rewrite (rep_heads _ _ _ R). lia. }
  unfold head_of. by rewrite Hh.
Qed.

Lemma rep_map_lookup b m F k :
  rep b m F -> 0 <= k < BUDDY_MAX_ORDER ->
  exists bm, bitmaps b !! Z.to_nat k = Some bm /\ length (words bm) = Z.to_nat BITMAP_WORDS.
Proof.
  intros R Hk. destruct (lookup_lt_is_Some_2 (bitmaps b) (Z.to_nat k)) as [bm Hbm].
  { rewrite (rep_maps _ _ _ R). lia. }
  exists bm. split; [done|]. by eapply rep_words.
Qed.

(** Memory outside the link cells of the free blocks is irrelevant. *)
Lemma rep_frame b m m' F :
  rep b m F -> (forall x, in_free (base b) F x -> rd m' x = rd m x) -> rep b m' F.
Proof.
  intros R Hm. destruct R as [] eqn:E. split; try done.
  intros k Hk. eapply dlist_ext; [|by apply rep_list0].
  intros x (p & -> & Hp)%list_elem_of_fmap.
  split; apply Hm; eapply free_cell; eauto; unfold FB_PREV, FB_NEXT, PAGE_SIZE; lia.
Qed.

(** Replacing the free list of one order. *)
Lemma rep_set b m F b' m' k h l bm' :
  rep b m F -> 0 <= k < BUDDY_MAX_ORDER ->
  base b' = base b ->
  free_lists b' = <[Z.to_nat k := h]> (free_lists b) ->
  bitmaps b' = <[Z.to_nat k := bm']> (bitmaps b) ->
  length (words bm') = Z.to_nat BITMAP_WORDS ->
  dlist FB_PREV FB_NEXT m' h (page_addr (base b) <$> l) ->
  (forall j p, j <> k -> p ∈ F j ->
     rd m' (page_addr (base b) p + FB_PREV) = rd m (page_addr (base b) p + FB_PREV) /\
     rd m' (page_addr (base b) p + FB_NEXT) = rd m (page_addr (base b) p + FB_NEXT)) ->
  (forall p, p ∈ l -> block_ok (base b) (k, p)) ->
  NoDup l ->
  (forall p p', p ∈ l -> p' ∈ l -> p <> p' -> disj (k, p) (k, p')) ->
  (forall p bl, p ∈ l -> free F bl -> fst bl <> k -> disj (k, p) bl) ->
  (forall i, 0 <= i < BITMAP_BITS -> bm_bit bm' i = pair_bit l k i) ->
  rep b' m' (<[k := l]> F).
Proof.
  intros R Hk Hbase Hfl Hbm Hlen Hd Hcells Hok Hnd Hdl Hdo Hbits.
  assert (forall bl, free (<[k:=l]> F) bl -> (fst bl = k /\ snd bl ∈ l) \/ (fst bl <> k /\ free F bl))
    as Hfree.
  { intros [j p]. unfold free; simpl. destruct (decide (j = k)) as [->|].
    - rewrite fn_lookup_insert. auto.
    - rewrite fn_lookup_insert_ne by done. auto. }
  split.
  - rewrite Hbase. apply (rep_base _ _ _ R).
  - rewrite Hfl, length_insert. apply (rep_heads _ _ _ R).
  - rewrite Hbm, length_insert. apply (rep_maps _ _ _ R).
  - intros j bm. rewrite Hbm. intros [(_ & <- & _)|[_ ?]]%list_lookup_insert_Some; [done|].
    by eapply rep_words.
  - intros j Hj. rewrite Hbase. unfold head_of. rewrite Hfl.
    destruct (decide (j = k)) as [->|Hne].
    + rewrite fn_lookup_insert, list_lookup_insert_eq; [done|]. rewrite (rep_heads _ _ _ R). lia.
    + rewrite fn_lookup_insert_ne, list_lookup_insert_ne by (try intros ?; lia).
      eapply dlist_ext; [|by apply (rep_list _ _ _ R)].
      intros x (p & -> & Hp)%list_elem_of_fmap. by eapply Hcells.
  - intros [j p] Hf. rewrite Hbase. destruct (Hfree _ Hf) as [[E Hp]|[_ Hp]]; simpl in *.
    + subst. auto.
    + by apply (rep_ok _ _ _ R).
  - intros j. destruct (decide (j = k)) as [->|].
    + by rewrite fn_lookup_insert.
    + rewrite fn_lookup_insert_ne by done. apply (rep_nodup _ _ _ R).
  - intros [j1 p1] [j2 p2] H1 H2 Hne.
    destruct (Hfree _ H1) as [[E1 Hp1]|[E1 Hp1]], (Hfree _ H2) as [[E2 Hp2]|[E2 Hp2]]; simpl in *; subst.
    + apply Hdl; [done..|congruence].
    + by apply Hdo.
    + by apply disj_sym, Hdo.
    + by apply (rep_disj _ _ _ R).
  - intros j bm Hj. rewrite Hbm. intros [(E & <- & _)|[E Hl]]%list_lookup_insert_Some i Hi.
    + assert (j = k) as -> by lia. rewrite fn_lookup_insert. auto.
    + rewrite fn_lookup_insert_ne by (intros ->; done). by eapply rep_bits.
Qed.

(** ** Symbolic execution of the building blocks *)

Lemma wp_set_free_list b m k p (Q : unit -> BState -> Prop) :
  length (free_lists b) = Z.to_nat BUDDY_MAX_ORDER -> 0 <= k < BUDDY_MAX_ORDER ->
  Q tt (with_free_lists (<[Z.to_nat k := p]> (free_lists b)) b, m) ->
  wp (set_free_list k p) (b, m) Q.
Proof. intros Hlen Hk HQ. unfold set_free_list, upd. wp_steps. exact HQ. Qed.

Lemma wp_toggle_bit b m F k i (bm : Bitmap) (Q : unit -> BState -> Prop) :
  0 <= k -> 0 <= i < BITMAP_BITS ->
  bitmaps b !! Z.to_nat k = Some bm -> length (words bm) = Z.to_nat BITMAP_WORDS ->
  (forall j, 0 <= j < BITMAP_BITS -> bm_bit bm j = pair_bit (F k) k j) ->
  (forall bm', length (words bm') = Z.to_nat BITMAP_WORDS ->
     (forall j, 0 <= j < BITMAP_BITS -> bm_bit bm' j = xorb (pair_bit (F k) k j) (j =? i)) ->
     Q tt (with_bitmaps (<[Z.to_nat k := bm']> (bitmaps b)) b, m)) ->
  wp (toggle_bit k i) (b, m) Q.
Proof.
  intros Hk Hi Hbm Hlen Hbits HQ. unfold toggle_bit, upd. wp_steps.
  apply wp_toggle; [done..|]. intros bm' Hlen' Hbm'.
  pose proof (lookup_lt_Some _ _ _ Hbm). wp_steps. simpl. apply HQ; [done|].
  intros j Hj. by rewrite Hbm', Hbits by lia.
Qed.

(** Distinct pages have distinct cells. *)
Ltac page_cells :=
  unfold page_addr, FB_PREV, FB_NEXT, PAGE_SIZE in *; lia.

Lemma ok_disj_ne a b1 b2 : block_ok a b1 -> block_ok a b2 -> disj b1 b2 -> snd b1 <> snd b2.
Proof.
  intros (H1 & _) (H2 & _). pose proof (Z.pow_pos_nonneg 2 (fst b1)).
  pose proof (Z.pow_pos_nonneg 2 (fst b2)). unfold disj. lia.
Qed.

Lemma rep_ne_order b m F j k p q : rep b m F -> p ∈ F j -> q ∈ F k -> j <> k -> p <> q.
Proof.
  intros R Hp Hq Hne. apply (ok_disj_ne (base b) (j, p) (k, q)).
  - by apply (rep_ok _ _ _ R).
  - by apply (rep_ok _ _ _ R).
  - apply (rep_disj _ _ _ R); [done..|congruence].
Qed.

Lemma fresh_notin b m F k p :
  rep b m F -> block_ok (base b) (k, p) -> (forall bl, free F bl -> disj (k, p) bl) ->
  forall j q, q ∈ F j -> p <> q.
Proof.
  intros R Hok Hd j q Hq. apply (ok_disj_ne (base b) (k, p) (j, q)); [done| |by apply Hd].
  by apply (rep_ok _ _ _ R).
Qed.

Lemma rep_head_in b m F k :
  rep b m F -> 0 <= k < BUDDY_MAX_ORDER -> head_of b k <> 0 ->
  exists q, q ∈ F k /\ head_of b k = page_addr (base b) q.
Proof.
  intros R Hk Hz. pose proof (dlist_head _ _ _ _ _ (rep_list _ _ _ R k Hk)) as E.
  destruct (F k) as [|q l]; simpl in E; [lia|]. exists q. rewrite elem_of_cons. auto.
Qed.

Lemma free_insert_here F k l p : p ∈ l -> free (<[k := l]> F) (k, p).
Proof. unfold free; simpl. by rewrite fn_lookup_insert. Qed.

Lemma push_writes b m F k p :
  rep b m F -> 0 <= k < BUDDY_MAX_ORDER ->
  writes_only (in_free (base b) (<[k := p :: F k]> F)) m
    (push_mem FB_PREV FB_NEXT m (head_of b k) (page_addr (base b) p)).
Proof.
  intros R Hk x Hx.
  assert (forall q c, q ∈ p :: F k -> 0 <= c < PAGE_SIZE -> x <> page_addr (base b) q + c) as Hc.
  { intros q c Hq Hc ->. apply Hx. exists (k, q). split; [by apply free_insert_here|].
    apply in_block_cell; lia. }
  apply push_mem_other.
  - apply Hc; [apply elem_of_cons; auto|done].
  - apply Hc; [apply elem_of_cons; auto|done].
  - intros (q & Hq & ->)%(rep_head_in _ _ _ _ R Hk). apply Hc; [apply elem_of_cons; auto|done].
Qed.

Lemma rep_push b m F k p b' bm' :
  rep b m F -> block_ok (base b) (k, p) -> (forall bl, free F bl -> disj (k, p) bl) ->
  base b' = base b ->
  free_lists b' = <[Z.to_nat k := page_addr (base b) p]> (free_lists b) ->
  bitmaps b' = <[Z.to_nat k := bm']> (bitmaps b) ->
  length (words bm') = Z.to_nat BITMAP_WORDS ->
  (forall i, 0 <= i < BITMAP_BITS -> bm_bit bm' i = xorb (pair_bit (F k) k i) (i =? p / 2 ^ (k + 1))) ->
  rep b' (push_mem FB_PREV FB_NEXT m (head_of b k) (page_addr (base b) p)) (<[k := p :: F k]> F).
Proof.
  intros R Hok Hdisj Hb Hfl Hbm Hlen Hbits. pose proof (fresh_notin _ _ _ _ _ R Hok Hdisj) as Hne.
  assert (0 <= k < BUDDY_MAX_ORDER /\ 0 <= p /\ (2 ^ k | p)) as (Hk & Hp & Hal)
    by (destruct Hok as (? & ? & ? & _); done).
  pose proof (rep_base _ _ _ R).
  assert (NoDup (p :: F k)) as Hnd.
  { constructor; [|apply (rep_nodup _ _ _ R)]. intros Hin. by apply (Hne k p). }
  eapply (rep_set b m F); eauto.
  - apply dlist_push; [by apply (rep_list _ _ _ R)|by apply (nodup_pages _ (p :: F k))|
      page_cells|apply (sep_pages _ (p :: F k))].
  - intros j q Hj Hq. pose proof (Hne j q Hq).
    split; apply push_mem_other; try page_cells;
      intros (r & Hr & ->)%(rep_head_in _ _ _ _ R Hk);
      pose proof (rep_ne_order _ _ _ _ _ _ _ R Hq Hr Hj); page_cells.
  - intros q [->|Hq]%elem_of_cons; [done|]. by apply (rep_ok _ _ _ R (k, q)).
  - intros q q' [->|Hq]%elem_of_cons [->|Hq']%elem_of_cons Hqq; [done| | |].
    + by apply Hdisj.
    + by apply disj_sym, Hdisj.
    + apply (rep_disj _ _ _ R (k, q) (k, q')); [done..|congruence].
  - intros q bl [->|Hq]%elem_of_cons Hf Hbl; [by apply Hdisj|].
    apply (rep_disj _ _ _ R (k, q)); [done..|]. by intros <-.
  - intros i Hi. rewrite Hbits by done. rewrite pair_bit_cons; [done|lia|done|].
    by apply NoDup_cons in Hnd as [? _].
Qed.

Lemma wp_free_block b m F k p Q :
  rep b m F -> block_ok (base b) (k, p) ->
  (forall bl, free F bl -> disj (k, p) bl) ->
  (forall b' m', rep b' m' (<[k := p :: F k]> F) -> same_meta b b' ->
     writes_only (in_free (base b) (<[k := p :: F k]> F)) m m' -> Q tt (b', m')) ->
  wp (free_block p k) (b, m) Q.
Proof.
  intros R Hok Hdisj HQ. pose proof (rep_base _ _ _ R) as Hbase.
  assert (0 <= k < BUDDY_MAX_ORDER /\ 0 <= p /\ base b + (p + 2 ^ k) * PAGE_SIZE <= W64)
    as (Hk & Hp & Hend) by (destruct Hok as (? & ? & _ & ? & _); done).
  pose proof (Z.pow_pos_nonneg 2 k ltac:(lia) ltac:(lia)) as Hpow.
  destruct (rep_map_lookup _ _ _ k R Hk) as (bm & Hbm & Hlen).
  pose proof (rep_head_lookup _ _ _ k R Hk) as Hh.
  unfold free_block, PAGE_SIZE in *. wp_steps.
  assert (forall m', m' = push_mem FB_PREV FB_NEXT m (head_of b k) (page_addr (base b) p) ->
    wp (set_free_list k (base b + p * 4096);; toggle_bit k (Z.shiftr p (k + 1))) (b, m') Q) as Hfin.
  { intros m' ->. wp_step. apply wp_set_free_list; [apply (rep_heads _ _ _ R)|exact Hk|].
    rewrite (order_bits _ _ _ Hok).
    eapply wp_toggle_bit; [lia|by eapply bit_bound|exact Hbm|exact Hlen| |].
    { intros j Hj. eapply rep_bits; [exact R|lia|exact Hbm|exact Hj]. }
    intros bm' Hlen' Hbits. apply HQ; [by apply (rep_push b m F k p _ bm')|done|by apply push_writes]. }
  unfold push_mem in Hfin.
  destruct (Z.eqb_spec (head_of b k) 0) as [E|E]; cbn [negb]; wp_step; by apply Hfin.
Qed.

(** ** Taking a block off its free list *)

Lemma rep_links b m F k l1 p l2 :
  rep b m F -> 0 <= k < BUDDY_MAX_ORDER -> F k = l1 ++ p :: l2 ->
  let prev := rd m (page_addr (base b) p + FB_PREV) in
  let next := rd m (page_addr (base b) p + FB_NEXT) in
  (prev <> 0 -> exists q, q ∈ l1 /\ prev = page_addr (base b) q) /\
  (next <> 0 -> exists q, q ∈ l2 /\ next = page_addr (base b) q) /\
  (l1 = [] -> prev = 0).
Proof.
  intros R Hk HF. pose proof (rep_list _ _ _ R k Hk) as Hd.
  rewrite HF, fmap_app, fmap_cons in Hd. destruct (dlist_middle _ _ _ _ _ _ _ Hd) as [-> ->].
  rewrite fmap_last. split_and!.
  - destruct (last l1) as [q|] eqn:E; [|done]. intros _. exists q.
    split; [by apply last_Some_elem_of|done].
  - destruct l2 as [|q l2]; [done|]. intros _. exists q. rewrite elem_of_cons. auto.
  - by intros ->.
Qed.

Lemma unlink_writes b m F k l1 p l2 :
  rep b m F -> 0 <= k < BUDDY_MAX_ORDER -> F k = l1 ++ p :: l2 ->
  writes_only (in_free (base b) F) m
    (unlink_mem FB_PREV FB_NEXT m (rd m (page_addr (base b) p + FB_PREV))
       (rd m (page_addr (base b) p + FB_NEXT))).
Proof.
  intros R Hk HF x Hx. destruct (rep_links _ _ _ _ _ _ _ R Hk HF) as (Hp & Hn & _).
  assert (forall q c, q ∈ F k -> 0 <= c < PAGE_SIZE -> x <> page_addr (base b) q + c) as Hc.
  { intros q c Hq Hc ->. apply Hx. eapply free_cell; eauto. }
  apply unlink_mem_other; intros Hz.
  - destruct (Hp Hz) as (q & Hq & ->). apply Hc; [rewrite HF; set_solver|done].
  - destruct (Hn Hz) as (q & Hq & ->). apply Hc; [rewrite HF; set_solver|done].
Qed.

Lemma rep_unlink b m F k l1 p l2 b' bm' :
  rep b m F -> 0 <= k < BUDDY_MAX_ORDER -> F k = l1 ++ p :: l2 ->
  let prev := rd m (page_addr (base b) p + FB_PREV) in
  let next := rd m (page_addr (base b) p + FB_NEXT) in
  base b' = base b ->
  free_lists b' = <[Z.to_nat k := if prev =? 0 then next else head_of b k]> (free_lists b) ->
  bitmaps b' = <[Z.to_nat k := bm']> (bitmaps b) ->
  length (words bm') = Z.to_nat BITMAP_WORDS ->
  (forall i, 0 <= i < BITMAP_BITS -> bm_bit bm' i = xorb (pair_bit (F k) k i) (i =? p / 2 ^ (k + 1))) ->
  rep b' (unlink_mem FB_PREV FB_NEXT m prev next) (<[k := l1 ++ l2]> F).
Proof.
  intros R Hk HF prev next Hb Hfl Hbm Hlen Hbits.
  destruct (rep_links _ _ _ _ _ _ _ R Hk HF) as (Hprev & Hnext & _).
  assert (forall q, q ∈ l1 ++ l2 -> q ∈ F k) as Hsub by (rewrite HF; set_solver).
  pose proof (rep_nodup _ _ _ R k) as Hnd. rewrite HF in Hnd.
  assert (p ∈ F k) as Hp by (rewrite HF; set_solver).
  assert (0 <= k /\ (2 ^ k | p)) as [Hk0 Hal]
    by (destruct (rep_ok _ _ _ R (k, p) Hp) as (? & _ & ? & _); simpl in *; split; [lia|done]).
  assert (NoDup (p :: l1 ++ l2)) as Hnd' by (by rewrite Permutation_middle).
  pose proof Hnd' as [Hni Hnd2]%NoDup_cons.
  eapply (rep_set b m F); eauto.
  - rewrite fmap_app. apply dlist_unlink.
    + rewrite <- fmap_cons, <- fmap_app, <- HF. by apply (rep_list _ _ _ R).
    + rewrite <- fmap_cons, <- fmap_app. by apply nodup_pages.
    + rewrite <- fmap_cons, <- fmap_app. apply sep_pages.
  - intros j q Hj Hq. split; apply unlink_mem_other; intros Hz;
      [destruct (Hprev Hz) as (r & Hr & E)|destruct (Hnext Hz) as (r & Hr & E)
      |destruct (Hprev Hz) as (r & Hr & E)|destruct (Hnext Hz) as (r & Hr & E)];
      assert (r ∈ F k) as Hrk by (rewrite HF; set_solver);
      pose proof (rep_ne_order _ _ _ _ _ _ _ R Hq Hrk Hj);
      fold prev in E |- *; fold next in E |- *; rewrite E; page_cells.
  - intros q Hq. apply (rep_ok _ _ _ R (k, q)). by apply Hsub.
  - intros q q' Hq Hq' Hne. apply (rep_disj _ _ _ R (k, q) (k, q')); [by apply Hsub..|congruence].
  - intros q bl Hq Hf Hne. apply (rep_disj _ _ _ R (k, q)); [by apply Hsub|done|]. by intros <-.
  - intros i Hi. rewrite Hbits by done.
    rewrite (pair_bit_ext _ (p :: l1 ++ l2)) by (intros; rewrite HF; set_solver).
    rewrite pair_bit_cons by done. by rewrite xorb_assoc, xorb_nilpotent, xorb_false_r.
Qed.

Lemma wp_unlink_buddy b m F k l1 p l2 (Q : unit -> BState -> Prop) :
  rep b m F -> 0 <= k < BUDDY_MAX_ORDER -> F k = l1 ++ p :: l2 ->
  let prev := rd m (page_addr (base b) p + FB_PREV) in
  let next := rd m (page_addr (base b) p + FB_NEXT) in
  Q tt (with_free_lists
          (<[Z.to_nat k := if prev =? 0 then next else head_of b k]> (free_lists b)) b,
        unlink_mem FB_PREV FB_NEXT m prev next) ->
  wp (unlink_buddy k (page_addr (base b) p)) (b, m) Q.
Proof.
  intros R Hk HF prev next HQ. destruct (rep_links _ _ _ _ _ _ _ R Hk HF) as (Hprev & _ & _).
  pose proof (rep_nodup _ _ _ R k) as Hnd. rewrite HF in Hnd.
  unfold unlink_buddy. wp_steps. fold prev next.
  unfold unlink_mem in HQ. destruct (Z.eqb_spec prev 0) as [E|E]; cbn [negb].
  - apply wp_set_free_list; [apply (rep_heads _ _ _ R)|done|].
    wp_steps. fold prev next.
    destruct (Z.eqb_spec next 0); cbn [negb]; wp_steps; exact HQ.
  - destruct (Hprev E) as (q & Hq & Eq). assert (q <> p) as Hqp.
    { intros ->. apply NoDup_app in Hnd as (_ & Hd & _). apply (Hd p Hq). set_solver. }
    fold prev in Eq. wp_steps. rewrite !rd_wr_ne by (rewrite Eq; page_cells). fold prev next.
    rewrite list_insert_id in HQ by (by apply (rep_head_lookup _ _ _ _ R)).
    replace (with_free_lists (free_lists b) b) with b in HQ by (by destruct b).
    destruct (Z.eqb_spec next 0); cbn [negb]; wp_steps; exact HQ.
Qed.

(** ** Page accounting and coverage *)

Definition free_pages (F : Z -> list Z) : Z :=
  zsum ((fun k => Z.of_nat (length (F k)) * 2 ^ k) <$> seqZ 0 BUDDY_MAX_ORDER).

Definition block_pages (A : gset block) : Z :=
  zsum ((fun bl => 2 ^ fst bl) <$> elements A).

Definition fresh (F : Z -> list Z) (bl : block) : Prop := forall bl', free F bl' -> disj bl bl'.

(** The block that a block and its buddy make together. *)
Definition pair_of (k p : Z) : block := (k + 1, Z.min p (buddy_of k p)).

(** No two free blocks below the top order are buddies of each other, if their
    pair is inside [W].  Registering does not merge, so [W] is "inside one
    region": two regions may meet in the middle of a pair. *)
Definition coalesced (W : block -> Prop) (F : Z -> list Z) : Prop :=
  forall k p, 0 <= k < BUDDY_MAX_ORDER - 1 -> W (pair_of k p) -> p ∈ F k -> buddy_of k p ∉ F k.

(** [reshape a F bl F' bl']: the free blocks [F] and the block [bl] in hand
    have been rearranged into [F'] and [bl'], covering the same pages. *)
Record reshape (a : Z) (F : Z -> list Z) (bl : block) (F' : Z -> list Z) (bl' : block) : Prop :=
  mkReshape {
    rs_ok : block_ok a bl';
    rs_fresh : fresh F' bl';
    rs_cover : forall p, cover F' p \/ bpage bl' p <-> cover F p \/ bpage bl p;
    rs_pages : free_pages F' + 2 ^ fst bl' = free_pages F + 2 ^ fst bl;
    rs_coalesced : forall W, coalesced W F -> coalesced W F'
  }.

(** The loop result can be freed without leaving two free buddies. *)
Definition merged (F : Z -> list Z) (bl : block) : Prop :=
  fst bl = BUDDY_MAX_ORDER - 1 \/ buddy_of (fst bl) (snd bl) ∉ F (fst bl).

Lemma buddy_involutive k p : buddy_of k (buddy_of k p) = p.
Proof. unfold buddy_of. by rewrite Z.lxor_assoc, Z.lxor_nilpotent, Z.lxor_0_r. Qed.

Lemma buddy_neq k p : 0 <= k -> 0 <= p -> (2 ^ k | p) -> buddy_of k p <> p.
Proof.
  intros Hk Hp Hd. pose proof (Z.pow_pos_nonneg 2 k).
  destruct (buddy_facts k p Hk Hp Hd) as (_ & _ & _ & _ & _ & _ & [[? ?]|[? ?]]); lia.
Qed.

Lemma pair_of_buddy k p : pair_of k (buddy_of k p) = pair_of k p.
Proof. unfold pair_of. by rewrite buddy_involutive, Z.min_comm. Qed.

Lemma pair_of_page k p : 0 <= k -> 0 <= p -> (2 ^ k | p) -> bpage (pair_of k p) p.
Proof.
  intros Hk Hp Hd. pose proof (Z.pow_pos_nonneg 2 k ltac:(lia) Hk). pose proof (pow2_succ k Hk).
  unfold pair_of, bpage. cbn [fst snd].
  destruct (buddy_facts k p Hk Hp Hd) as (_ & _ & _ & _ & Hr & _ & [[E1 E2]|[E1 E2]]); lia.
Qed.

Lemma coalesced_cons W F k p :
  coalesced W F -> 0 <= k -> 0 <= p -> (2 ^ k | p) -> (W (pair_of k p) -> merged F (k, p)) ->
  coalesced W (<[k := p :: F k]> F).
Proof.
  intros HF Hk0 Hp Hd Hm j q Hj HW. destruct (decide (j = k)) as [->|Hne].
  2: { rewrite fn_lookup_insert_ne by done. by apply HF. }
  rewrite fn_lookup_insert, !elem_of_cons. intros [->|Hq] [E|Hb].
  - by apply (buddy_neq k p).
  - destruct (Hm HW) as [Hm'|Hm']; simpl in Hm'; [lia|done].
  - subst p. rewrite pair_of_buddy in Hm. destruct (Hm HW) as [Hm'|Hm']; simpl in Hm'; [lia|].
    by rewrite buddy_involutive in Hm'.
  - by apply (HF k q).
Qed.

Lemma coalesced_sub W F k l :
  coalesced W F -> (forall p, p ∈ l -> p ∈ F k) -> coalesced W (<[k := l]> F).
Proof.
  intros HF Hl j q Hj HW. destruct (decide (j = k)) as [->|Hne].
  - rewrite fn_lookup_insert. intros Hq Hb. by apply (HF k q); auto.
  - rewrite fn_lookup_insert_ne by done. by apply HF.
Qed.

Lemma reshape_refl a F bl : block_ok a bl -> fresh F bl -> reshape a F bl F bl.
Proof. split; auto; done. Qed.

Lemma reshape_trans a F1 b1 F2 b2 F3 b3 :
  reshape a F1 b1 F2 b2 -> reshape a F2 b2 F3 b3 -> reshape a F1 b1 F3 b3.
Proof.
  intros [H1 H2 H3 H4 H9] [H5 H6 H7 H8 H10]. split; [done|done| |lia|auto].
  intros p. by rewrite H7, H3.
Qed.

Lemma disj_bpage b1 b2 :
  0 <= fst b1 -> 0 <= fst b2 -> disj b1 b2 <-> (forall p, bpage b1 p -> bpage b2 p -> False).
Proof.
  intros H1 H2. unfold disj, bpage. pose proof (Z.pow_pos_nonneg 2 (fst b1)).
  pose proof (Z.pow_pos_nonneg 2 (fst b2)). split; [lia|].
  intros Hp. specialize (Hp (Z.max (snd b1) (snd b2))). lia.
Qed.

Lemma fresh_cover F bl :
  0 <= fst bl -> (forall bl', free F bl' -> 0 <= fst bl') ->
  fresh F bl <-> (forall p, bpage bl p -> cover F p -> False).
Proof.
  intros H1 H2. unfold fresh, cover. split.
  - intros H p Hp (bl' & Hf & Hp').
    apply (proj1 (disj_bpage bl bl' H1 (H2 _ Hf)) (H _ Hf) p Hp Hp').
  - intros H bl' Hf. apply disj_bpage; [done|auto|]. intros p Hp Hp'. apply (H p); eauto.
Qed.

Lemma free_insert F k l bl :
  free (<[k := l]> F) bl <-> (fst bl = k /\ snd bl ∈ l) \/ (fst bl <> k /\ free F bl).
Proof.
  destruct bl as [j p]. unfold free; simpl. destruct (decide (j = k)) as [->|].
  - rewrite fn_lookup_insert. naive_solver.
  - rewrite fn_lookup_insert_ne by done. naive_solver.
Qed.

Lemma free_cons F k p bl :
  free (<[k := p :: F k]> F) bl <-> bl = (k, p) \/ free F bl.
Proof.
  rewrite free_insert, elem_of_cons. destruct bl as [j q]; unfold free; simpl.
  destruct (decide (j = k)); naive_solver.
Qed.

Lemma cover_cons F k p x : cover (<[k := p :: F k]> F) x <-> bpage (k, p) x \/ cover F x.
Proof.
  unfold cover. setoid_rewrite free_cons. naive_solver.
Qed.

Lemma free_split F k l1 p l2 bl :
  F k = l1 ++ p :: l2 -> free F bl <-> bl = (k, p) \/ free (<[k := l1 ++ l2]> F) bl.
Proof.
  intros HF. rewrite free_insert. destruct bl as [j q]; unfold free; simpl.
  destruct (decide (j = k)) as [->|]; [rewrite HF|]; set_solver.
Qed.

Lemma cover_split F k l1 p l2 x :
  F k = l1 ++ p :: l2 -> cover F x <-> bpage (k, p) x \/ cover (<[k := l1 ++ l2]> F) x.
Proof.
  intros HF. unfold cover. setoid_rewrite (free_split F k l1 p l2); [|done]. naive_solver.
Qed.

Lemma free_pages_insert F k l :
  0 <= k < BUDDY_MAX_ORDER ->
  free_pages (<[k := l]> F) =
    free_pages F + (Z.of_nat (length l) - Z.of_nat (length (F k))) * 2 ^ k.
Proof.
  intros Hk. unfold free_pages.
  rewrite (list_fmap_ext _ (<[k := Z.of_nat (length l) * 2 ^ k]>
     (fun k => Z.of_nat (length (F k)) * 2 ^ k))).
  - rewrite zsum_insert; [lia|apply NoDup_seqZ|apply elem_of_seqZ; lia].
  - intros i j _. destruct (decide (j = k)) as [->|].
    + by rewrite !fn_lookup_insert.
    + by rewrite !fn_lookup_insert_ne by done.
Qed.

Lemma free_pages_nonneg F : 0 <= free_pages F.
Proof.
  apply zsum_nonneg. intros x (k & -> & Hk)%list_elem_of_fmap.
  pose proof (Z.pow_nonneg 2 k). lia.
Qed.

Lemma block_pages_nonneg A : 0 <= block_pages A.
Proof.
  apply zsum_nonneg. intros x (bl & -> & _)%list_elem_of_fmap. apply Z.pow_nonneg; lia.
Qed.

Lemma block_pages_insert A bl : bl ∉ A -> block_pages ({[bl]} ∪ A) = block_pages A + 2 ^ fst bl.
Proof.
  intros H. unfold block_pages. rewrite elements_union_singleton by done.
  rewrite fmap_cons. change (zsum (?a :: ?r)) with (a + zsum r). lia.
Qed.

Lemma block_pages_delete A bl : bl ∈ A -> block_pages A = block_pages (A ∖ {[bl]}) + 2 ^ fst bl.
Proof.
  intros H. rewrite <- block_pages_insert by set_solver. f_equal.
  apply set_eq. intros x. destruct (decide (x = bl)); set_solver.
Qed.

(** ** The reshaping steps of the loops *)

Lemma block_ok_half a k p d :
  0 <= k -> 0 <= d < 2 -> block_ok a (k + 1, p) -> block_ok a (k, p + d * 2 ^ k).
Proof.
  intros Hk Hd (H1 & H2 & H3 & H4 & H5). unfold block_ok in *; simpl in *.
  rewrite pow2_succ in H4, H5 by lia. pose proof (Z.pow_pos_nonneg 2 k). unfold PAGE_SIZE in *.
  split_and!; try nia. apply Z.divide_add_r; [|apply Z.divide_factor_r].
  eapply divide_pow2_le; [|exact H3]. lia.
Qed.

Lemma bpage_halves k p x :
  0 <= k -> bpage (k + 1, p) x <-> bpage (k, p) x \/ bpage (k, p + 2 ^ k) x.
Proof.
  intros Hk. unfold bpage; simpl. rewrite pow2_succ by lia. pose proof (Z.pow_pos_nonneg 2 k). lia.
Qed.

Lemma free_order b m F bl : rep b m F -> free F bl -> 0 <= fst bl.
Proof. intros R H. destruct (rep_ok _ _ _ R _ H) as (? & _). lia. Qed.

(** Splitting: the upper half goes to the free list, the lower stays in hand. *)
Lemma reshape_split b m F k p :
  rep b m F -> 0 <= k -> block_ok (base b) (k + 1, p) -> fresh F (k + 1, p) ->
  block_ok (base b) (k, p + 2 ^ k) /\ fresh F (k, p + 2 ^ k) /\
  reshape (base b) F (k + 1, p) (<[k := (p + 2 ^ k) :: F k]> F) (k, p).
Proof.
  intros R Hk Hok Hfr. pose proof (Z.pow_pos_nonneg 2 k ltac:(lia) Hk) as Hpow.
  pose proof (block_ok_half _ _ _ 1 Hk ltac:(lia) Hok) as Hhi. rewrite Z.mul_1_l in Hhi.
  pose proof (block_ok_half _ _ _ 0 Hk ltac:(lia) Hok) as Hlo.
  rewrite Z.mul_0_l, Z.add_0_r in Hlo.
  assert (forall bl, free F bl -> disj (k, p) bl /\ disj (k, p + 2 ^ k) bl) as Hd.
  { intros bl Hf. pose proof (Hfr bl Hf) as Hd. pose proof (free_order _ _ _ _ R Hf).
    unfold disj in *; simpl in *. rewrite pow2_succ in Hd by lia.
    pose proof (Z.pow_pos_nonneg 2 (fst bl)). lia. }
  split_and!; [done|intros bl Hf; by apply Hd|split].
  - done.
  - intros bl [->|Hf]%free_cons; [|by apply Hd]. unfold disj; simpl. lia.
  - intros x. rewrite cover_cons, bpage_halves by lia. tauto.
  - destruct Hlo as (Hk' & _). simpl in *. rewrite free_pages_insert by lia.
    rewrite length_cons, pow2_succ by lia. lia.
  - intros W HF. destruct Hhi as (_ & Hp & Hal & _). simpl in Hp, Hal.
    apply coalesced_cons; [done..|]. intros _. right; simpl. intros Hin.
    pose proof (Hfr (k, _) Hin) as Hdj. destruct Hlo as (_ & Hp0 & Hal0 & _). simpl in Hp0, Hal0.
    destruct Hok as (_ & _ & Hal1 & _). simpl in Hal1.
    assert (buddy_of k p = p + 2 ^ k) as E.
    { unfold buddy_of. apply lxor_pow2; [lia|lia|]. destruct Hal1 as [c ->].
      rewrite pow2_succ by lia. replace (c * (2 * 2 ^ k)) with ((2 * c + 0) * 2 ^ k) by lia.
      by rewrite testbit_slot. }
    rewrite <- E, buddy_involutive in Hdj.
    unfold disj in Hdj; simpl in Hdj. rewrite pow2_succ in Hdj by lia. lia.
Qed.

(** Coalescing: a free buddy leaves its list and is merged with the block. *)
Lemma reshape_merge b m F k p l1 l2 :
  rep b m F -> 0 <= k < BUDDY_MAX_ORDER - 1 -> block_ok (base b) (k, p) -> fresh F (k, p) ->
  F k = l1 ++ buddy_of k p :: l2 ->
  reshape (base b) F (k, p) (<[k := l1 ++ l2]> F) (k + 1, Z.min p (buddy_of k p)).
Proof.
  intros R Hk Hok Hfr HF. pose proof (Z.pow_pos_nonneg 2 k ltac:(lia) ltac:(lia)) as Hpow.
  destruct Hok as (Hk' & Hp & Hal & Hend & Hcap). simpl in Hk', Hp, Hal, Hend, Hcap.
  destruct (buddy_facts k p ltac:(lia) Hp Hal) as (Hq0 & Hqal & _ & Hr0 & Hral & _ & Hpq).
  set (q := buddy_of k p) in *. set (r := Z.min p q) in *.
  assert (free F (k, q)) as Hfq by (unfold free; simpl; rewrite HF; set_solver).
  destruct (rep_ok _ _ _ R _ Hfq) as (_ & _ & _ & Hqend & Hqcap). simpl in Hqend, Hqcap.
  assert (forall x, bpage (k + 1, r) x <-> bpage (k, p) x \/ bpage (k, q) x) as Hb.
  { intros x. rewrite bpage_halves by lia. destruct Hpq as [[E1 E2]|[E1 E2]]; rewrite <- E2, <- E1; tauto. }
  assert (forall bl, free (<[k := l1 ++ l2]> F) bl -> free F bl /\ bl <> (k, q)) as Hsub.
  { intros bl Hf. split; [by apply (free_split F k l1 q l2); auto|]. intros ->.
    apply free_insert in Hf as [[_ Hf]|[Hf _]]; [|done]. simpl in Hf.
    pose proof (rep_nodup _ _ _ R k) as Hnd. rewrite HF in Hnd.
    rewrite <- Permutation_middle in Hnd. by apply NoDup_cons in Hnd as [? _]. }
  assert (block_ok (base b) (k + 1, r)) as Hok'.
  { unfold block_ok; simpl. rewrite pow2_succ by lia. unfold PAGE_SIZE in *.
    rewrite <- (pow2_succ k) at 1 by lia.
    split_and!; first [done|lia|destruct Hpq as [[? ?]|[? ?]]; lia]. }
  split; [done| | | |].
  - apply fresh_cover; [simpl; lia| |].
    { intros bl Hf. eapply free_order; [exact R|]. by apply Hsub. }
    intros x Hx (bl & Hf & Hx'). destruct (Hsub _ Hf) as [Hf' Hne].
    pose proof (free_order _ _ _ _ R Hf'). apply Hb in Hx as [Hx|Hx].
    + apply (proj1 (disj_bpage (k, p) bl ltac:(simpl; lia) ltac:(done)) (Hfr _ Hf') x); done.
    + apply (proj1 (disj_bpage (k, q) bl ltac:(simpl; lia) ltac:(done))
               (rep_disj _ _ _ R _ _ Hfq Hf' (not_eq_sym Hne)) x); done.
  - intros x. rewrite Hb, (cover_split F k l1 q l2 x HF). tauto.
  - simpl. rewrite free_pages_insert by lia. rewrite HF, pow2_succ, !length_app by lia.
    simpl. lia.
  - intros W Hc. apply coalesced_sub; [done|]. intros x. rewrite HF. set_solver.
Qed.

(** ** The loops *)

Lemma same_meta_refl b : same_meta b b.
Proof. done. Qed.
Lemma same_meta_trans b1 b2 b3 : same_meta b1 b2 -> same_meta b2 b3 -> same_meta b1 b3.
Proof. unfold same_meta. intuition congruence. Qed.

(** Bytes of the free blocks or of the block in hand. *)
Definition in_hand (a : Z) (F : Z -> list Z) (bl : block) (x : Z) : Prop :=
  cover F (page_of a x) \/ bpage bl (page_of a x).

Lemma in_hand_reshape a F bl F' bl' x :
  reshape a F bl F' bl' -> in_hand a F' bl' x <-> in_hand a F bl x.
Proof. intros R. apply (rs_cover _ _ _ _ _ R). Qed.

Lemma wp_split_loop fuel : forall b m F k p order (Q : unit -> BState -> Prop),
  rep b m F -> 0 <= order <= k -> k - order < Z.of_nat fuel ->
  block_ok (base b) (k, p) -> fresh F (k, p) ->
  (forall b' m' F', rep b' m' F' -> reshape (base b) F (k, p) F' (order, p) -> same_meta b b' ->
     writes_only (in_hand (base b) F (k, p)) m m' -> Q tt (b', m')) ->
  wp (split_loop fuel order k p) (b, m) Q.
Proof.
  induction fuel as [|fuel IH]; intros b m F k p order Q R Hk Hfuel Hok Hfr HQ; [lia|].
  cbn [split_loop]. destruct (Z.ltb_spec order k) as [Hlt|Hge].
  2: { wp_step. assert (k = order) as -> by lia.
       eapply HQ; [exact R|by apply reshape_refl|done|done]. }
  assert (0 <= k < BUDDY_MAX_ORDER /\ 0 <= p /\ p + 2 ^ k <= CAPACITY) as (Hk' & Hp & Hcap)
    by (destruct Hok as (? & ? & _ & _ & ?); done).
  replace k with (k - 1 + 1) in Hok, Hfr by lia.
  destruct (reshape_split b m F (k - 1) p R ltac:(lia) Hok Hfr) as (Hok' & Hfr' & Hre).
  replace (k - 1 + 1) with k in * by lia.
  pose proof (pow2_succ (k - 1) ltac:(lia)) as Hpow. replace (k - 1 + 1) with k in Hpow by lia.
  pose proof (Z.pow_pos_nonneg 2 (k - 1) ltac:(lia) ltac:(lia)).
  assert (CAPACITY < W64) by done. unfold BUDDY_MAX_ORDER in *.
  wp_steps. apply (wp_free_block b m F); [done..|].
  intros b1 m1 R1 Hs1 Hw1. assert (base b1 = base b) as Hb1 by apply Hs1.
  eapply IH; [exact R1|lia|lia|rewrite Hb1; apply Hre|apply Hre|].
  intros b2 m2 F2 R2 Hre2 Hs2 Hw2. rewrite Hb1 in *. eapply HQ; [exact R2| | |].
  - by eapply reshape_trans.
  - by eapply same_meta_trans.
  - eapply writes_only_trans; (eapply writes_only_weaken; [|eassumption]).
    + intros x Hx. apply (in_hand_reshape _ _ _ _ _ _ Hre). by left.
    + intros x Hx. by apply (in_hand_reshape _ _ _ _ _ _ Hre).
Qed.

(** The coalescing loop stops at the top order or when the buddy is not free. *)
Lemma wp_coalesce_loop fuel : forall b m F k p (Q : Z * Z -> BState -> Prop),
  rep b m F -> BUDDY_MAX_ORDER - 1 - k < Z.of_nat fuel ->
  block_ok (base b) (k, p) -> fresh F (k, p) ->
  (forall b' m' F' k' p', rep b' m' F' -> reshape (base b) F (k, p) F' (k', p') ->
     merged F' (k', p') -> k <= k' -> same_meta b b' ->
     writes_only (in_free (base b) F) m m' -> Q (p', k') (b', m')) ->
  wp (coalesce_loop fuel p k) (b, m) Q.
Proof.
  induction fuel as [|fuel IH]; intros b m F k p Q R Hfuel Hok Hfr HQ.
  { destruct Hok as (? & _); simpl in *; lia. }
  assert (0 <= k < BUDDY_MAX_ORDER /\ 0 <= p /\ (2 ^ k | p)) as (Hk & Hp & Hal)
    by (destruct Hok as (? & ? & ? & _); done).
  cbn [coalesce_loop]. destruct (Z.ltb_spec k (BUDDY_MAX_ORDER - 1)) as [Hlt|Hge].
  2: { wp_step. eapply HQ; [exact R|by apply reshape_refl|left; simpl; lia|done..]. }
  assert (p ∉ F k) as Hni by (intros Hin; by apply (fresh_notin _ _ _ _ _ R Hok Hfr k p)).
  destruct (rep_map_lookup _ _ _ k R ltac:(lia)) as (bm & Hbm & Hlen).
  pose proof (bit_bound _ _ _ Hok) as Hbb. unfold BUDDY_MAX_ORDER in *.
  wp_steps. fold (buddy_of k p). rewrite (order_bits _ _ _ Hok).
  apply wp_test; [done..|]. rewrite (rep_bits _ _ _ R k bm) by (done || lia).
  rewrite pair_bit_buddy by (done || lia). case_bool_decide as Hin.
  2: { wp_step. eapply HQ; [exact R|by apply reshape_refl|by right|done..]. }
  apply list_elem_of_split in Hin as (l1 & l2 & HF).
  pose proof (reshape_merge b m F k p l1 l2 R ltac:(unfold BUDDY_MAX_ORDER; lia) Hok Hfr HF) as Hre.
  destruct (buddy_facts k p ltac:(lia) Hp Hal) as (Hq0 & Hqal & Hqi & _).
  set (q := buddy_of k p) in *.
  assert (q * PAGE_SIZE < W64 /\ base b + q * PAGE_SIZE < W64) as [Hq1 Hq2].
  { destruct (rep_ok _ _ _ R (k, q)) as (_ & _ & _ & He & _); [unfold free; simpl; rewrite HF; set_solver|].
    simpl in He. pose proof (Z.pow_pos_nonneg 2 k). pose proof (rep_base _ _ _ R).
    unfold PAGE_SIZE in *. lia. }
  wp_steps. apply (wp_unlink_buddy b m F k l1 q l2); [done|unfold BUDDY_MAX_ORDER; lia|done|].
  wp_step. eapply (wp_toggle_bit _ _ F k); [lia|done|exact Hbm|done| |].
  { intros j Hj. apply (rep_bits _ _ _ R k bm); [lia|done|done]. }
  intros bm' Hlen' Hbits. rewrite <- Hqi in Hbits.
  match goal with |- wp _ (?b1, ?m1) _ => assert (rep b1 m1 (<[k := l1 ++ l2]> F)) as R1 end.
  { eapply (rep_unlink b m F k l1 q l2 _ bm'); [exact R|unfold BUDDY_MAX_ORDER; lia|exact HF|..];
      try reflexivity; done. }
  eapply IH; [exact R1|lia|apply Hre|apply Hre|].
  intros b2 m2 F2 k' p' R2 Hre2 Hm Hle Hs2 Hw2.
  eapply HQ; [exact R2|by eapply reshape_trans|done|lia|done|].
  eapply writes_only_trans; [eapply (unlink_writes b m F k l1 q l2); [done|unfold BUDDY_MAX_ORDER; lia|done]|].
  eapply writes_only_weaken; [|exact Hw2]. intros x Hx. unfold in_free in *.
  apply (cover_split F k l1 q l2 _ HF). by right.
Qed.

Lemma region_order_spec off rem :
  0 <= off -> 0 < rem ->
  let k := region_order off rem in
  0 <= k < BUDDY_MAX_ORDER /\ (2 ^ k | off) /\ 2 ^ k <= rem /\
  (k < BUDDY_MAX_ORDER - 1 -> (2 ^ (k + 1) | off) -> rem < 2 ^ (k + 1)).
Proof.
  intros Hoff Hrem. unfold region_order. rewrite leading_zeros_log2 by lia.
  pose proof (Z.log2_nonneg rem). pose proof (trailing_zeros_nonneg off).
  set (al := if off =? 0 then _ else _).
  assert (0 <= al) by (unfold al, BUDDY_MAX_ORDER; destruct (off =? 0); lia).
  unfold BUDDY_MAX_ORDER in *. set (k := Z.min _ _). cbn zeta.
  split_and!; [lia|lia| | |].
  - destruct (Z.eqb_spec off 0) as [->|Hz]; [apply Z.divide_0_r|].
    eapply divide_pow2_le; [|apply trailing_zeros_divide; lia]. lia.
  - etrans; [|apply (Z.log2_spec rem); lia]. apply Z.pow_le_mono_r; lia.
  - intros Hk Hd. apply Z.lt_le_trans with (2 ^ Z.succ (Z.log2 rem)); [apply Z.log2_spec; lia|].
    apply Z.pow_le_mono_r; [lia|]. enough (k + 1 <= al \/ al = 16) by lia.
    unfold al. destruct (Z.eqb_spec off 0); [lia|].
    pose proof (trailing_zeros_max off (k + 1) ltac:(lia) ltac:(lia) Hd). lia.
Qed.

(** Of the region that starts at [lo], the pages below [off] are registered and
    [rem] are left: a block that ends at [off] and could pair with what follows
    is larger than what follows. *)
Definition settled (F : Z -> list Z) (lo off rem : Z) : Prop :=
  forall k q, k < BUDDY_MAX_ORDER - 1 -> q ∈ F k -> lo <= q -> q + 2 ^ k = off -> (2 ^ (k + 1) | q) ->
    rem < 2 ^ k.

Lemma settled_merged F lo off rem k :
  0 <= k < BUDDY_MAX_ORDER -> 0 <= off -> (2 ^ k | off) -> 2 ^ k <= rem ->
  (forall p, off <= p < off + rem -> ~ cover F p) -> settled F lo off rem ->
  lo <= snd (pair_of k off) -> snd (pair_of k off) + 2 ^ (k + 1) <= off + rem -> merged F (k, off).
Proof.
  intros Hk Hoff Hal Hle Hnew Hlow H1 H2. unfold merged; simpl.
  destruct (decide (k = BUDDY_MAX_ORDER - 1)); [by left|right]. intros Hin.
  pose proof (Z.pow_pos_nonneg 2 k ltac:(lia) ltac:(lia)). pose proof (pow2_succ k ltac:(lia)).
  unfold pair_of in H1, H2. cbn [snd] in H1, H2.
  destruct (buddy_facts k off ltac:(lia) Hoff Hal) as (_ & _ & _ & _ & Hr & _ & [[E1 E2]|[E1 E2]]).
  - rewrite <- E1 in E2, H2. rewrite E2 in Hin. apply (Hnew (off + 2 ^ k)); [lia|].
    exists (k, off + 2 ^ k). split; [done|unfold bpage; simpl; lia].
  - rewrite <- E1 in Hr, H1. enough (rem < 2 ^ k) by lia.
    apply (Hlow k (buddy_of k off)); [lia|done|lia|lia|done].
Qed.

Lemma settled_step b m F lo off rem k :
  rep b m F -> 0 <= k < BUDDY_MAX_ORDER -> 2 ^ k <= rem ->
  (k < BUDDY_MAX_ORDER - 1 -> (2 ^ (k + 1) | off) -> rem < 2 ^ (k + 1)) ->
  (forall p, off <= p < off + rem -> ~ cover F p) ->
  settled (<[k := off :: F k]> F) lo (off + 2 ^ k) (rem - 2 ^ k).
Proof.
  intros R Hk Hle Hmax Hnew j q Hj Hq Hlo Hqe Hal.
  pose proof (Z.pow_pos_nonneg 2 k ltac:(lia) ltac:(lia)).
  apply (free_cons F k off (j, q)) in Hq as [[= -> ->]|Hq].
  - specialize (Hmax ltac:(lia) Hal). rewrite pow2_succ in Hmax by lia. lia.
  - pose proof (free_order _ _ _ _ R Hq). simpl in *. pose proof (Z.pow_pos_nonneg 2 j ltac:(lia) ltac:(lia)).
    exfalso. apply (Hnew (off + 2 ^ k - 1)); [lia|]. exists (j, q).
    split; [done|]. unfold bpage; simpl. lia.
Qed.

(** [W] reaches into the pages [off, off + rem) from inside [lo, off + rem)
    only. *)
Definition within (W : block -> Prop) (lo off rem : Z) : Prop :=
  forall bl p, W bl -> bpage bl p -> off <= p < off + rem -> lo <= snd bl /\ snd bl + 2 ^ fst bl <= off + rem.

Lemma wp_add_region_loop fuel : forall b m F off rem (Q : unit -> BState -> Prop),
  rep b m F -> 0 <= off -> 0 <= rem < Z.of_nat fuel ->
  off + rem <= CAPACITY -> base b + (off + rem) * PAGE_SIZE <= W64 ->
  (forall p, off <= p < off + rem -> ~ cover F p) ->
  (forall b' m' F', rep b' m' F' -> same_meta b b' ->
     (forall p, cover F' p <-> cover F p \/ off <= p < off + rem) ->
     free_pages F' = free_pages F + rem ->
     writes_only (in_free (base b) F') m m' ->
     (forall bl, free F' bl -> free F bl \/ off <= snd bl /\ snd bl + 2 ^ fst bl <= off + rem) ->
     (forall W lo, lo <= off -> within W lo off rem -> settled F lo off rem -> coalesced W F -> coalesced W F') ->
     Q tt (b', m')) ->
  wp (add_region_loop fuel off rem) (b, m) Q.
Proof.
  induction fuel as [|fuel IH]; intros b m F off rem Q R Hoff Hrem Hcap Hend Hnew HQ; [lia|].
  cbn [add_region_loop]. destruct (Z.ltb_spec 0 rem) as [Hpos|Hz].
  2: { wp_step. apply (HQ b m F); [done|done| |lia|done|by left|by intros].
       intros p. split; [auto|]. intros [?|?]; [done|lia]. }
  destruct (region_order_spec off rem Hoff Hpos) as (Hk & Hal & Hle & Hmax).
  set (k := region_order off rem) in *.
  pose proof (Z.pow_pos_nonneg 2 k ltac:(lia) ltac:(lia)) as Hpow.
  assert (block_ok (base b) (k, off)) as Hok.
  { unfold block_ok, PAGE_SIZE in *; simpl. split_and!; try done; lia. }
  assert (fresh F (k, off)) as Hfr.
  { apply fresh_cover; [simpl; lia|intros; by eapply free_order|].
    intros p Hp Hc. apply (Hnew p); [unfold bpage in Hp; simpl in Hp; lia|done]. }
  assert (CAPACITY < W64) by done.
  wp_steps; [unfold BUDDY_MAX_ORDER in *; lia|].
  apply (wp_free_block b m F); [done..|]. intros b1 m1 R1 Hs1 Hw1.
  assert (base b1 = base b) as Hb1 by apply Hs1. wp_steps.
  apply (IH b1 m1 (<[k := off :: F k]> F)); [done|lia|lia|lia| | |].
  - rewrite Hb1. unfold PAGE_SIZE in *. lia.
  - intros p Hp [Hbp|Hc]%cover_cons; [unfold bpage in Hbp; simpl in Hbp; lia|].
    apply (Hnew p); [lia|done].
  - intros b2 m2 F2 R2 Hs2 Hc2 Hp2 Hw2 Hfb2 Hco2. rewrite Hb1 in Hw2.
    assert (forall p, cover F2 p <-> cover F p \/ off <= p < off + rem) as Hc.
    { intros p. rewrite Hc2, cover_cons. unfold bpage; simpl.
      split; [intros [[?|?]|?]; auto; right; lia|]. intros [?|?]; [auto|].
      destruct (decide (p < off + 2 ^ k)); [left; left|right]; lia. }
    apply (HQ b2 m2 F2); [done|by eapply same_meta_trans|done| | | |].
    + rewrite Hp2, free_pages_insert, length_cons by done. lia.
    + eapply writes_only_trans; [|exact Hw2]. eapply writes_only_weaken; [|exact Hw1].
      intros x Hx. unfold in_free in *. rewrite Hc2. auto.
    + intros bl [[->|Hf]%free_cons|Hin]%Hfb2; [right; simpl; lia|by left|right; lia].
    + intros W lo Hlo HW Hg Hco. apply (Hco2 W lo); [lia| |by apply (settled_step b m)|].
      * intros bl p Hbl Hp Hr. replace (off + 2 ^ k + (rem - 2 ^ k)) with (off + rem) in * by lia.
        apply (HW bl p); [done|done|lia].
      * apply coalesced_cons; [done|lia..|done|]. intros Hpair.
        destruct (HW _ off Hpair) as [H1 H2]; [|lia|by apply (settled_merged F lo off rem)].
        apply pair_of_page; [lia|lia|done].
Qed.

(** ** Ownership: free lists plus the blocks handed out *)

Record owned (b : BuddyAllocator) (m : mem) (F : Z -> list Z) (A : gset block) : Prop :=
  mkOwned {
    ow_rep : rep b m F;
    ow_ok : forall bl, bl ∈ A -> block_ok (base b) bl;
    ow_disj : forall b1 b2, b1 ∈ A -> b2 ∈ A -> b1 <> b2 -> disj b1 b2;
    ow_fresh : forall bl, bl ∈ A -> fresh F bl;
    ow_total : total_pages b = free_pages F + block_pages A;
    ow_used : used_bytes (stats b) = block_pages A * PAGE_SIZE;
    ow_free : free_bytes (stats b) = free_pages F * PAGE_SIZE;
    ow_bytes : total_bytes (stats b) = total_pages b * PAGE_SIZE;
    ow_bound : total_bytes (stats b) < W64;
    ow_peak : used_bytes (stats b) <= peak_bytes (stats b)
  }.

(** Statistics do not enter the representation. *)
Lemma rep_stats b m F b' :
  rep b m F -> base b' = base b -> free_lists b' = free_lists b -> bitmaps b' = bitmaps b ->
  rep b' m F.
Proof.
  intros R Hb Hf Hm. destruct R. split; rewrite ?Hb, ?Hf, ?Hm; try done.
  intros k Hk. unfold head_of. rewrite Hf. by apply rep_list0.
Qed.

Lemma page_of_addr a p : page_of a (page_addr a p) = p.
Proof.
  unfold page_of, page_addr, PAGE_SIZE. replace (a + p * 4096 - a) with (p * 4096) by lia.
  apply Z.div_mul. lia.
Qed.

(** Freshness of allocated blocks survives a reshaping of other blocks. *)
Lemma fresh_reshape b m F bl b' m' F' bl' bl2 :
  rep b m F -> rep b' m' F' -> reshape (base b) F bl F' bl' ->
  0 <= fst bl -> 0 <= fst bl2 -> fresh F bl2 -> disj bl2 bl ->
  fresh F' bl2 /\ disj bl2 bl'.
Proof.
  intros R R' Hre H1 H2 Hf Hd.
  assert (0 <= fst bl') by (destruct (rs_ok _ _ _ _ _ Hre) as (? & _); lia).
  assert (forall p, bpage bl2 p -> cover F' p \/ bpage bl' p -> False) as Hno.
  { intros p Hp. rewrite (rs_cover _ _ _ _ _ Hre). intros [Hc|Hc].
    - revert p Hp Hc. apply fresh_cover; [done|intros; by eapply (free_order b)|done].
    - by apply (proj1 (disj_bpage bl2 bl H2 H1) Hd p). }
  split.
  - apply fresh_cover; [done|intros; by eapply (free_order b')|]. eauto.
  - apply disj_bpage; eauto.
Qed.

Lemma find_order_spec b m F order :
  rep b m F -> 0 <= order ->
  match find_order (free_lists b) order with
  | Some k => order <= k < BUDDY_MAX_ORDER /\ head_of b k <> 0
  | None => forall k, order <= k < BUDDY_MAX_ORDER -> F k = []
  end.
Proof.
  intros R Ho. unfold find_order. destruct (List.find _ _) as [k|] eqn:E.
  - apply List.find_some in E as [Hin Hz]. rewrite <- list_elem_of_In, elem_of_seqZ in Hin.
    split; [lia|]. unfold head_of. destruct (Z.eqb_spec (default 0 (free_lists b !! Z.to_nat k)) 0); done.
  - intros k Hk. eapply List.find_none in E.
    2: { rewrite <- list_elem_of_In. apply elem_of_seqZ. split; [apply Hk|lia]. }
    simpl in E. fold (head_of b k) in E. destruct (Z.eqb_spec (head_of b k) 0) as [Hz|]; [|done].
    apply (dlist_null _ _ _ _ _ (rep_list _ _ _ R k ltac:(lia))) in Hz.
    by apply fmap_nil_inv in Hz.
Qed.

(** The address of the first block of a list, as popped by [alloc_pages]. *)
Lemma pop_facts b m F k :
  rep b m F -> 0 <= k < BUDDY_MAX_ORDER -> head_of b k <> 0 ->
  exists p l, F k = p :: l /\ head_of b k = page_addr (base b) p /\
    rd m (page_addr (base b) p + FB_PREV) = 0.
Proof.
  intros R Hk Hz. pose proof (rep_list _ _ _ R k Hk) as Hd.
  pose proof (dlist_head _ _ _ _ _ Hd) as Hh.
  destruct (F k) as [|p l] eqn:HF; [by simpl in Hh|]. exists p, l. simpl in Hh.
  split_and!; [done|done|]. by apply (rep_links b m F k [] p l R Hk).
Qed.

(** Popping [p] from order [k]: what is left, with [(k, p)] in hand. *)
Lemma reshape_pop b m F k p l :
  rep b m F -> 0 <= k < BUDDY_MAX_ORDER -> F k = p :: l ->
  let F0 := <[k := l]> F in
  block_ok (base b) (k, p) /\ fresh F0 (k, p) /\
  (forall x, cover F x <-> cover F0 x \/ bpage (k, p) x) /\
  free_pages F = free_pages F0 + 2 ^ k /\ (forall W, coalesced W F -> coalesced W F0).
Proof.
  intros R Hk HF F0. pose proof (rep_nodup _ _ _ R k) as Hnd. rewrite HF in Hnd.
  apply NoDup_cons in Hnd as [Hp _].
  assert (free F (k, p)) as Hf by (unfold free; simpl; rewrite HF; set_solver).
  split_and!.
  - by apply (rep_ok _ _ _ R).
  - intros bl Hbl. apply (rep_disj _ _ _ R); [done| |].
    + apply (free_split F k [] p l); auto.
    + intros <-. apply free_insert in Hbl as [[_ Hbl]|[Hbl _]]; done.
  - intros x. rewrite (cover_split F k [] p l x HF). tauto.
  - unfold F0. rewrite free_pages_insert by done. rewrite HF. simpl. lia.
  - intros W Hc. apply coalesced_sub; [done|]. intros x. rewrite HF. set_solver.
Qed.

(** ** Allocation *)

(** What a successful allocation of [(order, p)] guarantees. *)
Record allocated (b : BuddyAllocator) (m : mem) (F : Z -> list Z) (A : gset block)
    (bl : block) (b' : BuddyAllocator) (m' : mem) (F' : Z -> list Z) : Prop := mkAllocated {
  al_owned : owned b' m' F' ({[bl]} ∪ A);
  al_new : forall bl', bl' ∈ A -> disj bl bl';
  al_from : forall p, bpage bl p -> cover F p;
  al_cover : forall p, cover F' p <-> cover F p /\ ~ bpage bl p;
  al_base : base b' = base b;
  al_total : total_pages b' = total_pages b;
  al_writes : writes_only (in_free (base b) F) m m';
  al_coalesced : forall W, coalesced W F -> coalesced W F';
  al_count : dealloc_count (stats b') = dealloc_count (stats b) /\
             alloc_count (stats b') = alloc_count (stats b) + 1
}.

Lemma owned_alloc b m F A k p l b1 m1 b' m' F' order :
  owned b m F A -> 0 <= k < BUDDY_MAX_ORDER -> F k = p :: l -> 0 <= order ->
  rep b1 m1 (<[k := l]> F) -> base b1 = base b -> total_pages b' = total_pages b ->
  rep b' m' F' -> reshape (base b) (<[k := l]> F) (k, p) F' (order, p) -> base b' = base b ->
  total_bytes (stats b') = total_bytes (stats b) ->
  used_bytes (stats b') = used_bytes (stats b) + 2 ^ order * PAGE_SIZE ->
  free_bytes (stats b') = free_bytes (stats b) - 2 ^ order * PAGE_SIZE ->
  used_bytes (stats b') <= peak_bytes (stats b') ->
  dealloc_count (stats b') = dealloc_count (stats b) /\
  alloc_count (stats b') = alloc_count (stats b) + 1 ->
  writes_only (in_free (base b) F) m m' ->
  allocated b m F A (order, p) b' m' F'.
Proof.
  intros O Hk HF Ho R1 Hb1 Htot R' Hre Hb' Hst Hus Hfr Hpk Hdc Hw. pose proof (ow_rep _ _ _ _ O) as R.
  destruct (reshape_pop b m F k p l R Hk HF) as (Hok & Hf0 & Hcov & Hpg & Hco).
  assert (free F (k, p)) as Hfkp by (unfold free; simpl; rewrite HF; set_solver).
  assert (forall bl, bl ∈ A -> fresh F' bl /\ disj bl (order, p)) as HA.
  { intros bl Hbl. assert (0 <= fst bl) by (destruct (ow_ok _ _ _ _ O bl Hbl) as (? & _); lia).
    rewrite <- Hb1 in Hre. eapply (fresh_reshape b1 m1 _ (k, p) b' m'); eauto; [simpl; lia| |].
    - intros bl2 Hf2. apply (ow_fresh _ _ _ _ O bl Hbl). apply (free_split F k [] p l); auto.
    - by apply (ow_fresh _ _ _ _ O bl Hbl). }
  assert ((order, p) ∉ A) as HnA.
  { intros Hin. apply (disj_irrefl (order, p)); [done|]. by apply HA. }
  pose proof (rs_pages _ _ _ _ _ Hre) as Hpages. simpl in Hpages. destruct O.
  split; [split|..]; try done.
  - intros bl [->%elem_of_singleton|Hbl]%elem_of_union; rewrite Hb'; [apply Hre|auto].
  - intros b2 b3 [->%elem_of_singleton|H2]%elem_of_union [->%elem_of_singleton|H3]%elem_of_union Hne;
      [done|by apply disj_sym, HA|by apply HA|auto].
  - intros bl [->%elem_of_singleton|Hbl]%elem_of_union; [apply Hre|by apply HA].
  - rewrite block_pages_insert, Htot by done. simpl. lia.
  - rewrite block_pages_insert, Hus by done. simpl. lia.
  - rewrite Hfr. lia.
  - rewrite Hst, Htot. done.
  - rewrite Hst. done.
  - intros bl Hbl. by apply disj_sym, HA.
  - intros q Hq. apply Hcov. destruct (proj1 (rs_cover _ _ _ _ _ Hre q)); auto.
  - intros q. rewrite Hcov, <- (rs_cover _ _ _ _ _ Hre q). split; [|tauto].
    intros Hq. split; [auto|]. intros Hb. revert q Hb Hq. apply fresh_cover; [done| |apply Hre].
    intros; by eapply (free_order b' m').
  - intros W Hc. by apply (rs_coalesced _ _ _ _ _ Hre), Hco.
Qed.

Lemma wp_alloc_stats b m F A order (Q : unit -> BState -> Prop) :
  owned b m F A -> 0 <= order < BUDDY_MAX_ORDER -> alloc_count (stats b) + 1 < W64 ->
  2 ^ order <= free_pages F ->
  forall b0 m0, stats b0 = stats b ->
  (forall st, total_bytes st = total_bytes (stats b) ->
     used_bytes st = used_bytes (stats b) + 2 ^ order * PAGE_SIZE ->
     free_bytes st = free_bytes (stats b) - 2 ^ order * PAGE_SIZE ->
     used_bytes st <= peak_bytes st ->
     dealloc_count st = dealloc_count (stats b) /\ alloc_count st = alloc_count (stats b) + 1 ->
     Q tt (with_stats st b0, m0)) ->
  wp (alloc_stats order) (b0, m0) Q.
Proof.
  intros O Ho Hcount Hfree b0 m0 Hst HQ.
  pose proof (ow_total _ _ _ _ O). pose proof (ow_used _ _ _ _ O). pose proof (ow_free _ _ _ _ O).
  pose proof (ow_bytes _ _ _ _ O). pose proof (ow_bound _ _ _ _ O).
  pose proof (block_pages_nonneg A). pose proof (Z.pow_pos_nonneg 2 order ltac:(lia) ltac:(lia)).
  unfold alloc_stats, upd, BUDDY_MAX_ORDER, PAGE_SIZE in *. wp_steps; rewrite ?Hst; try lia.
  apply HQ; simpl; try done. destruct (Z.ltb_spec (peak_bytes (stats b))
    (used_bytes (stats b) + 2 ^ order * 4096)); lia.
Qed.

Lemma wp_alloc_pages b m F A order :
  owned b m F A -> 0 <= order < BUDDY_MAX_ORDER -> alloc_count (stats b) + 1 < W64 ->
  wp (alloc_pages order) (b, m) (fun r s' =>
    match r with
    | None => s' = (b, m) /\ forall k, order <= k < BUDDY_MAX_ORDER -> F k = []
    | Some ptr => exists p F', ptr = page_addr (base b) p /\
        allocated b m F A (order, p) (fst s') (snd s') F' /\
        exists k, order <= k < BUDDY_MAX_ORDER /\ p ∈ F k
    end).
Proof.
  intros O Ho Hcount. pose proof (ow_rep _ _ _ _ O) as R. pose proof (rep_base _ _ _ R) as Hbase.
  unfold alloc_pages. wp_steps. pose proof (find_order_spec b m F order R ltac:(lia)) as Hfind.
  destruct (find_order (free_lists b) order) as [k|]; [|by wp_steps].
  destruct Hfind as [Hk Hz]. assert (0 <= k < BUDDY_MAX_ORDER) as Hk' by lia.
  destruct (pop_facts b m F k R Hk' Hz) as (p & l & HF & Hh & Hprev).
  destruct (reshape_pop b m F k p l R Hk' HF) as (Hok & Hf0 & Hcov & Hpg & _).
  pose proof Hok as (_ & Hp & Hal & Hend & Hcap). simpl in Hp, Hal, Hend, Hcap.
  pose proof (Z.pow_pos_nonneg 2 k ltac:(lia) ltac:(lia)) as Hpow.
  destruct (rep_map_lookup _ _ _ k R Hk') as (bm & Hbm & Hlen).
  set (next := rd m (page_addr (base b) p + FB_NEXT)).
  wp_step. eapply wp_aget; [lia|by apply (rep_head_lookup _ _ _ _ R)|]. rewrite Hh.
  wp_steps. fold next. apply wp_set_free_list; [apply (rep_heads _ _ _ R)|done|]. wp_step.
  match goal with |- wp _ ?s ?Q => enough (Q tt (fst s, unlink_mem FB_PREV FB_NEXT m 0 next)) as HQ end.
  { unfold unlink_mem in HQ. cbn [Z.eqb] in HQ.
    destruct (Z.eqb_spec next 0); cbn [negb]; wp_step; exact HQ. }
  cbn [fst snd]. wp_steps; [page_cells|].
  replace (page_addr (base b) p - base b) with (p * PAGE_SIZE) by page_cells.
  rewrite Z.div_mul, (order_bits _ _ _ Hok) by done.
  eapply (wp_toggle_bit _ _ F k); [lia|by eapply bit_bound|exact Hbm|done| |].
  { intros j Hj. apply (rep_bits _ _ _ R k bm); [lia|done|done]. }
  intros bm' Hlen' Hbits. wp_step.
  match goal with |- wp _ (?b1, ?m1) _ => assert (rep b1 m1 (<[k := l]> F)) as R1 end.
  { pose proof (rep_unlink b m F k [] p l) as HU. cbn zeta in HU. rewrite Hprev in HU.
    eapply (HU _ bm'); done. }
  eapply wp_split_loop; [exact R1|lia|unfold BUDDY_MAX_ORDER in *; lia|exact Hok|exact Hf0|].
  intros b2 m2 F2 R2 Hre (Hb2 & Ht2 & Hs2) Hw2.
  cbn [base total_pages stats with_bitmaps with_free_lists] in *. wp_step.
  assert (2 ^ order <= 2 ^ k) by (apply Z.pow_le_mono_r; lia).
  pose proof (free_pages_nonneg (<[k := l]> F)). assert (CAPACITY < W64) by done.
  apply (wp_alloc_stats b m F A order); [done|lia|done|lia|done|].
  intros st S1 S2 S3 S4 S5. unfold PAGE_SIZE in *. wp_steps; cbn [base with_stats]; [lia..|].
  exists p, F2. split; [by rewrite Hb2|split].
  - eapply (owned_alloc b m F A k p l); simpl; try eassumption; [lia|done| |].
    + by eapply rep_stats.
    + eapply writes_only_trans; [pose proof (unlink_writes b m F k [] p l R Hk' HF) as HU;
        rewrite Hprev in HU; exact HU|].
      eapply writes_only_weaken; [|exact Hw2]. intros x [Hx|Hx]; apply Hcov; auto.
  - exists k. split; [lia|]. rewrite HF. by left.
Qed.

(** ** Deallocation *)

(** What freeing the block [bl] guarantees. *)
Record deallocated (b : BuddyAllocator) (m : mem) (F : Z -> list Z) (A : gset block)
    (bl : block) (b' : BuddyAllocator) (m' : mem) (F' : Z -> list Z) : Prop := mkDeallocated {
  de_owned : owned b' m' F' (A ∖ {[bl]});
  de_cover : forall p, cover F' p <-> cover F p \/ bpage bl p;
  de_base : base b' = base b;
  de_total : total_pages b' = total_pages b;
  de_writes : writes_only (in_hand (base b) F bl) m m';
  de_coalesced : forall W, coalesced W F -> coalesced W F'
}.

Lemma owned_dealloc b m F A bl b1 m1 F1 bl1 b' m' :
  owned b m F A -> bl ∈ A ->
  rep b1 m1 F1 -> base b1 = base b -> reshape (base b) F bl F1 bl1 -> merged F1 bl1 ->
  rep b' m' (<[fst bl1 := snd bl1 :: F1 (fst bl1)]> F1) ->
  base b' = base b -> total_pages b' = total_pages b ->
  total_bytes (stats b') = total_bytes (stats b) ->
  used_bytes (stats b') = used_bytes (stats b) - 2 ^ fst bl * PAGE_SIZE ->
  free_bytes (stats b') = free_bytes (stats b) + 2 ^ fst bl * PAGE_SIZE ->
  peak_bytes (stats b') = peak_bytes (stats b) ->
  writes_only (in_hand (base b) F bl) m m' ->
  deallocated b m F A bl b' m' (<[fst bl1 := snd bl1 :: F1 (fst bl1)]> F1).
Proof.
  intros O Hin R1 Hb1 Hre Hm R' Hb' Htot Hst Hus Hfr Hpk Hw. pose proof (ow_rep _ _ _ _ O) as R.
  pose proof (ow_ok _ _ _ _ O bl Hin) as (Hbl & _). pose proof (rs_ok _ _ _ _ _ Hre) as (Hbl1 & Hp1 & Hal1 & _).
  pose proof (Z.pow_pos_nonneg 2 (fst bl) ltac:(lia) ltac:(lia)).
  pose proof (block_pages_delete A bl Hin) as Hpg. pose proof (rs_pages _ _ _ _ _ Hre) as Hpages.
  destruct bl1 as [k1 p1]; cbn [fst snd] in *.
  assert (forall p, cover (<[k1 := p1 :: F1 k1]> F1) p <-> cover F p \/ bpage bl p) as Hcov.
  { intros p. rewrite cover_cons, <- (rs_cover _ _ _ _ _ Hre p). tauto. }
  assert (free_pages (<[k1 := p1 :: F1 k1]> F1) = free_pages F + 2 ^ fst bl) as Hfp.
  { rewrite free_pages_insert, length_cons by done. lia. }
  assert (forall b2, b2 ∈ A -> b2 <> bl -> fresh (<[k1 := p1 :: F1 k1]> F1) b2) as HA.
  { intros b2 Hb2 Hne. assert (0 <= fst b2) by (destruct (ow_ok _ _ _ _ O b2 Hb2) as (? & _); lia).
    apply fresh_cover; [done|intros; by eapply (free_order b' m')|].
    intros p Hp [Hc|Hc]%Hcov.
    - revert p Hp Hc. apply fresh_cover; [done|intros; by eapply (free_order b m)|].
      by apply (ow_fresh _ _ _ _ O).
    - apply (proj1 (disj_bpage b2 bl ltac:(done) ltac:(lia)) (ow_disj _ _ _ _ O b2 bl Hb2 Hin Hne) p Hp Hc). }
  destruct O. split; [split|..]; try done.
  - intros b2 [Hb2 _]%elem_of_difference. rewrite Hb'. auto.
  - intros b2 b3 [Hb2 _]%elem_of_difference [Hb3 _]%elem_of_difference. auto.
  - intros b2 [Hb2 Hne]%elem_of_difference. apply HA; [done|]. intros ->. set_solver.
  - lia.
  - lia.
  - lia.
  - congruence.
  - by rewrite Hst.
  - unfold PAGE_SIZE in *. lia.
  - intros W Hc. apply coalesced_cons; [by apply (rs_coalesced _ _ _ _ _ Hre)|lia|done..].
Qed.

Lemma wp_dealloc_stats b m F A order p (Q : unit -> BState -> Prop) :
  owned b m F A -> (order, p) ∈ A -> dealloc_count (stats b) + 1 < W64 ->
  forall b0 m0, stats b0 = stats b ->
  (forall st, total_bytes st = total_bytes (stats b) ->
     used_bytes st = used_bytes (stats b) - 2 ^ order * PAGE_SIZE ->
     free_bytes st = free_bytes (stats b) + 2 ^ order * PAGE_SIZE ->
     peak_bytes st = peak_bytes (stats b) -> Q tt (with_stats st b0, m0)) ->
  wp (dealloc_stats order) (b0, m0) Q.
Proof.
  intros O Hin Hcount b0 m0 Hst HQ. pose proof (ow_ok _ _ _ _ O _ Hin) as (Ho & _). simpl in Ho.
  pose proof (ow_total _ _ _ _ O). pose proof (ow_used _ _ _ _ O). pose proof (ow_free _ _ _ _ O).
  pose proof (ow_bytes _ _ _ _ O). pose proof (ow_bound _ _ _ _ O).
  pose proof (block_pages_delete A _ Hin) as Hpg. pose proof (block_pages_nonneg (A ∖ {[(order, p)]})).
  pose proof (Z.pow_pos_nonneg 2 order ltac:(lia) ltac:(lia)). pose proof (free_pages_nonneg F).
  unfold dealloc_stats, upd, BUDDY_MAX_ORDER, PAGE_SIZE in *. simpl in Hpg.
  wp_steps; rewrite ?Hst; try lia. by apply HQ.
Qed.

Lemma wp_dealloc_pages b m F A order p :
  owned b m F A -> (order, p) ∈ A -> dealloc_count (stats b) + 1 < W64 ->
  wp (dealloc_pages (page_addr (base b) p) order) (b, m) (fun _ s' =>
    exists F', deallocated b m F A (order, p) (fst s') (snd s') F').
Proof.
  intros O Hin Hcount. pose proof (ow_rep _ _ _ _ O) as R. pose proof (ow_ok _ _ _ _ O _ Hin) as Hok.
  pose proof Hok as (Hk & Hp & _). simpl in Hk, Hp. unfold dealloc_pages. wp_steps.
  { rewrite (proj2 (Z.leb_le _ _)) by page_cells. simpl. apply Z.eqb_eq.
    replace (page_addr (base b) p - base b) with (p * PAGE_SIZE) by page_cells. apply Z.mod_mul. done. }
  replace (page_addr (base b) p - base b) with (p * PAGE_SIZE) by page_cells.
  rewrite Z.div_mul by done.
  eapply wp_coalesce_loop; [exact R|unfold BUDDY_MAX_ORDER in *; lia|exact Hok|by apply (ow_fresh _ _ _ _ O)|].
  intros b1 m1 F1 k1 p1 R1 Hre Hm Hle (Hb1 & Ht1 & Hs1) Hw1. cbn [fst snd]. wp_step.
  eapply wp_free_block; [exact R1|rewrite Hb1; apply Hre|apply Hre|].
  intros b2 m2 R2 (Hb2 & Ht2 & Hs2) Hw2.
  apply (wp_dealloc_stats b m F A order p); [done|done|done|congruence|].
  intros st S1 S2 S3 S4. exists (<[k1 := p1 :: F1 k1]> F1).
  apply (owned_dealloc b m F A (order, p) b1 m1 F1 (k1, p1)); simpl; try done; try congruence.
  - by eapply rep_stats.
  - eapply writes_only_trans.
    + eapply writes_only_weaken; [|exact Hw1]. intros x Hx. by left.
    + eapply writes_only_weaken; [|exact Hw2]. intros x Hx. unfold in_free in Hx. rewrite Hb1 in Hx.
      unfold in_hand. rewrite <- (rs_cover _ _ _ _ _ Hre). apply cover_cons in Hx. tauto.
Qed.

(** ** Registering memory *)

(** [v] is a page boundary [off] pages above the base, and its [n] pages are
    inside the bitmaps, addressable, and neither free nor handed out. *)
Record region_ok (b : BuddyAllocator) (F : Z -> list Z) (A : gset block) (off n : Z) : Prop :=
  mkRegionOk {
    rg_off : 0 <= off;
    rg_size : 0 <= n;
    rg_cap : off + n <= CAPACITY;
    rg_end : base b + (off + n) * PAGE_SIZE <= W64;
    rg_bytes : (total_pages b + n) * PAGE_SIZE < W64;
    rg_free : forall p, off <= p < off + n -> ~ cover F p;
    rg_held : forall p bl, off <= p < off + n -> bl ∈ A -> ~ bpage bl p
  }.

(** What registering the pages [off, off + n) guarantees. *)
Record registered (b : BuddyAllocator) (m : mem) (F : Z -> list Z) (A : gset block)
    (off n : Z) (b' : BuddyAllocator) (m' : mem) (F' : Z -> list Z) : Prop := mkRegistered {
  rd_owned : owned b' m' F' A;
  rd_cover : forall p, cover F' p <-> cover F p \/ off <= p < off + n;
  rd_base : base b' = base b;
  rd_total : total_pages b' = total_pages b + n;
  rd_stats : used_bytes (stats b') = used_bytes (stats b) /\
             alloc_count (stats b') = alloc_count (stats b) /\
             dealloc_count (stats b') = dealloc_count (stats b);
  rd_writes : writes_only (in_free (base b) F') m m';
  rd_blocks : forall bl, free F' bl -> free F bl \/ off <= snd bl /\ snd bl + 2 ^ fst bl <= off + n;
  rd_coalesced : forall W W', (forall bl, W' bl -> W bl \/ off <= snd bl /\ snd bl + 2 ^ fst bl <= off + n) ->
    (forall bl p, W bl -> bpage bl p -> ~ off <= p < off + n) -> coalesced W F -> coalesced W' F'
}.

Lemma coalesced_region b m F W W' off n :
  rep b m F -> (forall bl, W' bl -> W bl \/ off <= snd bl /\ snd bl + 2 ^ fst bl <= off + n) ->
  (forall p, off <= p < off + n -> ~ cover F p) -> coalesced W F -> coalesced W' F.
Proof.
  intros R HW Hnew Hco k p Hk Hpair Hp. destruct (rep_ok _ _ _ R (k, p) Hp) as (_ & Hp0 & Hal & _). simpl in *.
  destruct (HW _ Hpair) as [HW'|Hin]; [by apply Hco|].
  pose proof (pair_of_page k p ltac:(lia) Hp0 Hal) as Hpp. pose proof (Z.pow_pos_nonneg 2 k ltac:(lia) ltac:(lia)).
  destruct (Hnew p); [unfold bpage in Hpp; lia|]. exists (k, p). split; [done|unfold bpage; simpl; lia].
Qed.

Lemma wp_add_region b m F A off n :
  owned b m F A -> region_ok b F A off n ->
  wp (add_region (page_addr (base b) off) n) (b, m) (fun _ s' =>
    exists F', registered b m F A off n (fst s') (snd s') F').
Proof.
  intros O [Hoff Hn Hcap Hend Hbytes Hfree Hheld]. pose proof (ow_rep _ _ _ _ O) as R.
  pose proof (rep_base _ _ _ R). unfold add_region. wp_steps.
  { apply Z.leb_le. unfold page_addr, PAGE_SIZE. lia. }
  { page_cells. }
  replace (page_addr (base b) off - base b) with (off * PAGE_SIZE) by page_cells.
  rewrite Z.div_mul by done.
  apply (wp_add_region_loop _ b m F); [done|lia|lia|done|done|done|].
  intros b1 m1 F1 R1 (Hb1 & Ht1 & Hs1) Hc1 Hp1 Hw1 Hfb1 Hco1.
  pose proof (ow_total _ _ _ _ O) as Htot. pose proof (ow_used _ _ _ _ O) as Hused.
  pose proof (free_pages_nonneg F). pose proof (block_pages_nonneg A).
  unfold upd, PAGE_SIZE in *. wp_steps; rewrite ?Ht1, ?Hs1; try lia.
  exists F1. destruct O.
  split; cbn [base total_pages stats with_stats with_total used_bytes alloc_count dealloc_count]; try done.
  - split; cbn [base total_pages stats with_stats with_total used_bytes free_bytes total_bytes peak_bytes];
      rewrite ?Hb1; try done; unfold PAGE_SIZE; try lia.
    + by eapply rep_stats.
    + intros bl Hbl. assert (0 <= fst bl) by (destruct (ow_ok0 bl Hbl) as (? & _); lia).
      apply fresh_cover; [done|intros; by eapply (free_order b1)|].
      intros p Hp [Hc|Hc]%Hc1; [|by eapply Hheld].
      revert p Hp Hc. apply fresh_cover; [done|intros; by eapply (free_order b)|auto].
  - intros W W' HW HWd Hco. apply (Hco1 W' off); [lia|..].
    + intros bl p [Hbl|?]%HW Hp Hr; [by destruct (HWd bl p Hbl Hp)|done].
    + intros k q _ Hq Hlo Hqe _. pose proof (free_order _ _ _ (k, q) R Hq) as Hk. simpl in Hk.
      pose proof (Z.pow_pos_nonneg 2 k ltac:(lia) Hk). lia.
    + by eapply (coalesced_region b m).
Qed.

(** ** The initial allocator *)

Definition no_lists : Z -> list Z := fun _ => [].

Lemma not_cover_empty p : ~ cover no_lists p.
Proof. intros (bl & Hf & _). unfold free, no_lists in Hf. by apply elem_of_nil in Hf. Qed.

Lemma owned_init base_ m :
  0 < base_ -> owned (with_base base_ BuddyAllocator_new) m no_lists ∅.
Proof.
  intros Hb. assert (forall k bm, replicate (Z.to_nat BUDDY_MAX_ORDER) Bitmap_new !! k = Some bm ->
    bm = Bitmap_new) as Hbm by (intros k bm [-> _]%lookup_replicate; done).
  split; cbn [with_base BuddyAllocator_new base total_pages stats]; try done; try set_solver.
  split; cbn [with_base BuddyAllocator_new base free_lists bitmaps]; try done.
  - by intros k bm ->%Hbm.
  - intros k Hk. unfold head_of, no_lists. cbn [with_base BuddyAllocator_new free_lists].
    rewrite lookup_replicate_2 by (unfold BUDDY_MAX_ORDER in *; lia). done.
  - intros bl Hf. by apply elem_of_nil in Hf.
  - intros k. constructor.
  - intros b1 b2 Hf. by apply elem_of_nil in Hf.
  - intros k bm Hk ->%Hbm i Hi.
    assert (bm_bit Bitmap_new i = false) as ->.
    { unfold bm_bit, Bitmap_new. cbn [words]. pose proof (div64_bound i Hi).
      rewrite lookup_replicate_2 by lia. apply Z.bits_0. }
    done.
Qed.

Lemma wp_set_base base_ m :
  0 < base_ -> base_ mod PAGE_SIZE = 0 ->
  wp (set_base base_) (BuddyAllocator_new, m)
    (fun _ s' => snd s' = m /\ fst s' = with_base base_ BuddyAllocator_new /\
       owned (fst s') (snd s') no_lists ∅ /\ forall W, coalesced W no_lists).
Proof.
  intros Hb Hal. unfold set_base, upd. wp_steps; [done|].
  split_and!; [done|done|by apply owned_init|].
  intros W k p _ _ Hp. by apply elem_of_nil in Hp.
Qed.

(** ** Completeness of the search *)

(** The free aligned run [(k, p)]: every one of its pages is free. *)
Definition free_run (F : Z -> list Z) (k p : Z) : Prop :=
  (2 ^ k | p) /\ forall x, bpage (k, p) x -> cover F x.

(** Two aligned blocks that meet are nested. *)
Lemma aligned_nested j q k p x :
  0 <= k <= j -> (2 ^ j | q) -> (2 ^ k | p) -> bpage (j, q) x -> bpage (k, p) x ->
  q <= p /\ p + 2 ^ k <= q + 2 ^ j.
Proof.
  intros Hk [c ->] [d ->]. unfold bpage; simpl. intros Hx Hy.
  replace j with (j - k + k) in * by lia. rewrite Z.pow_add_r in * by lia.
  pose proof (Z.pow_pos_nonneg 2 (j - k) ltac:(lia) ltac:(lia)).
  pose proof (Z.pow_pos_nonneg 2 k ltac:(lia) ltac:(lia)).
  set (u := 2 ^ (j - k)) in *. set (v := 2 ^ k) in *.
  assert (c * u < d + 1) by (apply (Z.mul_lt_mono_pos_r v); lia).
  assert (d < (c + 1) * u) by (apply (Z.mul_lt_mono_pos_r v); lia). nia.
Qed.

(** One block inside another. *)
Definition inside (bl bl' : block) : Prop :=
  snd bl' <= snd bl /\ snd bl + 2 ^ fst bl <= snd bl' + 2 ^ fst bl'.

(** When no two free buddies are left unmerged inside [W], every free aligned
    run inside [W] lies in a single free block. *)
Lemma run_in_block W b m F k p :
  rep b m F -> coalesced W F -> 0 <= k < BUDDY_MAX_ORDER -> free_run F k p ->
  (forall bl, inside bl (k, p) -> W bl) ->
  exists j q, k <= j < BUDDY_MAX_ORDER /\ q ∈ F j /\ q <= p /\ p + 2 ^ k <= q + 2 ^ j.
Proof.
  intros R Hco Hk. destruct Hk as [Hk Hlt]. revert p Hlt. pattern k. revert k Hk.
  apply natlike_ind.
  - intros p Hlt [_ Hrun] _. destruct (Hrun p) as ([j q] & Hf & Hb); [unfold bpage; simpl; lia|].
    destruct (rep_ok _ _ _ R _ Hf) as (Hj & _). unfold bpage in Hb; simpl in *.
    exists j, q. split_and!; [lia|lia|done|lia|lia].
  - intros k Hk IH p Hlt [Hal Hrun] HW. rewrite <- Z.add_1_r in *. pose proof (pow2_succ k Hk) as Hpw.
    pose proof (Z.pow_pos_nonneg 2 k ltac:(lia) Hk).
    assert ((2 ^ k | p)) as Hal0 by (eapply divide_pow2_le; [|exact Hal]; lia).
    assert (forall d, 0 <= d < 2 -> exists j q, k <= j < BUDDY_MAX_ORDER /\ q ∈ F j /\
      q <= p + d * 2 ^ k /\ p + d * 2 ^ k + 2 ^ k <= q + 2 ^ j) as Hhalf.
    { intros d Hd. apply (IH (p + d * 2 ^ k)); [lia| |].
      - split; [apply Z.divide_add_r; [done|apply Z.divide_factor_r]|].
        intros x Hx. apply Hrun. unfold bpage in *; simpl in *. nia.
      - intros bl Hbl. apply HW. unfold inside in *; simpl in *. nia. }
    assert (forall j q d, 0 <= d < 2 -> k < j -> q ∈ F j -> q <= p + d * 2 ^ k ->
      p + d * 2 ^ k + 2 ^ k <= q + 2 ^ j -> q <= p /\ p + 2 ^ (k + 1) <= q + 2 ^ j) as Hup.
    { intros j q d Hd Hj Hq H1 H2. destruct (rep_ok _ _ _ R (j, q) Hq) as (_ & _ & Hqal & _). simpl in Hqal.
      apply (aligned_nested j q (k + 1) p (p + d * 2 ^ k)); [lia|done|done|..];
        unfold bpage; simpl; nia. }
    destruct (Hhalf 0 ltac:(lia)) as (j0 & q0 & Hj0 & Hq0 & Ha0 & Hb0).
    destruct (decide (k < j0)).
    { destruct (Hup j0 q0 0 ltac:(lia) ltac:(lia) Hq0 Ha0 Hb0). exists j0, q0. by split_and!; try lia. }
    destruct (Hhalf 1 ltac:(lia)) as (j1 & q1 & Hj1 & Hq1 & Ha1 & Hb1).
    destruct (decide (k < j1)).
    { destruct (Hup j1 q1 1 ltac:(lia) ltac:(lia) Hq1 Ha1 Hb1). exists j1, q1. by split_and!; try lia. }
    assert (j0 = k /\ j1 = k) as [-> ->] by lia. exfalso.
    assert (q0 = p) as -> by lia. assert (q1 = p + 2 ^ k) as -> by lia.
    destruct (rep_ok _ _ _ R (k, p) Hq0) as (_ & Hp0 & _). simpl in Hp0.
    assert (inside (pair_of k p) (k + 1, p)) as Hpair.
    { unfold inside, pair_of. simpl.
      destruct (buddy_facts k p Hk Hp0 Hal0) as (_ & _ & _ & _ & Hr & _ & [[E1 E2]|[E1 E2]]); [lia|exfalso].
      destruct Hr as [u Hu], Hal as [c Hc]. rewrite Hpw in Hu, Hc. set (v := 2 ^ k) in *.
      assert (2 * (c - u) = 1); [|lia]. apply (Z.mul_cancel_r _ _ v); lia. }
    apply (Hco k p); [lia|by apply HW|done|]. unfold buddy_of.
    rewrite lxor_pow2; [done|lia|done|].
    destruct Hal as [c ->]. rewrite Hpw. replace (c * (2 * 2 ^ k)) with ((2 * c + 0) * 2 ^ k) by lia.
    by rewrite testbit_slot.
Qed.
