(* ===== verification/BuddySpec.v ===== *)
(** * What the buddy allocator promises (abalone/src/buddy.rs)

    The allocator under its contract is a transition system: memory regions are
    registered, blocks are allocated and released, clients write to anything
    but free pages.  [sys_reach] follows every reachable state; the abstract
    page pool ([pool_step]) is what the transition system refines: a set of
    registered regions and the blocks held, an allocation taking any aligned
    free run and failing only when no region has one inside. *)

From stdpp Require Import relations.
From S2P Require Import Prelude Dll Pages Buddy.

(** ** The allocator under its contract *)

Record sys := mkSys {
  sy_b : BuddyAllocator;
  sy_m : mem;
  sy_regions : list (Z * Z);
  sy_held : gset block
}.

Definition in_regions (rs : list (Z * Z)) (p : Z) : Prop :=
  exists r, r ∈ rs /\ fst r <= p < fst r + snd r.

(** Registered pages nobody holds. *)
Definition pool_free (rs : list (Z * Z)) (A : gset block) (p : Z) : Prop :=
  in_regions rs p /\ forall bl, bl ∈ A -> ~ bpage bl p.

Inductive event :=
| ERegion (off n : Z)
| EAlloc (order p : Z)
| EFail (order : Z)
| EDealloc (order p : Z)
| EWrite.

(** A block inside one of the regions. *)
Definition in_one (rs : list (Z * Z)) (bl : block) : Prop :=
  exists r, r ∈ rs /\ fst r <= snd bl /\ snd bl + 2 ^ fst bl <= fst r + snd r.

(** The caller's side of [add_region]: within the bitmaps, and of pages that
    were not registered before. *)
Definition region_contract (s : sys) (off n : Z) : Prop :=
  0 <= off /\ 0 < n /\ off + n <= CAPACITY /\
  base (sy_b s) + (off + n) * PAGE_SIZE <= W64 /\
  (total_pages (sy_b s) + n) * PAGE_SIZE < W64 /\
  (forall p, off <= p < off + n -> ~ in_regions (sy_regions s) p).

Inductive sys_step : event -> sys -> sys -> Prop :=
| step_region s off n b' m' :
    region_contract s off n ->
    add_region (page_addr (base (sy_b s)) off) n (sy_b s, sy_m s) = Ok (tt, (b', m')) ->
    sys_step (ERegion off n) s (mkSys b' m' ((off, n) :: sy_regions s) (sy_held s))
| step_alloc s order ptr b' m' :
    0 <= order < BUDDY_MAX_ORDER -> alloc_count (stats (sy_b s)) + 1 < W64 ->
    alloc_pages order (sy_b s, sy_m s) = Ok (Some ptr, (b', m')) ->
    sys_step (EAlloc order (page_of (base (sy_b s)) ptr)) s
      (mkSys b' m' (sy_regions s) ({[(order, page_of (base (sy_b s)) ptr)]} ∪ sy_held s))
| step_fail s order b' m' :
    0 <= order < BUDDY_MAX_ORDER -> alloc_count (stats (sy_b s)) + 1 < W64 ->
    alloc_pages order (sy_b s, sy_m s) = Ok (None, (b', m')) ->
    sys_step (EFail order) s (mkSys b' m' (sy_regions s) (sy_held s))
| step_dealloc s order p b' m' :
    (order, p) ∈ sy_held s -> dealloc_count (stats (sy_b s)) + 1 < W64 ->
    dealloc_pages (page_addr (base (sy_b s)) p) order (sy_b s, sy_m s) = Ok (tt, (b', m')) ->
    sys_step (EDealloc order p) s (mkSys b' m' (sy_regions s) (sy_held s ∖ {[(order, p)]}))
| step_write s m' :
    (forall x, pool_free (sy_regions s) (sy_held s) (page_of (base (sy_b s)) x) ->
       rd m' x = rd (sy_m s) x) ->
    sys_step EWrite s (mkSys (sy_b s) m' (sy_regions s) (sy_held s)).

(** The state [set_base] leaves. *)
Inductive sys_init : sys -> Prop :=
| init_base a b m m' :
    0 < a -> set_base a (BuddyAllocator_new, m) = Ok (tt, (b, m')) ->
    sys_init (mkSys b m' [] ∅).

Definition sys_reach (s : sys) : Prop :=
  exists s0, sys_init s0 /\ rtc (fun s s' => exists e, sys_step e s s') s0 s.

(** ** The invariant of the system *)

Record sys_inv (s : sys) (F : Z -> list Z) : Prop := mkSysInv {
  si_owned : owned (sy_b s) (sy_m s) F (sy_held s);
  si_coalesced : coalesced (in_one (sy_regions s)) F;
  si_cover : forall p, cover F p <-> pool_free (sy_regions s) (sy_held s) p;
  si_held : forall bl p, bl ∈ sy_held s -> bpage bl p -> in_regions (sy_regions s) p
}.

Lemma init_inv s : sys_init s -> exists F, sys_inv s F.
Proof.
  intros [a b m m' Ha Hrun]. exists no_lists.
  assert (a mod PAGE_SIZE = 0) as Hal.
  { revert Hrun. unfold set_base, bind, gets, assert. simpl.
    destruct (Z.eqb_spec (a mod PAGE_SIZE) 0); done. }
  pose proof (wp_set_base a m Ha Hal) as Hw. unfold wp in Hw. rewrite Hrun in Hw. simpl in Hw.
  destruct Hw as (-> & -> & O & Hc). split; simpl; try done.
  - intros p. split; [intros Hp; by apply not_cover_empty in Hp|].
    intros [(r & Hr & _) _]. by apply elem_of_nil in Hr.
Qed.

Lemma in_regions_cons r rs p :
  in_regions (r :: rs) p <-> fst r <= p < fst r + snd r \/ in_regions rs p.
Proof.
  unfold in_regions. setoid_rewrite elem_of_cons. split.
  - intros (r' & [->|Hr] & Hp); eauto.
  - intros [Hp|(r' & Hr & Hp)]; eauto.
Qed.

(** The free lists are a function of the machine state. *)
Lemma rep_lists_unique b m F F' k : rep b m F -> rep b m F' -> 0 <= k < BUDDY_MAX_ORDER -> F k = F' k.
Proof.
  intros R R' Hk. apply (inj (fmap (page_addr (base b)))).
  eapply dlist_functional; [apply (rep_list _ _ _ R _ Hk)|apply (rep_list _ _ _ R' _ Hk)].
Qed.

Lemma rep_free_unique b m F F' bl : rep b m F -> rep b m F' -> free F' bl -> free F bl.
Proof.
  intros R R' Hf. unfold free in *. destruct (rep_ok _ _ _ R' _ Hf) as (Hk & _). by rewrite (rep_lists_unique b m F F').
Qed.

(** The free pages are a function of the machine state. *)
Lemma rep_cover_unique b m F F' p : rep b m F -> rep b m F' -> cover F' p -> cover F p.
Proof.
  intros R R' (bl & Hf & Hp). exists bl. split; [|done]. by eapply rep_free_unique.
Qed.

(** Before the first release no free block crosses the border of two regions. *)
Definition unmerged (s : sys) : Prop :=
  forall F bl, rep (sy_b s) (sy_m s) F -> free F bl -> in_one (sy_regions s) bl.

(** What the contract of [add_region] gives to the allocator. *)
Lemma region_contract_ok s F off n :
  sys_inv s F -> region_contract s off n -> region_ok (sy_b s) F (sy_held s) off n.
Proof.
  intros [O Hco Hcov Hheld] (Hoff & Hn & Hcap & Hend & Hbytes & Hsep). split; try done; try lia.
  - intros p Hp [Hc _]%Hcov. by apply (Hsep p).
  - intros p bl Hp Hbl Hb. apply (Hsep p); [done|]. by eapply Hheld.
Qed.

Lemma in_one_page rs bl p : in_one rs bl -> bpage bl p -> in_regions rs p.
Proof. intros (r & Hr & H1 & H2) Hp. exists r. split; [done|]. unfold bpage in Hp. lia. Qed.

Lemma in_one_cons r rs bl :
  in_one (r :: rs) bl <-> (fst r <= snd bl /\ snd bl + 2 ^ fst bl <= fst r + snd r) \/ in_one rs bl.
Proof.
  unfold in_one. setoid_rewrite elem_of_cons. split.
  - intros (r' & [->|Hr] & Hp); eauto.
  - intros [Hp|(r' & Hr & Hp)]; eauto.
Qed.

Lemma step_region_inv s F off n b' m' :
  sys_inv s F -> region_contract s off n ->
  add_region (page_addr (base (sy_b s)) off) n (sy_b s, sy_m s) = Ok (tt, (b', m')) ->
  exists F', sys_inv (mkSys b' m' ((off, n) :: sy_regions s) (sy_held s)) F'.
Proof.
  intros I Hctr Hrun. pose proof (region_contract_ok _ _ _ _ I Hctr) as Hok.
  destruct I as [O Hco Hcov Hheld].
  use_run (wp_add_region _ _ _ _ off n O Hok) Hrun. destruct Hpost as [F' [O' Hc' Hb _ _ _ _ Hco']].
  exists F'. split; simpl; [done| | |].
  - eapply Hco'; [|exact (fun bl p Hbl Hp Hr => proj2 (proj2 (proj2 (proj2 (proj2 Hctr)))) p Hr (in_one_page _ _ _ Hbl Hp))|exact Hco].
    intros bl [?|?]%in_one_cons; [by right|by left].
  - intros p. rewrite Hc', Hcov. unfold pool_free. rewrite in_regions_cons. simpl.
    split; [intros [[? ?]|Hp]; [auto|]|intros [[?|?] ?]; auto].
    split; [auto|]. intros bl Hbl. by apply (rg_held _ _ _ _ _ Hok).
  - intros bl p Hbl Hp. apply in_regions_cons. eauto.
Qed.

Lemma step_alloc_inv s F order ptr b' m' :
  sys_inv s F -> 0 <= order < BUDDY_MAX_ORDER -> alloc_count (stats (sy_b s)) + 1 < W64 ->
  alloc_pages order (sy_b s, sy_m s) = Ok (Some ptr, (b', m')) ->
  let bl := (order, page_of (base (sy_b s)) ptr) in
  ptr = page_addr (base (sy_b s)) (snd bl) /\ block_ok (base (sy_b s)) bl /\
  (forall p, bpage bl p -> pool_free (sy_regions s) (sy_held s) p) /\
  exists F', sys_inv (mkSys b' m' (sy_regions s) ({[bl]} ∪ sy_held s)) F'.
Proof.
  intros [O Hco Hcov Hheld] Ho Hct Hrun.
  use_run (wp_alloc_pages _ _ _ _ _ O Ho Hct) Hrun.
  destruct Hpost as (p & F' & -> & [O' Hnew Hfrom Hc' Hb _ _ Hco' _] & _). simpl in O', Hb.
  rewrite page_of_addr. cbn zeta.
  split; [done|split; [|split]].
  - rewrite <- Hb. apply (ow_ok _ _ _ _ O'). set_solver.
  - intros q Hq. by apply Hcov, Hfrom.
  - exists F'. split; simpl; [done|by apply Hco'| |].
    + intros q. rewrite Hc', Hcov. unfold pool_free. set_solver.
    + intros bl q [->%elem_of_singleton|Hbl]%elem_of_union Hq; [|by eapply Hheld].
      by apply Hfrom, Hcov in Hq as [? _].
Qed.

Lemma step_fail_inv s F order b' m' :
  sys_inv s F -> 0 <= order < BUDDY_MAX_ORDER -> alloc_count (stats (sy_b s)) + 1 < W64 ->
  alloc_pages order (sy_b s, sy_m s) = Ok (None, (b', m')) ->
  (b', m') = (sy_b s, sy_m s) /\ forall k, order <= k < BUDDY_MAX_ORDER -> F k = [].
Proof.
  intros [O _ _ _] Ho Hct Hrun. use_run (wp_alloc_pages _ _ _ _ _ O Ho Hct) Hrun. done.
Qed.

Lemma step_dealloc_inv s F order p b' m' :
  sys_inv s F -> (order, p) ∈ sy_held s -> dealloc_count (stats (sy_b s)) + 1 < W64 ->
  dealloc_pages (page_addr (base (sy_b s)) p) order (sy_b s, sy_m s) = Ok (tt, (b', m')) ->
  exists F', sys_inv (mkSys b' m' (sy_regions s) (sy_held s ∖ {[(order, p)]})) F'.
Proof.
  intros [O Hco Hcov Hheld] Hin Hct Hrun.
  use_run (wp_dealloc_pages _ _ _ _ _ _ O Hin Hct) Hrun. destruct Hpost as [F' [O' Hc' Hb _ _ Hco']].
  assert (forall bl, bl ∈ sy_held s -> 0 <= fst bl) as Hpos
    by (intros bl Hbl; destruct (ow_ok _ _ _ _ O _ Hbl) as (? & _); lia).
  exists F'. split; simpl; [done|by apply Hco'| |].
  - intros q. rewrite Hc', Hcov. unfold pool_free. split.
    + intros [[Hr Hq]|Hb2]; [set_solver|]. split; [by eapply Hheld|].
      intros bl [Hbl Hne%not_elem_of_singleton]%elem_of_difference Hb3.
      by apply (proj1 (disj_bpage bl (order, p) (Hpos _ Hbl) (Hpos _ Hin))
                  (ow_disj _ _ _ _ O _ _ Hbl Hin Hne) q).
    + intros [Hr Hq]. destruct (decide (snd (order, p) <= q < snd (order, p) + 2 ^ fst (order, p)));
        [by right|left]. split; [done|]. intros bl Hbl Hb2.
      destruct (decide (bl = (order, p))) as [->|]; [done|]. apply (Hq bl); [set_solver|done].
  - intros bl q [Hbl _]%elem_of_difference. by apply Hheld.
Qed.

Lemma step_write_inv s F m' :
  sys_inv s F ->
  (forall x, pool_free (sy_regions s) (sy_held s) (page_of (base (sy_b s)) x) ->
     rd m' x = rd (sy_m s) x) ->
  sys_inv (mkSys (sy_b s) m' (sy_regions s) (sy_held s)) F.
Proof.
  intros [O Hco Hcov Hheld] Hm. split; simpl; try done. destruct O. split; try done.
  eapply rep_frame; [done|]. intros x Hx. by apply Hm, Hcov.
Qed.

Lemma step_inv e s s' F : sys_inv s F -> sys_step e s s' -> exists F', sys_inv s' F'.
Proof.
  intros I Hs. destruct Hs.
  - by eapply step_region_inv.
  - by eapply step_alloc_inv.
  - destruct (step_fail_inv _ _ _ _ _ I H H0 H1) as [[= -> ->] _]. exists F. by destruct s.
  - by eapply step_dealloc_inv.
  - exists F. by apply step_write_inv.
Qed.

Lemma reach_inv s : sys_reach s -> exists F, sys_inv s F.
Proof.
  intros (s0 & H0%init_inv & Hr). induction Hr as [s|s1 s2 s3 (e & Hs) Hr IH]; [done|].
  apply IH. destruct H0 as [F I]. by eapply step_inv.
Qed.

(** ** The abstract page pool *)

Record pool := mkPool { po_regions : list (Z * Z); po_held : gset block }.

Definition po_free (P : pool) (p : Z) : Prop := pool_free (po_regions P) (po_held P) p.

(** An aligned run of [2^order] free pages. *)
Definition po_run (P : pool) (order p : Z) : Prop :=
  (2 ^ order | p) /\ forall x, bpage (order, p) x -> po_free P x.

Inductive pool_step : event -> pool -> pool -> Prop :=
| pool_region P off n :
    (forall p, off <= p < off + n -> ~ in_regions (po_regions P) p) ->
    pool_step (ERegion off n) P (mkPool ((off, n) :: po_regions P) (po_held P))
| pool_alloc P order p :
    po_run P order p ->
    pool_step (EAlloc order p) P (mkPool (po_regions P) ({[(order, p)]} ∪ po_held P))
| pool_fail P order :
    (forall p, po_run P order p -> ~ in_one (po_regions P) (order, p)) -> pool_step (EFail order) P P
| pool_dealloc P order p :
    (order, p) ∈ po_held P ->
    pool_step (EDealloc order p) P (mkPool (po_regions P) (po_held P ∖ {[(order, p)]}))
| pool_write P : pool_step EWrite P P.

(** The pool a machine state stands for. *)
Definition pool_of (s : sys) : pool := mkPool (sy_regions s) (sy_held s).

Lemma fail_no_run s F order p :
  sys_inv s F -> 0 <= order < BUDDY_MAX_ORDER ->
  (forall k, order <= k < BUDDY_MAX_ORDER -> F k = []) -> po_run (pool_of s) order p ->
  ~ in_one (sy_regions s) (order, p).
Proof.
  intros [O Hco Hcov _] Ho Hnil [Hal Hrun] (r & Hr & H1 & H2).
  destruct (run_in_block _ _ _ F order p (ow_rep _ _ _ _ O) Hco Ho) as (j & q & Hj & Hq & _).
  { split; [done|]. intros x Hx. by apply Hcov, Hrun. }
  { intros bl [H3 H4]. exists r. simpl in *. split; [done|lia]. }
  rewrite (Hnil j Hj) in Hq. by apply elem_of_nil in Hq.
Qed.

Lemma step_refines s s' e F : sys_inv s F -> sys_step e s s' -> pool_step e (pool_of s) (pool_of s').
Proof.
  intros I Hs. destruct Hs as [s off n b' m' Hc Hrun|s order ptr b' m' Ho Hct Hrun
    |s order b' m' Ho Hct Hrun|s order p b' m' Hin Hct Hrun|s m' Hm].
  - apply pool_region. apply Hc.
  - destruct (step_alloc_inv _ _ _ _ _ _ I Ho Hct Hrun) as (_ & (_ & _ & Hal & _) & Hfree & _).
    by apply (pool_alloc (pool_of s)).
  - destruct (step_fail_inv _ _ _ _ _ I Ho Hct Hrun) as [_ Hnil].
    apply (pool_fail (pool_of s)). intros p Hp. by eapply fail_no_run.
  - by apply (pool_dealloc (pool_of s)).
  - apply (pool_write (pool_of s)).
Qed.

(** ** The interface, discharged *)

Definition byte_block (a : Z) (bl : block) : Z * Z := (fst bl, page_addr a (snd bl)).

Lemma in_byte_block a bl x : in_block (byte_block a bl) x <-> bpage bl (page_of a x).
Proof.
  unfold in_block, block_size, byte_block, bpage, page_addr, page_of, PAGE_SIZE; simpl.
  pose proof (Z.div_mod (x - a) 4096). pose proof (Z.mod_pos_bound (x - a) 4096). lia.
Qed.

#[export] Instance byte_block_inj a : Inj (=) (=) (byte_block a).
Proof. intros [k p] [j q] [= -> E]. f_equal. by apply (inj (page_addr a)). Qed.

Definition buddy_inv (b : BuddyAllocator) (m : mem) (A : gset block) : Prop :=
  exists F B, owned b m F B /\ A = set_map (byte_block (base b)) B /\ base b mod PAGE_SIZE = 0.

Lemma byte_disj a b1 b2 :
  0 <= fst b1 -> 0 <= fst b2 -> disj b1 b2 -> block_disj (byte_block a b1) (byte_block a b2).
Proof.
  intros H1 H2 Hd x. rewrite !in_byte_block. by apply (proj1 (disj_bpage b1 b2 H1 H2)).
Qed.

(** Writes to free pages keep what the clients hold. *)
Lemma free_writes_kept (b : BuddyAllocator) (m0 m m' : mem) (F : Z -> list Z) (B A : gset block) :
  owned b m0 F B -> (forall bl, bl ∈ A -> bl ∈ B) -> writes_only (in_free (base b) F) m m' ->
  pages_kept (set_map (byte_block (base b)) A) m m'.
Proof.
  intros O Hsub Hw bl x (bl0 & -> & Hbl%Hsub)%elem_of_map Hx%in_byte_block. apply Hw.
  intros Hc. assert (0 <= fst bl0) by (destruct (ow_ok _ _ _ _ O _ Hbl) as (? & _); lia).
  revert Hx Hc. apply fresh_cover; [done|intros; eapply free_order; [apply O|done]|].
  by apply (ow_fresh _ _ _ _ O).
Qed.

(** No free block of any order: no free page. *)
Lemma no_free_pages F : (forall k, 0 <= k < BUDDY_MAX_ORDER -> F k = []) -> free_pages F = 0.
Proof.
  intros HF. unfold free_pages. enough (forall l : list Z, (forall k, k ∈ l -> 0 <= k < BUDDY_MAX_ORDER) ->
    zsum ((fun k => Z.of_nat (length (F k)) * 2 ^ k) <$> l) = 0) as H.
  { apply H. intros k Hk%elem_of_seqZ. unfold BUDDY_MAX_ORDER in *. lia. }
  induction l as [|k l IH]; [done|]. intros Hl. rewrite fmap_cons. simpl.
  rewrite HF by (apply Hl; set_solver). simpl. apply IH. intros j Hj. apply Hl. set_solver.
Qed.

Lemma buddy_alloc_spec b m A order :
  buddy_inv b m A -> alloc_count (stats b) + 1 < W64 -> 0 <= order < 17 ->
  wp (alloc_pages order) (b, m) (fun r s' =>
    match r with
    | None => s' = (b, m) /\ (order = 0 -> free_bytes (stats b) / PAGE_SIZE <= 0)
    | Some ptr =>
        buddy_inv (fst s') (snd s') ({[(order, ptr)]} ∪ A) /\
        0 < ptr /\ ptr + block_size order <= W64 /\ ptr mod 4096 = 0 /\
        (forall bl, bl ∈ A -> block_disj (order, ptr) bl) /\
        pages_kept A m (snd s') /\
        (dealloc_count (stats (fst s')) = dealloc_count (stats b) /\
         alloc_count (stats (fst s')) = alloc_count (stats b) + 1) /\
        base (fst s') = base b /\
        free_bytes (stats (fst s')) / PAGE_SIZE = free_bytes (stats b) / PAGE_SIZE - 2 ^ order
    end).
Proof.
  intros (F & B & O & -> & Hal) Hct Ho. eapply wp_mono; [by apply wp_alloc_pages|].
  intros [ptr|] s'.
  2: { intros [-> HF]. split; [done|]. intros ->. rewrite (ow_free _ _ _ _ O), Z.div_mul by done.
       by rewrite no_free_pages. }
  intros (p & F' & -> & [O' Hnew _ _ Hb Htp Hw _ Hdc] & _).
  assert (block_ok (base b) (order, p)) as Hok by (rewrite <- Hb; apply (ow_ok _ _ _ _ O'); set_solver).
  destruct Hok as (Hk & Hp & _ & Hend & _). simpl in *. pose proof (rep_base _ _ _ (ow_rep _ _ _ _ O)).
  assert ((order, p) ∉ B) as Hni by (intros Hin; by apply (disj_irrefl (order, p)); [simpl; lia|apply Hnew]).
  split_and!.
  - exists F', ({[(order, p)]} ∪ B). split_and!; [done| |by rewrite Hb].
    by rewrite Hb, set_map_union_L, set_map_singleton_L.
  - page_cells.
  - unfold block_size. page_cells.
  - unfold page_addr, PAGE_SIZE in *. by rewrite Z.mod_add.
  - intros bl (bl0 & -> & Hbl)%elem_of_map. apply (byte_disj (base b) (order, p) bl0); [simpl; lia| |auto].
    destruct (ow_ok _ _ _ _ O _ Hbl) as (? & _); lia.
  - by eapply free_writes_kept.
  - apply Hdc.
  - apply Hdc.
  - done.
  - rewrite (ow_free _ _ _ _ O'), (ow_free _ _ _ _ O), !Z.div_mul by done.
    pose proof (ow_total _ _ _ _ O'). pose proof (ow_total _ _ _ _ O).
    rewrite block_pages_insert in * by done. simpl in *. lia.
Qed.

Lemma buddy_dealloc_spec b m A order ptr :
  buddy_inv b m A -> dealloc_count (stats b) + 1 < W64 -> (order, ptr) ∈ A ->
  wp (dealloc_pages ptr order) (b, m) (fun _ s' =>
    buddy_inv (fst s') (snd s') (A ∖ {[(order, ptr)]}) /\
    pages_kept (A ∖ {[(order, ptr)]}) m (snd s')).
Proof.
  intros (F & B & O & -> & Hal) Hct ([k p] & [= -> ->] & Hin)%elem_of_map.
  assert (set_map (byte_block (base b)) B ∖ {[byte_block (base b) (k, p)]} =
          (set_map (byte_block (base b)) (B ∖ {[(k, p)]}) : gset block)) as E.
  { apply set_eq. intros x. rewrite elem_of_difference, !elem_of_map, elem_of_singleton.
    setoid_rewrite elem_of_difference. setoid_rewrite elem_of_singleton. split.
    - intros [(y & -> & Hy) Hne]. exists y. split_and!; [done..|]. by intros ->.
    - intros (y & -> & Hy & Hne). split; [eauto|]. by intros ?%(inj (byte_block (base b))). }
  change (k, page_addr (base b) p) with (byte_block (base b) (k, p)). rewrite E.
  eapply wp_mono; [by apply wp_dealloc_pages|]. intros _ s' (F' & [O' Hc Hb _ Hw _]). split.
  - exists F', (B ∖ {[(k, p)]}). by rewrite Hb.
  - rewrite <- Hb. eapply free_writes_kept; [exact O'|done|]. rewrite Hb.
    eapply writes_only_weaken; [|exact Hw]. intros x Hx. by apply Hc.
Qed.

#[export] Program Instance buddy_frames : FrameSource BuddyAllocator := {
  pa_alloc := alloc_pages;
  pa_inv := buddy_inv;
  pa_can_alloc n b := alloc_count (stats b) + Z.of_nat n < W64;
  pa_lo b := base b;
  pa_hi b := base b + CAPACITY * PAGE_SIZE;
  pa_frames b := free_bytes (stats b) / PAGE_SIZE
}.
Next Obligation. intros n b H. cbv beta in *. lia. Qed.
Next Obligation.
  intros b m A order ptr (F & B & O & -> & _) ([k p] & [= -> ->] & Hin)%elem_of_map.
  destruct (ow_ok _ _ _ _ O _ Hin) as (_ & Hp & _ & _ & Hcap). simpl in *.
  unfold page_addr, block_size, PAGE_SIZE in *. lia.
Qed.
Next Obligation.
  intros b m A b1 b2 (F & B & O & -> & _) (x1 & -> & H1)%elem_of_map (x2 & -> & H2)%elem_of_map Hne.
  destruct (ow_ok _ _ _ _ O _ H1) as (? & _), (ow_ok _ _ _ _ O _ H2) as (? & _).
  apply byte_disj; [lia|lia|]. apply (ow_disj _ _ _ _ O); [done|done|]. by intros ->.
Qed.
Next Obligation.
  intros b m A order n HI Hr Ho. cbv beta in Hr. eapply wp_mono; [apply buddy_alloc_spec; [done|lia|done]|].
  intros [ptr|] s' Hs; [|done]. destruct Hs as (? & ? & ? & ? & ? & ? & [_ ->] & -> & ->).
  split_and!; try done; lia.
Qed.
Next Obligation.
  intros b m m' A (F & B & O & -> & Hal) Hm. exists F, B. split; [|done].
  enough (rep b m' F) as R. { destruct O; split; eauto. } eapply rep_frame; [apply O|]. intros x Hx.
  destruct (decide (rd m' x = rd m x)) as [|Hne]; [done|exfalso].
  destruct (Hm x Hne) as (bl & (bl0 & -> & Hbl)%elem_of_map & Hin%in_byte_block).
  assert (0 <= fst bl0) by (destruct (ow_ok _ _ _ _ O _ Hbl) as (? & _); lia).
  revert Hin Hx. apply fresh_cover; [done|intros; eapply free_order; [apply O|done]|].
  by apply (ow_fresh _ _ _ _ O).
Qed.

#[export] Program Instance buddy_pages : PageAllocator BuddyAllocator := {
  pa_source := buddy_frames;
  pa_dealloc := dealloc_pages;
  pa_can_free b := dealloc_count (stats b) + 1 < W64
}.
Next Obligation.
  intros b m A order n HI Hr Ho. simpl in *. eapply wp_mono; [apply buddy_alloc_spec; [done|lia|done]|].
  intros [ptr|] s' Hs; [|by destruct Hs as [-> _]]. by destruct Hs as (_ & _ & _ & _ & _ & _ & [-> _] & _).
Qed.
Next Obligation. intros b m A order ptr HI Hr Hin. by apply buddy_dealloc_spec. Qed.

(** ** A concrete run, for the witnesses *)

(** Base 1 MiB, eight pages registered, one order-1 block allocated. *)
Definition run0 : BState := final (set_base 1048576) (BuddyAllocator_new, ∅).
Definition run1 : BState := final (add_region 1048576 8) run0.
Definition run2 : BState := final (alloc_pages 1) run1.

Definition sys0 : sys := mkSys (fst run0) (snd run0) [] ∅.
Definition sys1 : sys := mkSys (fst run1) (snd run1) [(0, 8)] ∅.
Definition sys2 : sys := mkSys (fst run2) (snd run2) [(0, 8)] ({[(1, 0)]} ∪ ∅).

Lemma run0_init : sys_init sys0.
Proof.
  apply (init_base 1048576 (fst run0) ∅ (snd run0)); [lia|].
  rewrite <- (surjective_pairing run0). apply run_ok. by vm_compute.
Qed.

Lemma run1_contract : region_contract sys0 0 8.
Proof.
  unfold region_contract. assert (base (sy_b sys0) = 1048576) as -> by by vm_compute.
  assert (total_pages (sy_b sys0) = 0) as -> by by vm_compute.
  assert (CAPACITY = 131200) as -> by by vm_compute. unfold PAGE_SIZE, W64.
  split_and!; try lia. intros p _ (r & Hr & _). by apply elem_of_nil in Hr.
Qed.

Lemma run1_step : sys_step (ERegion 0 8) sys0 sys1.
Proof.
  apply step_region; [apply run1_contract|].
  rewrite <- (surjective_pairing run1). change (sy_b sys0, sy_m sys0) with (fst run0, snd run0).
  rewrite <- (surjective_pairing run0).
  replace (page_addr (base (sy_b sys0)) 0) with 1048576 by by vm_compute.
  apply run_ok. by vm_compute.
Qed.

Lemma run2_step : sys_step (EAlloc 1 0) sys1 sys2.
Proof.
  assert (page_of (base (sy_b sys1)) 1048576 = 0) as E by by vm_compute. unfold sys2. rewrite <- E.
  apply (step_alloc sys1 1 1048576 (fst run2) (snd run2)); [done|by vm_compute|].
  rewrite <- (surjective_pairing run2). change (sy_b sys1, sy_m sys1) with (fst run1, snd run1).
  rewrite <- (surjective_pairing run1). apply run_ok. by vm_compute.
Qed.

Lemma run1_reach : sys_reach sys1.
Proof. exists sys0. split; [apply run0_init|]. eapply rtc_l; [eexists; apply run1_step|constructor]. Qed.
Lemma run2_reach : sys_reach sys2.
Proof.
  exists sys0. split; [apply run0_init|]. eapply rtc_l; [eexists; apply run1_step|].
  eapply rtc_l; [eexists; apply run2_step|constructor].
Qed.

(** ** Properties *)

(** C1: in every state the kernel can reach through calls that respect the
    allocator's contract, two blocks held by clients never overlap, every held
    page belongs to a registered region, no held page is in a block of a free
    list, and the statistics account for every registered byte. *)
Theorem buddy_no_double_allocation s :
  sys_reach s ->
  (forall b1 b2, b1 ∈ sy_held s -> b2 ∈ sy_held s -> b1 <> b2 -> disj b1 b2) /\
  (forall bl p, bl ∈ sy_held s -> bpage bl p -> in_regions (sy_regions s) p) /\
  (forall F bl p, rep (sy_b s) (sy_m s) F -> bl ∈ sy_held s -> bpage bl p -> ~ cover F p) /\
  used_bytes (stats (sy_b s)) = block_pages (sy_held s) * PAGE_SIZE /\
  used_bytes (stats (sy_b s)) + free_bytes (stats (sy_b s)) = total_bytes (stats (sy_b s)).
Proof.
  intros (F & [O _ Hcov Hheld])%reach_inv. pose proof O as [R _ Hd _ Htot Hu Hfr Hb _ _].
  split_and!; [done|done| |done|unfold PAGE_SIZE in *; lia].
  intros F' bl p R' Hbl Hp Hc. eapply rep_cover_unique in Hc as [_ Hc]%Hcov; [|done..].
  by apply (Hc bl).
Qed.

Lemma buddy_no_double_allocation_witness :
  sys_reach sys2 /\
  used_bytes (stats (sy_b sys2)) + free_bytes (stats (sy_b sys2)) = total_bytes (stats (sy_b sys2)).
Proof. split; [exact run2_reach|]. apply (buddy_no_double_allocation sys2 run2_reach). Defined.

(** C2: every step the buddy allocator takes under its contract is a step of
    the abstract page pool: registering new pages adds the region, an allocation
    takes an aligned run of free pages, a failing allocation happens only when
    no aligned run of that size is free inside any one registered region, a
    release gives back exactly the block, and client writes change nothing.
    Regions may meet; a run across the border of two regions can be free and
    yet not be found ([adjacent_regions_not_merged]). *)
Theorem buddy_refines_pool s s' e :
  sys_reach s -> sys_step e s s' -> pool_step e (pool_of s) (pool_of s') /\ sys_reach s'.
Proof.
  intros Hr Hs. split.
  - destruct (reach_inv _ Hr) as [F I]. by eapply step_refines.
  - destruct Hr as (s0 & H0 & Hr). exists s0. split; [done|]. eapply rtc_r; [done|]. by exists e.
Qed.

Lemma buddy_refines_pool_witness :
  pool_step (EAlloc 1 0) (pool_of sys1) (pool_of sys2).
Proof. apply (buddy_refines_pool sys1 sys2 _ run1_reach run2_step). Defined.

(** No two regions meet. *)
Definition regions_apart (rs : list (Z * Z)) : Prop := forall r r', r ∈ rs -> r' ∈ rs ->
  r = r' \/ fst r + snd r < fst r' \/ fst r' + snd r' < fst r.

(** Then a run of registered pages is inside one of them. *)
Lemma apart_run rs k p : 0 <= k -> regions_apart rs -> (forall x, bpage (k, p) x -> in_regions rs x) -> in_one rs (k, p).
Proof.
  intros Hk Ha Hin. pose proof (Z.pow_pos_nonneg 2 k ltac:(lia) Hk). unfold bpage in Hin. cbn [fst snd] in Hin.
  destruct (Hin p) as (r & Hr & Hp); [lia|]. exists r. cbn [fst snd]. split; [done|]. split; [lia|].
  destruct (Z_le_gt_dec (p + 2 ^ k) (fst r + snd r)) as [|Hgt]; [done|exfalso].
  destruct (Hin (fst r + snd r)) as (r' & Hr' & Hp'); [lia|]. destruct (Ha r r' Hr Hr') as [->|[?|?]]; lia.
Qed.

(** C3: no call that respects the contract panics or loops.  An allocation of
    any order below the maximum returns: [None] exactly when no free list of
    that order or above has a block, only when no region has an aligned run of
    [2^order] free pages, and always when the whole pool has none; if no two
    regions meet, exactly when the pool has none.  Releasing a held block
    returns, and so does registering new pages within capacity. *)
Theorem buddy_calls_return s order p off n :
  sys_reach s -> 0 <= order < BUDDY_MAX_ORDER ->
  alloc_count (stats (sy_b s)) + 1 < W64 -> dealloc_count (stats (sy_b s)) + 1 < W64 ->
  (exists r, result (alloc_pages order) (sy_b s, sy_m s) = Some r /\
     (forall F, rep (sy_b s) (sy_m s) F -> r = None <-> forall k, order <= k < BUDDY_MAX_ORDER -> F k = []) /\
     (forall q, po_run (pool_of s) order q -> in_one (sy_regions s) (order, q) -> r <> None) /\
     ((forall q, ~ po_run (pool_of s) order q) -> r = None) /\
     (regions_apart (sy_regions s) -> r = None <-> forall q, ~ po_run (pool_of s) order q)) /\
  ((order, p) ∈ sy_held s ->
     result (dealloc_pages (page_addr (base (sy_b s)) p) order) (sy_b s, sy_m s) = Some tt) /\
  (region_contract s off n ->
     result (add_region (page_addr (base (sy_b s)) off) n) (sy_b s, sy_m s) = Some tt).
Proof.
  intros (F & I)%reach_inv Ho Hc1 Hc2. pose proof (si_owned _ _ I) as O. split_and!.
  - destruct (wp_result _ _ _ (wp_alloc_pages _ _ _ _ _ O Ho Hc1)) as (r & Hr & Hpost). exists r. split; [done|].
    assert (forall q, r = None -> po_run (pool_of s) order q -> ~ in_one (sy_regions s) (order, q)) as Hin.
    { intros q -> Hq. destruct Hpost as [_ Hnil]. by eapply fail_no_run. }
    assert ((forall q, ~ po_run (pool_of s) order q) -> r = None) as Hno.
    { intros Hno. destruct r as [ptr|]; [exfalso|done].
      destruct Hpost as (q & F' & _ & [O' _ Hfrom _ Hb _ _ _ _] & _). apply (Hno q). split.
      - destruct (ow_ok _ _ _ _ O' (order, q)) as (_ & _ & Hal & _); [set_solver|done].
      - intros x Hx. by apply (si_cover _ _ I), Hfrom. }
    split_and!; [|intros q Hq Hi Hn; by apply (Hin q)|exact Hno|].
    + intros F' R'.
      assert (forall k, order <= k < BUDDY_MAX_ORDER -> F' k = F k) as HF.
      { intros k Hk. apply (rep_lists_unique _ _ _ _ _ R' (ow_rep _ _ _ _ O)). lia. }
      destruct r as [ptr|]; [|destruct Hpost as [_ Hnil]; split; [|done]; intros _ k Hk; by rewrite HF, Hnil].
      split; [done|]. intros Hnil. destruct Hpost as (q & _ & _ & _ & k & Hk & Hq).
      rewrite <- HF, Hnil in Hq by done. by apply elem_of_nil in Hq.
    + intros Ha. split; [|exact Hno]. intros Hr0 q Hq. apply (Hin q Hr0 Hq), apart_run; [lia|done|]. intros x Hx. by apply Hq.
  - intros Hin. by destruct (wp_result _ _ _ (wp_dealloc_pages _ _ _ _ _ _ O Hin Hc2)) as ([] & Hr & _).
  - intros Hctr. pose proof (region_contract_ok _ _ _ _ I Hctr) as Hok.
    by destruct (wp_result _ _ _ (wp_add_region _ _ _ _ _ _ O Hok)) as ([] & Hr & _).
Qed.

Lemma buddy_calls_return_witness :
  result (dealloc_pages (page_addr (base (sy_b sys2)) 0) 1) (sy_b sys2, sy_m sys2) = Some tt.
Proof.
  destruct (buddy_calls_return sys2 1 0 0 0 run2_reach) as (_ & H & _);
    [done|by vm_compute|by vm_compute|]. apply H. simpl. set_solver.
Defined.

(** [add_region] does not merge across the border: two free pages that are a
    pair, registered one at a time, do not serve an allocation of two pages,
    although the pool has the run. *)
Lemma adjacent_regions_not_merged :
  let s := final (set_base 1048576 ;; add_region 1048576 1 ;; add_region 1052672 1) (BuddyAllocator_new, ∅) in
  result (alloc_pages 1) s = Some None /\ result (alloc_pages 0) s <> Some None /\
  po_run (mkPool [(1, 1); (0, 1)] ∅) 1 0.
Proof.
  split; [by vm_compute|]. split; [by vm_compute|]. split; [by exists 0|]. intros x Hx. split; [|set_solver].
  unfold bpage in Hx. cbn [fst snd] in Hx. change (2 ^ 1) with 2 in Hx.
  destruct (decide (x = 0)); [exists (0, 1)|exists (1, 1)]; (split; [set_solver|cbn; lia]).
Qed.

(** C8: an allocation followed by the release of what it returned gives back
    the same free pages and the same used and free byte counts, and writes
    only to pages that were free, whatever the state it starts from. *)
Theorem buddy_alloc_dealloc_roundtrip s F order ptr b1 m1 :
  sys_reach s -> rep (sy_b s) (sy_m s) F -> 0 <= order < BUDDY_MAX_ORDER ->
  alloc_count (stats (sy_b s)) + 1 < W64 -> dealloc_count (stats b1) + 1 < W64 ->
  alloc_pages order (sy_b s, sy_m s) = Ok (Some ptr, (b1, m1)) ->
  exists b2 m2 F2, dealloc_pages ptr order (b1, m1) = Ok (tt, (b2, m2)) /\ rep b2 m2 F2 /\
    (forall p, cover F2 p <-> cover F p) /\
    used_bytes (stats b2) = used_bytes (stats (sy_b s)) /\
    free_bytes (stats b2) = free_bytes (stats (sy_b s)) /\
    writes_only (in_free (base (sy_b s)) F) (sy_m s) m2.
Proof.
  intros (F0 & I)%reach_inv R Ho Hc1 Hc2 Hrun. pose proof (si_owned _ _ I) as O.
  use_run (wp_alloc_pages _ _ _ _ _ O Ho Hc1) Hrun.
  destruct Hpost as (p & F1 & -> & [O1 Hnew Hfrom Hcov1 Hb1 Ht1 Hw1 _ _] & _). simpl in *.
  assert ((order, p) ∈ {[(order, p)]} ∪ sy_held s) as Hin by set_solver.
  rewrite <- Hb1. pose proof (wp_dealloc_pages _ _ _ _ _ _ O1 Hin Hc2) as Hd.
  apply wp_run in Hd as ([] & [b2 m2] & Hrun2 & F2 & [O2 Hcov2 Hb2 Ht2 Hw2 _]). simpl in *.
  assert (forall q, cover F q <-> cover F0 q) as HF
    by (intros q; split; eapply rep_cover_unique; eauto using ow_rep).
  assert (forall q, cover F2 q <-> cover F0 q) as Hc.
  { intros q. rewrite Hcov2, Hcov1. unfold bpage in *; simpl in *.
    split; [intros [[? _]|Hq]; auto|]. intros Hq. destruct (decide (p <= q < p + 2 ^ order)); auto. }
  assert (({[(order, p)]} ∪ sy_held s) ∖ {[(order, p)]} = sy_held s) as HA.
  { assert ((order, p) ∉ sy_held s); [|set_solver]. intros Hin'. apply (disj_irrefl (order, p)); [simpl; lia|].
    by apply Hnew. }
  rewrite HA in O2. exists b2, m2, F2. split_and!; [done|apply O2| | | |].
  - intros q. by rewrite Hc, HF.
  - by rewrite (ow_used _ _ _ _ O2), (ow_used _ _ _ _ O).
  - pose proof (ow_free _ _ _ _ O2). pose proof (ow_free _ _ _ _ O).
    pose proof (ow_total _ _ _ _ O2). pose proof (ow_total _ _ _ _ O).
    unfold PAGE_SIZE in *. lia.
  - eapply writes_only_trans; (eapply writes_only_weaken; [|eassumption]); intros x Hx; unfold in_free.
    + rewrite Hb1. by apply HF.
    + apply HF. destruct Hx as [Hx|Hx]; [|by apply Hfrom].
      by apply Hcov1 in Hx as [? _].
Qed.

Lemma buddy_alloc_dealloc_roundtrip_witness :
  exists b2 m2, dealloc_pages 1048576 1 run2 = Ok (tt, (b2, m2)) /\ used_bytes (stats b2) = 0.
Proof.
  destruct (reach_inv _ run1_reach) as [F I].
  destruct (buddy_alloc_dealloc_roundtrip sys1 F 1 1048576 (fst run2) (snd run2) run1_reach
    (ow_rep _ _ _ _ (si_owned _ _ I))) as (b2 & m2 & F2 & H1 & _ & _ & H2 & _);
    [done|by vm_compute|by vm_compute| |].
  - rewrite <- (surjective_pairing run2). change (sy_b sys1, sy_m sys1) with (fst run1, snd run1).
    rewrite <- (surjective_pairing run1). apply run_ok. by vm_compute.
  - exists b2, m2. split; [by rewrite (surjective_pairing run2)|]. rewrite H2. by vm_compute.
Defined.

(** C29: an allocated block lies inside the registered regions, at a page whose
    index is a multiple of the block's page count; so it is aligned to its own
    size exactly when the allocator's base is.  (The documentation of the slab
    cache takes the latter for granted.) *)
Theorem buddy_alloc_alignment s order ptr b1 m1 :
  sys_reach s -> 0 <= order < BUDDY_MAX_ORDER -> alloc_count (stats (sy_b s)) + 1 < W64 ->
  alloc_pages order (sy_b s, sy_m s) = Ok (Some ptr, (b1, m1)) ->
  base (sy_b s) <= ptr /\ ptr + block_size order <= W64 /\
  (ptr - base (sy_b s)) mod block_size order = 0 /\
  (ptr mod block_size order = 0 <-> base (sy_b s) mod block_size order = 0).
Proof.
  intros (F & I)%reach_inv Ho Hct Hrun.
  destruct (step_alloc_inv _ _ _ _ _ _ I Ho Hct Hrun) as (E & (_ & Hp & [c Hal] & Hend & _) & _).
  simpl in *. rewrite E. set (p := page_of _ _) in *. unfold block_size, page_addr, PAGE_SIZE in *.
  pose proof (Z.pow_pos_nonneg 2 order ltac:(lia) ltac:(lia)).
  assert (p * 4096 = c * (2 ^ order * 4096)) as -> by lia. split_and!; [nia|nia| |].
  - replace (base (sy_b s) + c * (2 ^ order * 4096) - base (sy_b s)) with (c * (2 ^ order * 4096)) by lia.
    apply Z.mod_mul. lia.
  - by rewrite Z.mod_add by lia.
Qed.

Lemma buddy_alloc_alignment_witness :
  (1048576 - base (sy_b sys1)) mod block_size 1 = 0.
Proof.
  destruct (buddy_alloc_alignment sys1 1 1048576 (fst run2) (snd run2) run1_reach) as (_ & _ & H & _);
    [done|by vm_compute| |exact H].
  rewrite <- (surjective_pairing run2). change (sy_b sys1, sy_m sys1) with (fst run1, snd run1).
  rewrite <- (surjective_pairing run1). apply run_ok. by vm_compute.
Defined.

(** The bitmap's bounds check catches an order-0 block beyond the capacity. *)
Lemma free_block_out_of_range b m F p :
  rep b m F -> CAPACITY <= p -> base b + (p + 1) * PAGE_SIZE <= W64 ->
  free_block p 0 (b, m) = Panic.
Proof.
  intros R Hcap Hend. pose proof (rep_base _ _ _ R). pose proof (rep_heads _ _ _ R) as Hh.
  assert (CAPACITY = 131200) as Ecap by by vm_compute.
  destruct (rep_map_lookup b m F 0 R ltac:(done)) as (bm & Hbm & Hlen).
  unfold free_block, PAGE_SIZE in *. apply panic_bind. wp_step.
  apply panic_bind. wp_step. apply panic_bind. wp_step. apply panic_bind. wp_step.
  apply panic_bind. eapply wp_aget; [lia|by apply (rep_head_lookup _ _ _ 0 R)|].
  apply panic_bind. wp_step. apply panic_bind.
  match goal with |- wp _ (b, ?m1) _ => enough (forall m2, (set_free_list 0 (base b + p * 4096);;
    toggle_bit 0 (p ≫ (0 + 1))) (b, m2) = Panic) as Hgo by (destruct (negb _); wp_step; apply Hgo) end.
  intros m2. apply panic_bind. apply wp_set_free_list; [done|done|].
  unfold toggle_bit. apply panic_bind. wp_step. apply panic_bind.
  eapply wp_aget; [done|exact Hbm|]. apply panic_here. unfold toggle. apply panic_here.
  apply panic_aget. rewrite Hlen, Z.shiftr_div_pow2 by lia.
  assert (BITMAP_WORDS = 1025) as -> by by vm_compute.
  change (2 ^ (0 + 1)) with 2. rewrite Z.div_div by lia. change (2 * 64) with 128.
  apply Z.div_le_lower_bound; lia.
Qed.

(** The pair bitmaps bound the allocator: registering any region whose
    first page is an odd index at or beyond [CAPACITY] (131200 pages, 512.5
    MiB) panics on the bitmap's bounds check.  [add_region] has no guard of its
    own, and the constant [MAX_PAGES] of the source is not used. *)
Theorem add_region_beyond_capacity_panics s off n :
  sys_reach s -> CAPACITY <= off -> Z.odd off = true -> 0 < n ->
  base (sy_b s) + (off + 1) * PAGE_SIZE <= W64 ->
  add_region (page_addr (base (sy_b s)) off) n (sy_b s, sy_m s) = Panic.
Proof.
  intros (F & [O _ _ _])%reach_inv Hcap Hodd Hn Hend. pose proof (ow_rep _ _ _ _ O) as R.
  destruct s as [b m rs A]; simpl in *. pose proof (rep_base _ _ _ R) as Hb.
  assert (CAPACITY = 131200) as Ecap by by vm_compute.
  assert (region_order off n = 0) as Eo.
  { destruct (region_order_spec off n ltac:(lia) Hn) as (Hk & [c Hc] & _).
    destruct (decide (region_order off n = 0)) as [|Hz]; [done|exfalso].
    replace (region_order off n) with (region_order off n - 1 + 1) in Hc by lia.
    rewrite pow2_succ in Hc by lia. rewrite Hc in Hodd.
    replace (c * (2 * 2 ^ (region_order off n - 1))) with (0 + 2 * (c * 2 ^ (region_order off n - 1))) in Hodd by lia.
    by rewrite Z.odd_add_mul_2 in Hodd. }
  unfold add_region. apply panic_bind. wp_step. apply panic_bind. wp_step.
  apply panic_bind. wp_step; [apply Z.leb_le; unfold page_addr, PAGE_SIZE; lia|]. apply panic_bind. wp_step; [page_cells|]. apply panic_here.
  replace (page_addr (base b) off - base b) with (off * PAGE_SIZE) by page_cells.
  rewrite Z.div_mul by done. cbn [add_region_loop]. rewrite (proj2 (Z.ltb_lt 0 n)) by done.
  rewrite Eo. apply panic_bind. wp_step. apply panic_here.
  apply (free_block_out_of_range b m F); [done|done|]. unfold PAGE_SIZE in *. lia.
Qed.

Lemma add_region_beyond_capacity_panics_witness :
  add_region (page_addr (base (sy_b sys1)) 131201) 1 (sy_b sys1, sy_m sys1) = Panic.
Proof.
  apply (add_region_beyond_capacity_panics sys1 131201 1 run1_reach); [by vm_compute|done|lia|].
  by vm_compute.
Defined.
