(* ===== verification/Tlsf.v ===== *)
(** * The TLSF heap (abalone/src/tlsf.rs)

    [TlsfInner] is the struct of the source: the first-level bitmap, the
    second-level bitmaps, and the heads of the segregated free lists.  Block
    headers ([BlockHeader]: [size] with two flag bits at byte 0, [prev_phys] at
    8, [next_free] at 16, [prev_free] at 24) live in the pool memory in front
    of every payload.  Pointer arithmetic ([add], [sub]) is plain addition: it
    stays inside the pool by the contract of those operations. *)

From S2P Require Import Prelude Dll.

(** ** Parameters *)

Definition SL_INDEX_COUNT : Z := 5.
Definition FL_INDEX_COUNT : Z := 30.
Definition SL_COUNT : Z := Z.shiftl 1 SL_INDEX_COUNT.
Definition BLOCK_MIN : Z := 32.

Definition FREE_BIT : Z := 1.
Definition PREV_PHYS_BIT : Z := 2.

(** ** Block headers *)

(** Field offsets and size of [BlockHeader]. *)
Definition H_SIZE : Z := 0.
Definition H_PREV_PHYS : Z := 8.
Definition H_NEXT_FREE : Z := 16.
Definition H_PREV_FREE : Z := 24.
Definition HEADER : Z := 32.

Record TlsfInner := mkTlsf {
  fl_bitmap : Z;
  sl_bitmap : list Z;
  free_lists : list (list Z)
}.

Definition TlsfInner_new : TlsfInner :=
  mkTlsf 0 (replicate (Z.to_nat FL_INDEX_COUNT) 0)
    (replicate (Z.to_nat FL_INDEX_COUNT) (replicate (Z.to_nat SL_COUNT) 0)).

Abbreviation TState := (TlsfInner * mem)%type.

(** The accessors of [impl BlockHeader]; each reads or rewrites the size word. *)
Definition size_of_word (w : Z) : Z := Z.land w (not64 (Z.lor FREE_BIT PREV_PHYS_BIT)).
Definition free_of_word (w : Z) : bool := negb (Z.land w FREE_BIT =? 0).
Definition prev_free_of_word (w : Z) : bool := negb (Z.land w PREV_PHYS_BIT =? 0).

Definition block_size (h : Z) : M TState Z :=
  let* w := load (h + H_SIZE) in ret (size_of_word w).
Definition is_free (h : Z) : M TState bool :=
  let* w := load (h + H_SIZE) in ret (free_of_word w).
Definition prev_free (h : Z) : M TState bool :=
  let* w := load (h + H_SIZE) in ret (prev_free_of_word w).
Definition set_size (h s : Z) : M TState unit :=
  let* w := load (h + H_SIZE) in
  store (h + H_SIZE) (Z.lor (Z.land w (Z.lor FREE_BIT PREV_PHYS_BIT)) s).
Definition set_free (h : Z) (f : bool) : M TState unit :=
  let* w := load (h + H_SIZE) in
  store (h + H_SIZE) (if f then Z.lor w FREE_BIT else Z.land w (not64 FREE_BIT)).
Definition set_prev_free (h : Z) (f : bool) : M TState unit :=
  let* w := load (h + H_SIZE) in
  store (h + H_SIZE) (if f then Z.lor w PREV_PHYS_BIT else Z.land w (not64 PREV_PHYS_BIT)).
Definition payload (h : Z) : Z := h + HEADER.
Definition next_phys (h : Z) : M TState Z :=
  let* s := block_size h in ret (h + HEADER + s).

(** ** Size classes *)

Definition mapping {S} (size : Z) : M S (Z * Z) :=
  let* fl := usub (64 - 1) (leading_zeros size) in
  let* sl := (if fl <? SL_INDEX_COUNT
              then ushl size (SL_INDEX_COUNT - fl)
              else ushr size (fl - SL_INDEX_COUNT)) in
  ret (fl, Z.land sl (SL_COUNT - 1)).

Definition mapping_search {S} (size : Z) : M S (Z * Z) :=
  let* round :=
    (if Z.shiftl 1 SL_INDEX_COUNT <=? size then
       let* fl := usub (64 - 1) (leading_zeros size) in
       let* k := usub fl SL_INDEX_COUNT in
       let* p := ushl 1 k in
       usub p 1
     else ret 0) in
  let* s := uadd size round in
  mapping s.

(** ** Free lists *)

(** [self.free_lists[fl][sl]] and its assignment. *)
Definition get_list (fl sl : Z) : M TState Z :=
  let* t := gets fst in
  let* row := aget (free_lists t) fl in
  aget row sl.
Definition set_list (fl sl v : Z) : M TState unit :=
  let* t := gets fst in
  let* row := aget (free_lists t) fl in
  let* row' := aset row sl v in
  let* rows := aset (free_lists t) fl row' in
  upd (fun t => mkTlsf (fl_bitmap t) (sl_bitmap t) rows).

Definition get_sl (fl : Z) : M TState Z :=
  let* t := gets fst in aget (sl_bitmap t) fl.
Definition set_sl (fl v : Z) : M TState unit :=
  let* t := gets fst in
  let* sls := aset (sl_bitmap t) fl v in
  upd (fun t => mkTlsf (fl_bitmap t) sls (free_lists t)).
Definition set_fl (v : Z) : M TState unit :=
  upd (fun t => mkTlsf v (sl_bitmap t) (free_lists t)).

Definition insert_free (block : Z) : M TState unit :=
  let* size := block_size block in
  let* c := mapping size in
  let* head := get_list (fst c) (snd c) in
  store (block + H_NEXT_FREE) head ;;
  store (block + H_PREV_FREE) 0 ;;
  (if negb (head =? 0) then store (head + H_PREV_FREE) block else ret tt) ;;
  set_list (fst c) (snd c) block ;;
  let* t := gets fst in
  let* flbit := ushl32 1 (fst c) in
  set_fl (Z.lor (fl_bitmap t) flbit) ;;
  let* w := get_sl (fst c) in
  let* slbit := ushl32 1 (snd c) in
  set_sl (fst c) (Z.lor w slbit) ;;
  set_free block true.

Definition remove_free (block : Z) : M TState unit :=
  let* size := block_size block in
  let* c := mapping size in
  let* prev := load (block + H_PREV_FREE) in
  let* next := load (block + H_NEXT_FREE) in
  (if negb (prev =? 0) then store (prev + H_NEXT_FREE) next
   else set_list (fst c) (snd c) next) ;;
  (if negb (next =? 0) then store (next + H_PREV_FREE) prev else ret tt) ;;
  let* head := get_list (fst c) (snd c) in
  (if head =? 0 then
     let* slbit := ushl32 1 (snd c) in
     let* w := get_sl (fst c) in
     set_sl (fst c) (Z.land w (not32 slbit)) ;;
     let* w := get_sl (fst c) in
     if w =? 0 then
       let* t := gets fst in
       let* flbit := ushl32 1 (fst c) in
       set_fl (Z.land (fl_bitmap t) (not32 flbit))
     else ret tt
   else ret tt) ;;
  set_free block false.

Definition find_free (size : Z) : M TState (option Z) :=
  let* c := mapping_search size in
  let* w := get_sl (fst c) in
  let* sl_map := ushr32 w (snd c) in
  if negb (sl_map =? 0) then
    let* head := get_list (fst c) (snd c + trailing_zeros sl_map) in
    ret (Some head)
  else
    let* t := gets fst in
    let* fl_map := ushr32 (fl_bitmap t) (fst c + 1) in
    if fl_map =? 0 then ret None
    else
      let fl := fst c + (1 + trailing_zeros fl_map) in
      let* w := get_sl fl in
      let* head := get_list fl (trailing_zeros w) in
      ret (Some head).

(** ** Allocation and release *)

(** The size adjustment at the head of [TlsfInner::alloc]. *)
Definition adjust_size {S} (size : Z) : M S Z :=
  let* s := uadd (Z.max size BLOCK_MIN) (8 - 1) in
  ret (Z.land s (not64 (8 - 1))).

(** Splitting the block found: the tail becomes a free block. *)
Definition split_block (block size remainder : Z) : M TState unit :=
  set_size block size ;;
  let* next := next_phys block in
  set_size next (remainder - HEADER) ;;
  store (next + H_PREV_PHYS) block ;;
  set_prev_free next false ;;
  insert_free next ;;
  let* after := next_phys next in
  store (after + H_PREV_PHYS) next.

Definition tlsf_alloc (size : Z) : M TState (option Z) :=
  let* size := adjust_size size in
  let* found := find_free size in
  match found with
  | None => ret None
  | Some block =>
      remove_free block ;;
      let* bsize := block_size block in
      let remainder := (bsize - size) mod W64 in
      (if HEADER + BLOCK_MIN <=? remainder then split_block block size remainder else ret tt) ;;
      let* next := next_phys block in
      set_prev_free next false ;;
      ret (Some (payload block))
  end.

(** [combined = x.block_size() + header_size + y.block_size(); x.set_size(combined)],
    the last step of both merges of [dealloc]. *)
Definition absorb (x y : Z) : M TState unit :=
  let* xs := block_size x in
  let* ys := block_size y in
  let* c := uadd xs HEADER in
  let* combined := uadd c ys in
  set_size x combined.

(** Merging with the previous block when it is free. *)
Definition merge_prev (block : Z) : M TState Z :=
  let* pf := prev_free block in
  if pf : bool then
    let* prev := load (block + H_PREV_PHYS) in
    remove_free prev ;;
    absorb prev block ;;
    ret prev
  else ret block.

(** Merging with the next block when it is free. *)
Definition merge_next (merged : Z) : M TState unit :=
  let* next := next_phys merged in
  let* f := is_free next in
  if f : bool then
    remove_free next ;;
    absorb merged next
  else ret tt.

Definition tlsf_dealloc (ptr : Z) : M TState unit :=
  let* merged := merge_prev (ptr - HEADER) in
  merge_next merged ;;
  insert_free merged ;;
  let* after := next_phys merged in
  set_prev_free after true.

Definition add_pool (mem size : Z) : M TState unit :=
  assert (2 * HEADER + BLOCK_MIN <? size) ;;
  let sentinel := mem + (size - HEADER) in
  store (sentinel + H_SIZE) 0 ;;
  store (sentinel + H_PREV_PHYS) 0 ;;
  store (sentinel + H_NEXT_FREE) 0 ;;
  store (sentinel + H_PREV_FREE) 0 ;;
  let* payload_size := usub size (2 * HEADER) in
  store (mem + H_SIZE) payload_size ;;
  store (mem + H_PREV_PHYS) 0 ;;
  store (mem + H_NEXT_FREE) 0 ;;
  store (mem + H_PREV_FREE) 0 ;;
  set_prev_free mem false ;;
  store (sentinel + H_PREV_PHYS) mem ;;
  insert_free mem.

(** ** The [GlobalAlloc] front end *)

Definition init_from_ptr (mem size : Z) : M TState unit := add_pool mem size.

(** A null pointer is 0. *)
Definition global_alloc (layout_size layout_align : Z) : M TState Z :=
  let size := Z.max layout_size BLOCK_MIN in
  let* extra := (if 8 <? layout_align then usub layout_align 1 else ret 0) in
  let* total := uadd size extra in
  let* r := tlsf_alloc total in
  match r with
  | None => ret 0
  | Some ptr =>
      let* p := uadd ptr extra in
      let* mask := usub layout_align 1 in
      ret (Z.land p (not64 mask))
  end.

Definition global_dealloc (ptr layout_size layout_align : Z) : M TState unit :=
  tlsf_dealloc ptr.

(** ** Header contents *)

Record hdr := mkHdr { h_size : Z; h_free : bool; h_pf : bool; h_prev : Z }.

(** The size word of a header. *)
Definition word (h : hdr) : Z := h_size h + Z.b2z (h_free h) + 2 * Z.b2z (h_pf h).

Definition hdr_ok (h : hdr) : Prop := 0 <= h_size h < W64 - 8 /\ (8 | h_size h).

(** A block the free lists can index. *)
Definition size_ok (s : Z) : Prop := 32 <= s < 2 ^ 30 /\ (8 | s).

Definition flags (h : hdr) : Z := Z.b2z (h_free h) + 2 * Z.b2z (h_pf h).

Lemma word_split h : hdr_ok h ->
  exists k, word h = 4 * k + flags h /\ h_size h = 4 * k /\ 0 <= flags h < 4 /\ 0 <= word h < W64.
Proof.
  intros [Hs [c Hc]]. exists (2 * c). unfold word, flags.
  destruct (h_free h), (h_pf h); simpl; lia.
Qed.

Lemma size_of_word_word h : hdr_ok h -> size_of_word (word h) = h_size h.
Proof.
  intros (k & -> & -> & Hf & Hw)%word_split. unfold size_of_word. rewrite land_not64_ldiff by lia.
  change (Z.lor FREE_BIT PREV_PHYS_BIT) with 3.
  destruct (flags_4k k (flags h) 3 Hf ltac:(lia)) as (_ & _ & ->).
  unfold flags. generalize (4 * k). intros z. destruct (h_free h), (h_pf h); cbn [Z.b2z]; bits_const.
Qed.

Lemma free_of_word_word h : hdr_ok h -> free_of_word (word h) = h_free h.
Proof.
  intros (k & -> & _ & Hf & Hw)%word_split. unfold free_of_word, FREE_BIT.
  destruct (flags_4k k (flags h) 1 Hf ltac:(lia)) as (_ & -> & _).
  unfold flags. by destruct (h_free h), (h_pf h).
Qed.

Lemma prev_free_of_word_word h : hdr_ok h -> prev_free_of_word (word h) = h_pf h.
Proof.
  intros (k & -> & _ & Hf & Hw)%word_split. unfold prev_free_of_word, PREV_PHYS_BIT.
  destruct (flags_4k k (flags h) 2 Hf ltac:(lia)) as (_ & -> & _).
  unfold flags. by destruct (h_free h), (h_pf h).
Qed.

Definition with_size (s : Z) (h : hdr) : hdr := mkHdr s (h_free h) (h_pf h) (h_prev h).
Definition with_free (f : bool) (h : hdr) : hdr := mkHdr (h_size h) f (h_pf h) (h_prev h).
Definition with_pf (f : bool) (h : hdr) : hdr := mkHdr (h_size h) (h_free h) f (h_prev h).
Definition with_prev (p : Z) (h : hdr) : hdr := mkHdr (h_size h) (h_free h) (h_pf h) p.

Lemma word_set_free h f : hdr_ok h ->
  (if f : bool then Z.lor (word h) FREE_BIT else Z.land (word h) (not64 FREE_BIT)) = word (with_free f h).
Proof.
  intros Hok. destruct (word_split h Hok) as (k & E & Es & Hf & Hw).
  destruct (flags_4k k (flags h) 1 Hf ltac:(lia)) as (H1 & _ & H3).
  rewrite land_not64_ldiff by done. rewrite E. unfold FREE_BIT. rewrite H1, H3.
  unfold word, flags, with_free in *; simpl.
  rewrite Es. generalize (4 * k). clear. intros z. destruct f, (h_free h), (h_pf h); cbn [Z.b2z]; bits_const.
Qed.

Lemma word_set_pf h f : hdr_ok h ->
  (if f : bool then Z.lor (word h) PREV_PHYS_BIT else Z.land (word h) (not64 PREV_PHYS_BIT))
  = word (with_pf f h).
Proof.
  intros Hok. destruct (word_split h Hok) as (k & E & Es & Hf & Hw).
  destruct (flags_4k k (flags h) 2 Hf ltac:(lia)) as (H1 & _ & H3).
  rewrite land_not64_ldiff by done. rewrite E. unfold PREV_PHYS_BIT. rewrite H1, H3.
  unfold word, flags, with_pf in *; simpl.
  rewrite Es. generalize (4 * k). clear. intros z. destruct f, (h_free h), (h_pf h); cbn [Z.b2z]; bits_const.
Qed.

(** [set_size] keeps whatever flags the word had. *)
Lemma word_set_size w s : (8 | s) ->
  Z.lor (Z.land w (Z.lor FREE_BIT PREV_PHYS_BIT)) s
  = word (mkHdr s (free_of_word w) (prev_free_of_word w) 0).
Proof.
  intros [c ->]. change (Z.lor FREE_BIT PREV_PHYS_BIT) with 3. rewrite Z.lor_comm.
  replace (c * 8) with (4 * (2 * c) + 0) by lia.
  assert (exists k r, w = 4 * k + r /\ 0 <= r < 4) as (k & r & -> & Hr).
  { exists (w / 4), (w mod 4). pose proof (Z.div_mod w 4). pose proof (Z.mod_pos_bound w 4). lia. }
  unfold free_of_word, prev_free_of_word, FREE_BIT, PREV_PHYS_BIT, word; simpl h_size; simpl h_free; simpl h_pf.
  destruct (flags_4k k r 3 Hr ltac:(lia)) as (_ & -> & _).
  destruct (flags_4k k r 1 Hr ltac:(lia)) as (_ & -> & _).
  destruct (flags_4k k r 2 Hr ltac:(lia)) as (_ & -> & _).
  assert (r = 0 \/ r = 1 \/ r = 2 \/ r = 3) as Hc by lia.
  assert (0 <= Z.land r 3 < 4) by (destruct Hc as [->|[->|[->| ->]]]; split; vm_compute; done).
  rewrite (proj1 (flags_4k (2 * c) 0 (Z.land r 3) ltac:(lia) ltac:(done))).
  generalize (4 * (2 * c)). intros z. destruct Hc as [->|[->|[->| ->]]]; bits_const.
Qed.

(** ** Size classes *)

Abbreviation class := (Z * Z)%type.

(** The class of a size of at least 32 bytes, and the least size it holds. *)
Definition cls (s : Z) : class := (Z.log2 s, s / 2 ^ (Z.log2 s - 5) - 32).
Definition class_min (c : class) : Z := (32 + snd c) * 2 ^ (fst c - 5).

Definition class_ok (c : class) : Prop := 0 <= fst c < FL_INDEX_COUNT /\ 0 <= snd c < SL_COUNT.

Definition class_le (c c' : class) : Prop :=
  fst c < fst c' \/ fst c = fst c' /\ snd c <= snd c'.

(** The size [mapping_search] looks up. *)
Definition round_up (s : Z) : Z := s + (2 ^ (Z.log2 s - 5) - 1).

Lemma log2_ge5 s : 32 <= s -> 5 <= Z.log2 s.
Proof. intros. change 5 with (Z.log2 32). by apply Z.log2_le_mono. Qed.

Lemma cls_facts s : 32 <= s ->
  5 <= fst (cls s) /\ 0 <= snd (cls s) < 32 /\
  class_min (cls s) <= s < class_min (cls s) + 2 ^ (fst (cls s) - 5).
Proof.
  intros Hs. pose proof (log2_ge5 s Hs). pose proof (Z.log2_spec s ltac:(lia)) as [H1 H2].
  unfold class_min, cls; simpl. set (k := Z.log2 s - 5).
  replace (Z.log2 s) with (k + 5) in * by lia. replace (Z.succ (k + 5)) with (k + 6) in H2 by lia.
  rewrite Z.pow_add_r in H1, H2 by lia. change (2 ^ 5) with 32 in *. change (2 ^ 6) with 64 in *.
  pose proof (Z.pow_pos_nonneg 2 k ltac:(lia) ltac:(lia)).
  pose proof (Z.div_mod s (2 ^ k) ltac:(lia)). pose proof (Z.mod_pos_bound s (2 ^ k) ltac:(lia)).
  set (q := s / 2 ^ k) in *. set (v := 2 ^ k) in *.
  assert (32 <= q) by (enough (31 < q) by lia; apply (Z.mul_lt_mono_pos_r v); lia).
  assert (q < 64) by (apply (Z.mul_lt_mono_pos_r v); lia).
  split_and!; lia.
Qed.

Lemma cls_ok s : 32 <= s < 2 ^ 30 -> class_ok (cls s).
Proof.
  intros Hs. destruct (cls_facts s) as (H1 & H2 & _); [lia|]. unfold class_ok, FL_INDEX_COUNT.
  change SL_COUNT with 32. split; [|done]. split; [lia|]. unfold cls; simpl.
  apply Z.log2_lt_pow2; lia.
Qed.

Lemma class_min_mono c c' :
  0 <= snd c < 32 -> 0 <= snd c' -> 5 <= fst c -> class_le c c' -> class_min c <= class_min c'.
Proof.
  intros H1 H2 H3 [Hlt|[He Hl]]; unfold class_min.
  - replace (fst c' - 5) with (fst c - 5 + 1 + (fst c' - fst c - 1)) by lia.
    rewrite !Z.pow_add_r by lia. pose proof (Z.pow_pos_nonneg 2 (fst c - 5) ltac:(lia) ltac:(lia)).
    pose proof (Z.pow_pos_nonneg 2 (fst c' - fst c - 1) ltac:(lia) ltac:(lia)). nia.
  - rewrite He. pose proof (Z.pow_pos_nonneg 2 (fst c' - 5) ltac:(lia) ltac:(lia)). nia.
Qed.

(** Good fit: every block of the class searched is large enough. *)
Lemma round_up_fit s : 32 <= s -> s <= class_min (cls (round_up s)).
Proof.
  intros Hs. pose proof (log2_ge5 s Hs). pose proof (Z.log2_spec s ltac:(lia)) as [H1 H2].
  assert (32 <= round_up s) as Hr by (unfold round_up; pose proof (Z.pow_pos_nonneg 2 (Z.log2 s - 5)); lia).
  destruct (cls_facts _ Hr) as (Hf & Hsnd & Hlo & Hhi).
  set (k := Z.log2 s - 5) in *. pose proof (Z.pow_pos_nonneg 2 k ltac:(lia) ltac:(lia)).
  replace (Z.log2 s) with (k + 5) in * by lia.
  destruct (Z_lt_le_dec (round_up s) (2 ^ (k + 6))) as [Hlt|Hge].
  - assert (Z.log2 (round_up s) = k + 5) as E.
    { apply Z.log2_unique; [lia|]. replace (Z.succ (k + 5)) with (k + 6) by lia.
      unfold round_up in *. lia. }
    unfold cls in Hhi at 2; simpl in Hhi. rewrite E in Hhi. replace (k + 5 - 5) with k in Hhi by lia.
    unfold round_up in Hhi at 1. replace (Z.log2 s - 5) with k in Hhi by lia. lia.
  - replace (Z.succ (k + 5)) with (k + 6) in H2 by lia.
    enough (2 ^ (k + 6) <= class_min (cls (round_up s))) by lia.
    etrans; [|apply (class_min_mono (k + 6, 0)); [simpl; lia|lia|simpl; lia|]].
    + unfold class_min; simpl. replace (k + 6 - 5) with (k + 1) by lia. rewrite !Z.pow_add_r by lia. lia.
    + assert (k + 6 <= Z.log2 (round_up s)) as Hl by (rewrite <- (Z.log2_pow2 (k + 6)) by lia; by apply Z.log2_le_mono).
      unfold class_le; simpl. simpl in Hsnd. lia.
Qed.

Lemma wp_ushr {S} a k (s : S) Q : 0 <= k < 64 -> Q (a / 2 ^ k) s -> wp (ushr a k) s Q.
Proof.
  intros Hk HQ. unfold ushr. rewrite (proj2 (Z.leb_le 0 k)), (proj2 (Z.ltb_lt k 64)) by lia.
  by rewrite Z.shiftr_div_pow2 by lia.
Qed.

Lemma wp_mapping {S} size (s : S) Q : 32 <= size < W64 -> Q (cls size) s -> wp (mapping size) s Q.
Proof.
  intros Hs HQ. destruct (cls_facts size) as (H1 & H2 & _); [lia|].
  unfold mapping. wp_step. apply wp_usub.
  { unfold leading_zeros. destruct (Z.eqb_spec size 0); [lia|]. pose proof (Z.log2_nonneg size). lia. }
  rewrite leading_zeros_log2 by lia. simpl in H1, H2. unfold SL_INDEX_COUNT.
  rewrite (proj2 (Z.ltb_ge _ _)) by lia. wp_step.
  assert (Z.log2 size < 64) by (apply Z.log2_lt_pow2; unfold W64 in *; lia).
  apply wp_ushr; [lia|]. wp_step. change (SL_COUNT - 1) with (Z.ones 5).
  rewrite Z.land_ones by lia. unfold cls in HQ. change (2 ^ 5) with 32.
  replace (size / 2 ^ (Z.log2 size - 5)) with (size / 2 ^ (Z.log2 size - 5) - 32 + 1 * 32) by lia.
  rewrite Z.mod_add, Z.mod_small by lia. done.
Qed.

Lemma wp_mapping_search {S} size (s : S) Q :
  32 <= size -> round_up size < W64 -> Q (cls (round_up size)) s -> wp (mapping_search size) s Q.
Proof.
  intros Hs Hr HQ. unfold mapping_search. pose proof (log2_ge5 size Hs).
  pose proof (Z.pow_pos_nonneg 2 (Z.log2 size - 5) ltac:(lia) ltac:(lia)).
  assert (size < W64) by (unfold round_up in Hr; lia).
  assert (Z.log2 size < 64) by (apply Z.log2_lt_pow2; unfold W64 in *; lia).
  change (Z.shiftl 1 SL_INDEX_COUNT) with 32. rewrite (proj2 (Z.leb_le 32 size)) by lia.
  wp_step. wp_step. apply wp_usub.
  { unfold leading_zeros. destruct (Z.eqb_spec size 0); lia. }
  rewrite leading_zeros_log2 by lia. unfold SL_INDEX_COUNT.
  unfold round_up in *. wp_steps. apply wp_mapping; [lia|done].
Qed.

(** ** Representation: headers in memory and segregated lists *)

Definition head_of (t : TlsfInner) (c : class) : Z :=
  default 0 (default [] (free_lists t !! Z.to_nat (fst c)) !! Z.to_nat (snd c)).
Definition sl_of (t : TlsfInner) (f : Z) : Z := default 0 (sl_bitmap t !! Z.to_nat f).

(** The two bitmaps describe exactly the non-empty lists. *)
Record bitmaps_ok (t : TlsfInner) (G : class -> list Z) : Prop := mkBitmapsOk {
  bo_sl : forall f, 0 <= f < FL_INDEX_COUNT -> 0 <= sl_of t f < W32 /\
    forall l, 0 <= l < SL_COUNT -> Z.testbit (sl_of t f) l = negb (bool_decide (G (f, l) = []));
  bo_fl : 0 <= fl_bitmap t < 2 ^ FL_INDEX_COUNT;
  bo_fl_bit : forall f, 0 <= f < FL_INDEX_COUNT ->
    Z.testbit (fl_bitmap t) f = negb (sl_of t f =? 0)
}.

Record shape_ok (t : TlsfInner) : Prop := mkShapeOk {
  so_rows : length (free_lists t) = Z.to_nat FL_INDEX_COUNT;
  so_row : forall f r, free_lists t !! f = Some r -> length r = Z.to_nat SL_COUNT;
  so_sl : length (sl_bitmap t) = Z.to_nat FL_INDEX_COUNT
}.

(** [H]: the headers in memory; [G]: the blocks on each free list. *)
Record raw (t : TlsfInner) (m : mem) (H : gmap Z hdr) (G : class -> list Z) : Prop := mkRaw {
  raw_ok : forall a h, H !! a = Some h -> hdr_ok h /\ 0 < a;
  raw_word : forall a h, H !! a = Some h -> rd m (a + H_SIZE) = word h;
  raw_prev : forall a h, H !! a = Some h -> rd m (a + H_PREV_PHYS) = h_prev h;
  raw_sep : forall a a' h h', H !! a = Some h -> H !! a' = Some h' -> a <> a' ->
    a + HEADER <= a' \/ a' + HEADER <= a;
  raw_lists : forall c, class_ok c -> dlist H_PREV_FREE H_NEXT_FREE m (head_of t c) (G c);
  raw_nodup : forall c, NoDup (G c);
  raw_mem : forall c a, a ∈ G c -> exists h, H !! a = Some h /\ size_ok (h_size h) /\ cls (h_size h) = c;
  raw_shape : shape_ok t;
  raw_bitmaps : bitmaps_ok t G
}.

(** Cells of the headers. *)
Definition hdr_cell (H : gmap Z hdr) (x : Z) : Prop :=
  exists a h, H !! a = Some h /\ a <= x < a + HEADER.

(** [hdr_cell] of one address. *)
Ltac hdr_arith := unfold H_SIZE, H_PREV_PHYS, H_NEXT_FREE, H_PREV_FREE, HEADER in *; lia.

Lemma hdr_cell_in H a h c : H !! a = Some h -> 0 <= c < HEADER -> hdr_cell H (a + c).
Proof. intros Ha Hc. exists a, h. split; [done|lia]. Qed.

(** Same set of header addresses. *)
Lemma hdr_cell_insert H a h h' x : H !! a = Some h -> hdr_cell (<[a := h']> H) x <-> hdr_cell H x.
Proof.
  intros Ha. unfold hdr_cell. split; intros (b & hb & Hb & Hx).
  - apply lookup_insert_Some in Hb as [[<- _]|[_ Hb]]; eauto.
  - destruct (decide (b = a)) as [->|Hne]; [exists a, h'|exists b, hb]; split; try done;
      [by rewrite lookup_insert_eq|by rewrite lookup_insert_ne].
Qed.

(** Rewriting the size word or the [prev_phys] field of one header. *)
Lemma raw_update t m H G a h h' m' :
  raw t m H G -> H !! a = Some h -> hdr_ok h' ->
  (forall c, a ∈ G c -> h_size h' = h_size h) ->
  rd m' (a + H_SIZE) = word h' -> rd m' (a + H_PREV_PHYS) = h_prev h' ->
  (forall x, x <> a + H_SIZE -> x <> a + H_PREV_PHYS -> rd m' x = rd m x) ->
  raw t m' (<[a := h']> H) G.
Proof.
  intros R Ha Hok Hsz Hw Hp Hm. destruct R as [R1 R2 R3 R4 R5 R6 R7 R8 R9].
  assert (forall b hb, H !! b = Some hb -> b <> a -> forall c, 0 <= c < HEADER ->
    rd m' (b + c) = rd m (b + c)) as Hother.
  { intros b hb Hb Hne c Hc. pose proof (R4 b a hb h Hb Ha Hne). apply Hm; hdr_arith. }
  split; try done.
  - intros b hb [[<- <-]|[Hne Hb]]%lookup_insert_Some; [|by apply R1].
    split; [done|]. by eapply R1.
  - intros b hb [[<- <-]|[Hne Hb]]%lookup_insert_Some; [done|].
    rewrite (Hother b hb) by (done || hdr_arith). by apply R2.
  - intros b hb [[<- <-]|[Hne Hb]]%lookup_insert_Some; [done|].
    rewrite (Hother b hb) by (done || hdr_arith). by apply R3.
  - intros b b' hb hb' [[<- _]|[_ Hb]]%lookup_insert_Some [[<- _]|[_ Hb']]%lookup_insert_Some; eauto.
  - intros c Hc. eapply dlist_ext; [|by apply R5]. intros x Hx.
    destruct (R7 c x Hx) as (hx & Hhx & _). split; apply Hm.
    1-4: destruct (decide (x = a)) as [->|Hne]; [hdr_arith|pose proof (R4 x a hx h Hhx Ha Hne); hdr_arith].
  - intros c x Hx. destruct (R7 c x Hx) as (hx & Hhx & Hs & Hc).
    destruct (decide (x = a)) as [->|Hne].
    + exists h'. rewrite lookup_insert_eq. simplify_eq. by rewrite (Hsz _ Hx).
    + exists hx. by rewrite lookup_insert_ne by done.
Qed.

(** The same for one store to the size word. *)
Lemma raw_set_word t m H G a h h' :
  raw t m H G -> H !! a = Some h -> hdr_ok h' -> h_prev h' = h_prev h ->
  (forall c, a ∈ G c -> h_size h' = h_size h) ->
  raw t (wr m (a + H_SIZE) (word h')) (<[a := h']> H) G.
Proof.
  intros R Ha Hok Hp Hsz. eapply raw_update; eauto.
  - by rewrite rd_wr_eq.
  - rewrite rd_wr_ne by hdr_arith. rewrite Hp. by apply (raw_prev _ _ _ _ R).
  - intros x Hx _. by rewrite rd_wr_ne.
Qed.

Lemma raw_set_prev t m H G a h p :
  raw t m H G -> H !! a = Some h ->
  raw t (wr m (a + H_PREV_PHYS) p) (<[a := with_prev p h]> H) G.
Proof.
  intros R Ha. eapply (raw_update t m H G a h); [done|done| |done|..].
  - exact (proj1 (raw_ok _ _ _ _ R a h Ha)).
  - rewrite rd_wr_ne by hdr_arith. exact (raw_word _ _ _ _ R a h Ha).
  - by rewrite rd_wr_eq.
  - intros x _ Hx. by rewrite rd_wr_ne.
Qed.

(** Reading headers. *)
Lemma wp_block_size t m H G a h (Q : Z -> TState -> Prop) :
  raw t m H G -> H !! a = Some h -> Q (h_size h) (t, m) -> wp (block_size a) (t, m) Q.
Proof.
  intros R Ha HQ. unfold block_size. wp_steps. rewrite (raw_word _ _ _ _ R a h Ha).
  rewrite size_of_word_word; [done|]. by apply (raw_ok _ _ _ _ R a).
Qed.

Lemma wp_is_free t m H G a h (Q : bool -> TState -> Prop) :
  raw t m H G -> H !! a = Some h -> Q (h_free h) (t, m) -> wp (is_free a) (t, m) Q.
Proof.
  intros R Ha HQ. unfold is_free. wp_steps. rewrite (raw_word _ _ _ _ R a h Ha).
  rewrite free_of_word_word; [done|]. by apply (raw_ok _ _ _ _ R a).
Qed.

Lemma wp_prev_free t m H G a h (Q : bool -> TState -> Prop) :
  raw t m H G -> H !! a = Some h -> Q (h_pf h) (t, m) -> wp (prev_free a) (t, m) Q.
Proof.
  intros R Ha HQ. unfold prev_free. wp_steps. rewrite (raw_word _ _ _ _ R a h Ha).
  rewrite prev_free_of_word_word; [done|]. by apply (raw_ok _ _ _ _ R a).
Qed.

Lemma wp_next_phys t m H G a h (Q : Z -> TState -> Prop) :
  raw t m H G -> H !! a = Some h -> Q (a + HEADER + h_size h) (t, m) -> wp (next_phys a) (t, m) Q.
Proof. intros R Ha HQ. unfold next_phys. wp_step. eapply wp_block_size; eauto. Qed.

(** Writing headers. *)
Lemma wp_set_free t m H G a h f (Q : unit -> TState -> Prop) :
  raw t m H G -> H !! a = Some h ->
  (forall m', raw t m' (<[a := with_free f h]> H) G -> writes_only (hdr_cell H) m m' -> Q tt (t, m')) ->
  wp (set_free a f) (t, m) Q.
Proof.
  intros R Ha HQ. destruct (raw_ok _ _ _ _ R a h Ha) as [Hok _]. unfold set_free. wp_steps.
  rewrite (raw_word _ _ _ _ R a h Ha), word_set_free by done.
  apply HQ; [by apply (raw_set_word t m H G a h)|].
  apply writes_only_wr. by eapply hdr_cell_in.
Qed.

Lemma wp_set_prev_free t m H G a h f (Q : unit -> TState -> Prop) :
  raw t m H G -> H !! a = Some h ->
  (forall m', raw t m' (<[a := with_pf f h]> H) G -> writes_only (hdr_cell H) m m' -> Q tt (t, m')) ->
  wp (set_prev_free a f) (t, m) Q.
Proof.
  intros R Ha HQ. destruct (raw_ok _ _ _ _ R a h Ha) as [Hok _]. unfold set_prev_free. wp_steps.
  rewrite (raw_word _ _ _ _ R a h Ha), word_set_pf by done.
  apply HQ; [by apply (raw_set_word t m H G a h)|].
  apply writes_only_wr. by eapply hdr_cell_in.
Qed.

(** [set_size] on a block that is on no list. *)
Lemma wp_set_size t m H G a h s (Q : unit -> TState -> Prop) :
  raw t m H G -> H !! a = Some h -> 0 <= s < W64 - 8 -> (8 | s) -> (forall c, a ∉ G c) ->
  (forall m', raw t m' (<[a := with_size s h]> H) G -> writes_only (hdr_cell H) m m' -> Q tt (t, m')) ->
  wp (set_size a s) (t, m) Q.
Proof.
  intros R Ha Hs Hd Hni HQ. destruct (raw_ok _ _ _ _ R a h Ha) as [Hok _]. unfold set_size. wp_steps.
  rewrite (raw_word _ _ _ _ R a h Ha), word_set_size by done.
  rewrite free_of_word_word, prev_free_of_word_word by done.
  change (word (mkHdr s (h_free h) (h_pf h) 0)) with (word (with_size s h)).
  apply HQ; [apply (raw_set_word t m H G a h); try done|].
  - intros c Hc. by apply Hni in Hc.
  - apply writes_only_wr. by eapply hdr_cell_in.
Qed.

Lemma wp_set_prev_phys t m H G a h p (Q : unit -> TState -> Prop) :
  raw t m H G -> H !! a = Some h ->
  (forall m', raw t m' (<[a := with_prev p h]> H) G -> writes_only (hdr_cell H) m m' -> Q tt (t, m')) ->
  wp (store (a + H_PREV_PHYS) p) (t, m) Q.
Proof.
  intros R Ha HQ. wp_step. apply HQ; [by apply raw_set_prev|].
  apply writes_only_wr. by eapply hdr_cell_in.
Qed.

(** ** The list heads and bitmaps *)

Lemma wp_get_list t m c (Q : Z -> TState -> Prop) :
  shape_ok t -> class_ok c -> Q (head_of t c) (t, m) -> wp (get_list (fst c) (snd c)) (t, m) Q.
Proof.
  intros [S1 S2 S3] [Hf Hl] HQ. unfold get_list. wp_step. wp_step. wp_step.
  destruct (lookup_lt_is_Some_2 (free_lists t) (Z.to_nat (fst c))) as [r Hr]; [lia|].
  eapply wp_aget; [lia|exact Hr|].
  destruct (lookup_lt_is_Some_2 r (Z.to_nat (snd c))) as [x Hx]; [rewrite (S2 _ _ Hr); lia|].
  eapply wp_aget; [lia|exact Hx|]. unfold head_of in HQ. rewrite Hr in HQ. simpl in HQ. by rewrite Hx in HQ.
Qed.

Lemma wp_set_list t m c v (Q : unit -> TState -> Prop) :
  shape_ok t -> class_ok c ->
  (forall t', shape_ok t' -> fl_bitmap t' = fl_bitmap t -> sl_bitmap t' = sl_bitmap t ->
     head_of t' c = v -> (forall c', class_ok c' -> c' <> c -> head_of t' c' = head_of t c') ->
     Q tt (t', m)) ->
  wp (set_list (fst c) (snd c) v) (t, m) Q.
Proof.
  intros [S1 S2 S3] [Hf Hl] HQ. unfold set_list, upd. wp_step. wp_step. wp_step.
  destruct (lookup_lt_is_Some_2 (free_lists t) (Z.to_nat (fst c))) as [r Hr]; [lia|].
  pose proof (S2 _ _ Hr) as Hlen. wp_steps. apply HQ; simpl; try done.
  - split; simpl; [by rewrite length_insert| |done].
    intros f r' [(_ & <- & _)|[_ ?]]%list_lookup_insert_Some; [by rewrite length_insert|by eapply S2].
  - unfold head_of; simpl. rewrite list_lookup_insert_eq by lia. simpl.
    by rewrite list_lookup_insert_eq by lia.
  - intros c' [Hf' Hl'] Hne. unfold head_of; simpl.
    destruct (decide (fst c' = fst c)) as [E|E].
    + rewrite E, list_lookup_insert_eq, Hr by lia. simpl.
      rewrite list_lookup_insert_ne; [done|]. intros ?. apply Hne. destruct c, c'; simpl in *; f_equal; lia.
    + by rewrite list_lookup_insert_ne by lia.
Qed.

Lemma wp_get_sl t m f (Q : Z -> TState -> Prop) :
  shape_ok t -> 0 <= f < FL_INDEX_COUNT -> Q (sl_of t f) (t, m) -> wp (get_sl f) (t, m) Q.
Proof.
  intros [S1 S2 S3] Hf HQ. unfold get_sl. wp_step. wp_step.
  destruct (lookup_lt_is_Some_2 (sl_bitmap t) (Z.to_nat f)) as [w Hw]; [lia|].
  eapply wp_aget; [lia|exact Hw|]. unfold sl_of in HQ. by rewrite Hw in HQ.
Qed.

Lemma wp_set_sl t m f v (Q : unit -> TState -> Prop) :
  shape_ok t -> 0 <= f < FL_INDEX_COUNT ->
  (forall t', shape_ok t' -> fl_bitmap t' = fl_bitmap t -> free_lists t' = free_lists t ->
     sl_of t' f = v -> (forall f', 0 <= f' < FL_INDEX_COUNT -> f' <> f -> sl_of t' f' = sl_of t f') ->
     Q tt (t', m)) ->
  wp (set_sl f v) (t, m) Q.
Proof.
  intros [S1 S2 S3] Hf HQ. unfold set_sl, upd. wp_step. wp_step. wp_steps. apply HQ; simpl; try done.
  - split; simpl; [done|done|by rewrite length_insert].
  - unfold sl_of; simpl. by rewrite list_lookup_insert_eq by lia.
  - intros f' Hf' Hne. unfold sl_of; simpl. by rewrite list_lookup_insert_ne by lia.
Qed.

Lemma shape_set_fl t v : shape_ok t -> shape_ok (mkTlsf v (sl_bitmap t) (free_lists t)).
Proof. by intros []. Qed.

(** A list that becomes non-empty sets its two bits. *)
Lemma bitmaps_push t t' G c a l :
  bitmaps_ok t G -> class_ok c ->
  fl_bitmap t' = Z.lor (fl_bitmap t) (2 ^ fst c) ->
  sl_of t' (fst c) = Z.lor (sl_of t (fst c)) (2 ^ snd c) ->
  (forall f, 0 <= f < FL_INDEX_COUNT -> f <> fst c -> sl_of t' f = sl_of t f) ->
  bitmaps_ok t' (<[c := a :: l]> G).
Proof.
  intros [B1 B2 B3] [Hf Hl] Efl Esl Eo. change SL_COUNT with 32 in *. unfold FL_INDEX_COUNT in *.
  destruct c as [f0 l0]; simpl in *. split; change SL_COUNT with 32; unfold FL_INDEX_COUNT.
  - intros f Hf'. destruct (decide (f = f0)) as [->|Hne].
    + rewrite Esl. destruct (B1 f0 Hf) as [Hr Hb]. split.
      { exact (proj2 (set_bit _ l0 32 0 Hr ltac:(lia) ltac:(lia))). }
      intros l' Hl'. rewrite (proj1 (set_bit _ l0 32 l' Hr ltac:(lia) ltac:(lia))), Hb by done.
      destruct (Z.eqb_spec l' l0) as [->|Hne].
      * rewrite fn_lookup_insert, orb_true_r. by rewrite bool_decide_false.
      * rewrite fn_lookup_insert_ne by congruence. by rewrite orb_false_r.
    + rewrite Eo by done. destruct (B1 f Hf') as [Hr Hb]. split; [done|].
      intros l' Hl'. rewrite fn_lookup_insert_ne by congruence. auto.
  - rewrite Efl. exact (proj2 (set_bit _ f0 30 0 B2 ltac:(lia) ltac:(lia))).
  - intros f Hf'. rewrite Efl, (proj1 (set_bit _ f0 30 f B2 ltac:(lia) ltac:(lia))), B3 by done.
    destruct (Z.eqb_spec f f0) as [->|Hne].
    + rewrite orb_true_r, Esl. symmetry. apply negb_true_iff, Z.eqb_neq. intros E.
      assert (Z.testbit (Z.lor (sl_of t f0) (2 ^ l0)) l0 = true) as Hb.
      { rewrite (proj1 (set_bit _ l0 32 l0 (proj1 (B1 f0 Hf)) ltac:(lia) ltac:(lia))).
        by rewrite Z.eqb_refl, orb_true_r. }
      rewrite E, Z.bits_0 in Hb. done.
    + rewrite orb_false_r. by rewrite Eo.
Qed.

(** Changing a list without emptying it keeps the bitmaps. *)
Lemma bitmaps_same t t' G c l :
  bitmaps_ok t G -> fl_bitmap t' = fl_bitmap t -> (forall f, 0 <= f < FL_INDEX_COUNT -> sl_of t' f = sl_of t f) ->
  G c <> [] -> l <> [] -> bitmaps_ok t' (<[c := l]> G).
Proof.
  intros [B1 B2 B3] Efl Esl H1 H2. split.
  - intros f Hf. rewrite Esl by done. destruct (B1 f Hf) as [Hr Hb]. split; [done|].
    intros l' Hl'. rewrite Hb by done. destruct (decide (c = (f, l'))) as [->|Hne].
    + rewrite fn_lookup_insert. by rewrite !bool_decide_false.
    + by rewrite fn_lookup_insert_ne.
  - by rewrite Efl.
  - intros f Hf. rewrite Efl, Esl by done. auto.
Qed.

(** Emptying a list clears its bit, and the first-level bit with the last one. *)
Lemma bitmaps_clear t t' G c :
  bitmaps_ok t G -> class_ok c ->
  sl_of t' (fst c) = Z.land (sl_of t (fst c)) (not32 (2 ^ snd c)) ->
  (forall f, 0 <= f < FL_INDEX_COUNT -> f <> fst c -> sl_of t' f = sl_of t f) ->
  fl_bitmap t' = (if sl_of t' (fst c) =? 0
                  then Z.land (fl_bitmap t) (not32 (2 ^ fst c)) else fl_bitmap t) ->
  sl_of t (fst c) <> 0 ->
  bitmaps_ok t' (<[c := []]> G).
Proof.
  intros [B1 B2 B3] [Hf Hl] Esl Eo Efl Hnz. change SL_COUNT with 32 in *. unfold FL_INDEX_COUNT in *.
  destruct c as [f0 l0]; simpl in *. destruct (B1 f0 Hf) as [Hr0 Hb0].
  assert (0 <= fl_bitmap t < W32) as Hfr by (unfold W32; lia).
  split; change SL_COUNT with 32; unfold FL_INDEX_COUNT.
  - intros f Hf'. destruct (decide (f = f0)) as [->|Hne].
    + rewrite Esl. split; [pose proof (proj2 (clear_bit32 _ l0 0 Hr0 ltac:(lia) ltac:(lia))); lia|].
      intros l' Hl'. rewrite (proj1 (clear_bit32 _ l0 l' Hr0 ltac:(lia) ltac:(lia))), Hb0 by done.
      destruct (Z.eqb_spec l' l0) as [->|Hne].
      * rewrite fn_lookup_insert, andb_false_r. by rewrite bool_decide_true.
      * rewrite fn_lookup_insert_ne by congruence. by rewrite andb_true_r.
    + rewrite Eo by done. destruct (B1 f Hf') as [Hr Hb]. split; [done|].
      intros l' Hl'. rewrite fn_lookup_insert_ne by congruence. auto.
  - rewrite Efl. destruct (_ =? 0); [|done].
    pose proof (proj2 (clear_bit32 _ f0 0 Hfr ltac:(lia) ltac:(lia))). lia.
  - intros f Hf'. rewrite Efl. destruct (Z.eqb_spec (sl_of t' f0) 0) as [E|E].
    + rewrite (proj1 (clear_bit32 _ f0 f Hfr ltac:(lia) ltac:(lia))), B3 by done.
      destruct (Z.eqb_spec f f0) as [->|Hne]; [by rewrite andb_false_r, E|].
      by rewrite andb_true_r, Eo.
    + destruct (decide (f = f0)) as [->|Hne]; [|by rewrite Eo, B3].
      rewrite B3 by done. by rewrite !(proj2 (Z.eqb_neq _ 0)).
Qed.

(** ** Inserting and removing a free block *)

(** Replacing one free list. *)
Lemma raw_relist t m H G t' m' c l' :
  raw t m H G -> shape_ok t' -> bitmaps_ok t' (<[c := l']> G) ->
  (forall c', class_ok c' -> c' <> c -> head_of t' c' = head_of t c') ->
  (class_ok c -> dlist H_PREV_FREE H_NEXT_FREE m' (head_of t' c) l') -> NoDup l' ->
  (forall a, a ∈ l' -> exists h, H !! a = Some h /\ size_ok (h_size h) /\ cls (h_size h) = c) ->
  (forall a h, H !! a = Some h ->
     rd m' (a + H_SIZE) = rd m (a + H_SIZE) /\ rd m' (a + H_PREV_PHYS) = rd m (a + H_PREV_PHYS)) ->
  (forall a c', c' <> c -> a ∈ G c' ->
     rd m' (a + H_PREV_FREE) = rd m (a + H_PREV_FREE) /\
     rd m' (a + H_NEXT_FREE) = rd m (a + H_NEXT_FREE)) ->
  raw t' m' H (<[c := l']> G).
Proof.
  intros [R1 R2 R3 R4 R5 R6 R7 R8 R9] Hs Hb Hh Hd Hnd Hmem Hw Hl. split; try done.
  - intros a h Ha. rewrite (proj1 (Hw a h Ha)). auto.
  - intros a h Ha. rewrite (proj2 (Hw a h Ha)). auto.
  - intros c' Hc'. destruct (decide (c' = c)) as [->|Hne].
    + rewrite fn_lookup_insert. auto.
    + rewrite fn_lookup_insert_ne, Hh by done. eapply dlist_ext; [|by apply R5].
      intros a Ha. by eapply Hl.
  - intros c'. destruct (decide (c' = c)) as [->|Hne].
    + by rewrite fn_lookup_insert.
    + by rewrite fn_lookup_insert_ne.
  - intros c' a. destruct (decide (c' = c)) as [->|Hne].
    + rewrite fn_lookup_insert. auto.
    + rewrite fn_lookup_insert_ne by done. apply R7.
Qed.

Lemma sep_hdrs (H : gmap Z hdr) (l : list Z) :
  (forall a a' h h', H !! a = Some h -> H !! a' = Some h' -> a <> a' ->
     a + HEADER <= a' \/ a' + HEADER <= a) ->
  (forall a, a ∈ l -> is_Some (H !! a)) -> sep_nodes H_PREV_FREE H_NEXT_FREE l.
Proof.
  intros Hsep Hin x y [hx Hx]%Hin [hy Hy]%Hin. destruct (decide (x = y)) as [->|Hne]; [hdr_arith|].
  pose proof (Hsep x y hx hy Hx Hy Hne). hdr_arith.
Qed.

(** Nodes of the lists have headers, and their own class. *)
Lemma raw_in t m H G c a : raw t m H G -> a ∈ G c -> is_Some (H !! a).
Proof. intros R Ha. destruct (raw_mem _ _ _ _ R c a Ha) as (h & -> & _). eauto. Qed.

Lemma raw_class_unique t m H G c c' a : raw t m H G -> a ∈ G c -> a ∈ G c' -> c = c'.
Proof.
  intros R Ha Ha'. destruct (raw_mem _ _ _ _ R c a Ha) as (h & Hh & _ & <-).
  destruct (raw_mem _ _ _ _ R c' a Ha') as (h' & Hh' & _ & <-). congruence.
Qed.

Lemma raw_head t m H G c : raw t m H G -> class_ok c -> head_of t c <> 0 -> head_of t c ∈ G c.
Proof.
  intros R Hc Hz. pose proof (dlist_head _ _ _ _ _ (raw_lists _ _ _ _ R c Hc)) as E.
  destruct (G c); simpl in E; [done|]. rewrite E. set_solver.
Qed.

(** A link write misses every other cell of a header. *)
Lemma link_cell (H : gmap Z hdr) a b ha hb o o' :
  (forall a a' h h', H !! a = Some h -> H !! a' = Some h' -> a <> a' ->
     a + HEADER <= a' \/ a' + HEADER <= a) ->
  H !! a = Some ha -> H !! b = Some hb -> 0 <= o < HEADER -> 0 <= o' < HEADER ->
  a <> b \/ o <> o' -> a + o <> b + o'.
Proof.
  intros Hsep Ha Hb Ho Ho' Hne E. destruct (decide (a = b)) as [->|Hab]; [lia|].
  pose proof (Hsep a b ha hb Ha Hb Hab). hdr_arith.
Qed.

Ltac link_ne R :=
  eapply (link_cell _ _ _ _ _ _ _ (raw_sep _ _ _ _ R)); [eassumption|eassumption|
    unfold H_SIZE, H_PREV_PHYS, H_NEXT_FREE, H_PREV_FREE, HEADER; lia
   |unfold H_SIZE, H_PREV_PHYS, H_NEXT_FREE, H_PREV_FREE, HEADER; lia
   |unfold H_SIZE, H_PREV_PHYS, H_NEXT_FREE, H_PREV_FREE; first [by left|right; lia]].

Lemma raw_push t m H G a h t' :
  raw t m H G -> H !! a = Some h -> size_ok (h_size h) -> (forall c, a ∉ G c) ->
  let c := cls (h_size h) in
  shape_ok t' -> bitmaps_ok t' (<[c := a :: G c]> G) ->
  (forall c', class_ok c' -> c' <> c -> head_of t' c' = head_of t c') -> head_of t' c = a ->
  raw t' (push_mem H_PREV_FREE H_NEXT_FREE m (head_of t c) a) H (<[c := a :: G c]> G).
Proof.
  intros R Ha Hok Hni c Hs Hb Hh Hha. set (hd := head_of t c) in *.
  assert (class_ok c) as Hc by (apply cls_ok; destruct Hok; lia).
  assert (hd <> 0 -> hd ∈ G c) as Hhd by (intros; by apply (raw_head t m H G)).
  assert (forall b hb o, H !! b = Some hb -> 0 <= o < HEADER ->
    (b <> a \/ (o <> H_PREV_FREE /\ o <> H_NEXT_FREE)) -> (hd <> 0 -> b <> hd \/ o <> H_PREV_FREE) ->
    rd (push_mem H_PREV_FREE H_NEXT_FREE m hd a) (b + o) = rd m (b + o)) as Hkeep.
  { intros b hb o Hbb Ho Hna Hnh. apply push_mem_other.
    - eapply (link_cell H b a hb h); [apply R|done|done|done|done|]. tauto.
    - eapply (link_cell H b a hb h); [apply R|done|done|done|done|]. tauto.
    - intros Hz. destruct (raw_in _ _ _ _ _ _ R (Hhd Hz)) as [hh Hhh].
      eapply (link_cell H b hd hb hh); [apply R|done|done|done|done|auto]. }
  assert (NoDup (a :: G c)) as Hnd by (constructor; [apply Hni|apply (raw_nodup _ _ _ _ R)]).
  assert (forall b, b ∈ a :: G c -> exists hb, H !! b = Some hb /\ size_ok (h_size hb) /\ cls (h_size hb) = c)
    as Hmem by (intros b [->|Hbb]%elem_of_cons; [eauto|by apply (raw_mem _ _ _ _ R)]).
  eapply (raw_relist t m); try done.
  - intros _. rewrite Hha. apply dlist_push.
    + by apply (raw_lists _ _ _ _ R).
    + done.
    + pose proof (raw_ok _ _ _ _ R a h Ha). lia.
    + apply (sep_hdrs H); [apply R|]. intros b (hb & Hbb & _)%Hmem. eauto.
  - intros b hb Hbb. split; eapply Hkeep; eauto; try hdr_arith.
    all: unfold H_SIZE, H_PREV_PHYS, H_PREV_FREE, H_NEXT_FREE; right; lia.
  - intros b c' Hne Hbc. destruct (raw_in _ _ _ _ _ _ R Hbc) as [hb Hbb].
    assert (b <> a) by (intros ->; by apply Hni in Hbc).
    assert (hd <> 0 -> b <> hd).
    { intros Hz E. apply Hne, (raw_class_unique t m H G c' c b R Hbc). rewrite E. auto. }
    split; eapply Hkeep; eauto; hdr_arith.
Qed.

Lemma class_snd32 c : class_ok c -> 0 <= snd c < 32 /\ 0 <= fst c < 30.
Proof. intros [Hf Hl]. change SL_COUNT with 32 in Hl. by unfold FL_INDEX_COUNT in Hf. Qed.

Lemma wp_insert_free t m H G a h (Q : unit -> TState -> Prop) :
  raw t m H G -> H !! a = Some h -> size_ok (h_size h) -> (forall c, a ∉ G c) ->
  (forall t' m', raw t' m' (<[a := with_free true h]> H)
       (<[cls (h_size h) := a :: G (cls (h_size h))]> G) ->
     writes_only (hdr_cell H) m m' -> Q tt (t', m')) ->
  wp (insert_free a) (t, m) Q.
Proof.
  intros R Ha Hok Hni HQ. set (c := cls (h_size h)) in *.
  assert (class_ok c) as Hc by (apply cls_ok; destruct Hok; lia).
  destruct (class_snd32 c Hc) as [Hl Hf]. pose proof (raw_shape _ _ _ _ R) as Hsh.
  pose proof (raw_bitmaps _ _ _ _ R) as Hbm.
  unfold insert_free. wp_step. eapply wp_block_size; [done..|]. wp_step.
  apply wp_mapping; [destruct Hok; unfold W64; lia|]. fold c. wp_step.
  apply wp_get_list; [done..|]. set (hd := head_of t c).
  wp_step. wp_step. wp_step. wp_step. wp_step.
  assert (forall Q', Q' tt (t, push_mem H_PREV_FREE H_NEXT_FREE m hd a) ->
    wp (if negb (hd =? 0) then store (hd + H_PREV_FREE) a else ret ())
      (t, wr (wr m (a + H_NEXT_FREE) hd) (a + H_PREV_FREE) 0) Q') as Hlink.
  { intros Q'. rewrite push_mem_comm by done.
    destruct (Z.eqb_spec hd 0); cbn [negb]; intros; by wp_step. }
  apply Hlink. wp_step. apply wp_set_list; [done..|].
  intros t1 S1 F1 L1 Hh1 Ho1. wp_step. wp_step. wp_step. apply wp_ushl32_1; [lia|].
  wp_step. unfold set_fl, upd. wp_step. wp_step.
  set (t2 := mkTlsf _ _ _).
  assert (shape_ok t2) as S2 by by apply shape_set_fl.
  apply (wp_get_sl t2); [done|unfold FL_INDEX_COUNT; lia|]. wp_step. apply wp_ushl32_1; [lia|]. wp_step.
  apply wp_set_sl; [done|unfold FL_INDEX_COUNT; lia|]. intros t3 S3 F3 L3 Hsl3 Hso3.
  assert (sl_of t2 = sl_of t) as E2 by (unfold sl_of, t2; simpl; by rewrite L1).
  assert (forall c', head_of t3 c' = head_of t1 c') as E3 by (intros; unfold head_of; by rewrite L3).
  assert (raw t3 (push_mem H_PREV_FREE H_NEXT_FREE m hd a) H (<[c := a :: G c]> G)) as R'.
  { apply (raw_push t m H G a h); fold c; try done.
    - apply (bitmaps_push t t3); [done|done| |by rewrite Hsl3, E2|].
      + rewrite F3. unfold t2; simpl. by rewrite F1.
      + intros f Hff Hne. rewrite Hso3, E2; done.
    - intros c' Hc' Hne. rewrite E3. by apply Ho1.
    - by rewrite E3. }
  eapply wp_set_free; [exact R'|exact Ha|]. intros m4 R4 W4. apply HQ; [done|].
  eapply writes_only_trans; [|exact W4]. intros x Hx.
  assert (hd <> 0 -> exists hh, H !! hd = Some hh) as Hhd.
  { intros Hz. apply (raw_in t m H G c); [done|]. by apply (raw_head t m H G). }
  apply push_mem_other.
  - intros ->. apply Hx. by eapply hdr_cell_in.
  - intros ->. apply Hx. by eapply hdr_cell_in.
  - intros Hz ->. destruct (Hhd Hz) as [hh Hhh]. apply Hx. by eapply hdr_cell_in.
Qed.

(** The link targets of a listed block are listed neighbours. *)
Lemma raw_links t m H G c l1 a l2 :
  raw t m H G -> class_ok c -> G c = l1 ++ a :: l2 ->
  let p := rd m (a + H_PREV_FREE) in
  let n := rd m (a + H_NEXT_FREE) in
  (p <> 0 -> p ∈ l1) /\ (n <> 0 -> n ∈ l2).
Proof.
  intros R Hc HG. pose proof (raw_lists _ _ _ _ R c Hc) as Hd. rewrite HG in Hd.
  destruct (dlist_middle _ _ _ _ _ _ _ Hd) as [-> ->]. split.
  - destruct (last l1) eqn:E; simpl; [|done]. intros _. by apply last_Some_elem_of.
  - destruct l2; simpl; [done|]. intros _. set_solver.
Qed.

Lemma raw_unlink t m H G c l1 a l2 t' :
  raw t m H G -> class_ok c -> G c = l1 ++ a :: l2 ->
  let p := rd m (a + H_PREV_FREE) in
  let n := rd m (a + H_NEXT_FREE) in
  shape_ok t' -> bitmaps_ok t' (<[c := l1 ++ l2]> G) ->
  (forall c', class_ok c' -> c' <> c -> head_of t' c' = head_of t c') ->
  head_of t' c = (if p =? 0 then n else head_of t c) ->
  raw t' (unlink_mem H_PREV_FREE H_NEXT_FREE m p n) H (<[c := l1 ++ l2]> G).
Proof.
  intros R Hc HG p n Hs Hb Hh Hhc. destruct (raw_links _ _ _ _ _ _ _ _ R Hc HG) as [Hp Hn].
  fold p in Hp. fold n in Hn.
  pose proof (raw_nodup _ _ _ _ R c) as Hnd. rewrite HG in Hnd.
  assert (forall b, b ∈ l1 ++ a :: l2 -> exists hb, H !! b = Some hb /\ size_ok (h_size hb) /\ cls (h_size hb) = c)
    as Hmem by (intros b Hbb; apply (raw_mem _ _ _ _ R); by rewrite HG).
  assert (forall b hb o, H !! b = Some hb -> 0 <= o < HEADER ->
    (p <> 0 -> b <> p \/ o <> H_NEXT_FREE) -> (n <> 0 -> b <> n \/ o <> H_PREV_FREE) ->
    rd (unlink_mem H_PREV_FREE H_NEXT_FREE m p n) (b + o) = rd m (b + o)) as Hkeep.
  { intros b hb o Hbb Ho Hna Hnh. apply unlink_mem_other; intros Hz.
    - destruct (Hmem p) as (hp & Hhp & _); [set_solver|].
      eapply (link_cell H b p hb hp); [apply R|done|done|done|done|auto].
    - destruct (Hmem n) as (hn & Hhn & _); [set_solver|].
      eapply (link_cell H b n hb hn); [apply R|done|done|done|done|auto]. }
  eapply (raw_relist t m); try done.
  - intros _. rewrite Hhc. apply dlist_unlink.
    + rewrite <- HG. by apply (raw_lists _ _ _ _ R).
    + done.
    + apply (sep_hdrs H); [apply R|]. intros b (hb & Hbb & _)%Hmem. eauto.
  - rewrite <- Permutation_middle in Hnd. by apply NoDup_cons in Hnd as [_ ?].
  - intros b Hbb. apply Hmem. set_solver.
  - intros b hb Hbb. split; eapply Hkeep; eauto; try hdr_arith.
    all: unfold H_SIZE, H_PREV_PHYS, H_PREV_FREE, H_NEXT_FREE; right; lia.
  - intros b c' Hne Hbc. destruct (raw_in _ _ _ _ _ _ R Hbc) as [hb Hbb].
    assert (forall x, x ∈ l1 ++ a :: l2 -> b <> x) as Hbx.
    { intros x Hx E. apply Hne, (raw_class_unique t m H G c' c b R Hbc). by rewrite E, HG. }
    split; eapply Hkeep; eauto; try hdr_arith; intros Hz; left; apply Hbx; set_solver.
Qed.

Lemma sl_nonzero t G c : bitmaps_ok t G -> class_ok c -> G c <> [] -> sl_of t (fst c) <> 0.
Proof.
  intros B [Hf Hl] HG E. destruct (bo_sl _ _ B _ Hf) as [_ Hb]. specialize (Hb _ Hl).
  rewrite E, Z.bits_0 in Hb. rewrite <- surjective_pairing in Hb. by rewrite bool_decide_false in Hb.
Qed.

Lemma wp_remove_free t m H G a h c l1 l2 (Q : unit -> TState -> Prop) :
  raw t m H G -> H !! a = Some h -> G c = l1 ++ a :: l2 ->
  (forall t' m', raw t' m' (<[a := with_free false h]> H) (<[c := l1 ++ l2]> G) ->
     writes_only (hdr_cell H) m m' -> Q tt (t', m')) ->
  wp (remove_free a) (t, m) Q.
Proof.
  intros R Ha HG HQ.
  destruct (raw_mem _ _ _ _ R c a) as (h' & Ha' & Hok & Ec); [rewrite HG; set_solver|].
  rewrite Ha in Ha'. injection Ha' as <-.
  assert (class_ok c) as Hc by (rewrite <- Ec; apply cls_ok; destruct Hok; lia).
  destruct (class_snd32 c Hc) as [Hl Hf]. pose proof (raw_shape _ _ _ _ R) as Hsh.
  pose proof (raw_bitmaps _ _ _ _ R) as Hbm.
  assert (sl_of t (fst c) <> 0) as Hslnz by (apply (sl_nonzero t G); rewrite ?HG; [done..|by destruct l1]).
  set (p := rd m (a + H_PREV_FREE)). set (n := rd m (a + H_NEXT_FREE)).
  destruct (raw_links _ _ _ _ _ _ _ _ R Hc HG) as [Hp Hn]. fold p in Hp. fold n in Hn.
  unfold remove_free. wp_step. eapply wp_block_size; [done..|]. wp_step.
  apply wp_mapping; [destruct Hok; unfold W64; lia|]. rewrite Ec. do 4 wp_step. fold p n. wp_step.
  assert (forall Q' : unit -> TState -> Prop,
    (forall t1, shape_ok t1 -> fl_bitmap t1 = fl_bitmap t -> sl_bitmap t1 = sl_bitmap t ->
       head_of t1 c = (if p =? 0 then n else head_of t c) ->
       (forall c', class_ok c' -> c' <> c -> head_of t1 c' = head_of t c') ->
       Q' tt (t1, if p =? 0 then m else wr m (p + H_NEXT_FREE) n)) ->
    wp (if negb (p =? 0) then store (p + H_NEXT_FREE) n else set_list (fst c) (snd c) n) (t, m) Q') as Hlink1.
  { intros Q' HQ'. destruct (Z.eqb_spec p 0); cbn [negb].
    - apply wp_set_list; [done..|]. intros t1 S1 F1 L1 Hh1 Ho1. by apply HQ'.
    - wp_step. by apply HQ'. }
  apply Hlink1. intros t1 S1 F1 L1 Hh1 Ho1. clear Hlink1. wp_step.
  match goal with |- wp _ (_, ?m1) _ => set (ml := m1) end.
  assert (forall Q' : unit -> TState -> Prop,
    Q' tt (t1, unlink_mem H_PREV_FREE H_NEXT_FREE m p n) ->
    wp (if negb (n =? 0) then store (n + H_PREV_FREE) p else ret ()) (t1, ml) Q') as Hlink2.
  { intros Q' HQ'. unfold unlink_mem in HQ'. destruct (Z.eqb_spec n 0); cbn [negb]; by wp_step. }
  apply Hlink2. clear Hlink2. wp_step. apply wp_get_list; [done..|]. wp_step.
  assert (forall t3, shape_ok t3 -> free_lists t3 = free_lists t1 -> bitmaps_ok t3 (<[c := l1 ++ l2]> G) ->
    raw t3 (unlink_mem H_PREV_FREE H_NEXT_FREE m p n) H (<[c := l1 ++ l2]> G)) as Hraw.
  { intros t3 S3 L3 B3. assert (forall c', head_of t3 c' = head_of t1 c') as E3
      by (intros; unfold head_of; by rewrite L3).
    apply (raw_unlink t m H G c l1 a l2 t3 R Hc HG); [done|done| |by rewrite E3].
    intros c' Hc' Hne. rewrite E3. by apply Ho1. }
  assert (sl_of t1 = sl_of t) as E1 by (unfold sl_of; by rewrite L1).
  assert (forall t3, raw t3 (unlink_mem H_PREV_FREE H_NEXT_FREE m p n) H (<[c := l1 ++ l2]> G) ->
    wp (set_free a false) (t3, unlink_mem H_PREV_FREE H_NEXT_FREE m p n) Q) as Hfin.
  { intros t3 R3. eapply wp_set_free; [exact R3|exact Ha|]. intros m4 R4 W4. apply HQ; [done|].
    eapply writes_only_trans; [|exact W4]. intros x Hx.
    assert (forall q o, q ∈ G c -> 0 <= o < HEADER -> x <> q + o) as Hq.
    { intros q o Hq Ho ->. destruct (raw_in _ _ _ _ _ _ R Hq) as [hq Hhq]. apply Hx. by eapply hdr_cell_in. }
    apply unlink_mem_other; intros Hz; apply Hq; rewrite ?HG; try hdr_arith; set_solver. }
  assert (head_of t1 c = 0 <-> l1 ++ l2 = []) as Hnull.
  { rewrite Hh1. apply (dlist_null H_PREV_FREE H_NEXT_FREE (unlink_mem H_PREV_FREE H_NEXT_FREE m p n)).
    apply dlist_unlink.
    - rewrite <- HG. by apply (raw_lists _ _ _ _ R).
    - rewrite <- HG. apply (raw_nodup _ _ _ _ R).
    - apply (sep_hdrs H); [apply R|]. intros b Hb. apply (raw_in t m H G c); [done|by rewrite HG]. }
  destruct (Z.eqb_spec (head_of t1 c) 0) as [Ez|Ez].
  - (* the list is now empty *)
    apply Hnull in Ez as Enil. rewrite Enil in *.
    wp_step. apply wp_ushl32_1; [lia|]. wp_step. apply wp_get_sl; [done|unfold FL_INDEX_COUNT; lia|].
    wp_step. apply wp_set_sl; [done|unfold FL_INDEX_COUNT; lia|]. intros t3 S3 F3 L3 Hsl3 Hso3.
    rewrite E1 in Hsl3. wp_step. apply wp_get_sl; [done|unfold FL_INDEX_COUNT; lia|].
    assert (forall t4, sl_bitmap t4 = sl_bitmap t3 ->
      fl_bitmap t4 = (if sl_of t4 (fst c) =? 0 then Z.land (fl_bitmap t) (not32 (2 ^ fst c)) else fl_bitmap t) ->
      bitmaps_ok t4 (<[c := []]> G)) as Hbm4.
    { intros t4 E4 Efl. assert (sl_of t4 = sl_of t3) as E5 by (unfold sl_of; by rewrite E4).
      apply (bitmaps_clear t); try done; rewrite ?E5; try done.
      intros f Hff Hne. rewrite Hso3 by done. by rewrite E1. }
    destruct (Z.eqb_spec (sl_of t3 (fst c)) 0) as [Ew|Ew].
    + wp_step. wp_step. wp_step. apply wp_ushl32_1; [lia|]. unfold set_fl, upd. wp_step.
      apply Hfin, Hraw; [by apply shape_set_fl|by rewrite <- L3|]. apply Hbm4; [done|].
      unfold sl_of; simpl. fold (sl_of t3 (fst c)). rewrite Ew. simpl. by rewrite F3, F1.
    + wp_step. apply Hfin, Hraw; [done|done|]. apply Hbm4; [done|].
      rewrite (proj2 (Z.eqb_neq _ 0)) by done. by rewrite F3, F1.
  - wp_step. apply Hfin, Hraw; [done|done|]. apply (bitmaps_same t); try done.
    + by intros; rewrite E1.
    + rewrite HG. by destruct l1.
    + intros E. by apply Ez, Hnull.
Qed.

(** ** The search *)

Lemma shifted_bit w k n : 0 <= w < 2 ^ n -> 0 <= k -> Z.shiftr w k <> 0 ->
  let i := k + trailing_zeros (Z.shiftr w k) in Z.testbit w i = true /\ k <= i < n.
Proof.
  intros Hw Hk Hz. pose proof (trailing_zeros_nonneg (Z.shiftr w k)) as Ht.
  assert (0 <= Z.shiftr w k) as Hs by (apply Z.shiftr_nonneg; lia).
  pose proof (trailing_zeros_bit (Z.shiftr w k) ltac:(lia)) as Hb.
  rewrite Z.shiftr_spec, Z.add_comm in Hb by lia. cbn zeta. split; [done|]. split; [lia|].
  destruct (Z_lt_le_dec (k + trailing_zeros (Z.shiftr w k)) n); [done|].
  by rewrite (testbit_above w n) in Hb.
Qed.

Lemma shifted_zero w k i : 0 <= k <= i -> Z.shiftr w k = 0 -> Z.testbit w i = false.
Proof.
  intros Hk Hz. replace i with (i - k + k) by lia. rewrite <- Z.shiftr_spec by lia.
  by rewrite Hz, Z.bits_0.
Qed.

(** A set bit is at the lowest one found or above. *)
Lemma shifted_low w k i : 0 <= w -> 0 <= k <= i -> Z.testbit w i = true -> k + trailing_zeros (Z.shiftr w k) <= i.
Proof.
  intros Hw Hk Hb. assert (Z.testbit (Z.shiftr w k) (i - k) = true) as Hs.
  { rewrite Z.shiftr_spec by lia. by replace (i - k + k) with i by lia. }
  assert (0 <= Z.shiftr w k) as H0 by by apply Z.shiftr_nonneg.
  assert (Z.shiftr w k <> 0) as Hne by (intros E; by rewrite E, Z.bits_0 in Hs).
  pose proof (trailing_zeros_low (Z.shiftr w k) (i - k) ltac:(lia) ltac:(lia) Hs). lia.
Qed.

Lemma sl_bit_list t G f l :
  bitmaps_ok t G -> 0 <= f < 30 -> 0 <= l < 32 -> Z.testbit (sl_of t f) l = negb (bool_decide (G (f, l) = [])).
Proof. intros B Hf Hl. by apply (bo_sl _ _ B f Hf). Qed.

Lemma list_sl_bit t G f l :
  bitmaps_ok t G -> 0 <= f < 30 -> 0 <= l < 32 -> G (f, l) <> [] -> Z.testbit (sl_of t f) l = true.
Proof. intros B Hf Hl Hne. rewrite (sl_bit_list t G) by done. by rewrite bool_decide_false. Qed.

Lemma wp_find_free t m H G size (Q : option Z -> TState -> Prop) :
  raw t m H G -> 32 <= size -> round_up size < 2 ^ 30 ->
  (forall a c l, class_ok c -> class_le (cls (round_up size)) c -> G c = a :: l ->
     (forall c', class_ok c' -> class_le (cls (round_up size)) c' -> G c' <> [] -> class_le c c') -> Q (Some a) (t, m)) ->
  ((forall c, class_ok c -> class_le (cls (round_up size)) c -> G c = []) -> Q None (t, m)) ->
  wp (find_free size) (t, m) Q.
Proof.
  intros R Hsz Hru HS HN. pose proof (raw_shape _ _ _ _ R) as Hsh.
  pose proof (raw_bitmaps _ _ _ _ R) as Hbm. pose proof (bo_fl _ _ Hbm) as Hflr.
  unfold FL_INDEX_COUNT in Hflr.
  assert (size <= round_up size) as Hle by (unfold round_up; pose proof (Z.pow_pos_nonneg 2 (Z.log2 size - 5));
    pose proof (log2_ge5 size Hsz); lia).
  pose proof (cls_ok (round_up size) ltac:(lia)) as Hc0. remember (cls (round_up size)) as c0 eqn:Ec0.
  destruct (class_snd32 c0 Hc0) as [Hl0 Hf0].
  assert (forall c, class_ok c -> class_le c0 c -> G c <> [] ->
    (forall c', class_ok c' -> class_le c0 c' -> G c' <> [] -> class_le c c') -> wp (get_list (fst c) (snd c)) (t, m)
    (fun head s' => wp (ret (Some head)) s' Q)) as Hget.
  { intros c Hc Hcle Hne Hmin. apply wp_get_list; [done..|]. wp_step.
    pose proof (dlist_head _ _ _ _ _ (raw_lists _ _ _ _ R c Hc)) as Hh.
    destruct (G c) as [|a l] eqn:EG; [done|]. simpl in Hh. rewrite Hh. by apply (HS a c l). }
  unfold find_free. wp_step. apply wp_mapping_search; [done|unfold W64; lia|]. rewrite <- Ec0.
  wp_step. apply wp_get_sl; [done|done|]. wp_step. apply wp_ushr32; [lia|].
  destruct (bo_sl _ _ Hbm (fst c0) Hf0) as [Hw _].
  destruct (Z.eqb_spec (Z.shiftr (sl_of t (fst c0)) (snd c0)) 0) as [Ez|Ez]; cbn [negb].
  2: { destruct (shifted_bit _ (snd c0) 32 Hw ltac:(lia) Ez) as [Hb Hi].
       set (l1 := snd c0 + trailing_zeros _) in *.
       assert (class_ok (fst c0, l1)) by (unfold class_ok; change SL_COUNT with 32; cbn [fst snd]; unfold FL_INDEX_COUNT; lia).
       wp_step. apply (Hget (fst c0, l1)); [done|right; cbn [fst snd]; lia| |].
       - intros E. rewrite (sl_bit_list t G) in Hb by first [done|lia]. by rewrite bool_decide_true in Hb.
       - intros [f' l'] Hc' Hcle' Hne'. destruct (class_snd32 _ Hc') as [Hl' Hf']. unfold class_le in *. cbn [fst snd] in *.
         destruct Hcle' as [?|[<- ?]]; [by left|right; split; [done|]]. apply shifted_low; [lia|lia|].
         by apply (list_sl_bit t G). }
  wp_step. wp_step. wp_step. apply wp_ushr32; [lia|].
  destruct (Z.eqb_spec (Z.shiftr (fl_bitmap t) (fst c0 + 1)) 0) as [Ef|Ef].
  - wp_step. apply HN. intros [f l] Hc Hcle. destruct (class_snd32 _ Hc) as [Hl Hf]. simpl in *.
    assert (Z.testbit (sl_of t f) l = false) as Hb.
    { destruct Hcle as [Hlt|[E Hle']]; cbn [fst snd] in *.
      - assert (sl_of t f = 0) as ->; [|apply Z.bits_0].
        pose proof (bo_fl_bit _ _ Hbm f Hf) as Hb. rewrite (shifted_zero _ (fst c0 + 1)) in Hb by first [done|lia].
        apply eq_sym, negb_false_iff in Hb. by apply Z.eqb_eq.
      - rewrite <- E. apply (shifted_zero _ (snd c0)); [lia|done]. }
    rewrite (sl_bit_list t G) in Hb by done. apply negb_false_iff in Hb. by apply bool_decide_eq_true in Hb.
  - destruct (shifted_bit _ (fst c0 + 1) 30 Hflr ltac:(lia) Ef) as [Hb Hi].
    replace (fst c0 + (1 + trailing_zeros (Z.shiftr (fl_bitmap t) (fst c0 + 1))))
      with (fst c0 + 1 + trailing_zeros (Z.shiftr (fl_bitmap t) (fst c0 + 1))) by lia.
    set (f1 := fst c0 + 1 + _) in *.
    pose proof (bo_fl_bit _ _ Hbm f1 ltac:(unfold FL_INDEX_COUNT; lia)) as Hb1. rewrite Hb in Hb1.
    apply eq_sym, negb_true_iff, Z.eqb_neq in Hb1.
    destruct (bo_sl _ _ Hbm f1 ltac:(unfold FL_INDEX_COUNT; lia)) as [Hw1 _].
    destruct (shifted_bit (sl_of t f1) 0 32 Hw1 ltac:(lia)) as [Hb2 Hi2]; [by rewrite Z.shiftr_0_r|].
    rewrite Z.shiftr_0_r, Z.add_0_l in Hb2, Hi2.
    wp_step. apply wp_get_sl; [done|unfold FL_INDEX_COUNT; lia|]. wp_step.
    set (l1 := trailing_zeros (sl_of t f1)) in *.
    assert (class_ok (f1, l1)) by (unfold class_ok; change SL_COUNT with 32; cbn [fst snd]; unfold FL_INDEX_COUNT; lia).
    apply (Hget (f1, l1)); [done|left; cbn [fst snd]; lia| |].
    { intros E. rewrite (sl_bit_list t G) in Hb2 by first [done|lia]. by rewrite bool_decide_true in Hb2. }
    intros [f' l'] Hc' Hcle' Hne'. destruct (class_snd32 _ Hc') as [Hl' Hf']. unfold class_le in *. cbn [fst snd] in *.
    pose proof (list_sl_bit t G f' l' Hbm ltac:(lia) ltac:(lia) Hne') as Hb'. destruct Hcle' as [Hlt|[E ?]].
    2: { rewrite <- E, (shifted_zero _ (snd c0)) in Hb' by first [done|lia]. done. }
    assert (f1 <= f') as Hle1.
    { apply shifted_low; [lia|lia|]. rewrite (bo_fl_bit _ _ Hbm f' ltac:(unfold FL_INDEX_COUNT; lia)).
      apply negb_true_iff, Z.eqb_neq. intros E0. by rewrite E0, Z.bits_0 in Hb'. }
    destruct (decide (f1 = f')) as [<-|]; [right; split; [done|]|left; lia].
    pose proof (shifted_low (sl_of t f1) 0 l' ltac:(lia) ltac:(lia) Hb') as Hlo. by rewrite Z.shiftr_0_r, Z.add_0_l in Hlo.
Qed.

(** ** The heap invariant *)

(** The headers tile the pool from [lo] to the sentinel at [hi]; [ex] is the
    block in hand, whose state the flag of its successor need not match. *)
Record heap (ex lo hi : Z) (H : gmap Z hdr) (G : class -> list Z) : Prop := mkHeap {
  hp_lo : exists h, H !! lo = Some h /\ h_pf h = false;
  hp_hi : exists h, H !! hi = Some h /\ h_size h = 0 /\ h_free h = false;
  hp_pool : 0 < lo < hi /\ hi - lo < 2 ^ 30 /\ hi + HEADER <= W64;
  hp_range : forall a h, H !! a = Some h -> lo <= a <= hi /\ (8 | a);
  hp_size : forall a h, H !! a = Some h -> a <> hi -> size_ok (h_size h);
  hp_next : forall a h, H !! a = Some h -> a <> hi ->
    exists hn, H !! (a + HEADER + h_size h) = Some hn /\
      (a <> ex -> a + HEADER + h_size h <> hi -> h_pf hn = h_free h);
  hp_sep : forall a a' h h', H !! a = Some h -> H !! a' = Some h' -> a < a' ->
    a + HEADER + h_size h <= a';
  hp_free : forall a h, H !! a = Some h -> h_free h = true <-> exists c, a ∈ G c;
  hp_listed : forall c a, a ∈ G c -> is_Some (H !! a)
}.

(** The block's [prev_phys] names the block in front of it. *)
Definition prev_ok (lo : Z) (H : gmap Z hdr) (a : Z) : Prop :=
  forall h, H !! a = Some h -> a <> lo ->
    exists hp, H !! h_prev h = Some hp /\ h_prev h + HEADER + h_size hp = a.

(** Simplify lookups in updated header maps. *)
Ltac hlook :=
  repeat match goal with
  | Hk : <[_ := _]> _ !! _ = Some _ |- _ => apply lookup_insert_Some in Hk as [[? ?]|[? Hk]]
  | Hk : delete _ _ !! _ = Some _ |- _ => apply lookup_delete_Some in Hk as [? Hk]
  end; simplify_eq; cbn [h_size h_free h_pf h_prev with_size with_free with_pf with_prev] in *.

Lemma next_pos ex lo hi H G a h : heap ex lo hi H G -> H !! a = Some h -> a <> hi ->
  32 <= h_size h < 2 ^ 30 /\ (8 | h_size h) /\ a + HEADER + h_size h <= hi.
Proof.
  intros Hp Ha Hne. destruct (hp_size _ _ _ _ _ Hp a h Ha Hne) as [Hs Hd].
  destruct (hp_next _ _ _ _ _ Hp a h Ha Hne) as (hn & Hn & _).
  apply (hp_range _ _ _ _ _ Hp) in Hn. split_and!; lia || done.
Qed.

(** Taking a free block off its list leaves it in hand. *)
Lemma heap_take lo hi H G a h c l1 l2 :
  heap 0 lo hi H G -> H !! a = Some h -> G c = l1 ++ a :: l2 -> NoDup (G c) ->
  (forall c', a ∈ G c' -> c' = c) ->
  heap a lo hi (<[a := with_free false h]> H) (<[c := l1 ++ l2]> G).
Proof.
  intros Hp Ha HG Hnd Huniq. pose proof Hp as [P1 P2 P3 P4 P5 P6 P7 P8 P9].
  rewrite HG in Hnd. rewrite <- Permutation_middle in Hnd. apply NoDup_cons in Hnd as [Hni _].
  assert (forall b, b <> a -> (exists c', b ∈ <[c := l1 ++ l2]> G c') <-> exists c', b ∈ G c') as HGb.
  { intros b Hb. split; intros [c' Hc']; exists c'; destruct (decide (c' = c)) as [->|Hne].
    - rewrite fn_lookup_insert in Hc'. rewrite HG. set_solver.
    - by rewrite fn_lookup_insert_ne in Hc'.
    - rewrite fn_lookup_insert. rewrite HG in Hc'. set_solver.
    - by rewrite fn_lookup_insert_ne. }
  assert (h_free h = true) as Hfr by (apply (P8 a h Ha); exists c; rewrite HG; set_solver).
  split; try done.
  - destruct P1 as (h0 & H0 & Hpf). destruct (decide (lo = a)) as [->|].
    + exists (with_free false h). rewrite lookup_insert_eq. by simplify_eq.
    + exists h0. by rewrite lookup_insert_ne.
  - destruct P2 as (h0 & H0 & Hs & Hf). exists h0. rewrite lookup_insert_ne; [done|]. intros ->. congruence.
  - intros b hb Hb. hlook; eauto.
  - intros b hb Hb Hne. hlook; eauto.
  - intros b hb Hb Hne.
    assert (exists h0, H !! b = Some h0 /\ h_size h0 = h_size hb /\ (b <> a -> h0 = hb)) as (h0 & H0 & Es & E0)
      by (hlook; naive_solver).
    destruct (P6 b h0 H0 Hne) as (hn & Hn & Hpf). rewrite <- Es.
    destruct (decide (b + HEADER + h_size h0 = a)) as [E|E].
    + exists (with_free false h). rewrite E in *. rewrite lookup_insert_eq. split; [done|].
      simplify_eq. intros Hba Hhi. rewrite <- E0 by done. apply Hpf; [|done].
      pose proof (P4 _ _ H0). lia.
    + exists hn. rewrite lookup_insert_ne by done. split; [done|]. intros Hba Hhi.
      rewrite <- E0 by done. apply Hpf; [|done]. pose proof (P4 _ _ H0). lia.
  - intros b b' hb hb' Hb Hb' Hlt.
    assert (exists h0, H !! b = Some h0 /\ h_size h0 = h_size hb) as (h0 & H0 & <-) by (hlook; eauto).
    assert (exists h0, H !! b' = Some h0) as (h1 & H1) by (hlook; eauto). eauto.
  - intros b hb Hb. hlook.
    + split; [done|]. intros [c' Hc']. exfalso. destruct (decide (c' = c)) as [->|Hne].
      * by rewrite fn_lookup_insert in Hc'.
      * rewrite fn_lookup_insert_ne in Hc' by done. by apply Hne, Huniq.
    + rewrite HGb by done. by apply P8.
  - intros c' b Hb. apply lookup_insert_is_Some. destruct (decide (a = b)); [by left|right].
    split; [done|]. destruct (proj1 (HGb b ltac:(done))) as [c2 Hc2]; eauto.
Qed.

(** Setting the successor's flag puts the block in hand back. *)
Lemma heap_settle a lo hi H G h hn :
  heap a lo hi H G -> H !! a = Some h -> a <> hi -> H !! (a + HEADER + h_size h) = Some hn ->
  heap 0 lo hi (<[a + HEADER + h_size h := with_pf (h_free h) hn]> H) G.
Proof.
  intros Hp Ha Hne Hn. pose proof Hp as [P1 P2 P3 P4 P5 P6 P7 P8 P9].
  set (n := a + HEADER + h_size h) in *. destruct (next_pos _ _ _ _ _ _ _ Hp Ha Hne) as (Hs & _ & Hle).
  assert (forall b hb, <[n := with_pf (h_free h) hn]> H !! b = Some hb ->
    exists h0, H !! b = Some h0 /\ h_size h0 = h_size hb /\ h_free h0 = h_free hb) as Hback
    by (intros b hb Hb; hlook; eauto).
  split; try done.
  - destruct P1 as (h0 & H0 & Hpf). exists h0. rewrite lookup_insert_ne; [done|].
    pose proof (P4 _ _ Ha). unfold n, HEADER. lia.
  - destruct P2 as (h0 & H0 & Hsz & Hf). destruct (decide (n = hi)) as [->|].
    + exists (with_pf (h_free h) hn). rewrite lookup_insert_eq. simplify_eq. done.
    + exists h0. by rewrite lookup_insert_ne.
  - intros b hb (h0 & H0 & _)%Hback. eauto.
  - intros b hb (h0 & H0 & <- & _)%Hback. eauto.
  - intros b hb Hb Hbh. destruct (Hback b hb Hb) as (h0 & H0 & <- & <-).
    destruct (P6 b h0 H0 Hbh) as (hx & Hx & Hpf).
    destruct (decide (n = b + HEADER + h_size h0)) as [E|E].
    + exists (with_pf (h_free h) hn). rewrite <- E, lookup_insert_eq. split; [done|]. intros _ _. simpl.
      assert (b = a) as ->; [|by simplify_eq].
      destruct (Ztrichotomy b a) as [Hlt|[|Hgt]]; [|done|].
      * pose proof (P7 b a h0 h H0 Ha Hlt). unfold n, HEADER in *. lia.
      * pose proof (P7 a b h h0 Ha H0 ltac:(lia)). pose proof (next_pos _ _ _ _ _ _ _ Hp H0 Hbh).
        unfold n, HEADER in *. lia.
    + exists hx. rewrite lookup_insert_ne by done. split; [done|]. intros _. apply Hpf.
      intros ->. apply E. unfold n. by simplify_eq.
  - intros b b' hb hb' (h0 & H0 & <- & _)%Hback (h1 & H1 & _)%Hback. eauto.
  - intros b hb (h0 & H0 & _ & <-)%Hback. eauto.
  - intros c b Hb. apply lookup_insert_is_Some. destruct (decide (n = b)); [by left|right]. eauto.
Qed.

(** Cutting the block in hand: its tail becomes a free block. *)
Definition split_hdrs (H : gmap Z hdr) (a s : Z) (h ha : hdr) : gmap Z hdr :=
  let n := a + HEADER + s in
  let rest := h_size h - s - HEADER in
  <[a + HEADER + h_size h := with_prev n ha]>
    (<[n := mkHdr rest true false a]> (<[a := with_size s h]> H)).

Lemma not_listed ex lo hi H G a h : heap ex lo hi H G -> H !! a = Some h -> h_free h = false -> forall c, a ∉ G c.
Proof.
  intros Hp Ha Hf c Hc. pose proof (proj2 (hp_free _ _ _ _ _ Hp a h Ha) (ex_intro _ c Hc)). congruence.
Qed.

(** No header lies strictly inside a block. *)
Lemma no_hdr_inside ex lo hi H G a h x : heap ex lo hi H G -> H !! a = Some h -> a <> hi ->
  a < x < a + HEADER + h_size h -> H !! x = None.
Proof.
  intros Hp Ha Hne Hx. destruct (H !! x) as [hx|] eqn:E; [|done].
  pose proof (hp_sep _ _ _ _ _ Hp a x h hx Ha E). lia.
Qed.

Lemma split_lookup H a s h ha b hb :
  split_hdrs H a s h ha !! b = Some hb ->
  let n := a + HEADER + s in let after := a + HEADER + h_size h in
  n <> after -> a <> n -> a <> after -> H !! after = Some ha -> H !! a = Some h ->
  (b = n /\ hb = mkHdr (h_size h - s - HEADER) true false a) \/
  (b = a /\ hb = with_size s h) \/
  (b = after /\ hb = with_prev n ha) \/
  (b <> n /\ b <> a /\ b <> after /\ H !! b = Some hb).
Proof.
  intros Hb n after H1 H2 H3 Ha Hh. unfold split_hdrs in Hb. fold n after in Hb.
  apply lookup_insert_Some in Hb as [[<- <-]|[N1 Hb]]; [auto|].
  apply lookup_insert_Some in Hb as [[<- <-]|[N2 Hb]]; [auto|].
  apply lookup_insert_Some in Hb as [[<- <-]|[N3 Hb]]; [auto|].
  right. right. right. auto.
Qed.

Lemma heap_split a lo hi H G h ha s :
  heap a lo hi H G -> H !! a = Some h -> a <> hi -> h_free h = false ->
  H !! (a + HEADER + h_size h) = Some ha ->
  (a + HEADER + h_size h <> hi -> h_pf ha = true) ->
  size_ok s -> size_ok (h_size h - s - HEADER) ->
  let n := a + HEADER + s in
  let c := cls (h_size h - s - HEADER) in
  heap 0 lo hi (split_hdrs H a s h ha) (<[c := n :: G c]> G).
Proof.
  intros Hp Ha Hne Hf Hafter Hpf [Hs Hds] [Hr Hdr] n c. pose proof Hp as [P1 P2 P3 P4 P5 P6 P7 P8 P9].
  set (after := a + HEADER + h_size h) in *. set (H' := split_hdrs H a s h ha).
  assert (a < n < after) as Hn by (unfold n, after, HEADER in *; lia).
  assert (H !! n = None) as Hnn by (eapply no_hdr_inside; [exact Hp|exact Ha|done|exact Hn]).
  pose proof (P4 _ _ Ha) as [Har Hda]. pose proof (P4 _ _ Hafter) as [Hafr _].
  assert (forall b, b ∉ G c \/ b <> n) as Hng.
  { intros b. destruct (decide (b = n)) as [->|]; [left|by right]. intros Hc.
    destruct (P9 c n Hc) as [? E]. congruence. }
  assert (forall b, (exists c', b ∈ <[c := n :: G c]> G c') <-> b = n \/ exists c', b ∈ G c') as HGb.
  { intros b. split.
    - intros [c' Hc']. destruct (decide (c' = c)) as [->|Hnc].
      + rewrite fn_lookup_insert in Hc'. apply elem_of_cons in Hc' as [->|?]; eauto.
      + rewrite fn_lookup_insert_ne in Hc' by done. eauto.
    - intros [->|[c' Hc']]; [exists c; rewrite fn_lookup_insert; set_solver|].
      exists c'. destruct (decide (c' = c)) as [->|Hnc]; [rewrite fn_lookup_insert; set_solver|].
      by rewrite fn_lookup_insert_ne. }
  assert (H' !! n = Some (mkHdr (h_size h - s - HEADER) true false a)) as Ln.
  { unfold H', split_hdrs. rewrite lookup_insert_ne by (unfold n, after in *; lia). by rewrite lookup_insert_eq. }
  assert (H' !! a = Some (with_size s h)) as La.
  { unfold H', split_hdrs. rewrite !lookup_insert_ne by (unfold n, after, HEADER in *; lia). by rewrite lookup_insert_eq. }
  assert (H' !! after = Some (with_prev n ha)) as Laf by (unfold H', split_hdrs; by rewrite lookup_insert_eq).
  assert (forall b, b <> n -> b <> a -> b <> after -> H' !! b = H !! b) as Lo
    by (intros; unfold H', split_hdrs; by rewrite !lookup_insert_ne by done).
  assert (forall b hb, H' !! b = Some hb ->
    (b = n /\ hb = mkHdr (h_size h - s - HEADER) true false a) \/ (b = a /\ hb = with_size s h) \/
    (b = after /\ hb = with_prev n ha) \/ (b <> n /\ b <> a /\ b <> after /\ H !! b = Some hb)) as HL.
  { intros b hb Hb. eapply split_lookup; [exact Hb|fold n after; lia..|done|done]. }
  split; try done.
  - destruct P1 as (h0 & H0 & Hpf0). destruct (decide (lo = a)) as [->|].
    + exists (with_size s h). by simplify_eq.
    + exists h0. by rewrite Lo by lia.
  - destruct P2 as (h0 & H0 & Hsz & Hfr). destruct (decide (after = hi)) as [E|].
    + exists (with_prev n ha). rewrite <- E. split; [done|]. rewrite E in Hafter. by simplify_eq.
    + exists h0. by rewrite Lo by lia.
  - intros b hb [[-> _]|[[-> _]|[[-> _]|(_ & _ & _ & Hb)]]]%HL; [|eauto..].
    split; [lia|]. unfold n, HEADER. repeat apply Z.divide_add_r; try done. by exists 4.
  - intros b hb [[-> ->]|[[-> ->]|[[-> ->]|(_ & _ & _ & Hb)]]]%HL Hbh; simpl; [done|done| |by eapply P5].
    by apply (P5 after ha).
  - intros b hb [[-> ->]|[[-> ->]|[[-> ->]|(B1 & B2 & B3 & Hb)]]]%HL Hbh; cbn [h_size h_free with_size with_prev].
    + replace (n + HEADER + (h_size h - s - HEADER)) with after by (unfold n, after; lia).
      exists (with_prev n ha). split; [done|]. intros _ Hah. simpl. by apply Hpf.
    + exists (mkHdr (h_size h - s - HEADER) true false a). fold n. split; [done|]. intros _ _. simpl. by rewrite Hf.
    + destruct (P6 after ha Hafter Hbh) as (hx & Hx & Hpx). pose proof (next_pos _ _ _ _ _ _ _ Hp Hafter Hbh).
      exists hx. rewrite Lo by (unfold HEADER in *; lia). split; [done|]. intros _. apply Hpx. lia.
    + destruct (P6 b hb Hb Hbh) as (hx & Hx & Hpx). pose proof (next_pos _ _ _ _ _ _ _ Hp Hb Hbh) as (Hbs & _ & _).
      assert (b + HEADER + h_size hb <> after) as Hnaf.
      { intros E. destruct (Ztrichotomy b a) as [Hlt|[|Hgt]]; [|done|].
        - pose proof (P7 b a hb h Hb Ha Hlt). lia.
        - pose proof (P7 a b h hb Ha Hb ltac:(lia)). unfold after, HEADER in *. lia. }
      destruct (decide (b + HEADER + h_size hb = a)) as [E|E].
      * exists (with_size s h). rewrite E. split; [done|]. intros _ _. simpl. rewrite E in Hx, Hpx. simplify_eq.
        by apply Hpx.
      * exists hx. rewrite Lo; [split; [done|intros _; by apply Hpx]| |done|done].
        intros En. rewrite En in Hx. congruence.
  - intros b b' hb hb' Hb Hb' Hlt. apply HL in Hb, Hb'.
    assert (forall x hx, H !! x = Some hx -> x <> a -> x < a /\ x + HEADER + h_size hx <= a \/ a < x /\ after <= x) as Hout.
    { intros x hx Hx Hxa. destruct (Ztrichotomy x a) as [Hl|[|Hg]]; [left; eauto|done|right].
      split; [lia|]. apply (P7 a x h hx); [done|done|lia]. }
    destruct Hb as [[-> ->]|[[-> ->]|[[-> ->]|(B1 & B2 & B3 & Hb)]]];
      destruct Hb' as [[-> ->]|[[-> ->]|[[-> ->]|(C1 & C2 & C3 & Hb')]]];
      cbn [h_size with_size with_prev]; try lia; try (by eapply P7; eauto);
      try (pose proof (Hout _ _ Hb' C2)); try (pose proof (Hout _ _ Hb B2)); unfold n, after, HEADER in *; lia.
  - intros b hb [[-> ->]|[[-> ->]|[[-> ->]|(B1 & B2 & B3 & Hb)]]]%HL; rewrite HGb; cbn [h_free with_size with_prev].
    + split; [by left|done].
    + split; [rewrite Hf; done|]. intros [|Hc]; [lia|]. by apply P8 in Ha as [_ Ha]; apply Ha in Hc.
    + rewrite (P8 after ha Hafter). split; [auto|]. intros [|]; [lia|done].
    + rewrite (P8 b hb Hb). split; [auto|]. by intros [|].
  - intros c' b Hb. destruct (proj1 (HGb b) (ex_intro _ c' Hb)) as [->|[c2 Hc2]]; [rewrite Ln; eauto|].
    destruct (decide (b = n)) as [->|]; [rewrite Ln; eauto|]. destruct (decide (b = a)) as [->|]; [rewrite La; eauto|].
    destruct (decide (b = after)) as [->|]; [rewrite Laf; eauto|]. rewrite Lo by done. eauto.
Qed.

(** ** Headers come and go *)

Lemma raw_frame t m m' H G : raw t m H G -> writes_only (fun x => ~ hdr_cell H x) m m' -> raw t m' H G.
Proof.
  intros R Hw. assert (forall a h c, H !! a = Some h -> 0 <= c < HEADER -> rd m' (a + c) = rd m (a + c)) as Hk.
  { intros a h c Ha Hc. apply Hw. intros Hn. apply Hn. by eapply hdr_cell_in. }
  pose proof R as [R1 R2 R3 R4 R5 R6 R7 R8 R9]. split; try done.
  - intros a h Ha. rewrite (Hk a h) by (done || hdr_arith). auto.
  - intros a h Ha. rewrite (Hk a h) by (done || hdr_arith). auto.
  - intros c Hc. eapply dlist_ext; [|by apply R5]. intros x Hx.
    destruct (R7 c x Hx) as (h & Hh & _). split; apply (Hk x h); done || hdr_arith.
Qed.

Lemma raw_extend t m H G a h :
  raw t m H G -> (forall c, a ∉ G c) -> hdr_ok h -> 0 < a ->
  (forall b hb, H !! b = Some hb -> a <> b -> a + HEADER <= b \/ b + HEADER <= a) ->
  rd m (a + H_SIZE) = word h -> rd m (a + H_PREV_PHYS) = h_prev h ->
  raw t m (<[a := h]> H) G.
Proof.
  intros [R1 R2 R3 R4 R5 R6 R7 R8 R9] Hni Hok Hpos Hsep Hw Hp. split; try done.
  - intros b hb Hb. hlook; auto.
  - intros b hb Hb. hlook; auto.
  - intros b hb Hb. hlook; auto.
  - intros b b' hb hb' Hb Hb' Hne. hlook; first [by eauto|edestruct Hsep; [eassumption|congruence|by right|by left]].
  - intros c b Hb. rewrite lookup_insert_ne by (intros ->; by apply Hni in Hb). auto.
Qed.

Lemma raw_delete t m H G a : raw t m H G -> (forall c, a ∉ G c) -> raw t m (delete a H) G.
Proof.
  intros [R1 R2 R3 R4 R5 R6 R7 R8 R9] Hni. split; try done.
  - intros b hb Hb. hlook; auto.
  - intros b hb Hb. hlook; auto.
  - intros b hb Hb. hlook; auto.
  - intros b b' hb hb' Hb Hb' Hne. hlook; eauto.
  - intros c b Hb. rewrite lookup_delete_ne by (intros ->; by apply Hni in Hb). auto.
Qed.

(** Turning the bytes at [a] into a header by [set_size]. *)
Lemma wp_set_size_fresh t m H G a s (Q : unit -> TState -> Prop) :
  raw t m H G -> (forall c, a ∉ G c) -> 0 < a -> 0 <= s < W64 - 8 -> (8 | s) ->
  (forall b hb, H !! b = Some hb -> a + HEADER <= b \/ b + HEADER <= a) ->
  (forall h m', h_size h = s -> raw t m' (<[a := h]> H) G ->
     writes_only (fun x => a <= x < a + HEADER) m m' -> Q tt (t, m')) ->
  wp (set_size a s) (t, m) Q.
Proof.
  intros R Hni Hpos Hs Hd Hsep HQ. unfold set_size. wp_steps. rewrite word_set_size by done.
  set (w := rd m (a + H_SIZE)).
  set (h := mkHdr s (free_of_word w) (prev_free_of_word w) (rd m (a + H_PREV_PHYS))).
  change (word (mkHdr s (free_of_word w) (prev_free_of_word w) 0)) with (word h).
  apply (HQ h); [done| |apply writes_only_wr; hdr_arith].
  apply raw_extend; try done.
  - eapply raw_frame; [done|]. apply writes_only_wr. intros (b & hb & Hb & Hx).
    specialize (Hsep b hb Hb). hdr_arith.
  - intros b hb Hb _. by eapply Hsep.
  - by rewrite rd_wr_eq.
  - by rewrite rd_wr_ne by hdr_arith.
Qed.

Lemma hdr_cell_mono H H' x :
  (forall a h, H !! a = Some h -> is_Some (H' !! a)) -> hdr_cell H x -> hdr_cell H' x.
Proof. intros Hs (a & h & Ha & Hx). destruct (Hs a h Ha) as [h' Hh']. by exists a, h'. Qed.

(** The memory of [split_block] in hand. *)
Lemma wp_split_block t m lo hi H G a h ha s (Q : unit -> TState -> Prop) :
  raw t m H G -> heap a lo hi H G -> H !! a = Some h -> a <> hi -> h_free h = false ->
  H !! (a + HEADER + h_size h) = Some ha ->
  size_ok s -> size_ok (h_size h - s - HEADER) ->
  let n := a + HEADER + s in
  let c := cls (h_size h - s - HEADER) in
  (forall t' m', raw t' m' (split_hdrs H a s h ha) (<[c := n :: G c]> G) ->
     writes_only (hdr_cell (split_hdrs H a s h ha)) m m' -> Q tt (t', m')) ->
  wp (split_block a s (h_size h - s)) (t, m) Q.
Proof.
  intros R Hp Ha Hne Hf Hafter [Hs Hds] [Hr Hdr] n c HQ.
  set (after := a + HEADER + h_size h) in *. set (rest := h_size h - s - HEADER) in *.
  assert (a < n < after) as Hn by (unfold n, after, rest, HEADER in *; lia).
  assert (H !! n = None) as Hnn by (eapply no_hdr_inside; [exact Hp|exact Ha|done|exact Hn]).
  pose proof (not_listed _ _ _ _ _ _ _ Hp Ha Hf) as Hani.
  assert (forall c', n ∉ G c') as Hnni by (intros c' Hc'; destruct (hp_listed _ _ _ _ _ Hp _ _ Hc') as [? ?]; congruence).
  pose proof (raw_ok _ _ _ _ R a h Ha) as [_ Hapos].
  set (H' := split_hdrs H a s h ha) in *.
  assert (forall b, is_Some (H !! b) \/ b = n -> is_Some (H' !! b)) as Hdom.
  { intros b Hb. unfold H', split_hdrs. fold n after. rewrite !lookup_insert_is_Some'. destruct Hb as [?| ->]; tauto. }
  assert (forall x, hdr_cell H x -> hdr_cell H' x) as Hc1
    by (intros x; apply hdr_cell_mono; intros b hb Hb; apply Hdom; left; eauto).
  assert (forall x, n <= x < n + HEADER -> hdr_cell H' x) as Hc2.
  { intros x Hx. destruct (Hdom n ltac:(by right)) as [hn Hhn]. by exists n, hn. }
  assert (forall hn x, hdr_cell (<[n := hn]> (<[a := with_size s h]> H)) x -> hdr_cell H' x) as Hc3.
  { intros hn x. apply hdr_cell_mono. intros b hb Hb. apply Hdom. hlook; eauto. }
  unfold split_block. wp_step. eapply wp_set_size; [exact R|exact Ha|unfold W64; lia|done|done|].
  intros m1 R1 W1. wp_step. eapply wp_next_phys; [exact R1|by rewrite lookup_insert_eq|].
  cbn [h_size with_size]. fold n. wp_step. replace (h_size h - s - HEADER) with rest by done.
  eapply wp_set_size_fresh; [exact R1|done|unfold n, HEADER; lia|unfold W64; lia|done| |].
  { intros b hb Hb. assert (exists h0, H !! b = Some h0) as [h0 H0] by (hlook; eauto).
    destruct (Ztrichotomy b a) as [Hl|[->|Hg]].
    - pose proof (raw_sep _ _ _ _ R b a h0 h H0 Ha ltac:(lia)). unfold n, HEADER in *. lia.
    - unfold n, HEADER. lia.
    - pose proof (hp_sep _ _ _ _ _ Hp a b h h0 Ha H0 ltac:(lia)). unfold n, after, rest, HEADER in *. lia. }
  intros h2 m2 Hsz2 R2 W2. wp_step. eapply wp_set_prev_phys; [exact R2|by rewrite lookup_insert_eq|].
  intros m3 R3 W3. rewrite insert_insert_eq in R3. wp_step.
  eapply wp_set_prev_free; [exact R3|by rewrite lookup_insert_eq|].
  intros m4 R4 W4. rewrite insert_insert_eq in R4. wp_step.
  eapply wp_insert_free; [exact R4|by rewrite lookup_insert_eq|cbn; by rewrite Hsz2|done|].
  cbn [h_size h_free h_pf h_prev with_size with_free with_pf with_prev]. rewrite Hsz2. fold c.
  intros t5 m5 R5 W5. rewrite insert_insert_eq in R5.
  change (with_free true (with_pf false (with_prev a h2))) with (mkHdr (h_size h2) true false a) in R5.
  rewrite Hsz2 in R5. wp_step.
  eapply wp_next_phys; [exact R5|by rewrite lookup_insert_eq|]. cbn [h_size].
  replace (n + HEADER + rest) with after by (unfold n, after, rest; lia).
  eapply wp_set_prev_phys; [exact R5|by rewrite !lookup_insert_ne by (unfold n, after, HEADER in *; lia)|].
  intros m6 R6 W6. apply HQ; [exact R6|].
  eapply writes_only_trans; [eapply writes_only_weaken; [exact Hc1|exact W1]|].
  eapply writes_only_trans; [eapply writes_only_weaken; [exact Hc2|exact W2]|].
  eapply writes_only_trans; [eapply writes_only_weaken; [apply Hc3|exact W3]|].
  eapply writes_only_trans; [eapply writes_only_weaken; [apply Hc3|exact W4]|].
  eapply writes_only_trans; [eapply writes_only_weaken; [apply Hc3|exact W5]|].
  eapply writes_only_weaken; [apply Hc3|exact W6].
Qed.

(** ** Allocation *)

Definition adjusted (size : Z) : Z := let s := Z.max size BLOCK_MIN + 7 in s - s mod 8.

Lemma adjusted_facts size : 32 <= adjusted size /\ size <= adjusted size /\ (8 | adjusted size).
Proof.
  unfold adjusted, BLOCK_MIN. set (s := Z.max size 32 + 7). pose proof (Z.mod_pos_bound s 8 ltac:(lia)).
  pose proof (Z.div_mod s 8 ltac:(lia)). assert (s - s mod 8 = 8 * (s / 8)) as E by lia.
  split_and!; [|lia|exists (s / 8); lia].
  assert (32 < s) by lia. assert (4 < s / 8 + 1) by (apply (Z.mul_lt_mono_pos_l 8); lia). lia.
Qed.

Lemma wp_adjust_size {S} size (s : S) Q :
  0 <= size -> size + 7 < W64 -> Q (adjusted size) s -> wp (adjust_size size) s Q.
Proof.
  intros H0 Hs HQ. unfold adjust_size, adjusted, BLOCK_MIN in *. wp_step.
  apply wp_uadd; [unfold W64 in *; lia|]. wp_step.
  change (8 - 1) with (2 ^ 3 - 1). rewrite land_not64_mask; [exact HQ| |lia].
  unfold W64 in *. change (2 ^ 3 - 1) with 7. lia.
Qed.

(** The pool, with its machine state. *)
Definition tlsf (t : TlsfInner) (m : mem) (lo hi : Z) (H : gmap Z hdr) (G : class -> list Z) : Prop :=
  raw t m H G /\ heap 0 lo hi H G.

(** The heap depends on the bytes of its pool only. *)
Lemma tlsf_frame t m m' lo hi H G : tlsf t m lo hi H G ->
  (forall x, lo <= x < hi + HEADER -> rd m' x = rd m x) -> tlsf t m' lo hi H G.
Proof.
  intros [R I] Hm. split; [|done]. eapply raw_frame; [exact R|]. intros x Hx.
  destruct (decide (lo <= x < hi + HEADER)) as [Hin|Hout]; [by apply Hm|exfalso]. apply Hx. intros (b & h & Hb & Hr).
  destruct (hp_range _ _ _ _ _ I _ _ Hb). lia.
Qed.

(** Where the next header is. *)
Definition end_of (a : Z) (h : hdr) : Z := a + HEADER + h_size h.

(** Allocating [a] turned a free block into a live one of at least [size]
    bytes; every other live block is untouched, and the only new block is the
    free tail of [a]. *)
Record allocated (lo : Z) (H : gmap Z hdr) (a size : Z) (H' : gmap Z hdr) : Prop := mkAllocated {
  al_block : exists h h', H !! a = Some h /\ h_free h = true /\ H' !! a = Some h' /\
    h_free h' = false /\ size <= h_size h' <= h_size h;
  al_keep : forall b hb, H !! b = Some hb -> b <> a ->
    exists hb', H' !! b = Some hb' /\ h_size hb' = h_size hb /\ h_free hb' = h_free hb;
  al_new : forall b hb, H' !! b = Some hb -> h_free hb = false ->
    b = a \/ exists h0, H !! b = Some h0 /\ h_free h0 = false;
  al_tail : forall b hb h, H' !! b = Some hb -> H !! b = None -> H !! a = Some h -> end_of b hb = end_of a h;
  al_prev : (forall b, prev_ok lo H b) -> forall b, prev_ok lo H' b
}.

(** The free block found, with everything the tiling says about it. *)
Lemma listed_block lo hi H G t m c a l :
  tlsf t m lo hi H G -> G c = a :: l ->
  exists h hn, H !! a = Some h /\ a <> hi /\ h_free h = true /\ size_ok (h_size h) /\ cls (h_size h) = c /\
    H !! (a + HEADER + h_size h) = Some hn /\ (a + HEADER + h_size h <> hi -> h_pf hn = true) /\
    heap a lo hi (<[a := with_free false h]> H) (<[c := l]> G).
Proof.
  intros [R Hp] HG. destruct (raw_mem _ _ _ _ R c a) as (h & Ha & Hok & Hc); [rewrite HG; set_solver|].
  assert (h_free h = true) as Hf by (apply (hp_free _ _ _ _ _ Hp a h Ha); exists c; rewrite HG; set_solver).
  assert (a <> hi) as Hne.
  { intros ->. destruct (hp_hi _ _ _ _ _ Hp) as (h0 & H0 & _ & Hf0). congruence. }
  destruct (hp_next _ _ _ _ _ Hp a h Ha Hne) as (hn & Hn & Hpf).
  exists h, hn. split_and!; try done.
  - intros Hh. rewrite <- Hf. apply Hpf; [|done]. pose proof (raw_ok _ _ _ _ R a h Ha). lia.
  - apply (heap_take lo hi H G a h c [] l Hp Ha); [done|apply (raw_nodup _ _ _ _ R)|].
    intros c' Hc'. apply (raw_class_unique t m H G c' c a); [done|done|rewrite HG; set_solver].
Qed.

Lemma prev_ok_flags lo H H' :
  (forall b hb, H' !! b = Some hb -> exists h0, H !! b = Some h0 /\ h_prev h0 = h_prev hb) ->
  (forall b hb, H !! b = Some hb -> exists h0, H' !! b = Some h0 /\ h_size h0 = h_size hb) ->
  (forall b, prev_ok lo H b) -> forall b, prev_ok lo H' b.
Proof.
  intros H1 H2 Hok b hb Hb Hne. destruct (H1 b hb Hb) as (h0 & Hb0 & <-).
  destruct (Hok b h0 Hb0 Hne) as (hp & Hhp & E). destruct (H2 _ _ Hhp) as (hp' & Hhp' & Es).
  exists hp'. by rewrite Es.
Qed.

Lemma allocated_whole lo hi H G t m c a l h hn size :
  tlsf t m lo hi H G -> G c = a :: l -> H !! a = Some h -> a <> hi -> h_free h = true ->
  H !! (a + HEADER + h_size h) = Some hn -> 32 <= h_size h -> size <= h_size h ->
  allocated lo H a size (<[a + HEADER + h_size h := with_pf false hn]> (<[a := with_free false h]> H)).
Proof.
  intros [R Hp] HG Ha Hne Hf Hn H32 Hs. set (n := a + HEADER + h_size h) in *.
  assert (n <> a) as Hna by (unfold n, HEADER; lia). split.
  - exists h, (with_free false h). rewrite lookup_insert_ne, lookup_insert_eq by done. simpl. split_and!; done || lia.
  - intros b hb Hb Hba. destruct (decide (n = b)) as [<-|Hnb].
    + exists (with_pf false hn). rewrite lookup_insert_eq. by simplify_eq.
    + exists hb. by rewrite !lookup_insert_ne by done.
  - intros b hb Hb Hfb. hlook; eauto.
  - intros b hb h0 Hb Hnone Ha0. hlook; congruence.
  - apply prev_ok_flags.
    + intros b hb Hb. hlook; eauto.
    + intros b hb Hb. destruct (decide (n = b)) as [<-|Hnb].
      * exists (with_pf false hn). rewrite lookup_insert_eq. by simplify_eq.
      * rewrite lookup_insert_ne by done. destruct (decide (a = b)) as [<-|Hab].
        -- exists (with_free false h). rewrite lookup_insert_eq. by simplify_eq.
        -- exists hb. by rewrite lookup_insert_ne.
Qed.

Lemma allocated_split lo hi H G t m a h ha size :
  tlsf t m lo hi H G -> H !! a = Some h -> a <> hi -> h_free h = true ->
  H !! (a + HEADER + h_size h) = Some ha -> 32 <= size -> size_ok (h_size h - size - HEADER) ->
  allocated lo H a size (split_hdrs (<[a := with_free false h]> H) a size (with_free false h) ha).
Proof.
  intros [R Hp] Ha Hne Hf Hafter Hs [Hr _]. set (H1 := <[a := with_free false h]> H).
  set (n := a + HEADER + size). set (after := a + HEADER + h_size h) in *.
  assert (a < n < after) as Hn by (unfold n, after, HEADER in *; lia).
  assert (H !! n = None) as Hnn by (eapply no_hdr_inside; [exact Hp|exact Ha|done|exact Hn]).
  assert (H1 !! after = Some ha) as Haf1 by (unfold H1; rewrite lookup_insert_ne by lia; done).
  assert (H1 !! a = Some (with_free false h)) as Ha1 by (unfold H1; by rewrite lookup_insert_eq).
  assert (forall b hb, split_hdrs H1 a size (with_free false h) ha !! b = Some hb ->
    (b = n /\ hb = mkHdr (h_size h - size - HEADER) true false a) \/
    (b = a /\ hb = with_size size (with_free false h)) \/
    (b = after /\ hb = with_prev n ha) \/ (b <> n /\ b <> a /\ b <> after /\ H1 !! b = Some hb)) as HL.
  { intros b hb Hb. apply (split_lookup _ _ _ _ _ _ _ Hb); simpl; fold n after; try done; lia. }
  assert (forall b, b <> n -> b <> a -> b <> after ->
    split_hdrs H1 a size (with_free false h) ha !! b = H !! b) as Lo.
  { intros b B1 B2 B3. unfold split_hdrs, H1. simpl. fold n after. by rewrite !lookup_insert_ne by done. }
  assert (split_hdrs H1 a size (with_free false h) ha !! a = Some (with_size size (with_free false h))) as La.
  { unfold split_hdrs. simpl. fold n after. rewrite !lookup_insert_ne by lia. by rewrite lookup_insert_eq. }
  assert (split_hdrs H1 a size (with_free false h) ha !! n = Some (mkHdr (h_size h - size - HEADER) true false a)) as Ln.
  { unfold split_hdrs. simpl. fold n after. rewrite lookup_insert_ne by lia. by rewrite lookup_insert_eq. }
  assert (split_hdrs H1 a size (with_free false h) ha !! after = Some (with_prev n ha)) as Laf.
  { unfold split_hdrs. simpl. fold n after. by rewrite lookup_insert_eq. }
  split.
  - exists h, (with_size size (with_free false h)). simpl. unfold HEADER in *. split_and!; done || lia.
  - intros b hb Hb Hba. destruct (decide (b = n)) as [->|]; [congruence|].
    destruct (decide (b = after)) as [->|]; [|exists hb; by rewrite Lo].
    exists (with_prev n ha). by simplify_eq.
  - intros b hb [[-> ->]|[[-> ->]|[[-> ->]|(B1 & B2 & B3 & Hb)]]]%HL; simpl; intros Hfb; [done|by left|eauto|].
    right. unfold H1 in Hb. rewrite lookup_insert_ne in Hb by done. eauto.
  - intros b hb h0 [[-> ->]|[[-> ->]|[[-> ->]|(B1 & B2 & B3 & Hb)]]]%HL Hnone Ha0; [|congruence|congruence|].
    + simplify_eq. unfold end_of, n. simpl. lia.
    + unfold H1 in Hb. rewrite lookup_insert_ne in Hb by done. congruence.
  - intros Hok b hb [[-> ->]|[[-> ->]|[[-> ->]|(B1 & B2 & B3 & Hb)]]]%HL Hbl; simpl.
    + exists (with_size size (with_free false h)). by split.
    + destruct (Hok a h Ha Hbl) as (hp & Hhp & E). exists hp.
      assert (h_prev h < a) by (destruct (raw_ok _ _ _ _ R _ _ Hhp) as [[? _] _]; unfold HEADER in E; lia).
      rewrite Lo by lia. by split.
    + eexists. split; [exact Ln|]. simpl. unfold n, after. lia.
    + unfold H1 in Hb. rewrite lookup_insert_ne in Hb by done.
      destruct (Hok b hb Hb Hbl) as (hp & Hhp & E).
      destruct (decide (h_prev hb = a)) as [Ep|Ep]; [rewrite Ep in *; simplify_eq; by destruct B3|].
      destruct (decide (h_prev hb = after)) as [Eq|Eq].
      * exists (with_prev n ha). rewrite Eq in *. simplify_eq. by split.
      * exists hp. rewrite Lo; [by split|congruence|done|done].
Qed.

(** The free block [a] is of the smallest class that has a block, among those
    at or above the class searched for [s] bytes. *)
Definition good_fit (H : gmap Z hdr) (s a : Z) : Prop := exists h, H !! a = Some h /\ h_free h = true /\ s <= h_size h /\
  class_le (cls (round_up s)) (cls (h_size h)) /\
  forall b hb, H !! b = Some hb -> h_free hb = true -> class_le (cls (round_up s)) (cls (h_size hb)) ->
    class_le (cls (h_size h)) (cls (h_size hb)).

Lemma wp_tlsf_alloc t m lo hi H G size :
  tlsf t m lo hi H G -> 0 <= size -> round_up (adjusted size) < 2 ^ 30 ->
  wp (tlsf_alloc size) (t, m) (fun r s' =>
    match r with
    | None => s' = (t, m) /\ forall a h, H !! a = Some h -> h_free h = true ->
        ~ class_le (cls (round_up (adjusted size))) (cls (h_size h))
    | Some ptr => exists a H' G', ptr = payload a /\ tlsf (fst s') (snd s') lo hi H' G' /\
        allocated lo H a (adjusted size) H' /\ writes_only (hdr_cell H') m (snd s') /\
        good_fit H (adjusted size) a
    end).
Proof.
  intros [R Hp] Hs0 Hru. destruct (adjusted_facts size) as (Hs32 & Hsle & Hs8).
  assert (adjusted size <= round_up (adjusted size)) as Hle.
  { unfold round_up. pose proof (Z.pow_pos_nonneg 2 (Z.log2 (adjusted size) - 5)).
    pose proof (log2_ge5 _ Hs32). lia. }
  unfold tlsf_alloc. wp_step. apply wp_adjust_size; [done|unfold W64; lia|].
  set (s := adjusted size) in *. wp_step. apply (wp_find_free t m H G); [done|done|done| |].
  2: { intros Hnil. wp_step. split; [done|]. intros a h Ha Hf Hcl.
       apply (hp_free _ _ _ _ _ Hp a h Ha) in Hf as [c Hc].
       destruct (raw_mem _ _ _ _ R c a Hc) as (h' & Ha' & [Hok _] & <-). simplify_eq.
       rewrite (Hnil _ (cls_ok (h_size h) Hok) Hcl) in Hc. by apply elem_of_nil in Hc. }
  intros a c l Hc Hcl HG Hmin.
  destruct (listed_block lo hi H G t m c a l (conj R Hp) HG)
    as (h & hn & Ha & Hne & Hf & [Hsz Hd8] & Ecls & Hn & Hpf & Hp1).
  set (n := a + HEADER + h_size h) in *.
  assert (s <= h_size h) as Hfit.
  { etrans; [apply (round_up_fit s Hs32)|]. etrans; [|apply (cls_facts (h_size h)); lia].
    rewrite Ecls. destruct (cls_facts (round_up s)) as (F1 & F2 & _); [lia|].
    apply class_min_mono; [done|apply Hc|done|done]. }
  assert (good_fit H s a) as Hgood.
  { exists h. split; [done|]. split; [done|]. split; [done|]. rewrite Ecls. split; [done|]. intros b hb Hb Hfb Hclb.
    apply (hp_free _ _ _ _ _ Hp b hb Hb) in Hfb as [cb Hcb].
    destruct (raw_mem _ _ _ _ R cb b Hcb) as (hb' & Hb' & [Hokb _] & <-). simplify_eq.
    apply Hmin; [by apply cls_ok|done|]. intros E. rewrite E in Hcb. by apply elem_of_nil in Hcb. }
  wp_step. eapply (wp_remove_free t m H G a h c [] l); [done|done|done|]. intros t1 m1 R1 W1.
  set (H1 := <[a := with_free false h]> H) in *. cbn [app] in R1.
  assert (H1 !! a = Some (with_free false h)) as Ha1 by (unfold H1; by rewrite lookup_insert_eq).
  assert (n <> a) as Hna by (unfold n, HEADER; lia).
  assert (H1 !! n = Some hn) as Hn1 by (unfold H1; by rewrite lookup_insert_ne).
  wp_step. eapply wp_block_size; [exact R1|exact Ha1|]. cbn [h_size with_free].
  rewrite Z.mod_small by (unfold W64; lia). wp_step.
  destruct (Z.leb_spec (HEADER + BLOCK_MIN) (h_size h - s)) as [Hsplit|Hwhole].
  - assert (size_ok s) as Hok1 by (split; [unfold BLOCK_MIN, HEADER in *; lia|done]).
    assert (size_ok (h_size h - s - HEADER)) as Hok2.
    { split; [unfold BLOCK_MIN, HEADER in *; lia|]. apply Z.divide_sub_r; [by apply Z.divide_sub_r|by exists 4]. }
    change (h_size h - s) with (h_size (with_free false h) - s).
    eapply (wp_split_block t1 m1 lo hi H1); try done. intros t2 m2 R2 W2.
    pose proof (heap_split a lo hi H1 _ (with_free false h) hn s Hp1 Ha1 Hne eq_refl Hn1 Hpf Hok1 Hok2) as Hp2.
    pose proof (allocated_split lo hi H G t m a h hn s (conj R Hp) Ha Hne Hf Hn Hs32 Hok2) as Hal.
    fold H1 in Hal. cbn [h_size with_free] in *. set (H2 := split_hdrs H1 a s (with_free false h) hn) in *.
    destruct (al_block _ _ _ _ _ Hal) as (h0 & ha2 & H0 & _ & Ha2 & Hf2 & _).
    assert (H2 !! a = Some (with_size s (with_free false h))) as La.
    { unfold H2, split_hdrs. cbn [h_size with_free]. fold n.
      rewrite !lookup_insert_ne by (unfold HEADER in *; lia). by rewrite lookup_insert_eq. }
    assert (H2 !! (a + HEADER + s) = Some (mkHdr (h_size h - s - HEADER) true false a)) as Ln.
    { unfold H2, split_hdrs. cbn [h_size with_free]. fold n.
      rewrite lookup_insert_ne by (unfold n, BLOCK_MIN, HEADER in *; lia). by rewrite lookup_insert_eq. }
    wp_step. eapply wp_next_phys; [exact R2|exact La|]. cbn [h_size with_size]. wp_step.
    eapply wp_set_prev_free; [exact R2|exact Ln|]. intros m3 R3 W3.
    change (with_pf false (mkHdr (h_size h - s - HEADER) true false a)) with (mkHdr (h_size h - s - HEADER) true false a) in R3.
    rewrite insert_id in R3 by done. wp_step. exists a, H2. eexists. split; [done|]. split; [split; [exact R3|exact Hp2]|].
    split; [done|]. split; [|exact Hgood]. eapply writes_only_trans; [|eapply writes_only_trans; [exact W2|exact W3]].
    eapply writes_only_weaken; [|exact W1]. intros x. apply hdr_cell_mono. intros b hb Hb.
    destruct (decide (b = a)) as [->|Hba]; [eauto|]. destruct (al_keep _ _ _ _ _ Hal b hb Hb Hba) as (? & ? & _). eauto.
  - wp_step. wp_step. eapply wp_next_phys; [exact R1|exact Ha1|]. cbn [h_size with_free]. fold n. wp_step.
    eapply wp_set_prev_free; [exact R1|exact Hn1|]. intros m2 R2 W2. wp_step.
    exists a. do 2 eexists. split; [done|]. split; [split; [exact R2|]|split; [|split; [|exact Hgood]]].
    + apply (heap_settle a lo hi H1 _ (with_free false h) hn Hp1 Ha1 Hne Hn1).
    + apply (allocated_whole lo hi H G t m c a l h hn s); try done; lia.
    + eapply writes_only_trans; (eapply writes_only_weaken; [|eassumption]).
      * intros x Hx. apply (hdr_cell_insert H1 n hn); [done|]. by apply (hdr_cell_insert H a h).
      * intros x Hx. by apply (hdr_cell_insert H1 n hn).
Qed.

(** ** Release *)

Definition merge_hdrs (H : gmap Z hdr) (x y : Z) (hx hy : hdr) : gmap Z hdr :=
  delete y (<[x := with_size (h_size hx + HEADER + h_size hy) hx]> H).

Lemma merge_lookup H x y hx hy b hb : x <> y -> H !! x = Some hx -> merge_hdrs H x y hx hy !! b = Some hb ->
  b <> y /\ ((b = x /\ hb = with_size (h_size hx + HEADER + h_size hy) hx) \/ (b <> x /\ H !! b = Some hb)).
Proof. unfold merge_hdrs. intros Hne Hx Hb. hlook; auto. Qed.

(** Two adjacent blocks that are off the lists become one. *)
Lemma heap_merge ex ex' lo hi H G x y hx hy :
  heap ex lo hi H G -> H !! x = Some hx -> H !! y = Some hy -> x <> hi -> y <> hi ->
  y = x + HEADER + h_size hx -> h_free hx = false -> h_free hy = false ->
  (ex = 0 \/ ex = x \/ ex = y) ->
  (ex' = x \/ forall hn, H !! (y + HEADER + h_size hy) = Some hn ->
     y + HEADER + h_size hy <> hi -> h_pf hn = h_free hx) ->
  heap ex' lo hi (merge_hdrs H x y hx hy) G.
Proof.
  intros Hp Hx Hy Hxh Hyh Ey Hfx Hfy Hex Hex'. pose proof Hp as [P1 P2 P3 P4 P5 P6 P7 P8 P9].
  destruct (next_pos _ _ _ _ _ _ _ Hp Hx Hxh) as (Sx & Dx & Lx).
  destruct (next_pos _ _ _ _ _ _ _ Hp Hy Hyh) as (Sy & Dy & Ly).
  assert (x <> y) as Hxy by (unfold HEADER in *; lia).
  pose proof (P4 _ _ Hx) as [Rx _]. pose proof (P4 _ _ Hy) as [Ry _].
  assert (forall b hb, merge_hdrs H x y hx hy !! b = Some hb -> _) as HL
    by (intros b hb Hb; exact (merge_lookup H x y hx hy b hb Hxy Hx Hb)).
  assert (forall b, b <> x -> b <> y -> merge_hdrs H x y hx hy !! b = H !! b) as Lo.
  { intros b B1 B2. unfold merge_hdrs. by rewrite lookup_delete_ne, lookup_insert_ne by done. }
  assert (merge_hdrs H x y hx hy !! x = Some (with_size (h_size hx + HEADER + h_size hy) hx)) as Lx'.
  { unfold merge_hdrs. rewrite lookup_delete_ne by done. by rewrite lookup_insert_eq. }
  split; try done.
  - destruct P1 as (h0 & H0 & Hpf). destruct (decide (lo = x)) as [->|].
    + eexists. split; [exact Lx'|]. by simplify_eq.
    + exists h0. rewrite Lo; [done|done|]. unfold HEADER in *. lia.
  - destruct P2 as (h0 & H0 & Hs). exists h0. by rewrite Lo by done.
  - intros b hb [_ [[-> ->]|[_ Hb]]]%HL; eauto.
  - intros b hb [_ [[-> ->]|[_ Hb]]]%HL Hbh; [|by eapply P5]. simpl. split.
    + unfold HEADER in *. lia.
    + repeat apply Z.divide_add_r; try done. by exists 4.
  - intros b hb [Hby [[-> ->]|[Hbx Hb]]]%HL Hbh; cbn [h_size h_free with_size].
    + destruct (P6 y hy Hy Hyh) as (hn & Hn & Hpf). exists hn.
      replace (x + HEADER + (h_size hx + HEADER + h_size hy)) with (y + HEADER + h_size hy) by lia.
      rewrite Lo by (unfold HEADER in *; lia). split; [done|]. intros Hne Hh.
      destruct Hex' as [->|Hex']; [done|auto].
    + destruct (P6 b hb Hb Hbh) as (hn & Hn & Hpf).
      destruct (next_pos _ _ _ _ _ _ _ Hp Hb Hbh) as (Sb & _ & _).
      assert (b + HEADER + h_size hb <> y) as Hny.
      { intros E. destruct (Ztrichotomy b x) as [Hlt|[|Hgt]]; [|done|].
        - pose proof (P7 b x hb hx Hb Hx Hlt). unfold HEADER in *. lia.
        - pose proof (P7 x b hx hb Hx Hb ltac:(lia)). unfold HEADER in *. lia. }
      pose proof (P4 _ _ Hb) as [Rb _].
      destruct (decide (b + HEADER + h_size hb = x)) as [E|E].
      * eexists. rewrite E. split; [exact Lx'|]. simpl. rewrite E in Hn, Hpf. simplify_eq. intros _ _.
        apply Hpf; [lia|done].
      * exists hn. rewrite Lo by done. split; [done|]. intros _. apply Hpf. lia.
  - intros b b' hb hb' [Hby Hb]%HL [Hby' Hb']%HL Hlt.
    assert (forall h', H !! b' = Some h' -> x < b' -> y + HEADER + h_size hy <= b') as Hafter.
    { intros h' Hh' Hlt'. pose proof (P7 x b' hx h' Hx Hh' Hlt').
      assert (y < b') as Hyb by lia. by apply (P7 y b' hy h' Hy Hh' Hyb). }
    destruct Hb as [[-> ->]|[Hbx Hb]], Hb' as [[-> ->]|[Hbx' Hb']]; cbn [h_size with_size].
    + lia.
    + pose proof (Hafter _ Hb' Hlt). lia.
    + by eapply P7.
    + by eapply P7.
  - intros b hb [Hby [[-> ->]|[Hbx Hb]]]%HL; simpl; [by apply P8|by apply P8].
  - intros c b Hb. destruct (decide (b = x)) as [->|Hbx]; [rewrite Lx'; eauto|].
    rewrite Lo; [eauto|done|]. intros ->. by apply (not_listed _ _ _ _ _ _ _ Hp Hy Hfy c).
Qed.

(** Listing the block in hand. *)
Lemma heap_put lo hi H G x h c :
  heap x lo hi H G -> H !! x = Some h -> x <> hi -> h_free h = false ->
  heap x lo hi (<[x := with_free true h]> H) (<[c := x :: G c]> G).
Proof.
  intros Hp Hx Hxh Hf. pose proof Hp as [P1 P2 P3 P4 P5 P6 P7 P8 P9].
  assert (forall b, (exists c', b ∈ <[c := x :: G c]> G c') <-> b = x \/ exists c', b ∈ G c') as HGb.
  { intros b. split.
    - intros [c' Hc']. destruct (decide (c' = c)) as [->|Hnc].
      + rewrite fn_lookup_insert in Hc'. apply elem_of_cons in Hc' as [->|?]; eauto.
      + rewrite fn_lookup_insert_ne in Hc' by done. eauto.
    - intros [->|[c' Hc']]; [exists c; rewrite fn_lookup_insert; set_solver|].
      exists c'. destruct (decide (c' = c)) as [->|Hnc]; [rewrite fn_lookup_insert; set_solver|].
      by rewrite fn_lookup_insert_ne. }
  assert (forall b hb, <[x := with_free true h]> H !! b = Some hb ->
    exists h0, H !! b = Some h0 /\ h_size h0 = h_size hb /\ h_pf h0 = h_pf hb /\ (b <> x -> h0 = hb)) as Hback
    by (intros b hb Hb; hlook; naive_solver).
  split; try done.
  - destruct P1 as (h0 & H0 & Hpf). destruct (decide (lo = x)) as [->|].
    + exists (with_free true h). rewrite lookup_insert_eq. by simplify_eq.
    + exists h0. by rewrite lookup_insert_ne.
  - destruct P2 as (h0 & H0 & Hs). exists h0. by rewrite lookup_insert_ne by done.
  - intros b hb (h0 & H0 & _)%Hback. eauto.
  - intros b hb (h0 & H0 & <- & _)%Hback. eauto.
  - intros b hb Hb Hbh. destruct (Hback b hb Hb) as (h0 & H0 & Es & _ & E0).
    destruct (P6 b h0 H0 Hbh) as (hn & Hn & Hpf). rewrite <- Es.
    destruct (decide (x = b + HEADER + h_size h0)) as [E|E].
    + exists (with_free true h). rewrite <- E, lookup_insert_eq in *. split; [done|]. simplify_eq.
      intros Hbx Hh. simpl. rewrite <- E0 by done. by apply Hpf.
    + exists hn. rewrite lookup_insert_ne by done. split; [done|]. intros Hbx. rewrite <- E0 by done. by apply Hpf.
  - intros b b' hb hb' (h0 & H0 & <- & _)%Hback (h1 & H1 & _)%Hback. eauto.
  - intros b hb Hb. rewrite HGb. hlook.
    + split; [by left|done].
    + rewrite (P8 b hb) by done. split; [auto|]. intros [|]; [congruence|done].
  - intros c' b Hb. apply lookup_insert_is_Some'. destruct (proj1 (HGb b) (ex_intro _ c' Hb)) as [->|[c2 Hc2]]; eauto.
Qed.

Lemma heap_weaken x lo hi H G : heap 0 lo hi H G -> heap x lo hi H G.
Proof.
  intros Hp. pose proof Hp as [P1 P2 P3 P4 P5 P6 P7 P8 P9]. split; try done.
  intros a h Ha Hne. destruct (P6 a h Ha Hne) as (hn & Hn & Hpf). exists hn. split; [done|].
  intros _. apply Hpf. pose proof (P4 _ _ Ha). lia.
Qed.

Definition live (H : gmap Z hdr) (b sz : Z) : Prop :=
  exists h, H !! b = Some h /\ h_free h = false /\ h_size h = sz.

(** The live blocks other than [a] in [H] are those other than [x] in [H']. *)
Definition same_live (H : gmap Z hdr) (a : Z) (H' : gmap Z hdr) (x : Z) : Prop :=
  forall b sz, b <> a /\ live H b sz <-> b <> x /\ live H' b sz.

(** Taking a free block off its list. *)
Lemma wp_take t m lo hi H G a h (Q : unit -> TState -> Prop) :
  tlsf t m lo hi H G -> H !! a = Some h -> h_free h = true ->
  (forall t' m' G', raw t' m' (<[a := with_free false h]> H) G' ->
     heap a lo hi (<[a := with_free false h]> H) G' -> writes_only (hdr_cell H) m m' -> Q tt (t', m')) ->
  wp (remove_free a) (t, m) Q.
Proof.
  intros [R Hp] Ha Hf HQ. destruct (proj1 (hp_free _ _ _ _ _ Hp a h Ha) Hf) as [c Hc].
  apply list_elem_of_split in Hc as (l1 & l2 & HG).
  eapply (wp_remove_free t m H G a h c l1 l2); [done..|]. intros t' m' R' W'.
  apply (HQ t' m' (<[c := l1 ++ l2]> G)); [done| |done].
  apply (heap_take lo hi H G a h c l1 l2 Hp Ha HG (raw_nodup _ _ _ _ R c)).
  intros c' Hc'. apply (raw_class_unique t m H G c' c a); [done|done|rewrite HG; set_solver].
Qed.

(** The headers after [x] absorbed [y], one of them just taken off a list. *)
Record merged_into (lo : Z) (H : gmap Z hdr) (x y : Z) (hx hy : hdr) (H' : gmap Z hdr) : Prop :=
  mkMerged {
    mg_x : H' !! x = Some (mkHdr (h_size hx + HEADER + h_size hy) false (h_pf hx) (h_prev hx));
    mg_y : H' !! y = None;
    mg_other : forall b, b <> x -> b <> y -> H' !! b = H !! b
  }.

Lemma merge_prev_ok lo H x y hx hy H' :
  merged_into lo H x y hx hy H' -> H !! x = Some hx -> H !! y = Some hy -> y = end_of x hx ->
  forall b, b <> end_of y hy -> prev_ok lo H b -> prev_ok lo H' b.
Proof.
  intros [Mx My Mo] Hx Hy Ey b Hbe Hok hb Hb Hbl.
  assert (exists h0, H !! b = Some h0 /\ h_prev h0 = h_prev hb /\ b <> y) as (h0 & H0 & Ep & Hby).
  { destruct (decide (b = y)) as [->|]; [congruence|]. destruct (decide (b = x)) as [->|].
    - exists hx. rewrite Mx in Hb. by simplify_eq.
    - exists hb. by rewrite <- Mo. }
  destruct (Hok h0 H0 Hbl) as (hp & Hhp & E). rewrite Ep in *.
  destruct (decide (h_prev hb = x)) as [Ex|]; [rewrite Ex in *; simplify_eq; by destruct Hby|].
  destruct (decide (h_prev hb = y)) as [Eyy|]; [rewrite Eyy in *; simplify_eq; by destruct Hbe|].
  exists hp. by rewrite Mo.
Qed.

Lemma merge_into_merge lo H x y hx hy fx fy (H1 : gmap Z hdr) :
  x <> y -> (forall b, b <> x -> b <> y -> H1 !! b = H !! b) ->
  H1 !! x = Some (with_free false fx) -> H1 !! y = Some (with_free false fy) ->
  h_size fx = h_size hx -> h_size fy = h_size hy -> h_pf fx = h_pf hx -> h_prev fx = h_prev hx ->
  merged_into lo H x y hx hy (merge_hdrs H1 x y (with_free false fx) (with_free false fy)).
Proof.
  intros Hxy Ho H1x H1y E1 E2 E3 E4. unfold merge_hdrs. split.
  - rewrite lookup_delete_ne, lookup_insert_eq by done. simpl. by rewrite <- E1, <- E2, <- E3, <- E4.
  - by rewrite lookup_delete_eq.
  - intros b B1 B2. rewrite lookup_delete_ne, lookup_insert_ne by done. auto.
Qed.

Lemma merged_other lo H x y hx hy H' b hb :
  merged_into lo H x y hx hy H' -> H' !! b = Some hb -> b <> x -> H !! b = Some hb.
Proof.
  intros [_ My Mo] Hb Hbx. destruct (decide (b = y)) as [->|Hby]; [congruence|]. by rewrite <- Mo.
Qed.

Lemma merge_live_prev lo H x y hx hy H' :
  merged_into lo H x y hx hy H' -> H !! x = Some hx -> h_free hx = true ->
  same_live H y H' x.
Proof.
  intros [Mx My Mo] Hx Hf b sz. unfold live. split.
  - intros [Hby (hb & Hb & Hfb & Es)]. assert (b <> x) as Hbx by (intros ->; congruence).
    split; [done|]. exists hb. by rewrite Mo.
  - intros [Hbx (hb & Hb & Hfb & Es)]. assert (b <> y) as Hby by (intros ->; congruence).
    split; [done|]. exists hb. by rewrite <- Mo.
Qed.

Lemma merge_live_next lo H x y hx hy H' :
  merged_into lo H x y hx hy H' -> H !! y = Some hy -> h_free hy = true ->
  same_live H x H' x.
Proof.
  intros [Mx My Mo] Hy Hf b sz. unfold live. split.
  - intros [Hbx (hb & Hb & Hfb & Es)]. assert (b <> y) as Hby by (intros ->; congruence).
    split; [done|]. exists hb. by rewrite Mo.
  - intros [Hbx (hb & Hb & Hfb & Es)]. assert (b <> y) as Hby by (intros ->; congruence).
    split; [done|]. exists hb. by rewrite <- Mo.
Qed.

(** The memory operations of a merge, once the free one of the two is off its list. *)
Lemma wp_absorb t m ex lo hi H G x y hx hy (Q : unit -> TState -> Prop) :
  raw t m H G -> heap ex lo hi H G -> H !! x = Some hx -> H !! y = Some hy ->
  h_free hx = false -> h_free hy = false -> y = x + HEADER + h_size hx -> x <> hi -> y <> hi ->
  (forall t' m', raw t' m' (merge_hdrs H x y hx hy) G -> writes_only (hdr_cell H) m m' -> Q tt (t', m')) ->
  wp (absorb x y) (t, m) Q.
Proof.
  intros R Hp Hx Hy Hfx Hfy Ey Hxh Hyh HQ.
  destruct (next_pos _ _ _ _ _ _ _ Hp Hx Hxh) as (Sx & Dx & Lx).
  destruct (next_pos _ _ _ _ _ _ _ Hp Hy Hyh) as (Sy & Dy & Ly).
  pose proof (hp_pool _ _ _ _ _ Hp). pose proof (hp_range _ _ _ _ _ Hp _ _ Hx).
  unfold absorb. wp_step. eapply wp_block_size; [exact R|exact Hx|]. wp_step.
  eapply wp_block_size; [exact R|exact Hy|].
  wp_step. apply wp_uadd; [unfold HEADER, W64 in *; lia|]. wp_step. apply wp_uadd; [unfold HEADER, W64 in *; lia|].
  eapply wp_set_size; [exact R|exact Hx|unfold HEADER, W64 in *; lia| | |].
  - repeat apply Z.divide_add_r; try done. by exists 4.
  - by eapply not_listed.
  - intros m' R' W'. apply HQ; [|done]. apply raw_delete; [done|]. by eapply not_listed.
Qed.

Lemma wp_merge_prev t m lo hi H G a h (Q : Z -> TState -> Prop) :
  tlsf t m lo hi H G -> H !! a = Some h -> h_free h = false -> a <> hi -> (h_pf h = true -> prev_ok lo H a) ->
  (forall t' m' H' G' x hx, tlsf t' m' lo hi H' G' -> H' !! x = Some hx -> h_free hx = false ->
     x <> hi -> x <= a -> end_of x hx = end_of a h -> same_live H a H' x ->
     (forall b, b <> end_of x hx -> prev_ok lo H b -> prev_ok lo H' b) ->
     (h_pf h = false -> H' = H /\ x = a /\ hx = h) ->
     x = (if h_pf h then h_prev h else a) -> is_Some (H !! x) ->
     (forall b hb, H' !! b = Some hb -> b <> x -> H !! b = Some hb) ->
     H' !! end_of x hx = H !! end_of a h ->
     writes_only (hdr_cell H) m m' -> Q x (t', m')) ->
  wp (merge_prev a) (t, m) Q.
Proof.
  intros HT Ha Hf Hah Hprev HQ. pose proof HT as [R Hp].
  unfold merge_prev. wp_step. eapply wp_prev_free; [exact R|exact Ha|].
  destruct (h_pf h) eqn:Epf.
  2: { wp_step. apply (HQ t m H G a h); try done; eauto. }
  specialize (Hprev eq_refl). assert (a <> lo) as Hal.
  { intros ->. destruct (hp_lo _ _ _ _ _ Hp) as (h0 & H0 & Hpf0). congruence. }
  destruct (Hprev h Ha Hal) as (hp & Hhp & Ep). set (p := h_prev h) in *.
  assert (p <> hi) as Hph.
  { intros ->. destruct (hp_hi _ _ _ _ _ Hp) as (h0 & H0 & Hs0 & _). simplify_eq.
    pose proof (hp_range _ _ _ _ _ Hp _ _ Ha). unfold HEADER in *. lia. }
  assert (p <> a) as Hpa.
  { destruct (next_pos _ _ _ _ _ _ _ Hp Hhp Hph) as (? & _). unfold HEADER in *. lia. }
  assert (h_free hp = true) as Hfp.
  { destruct (hp_next _ _ _ _ _ Hp p hp Hhp Hph) as (hn & Hn & Hpf). rewrite Ep in Hn, Hpf. simplify_eq.
    rewrite <- Hpf; [done| |done]. pose proof (raw_ok _ _ _ _ R _ _ Hhp). lia. }
  wp_step. wp_step. rewrite (raw_prev _ _ _ _ R a h Ha). fold p. wp_step.
  eapply (wp_take t m lo hi H G p hp); [done|done|done|]. intros t1 m1 G1 R1 P1 W1.
  set (H1 := <[p := with_free false hp]> H) in *.
  assert (H1 !! p = Some (with_free false hp)) as L1 by (unfold H1; by rewrite lookup_insert_eq).
  assert (H1 !! a = Some h) as L2 by (unfold H1; by rewrite lookup_insert_ne).
  assert (h = with_free false h) as Eh by (destruct h; simpl in *; by subst).
  wp_step. eapply (wp_absorb t1 m1 p lo hi H1 G1 p a); try done.
  intros t2 m2 R2 W2. wp_step. rewrite Eh in R2, L2.
  assert (merged_into lo H p a hp h (merge_hdrs H1 p a (with_free false hp) (with_free false h))) as MI.
  { apply merge_into_merge; try done. intros b B1 B2. unfold H1. by rewrite lookup_insert_ne. }
  set (H2 := merge_hdrs H1 p a (with_free false hp) (with_free false h)) in *.
  apply (HQ t2 m2 H2 G1 p (mkHdr (h_size hp + HEADER + h_size h) false (h_pf hp) (h_prev hp)));
    try done.
  - split; [done|]. apply (heap_merge p 0); try done; [auto|]. right. intros hn Hn Hnh. cbn [h_free with_free].
    destruct (hp_next _ _ _ _ _ Hp a h Ha Hah) as (hn0 & Hn0 & Hpf0).
    unfold H1 in Hn. rewrite lookup_insert_ne in Hn.
    + cbn [h_size with_free] in *. simplify_eq. rewrite <- Hf. apply Hpf0; [|done].
      pose proof (raw_ok _ _ _ _ R _ _ Ha). lia.
    + destruct (next_pos _ _ _ _ _ _ _ Hp Ha Hah) as (? & _).
      destruct (next_pos _ _ _ _ _ _ _ Hp Hhp Hph) as (? & _). cbn [h_size with_free]. unfold HEADER in *. lia.
  - apply MI.
  - unfold HEADER in *. destruct (next_pos _ _ _ _ _ _ _ Hp Hhp Hph) as (? & _). lia.
  - unfold end_of; simpl. lia.
  - by eapply merge_live_prev.
  - intros b Hb. eapply merge_prev_ok; try done. unfold end_of in *. simpl in Hb. lia.
  - intros b hb Hb Hbp. by eapply merged_other.
  - destruct (next_pos _ _ _ _ _ _ _ Hp Ha Hah) as (? & _).
    destruct (next_pos _ _ _ _ _ _ _ Hp Hhp Hph) as (? & _).
    replace (end_of p _) with (end_of a h) by (unfold end_of; simpl; lia).
    apply (mg_other _ _ _ _ _ _ _ MI); unfold end_of, HEADER in *; lia.
  - eapply writes_only_trans; [exact W1|]. eapply writes_only_weaken; [|exact W2].
    intros x. by apply (hdr_cell_insert H p hp).
Qed.

Lemma wp_merge_next t m lo hi H G x hx (Q : unit -> TState -> Prop) :
  tlsf t m lo hi H G -> H !! x = Some hx -> h_free hx = false -> x <> hi ->
  (forall t' m' H' G' hx', raw t' m' H' G' -> heap x lo hi H' G' -> H' !! x = Some hx' ->
     h_free hx' = false -> h_size hx <= h_size hx' -> same_live H x H' x ->
     (forall b, b <> end_of x hx' -> (b <> end_of x hx -> prev_ok lo H b) -> prev_ok lo H' b) ->
     (exists hn, H !! end_of x hx = Some hn /\
        end_of x hx' = (if h_free hn then end_of (end_of x hx) hn else end_of x hx) /\
        (h_free hn = false -> H' = H /\ hx' = hx)) ->
     (forall b hb, H' !! b = Some hb -> b <> x -> H !! b = Some hb) ->
     writes_only (hdr_cell H) m m' -> Q tt (t', m')) ->
  wp (merge_next x) (t, m) Q.
Proof.
  intros HT Hx Hf Hxh HQ. pose proof HT as [R Hp].
  destruct (hp_next _ _ _ _ _ Hp x hx Hx Hxh) as (hn & Hn & _).
  destruct (next_pos _ _ _ _ _ _ _ Hp Hx Hxh) as (Sx & _ & _).
  unfold merge_next. wp_step. eapply wp_next_phys; [exact R|exact Hx|]. wp_step.
  eapply wp_is_free; [exact R|exact Hn|]. destruct (h_free hn) eqn:Efn.
  2: { wp_step. apply (HQ t m H G hx); try done; [by apply heap_weaken|..].
       - intros b Hb Hok. by apply Hok.
       - exists hn. by rewrite Efn. }
  set (y := x + HEADER + h_size hx) in *. assert (y <> x) as Hyx by (unfold y, HEADER in *; lia).
  assert (y <> hi) as Hyh.
  { intros E. destruct (hp_hi _ _ _ _ _ Hp) as (h0 & H0 & _ & Hf0). rewrite E in Hn. congruence. }
  destruct (next_pos _ _ _ _ _ _ _ Hp Hn Hyh) as (Sy & _ & _).
  wp_step. eapply (wp_take t m lo hi H G y hn); [done|done|done|]. intros t1 m1 G1 R1 P1 W1.
  set (H1 := <[y := with_free false hn]> H) in *.
  assert (H1 !! y = Some (with_free false hn)) as L1 by (unfold H1; by rewrite lookup_insert_eq).
  assert (H1 !! x = Some hx) as L2 by (unfold H1; by rewrite lookup_insert_ne).
  assert (hx = with_free false hx) as Eh by (destruct hx; simpl in *; by subst).
  eapply (wp_absorb t1 m1 y lo hi H1 G1 x y); try done.
  intros t2 m2 R2 W2. rewrite Eh in R2, L2.
  assert (merged_into lo H x y hx hn (merge_hdrs H1 x y (with_free false hx) (with_free false hn))) as MI.
  { apply merge_into_merge; try done. intros b B1 B2. unfold H1. by rewrite lookup_insert_ne. }
  set (H2 := merge_hdrs H1 x y (with_free false hx) (with_free false hn)) in *.
  apply (HQ t2 m2 H2 G1 (mkHdr (h_size hx + HEADER + h_size hn) false (h_pf hx) (h_prev hx))).
  - done.
  - apply (heap_merge y x); try done; auto.
  - apply MI.
  - done.
  - simpl. unfold HEADER. lia.
  - by eapply merge_live_next.
  - intros b Hb Hok. destruct (decide (b = y)) as [->|Hby].
    + intros hb Hbb. rewrite (mg_y _ _ _ _ _ _ _ MI) in Hbb. done.
    + eapply merge_prev_ok; [exact MI|exact Hx|exact Hn|done| |by apply Hok].
      unfold end_of in *. simpl in Hb. unfold y. lia.
  - exists hn. rewrite Efn. unfold end_of. fold y. split_and!; [done|simpl; unfold y; lia|done].
  - intros b hb Hb Hbx. by eapply merged_other.
  - eapply writes_only_trans; [exact W1|]. eapply writes_only_weaken; [|exact W2].
    intros z. by apply (hdr_cell_insert H y hn).
Qed.

(** The free block that releasing [a] leaves: it starts at the block in front
    if that is free, and ends behind the next one if that is.  No other header
    changes its size, its state or its link.  The links that were right still
    are, except that of the block behind when there was a merge. *)
Record freed (lo : Z) (H : gmap Z hdr) (a : Z) (h : hdr) (H' : gmap Z hdr) (x : Z) (hx hn : hdr) : Prop := mkFreed {
  fr_block : H' !! x = Some hx /\ h_free hx = true;
  fr_next : H !! end_of a h = Some hn;
  fr_start : x = (if h_pf h then h_prev h else a) /\ x <= a;
  fr_end : end_of x hx = (if h_free hn then end_of (end_of a h) hn else end_of a h);
  fr_rest : forall b hb, H' !! b = Some hb -> b <> x ->
    exists h0, H !! b = Some h0 /\ h_size h0 = h_size hb /\ h_free h0 = h_free hb /\ h_prev h0 = h_prev hb;
  fr_links : forall b, b <> end_of x hx \/ h_pf h = false /\ h_free hn = false -> prev_ok lo H b -> prev_ok lo H' b
}.

(** Releasing [a]: the other live blocks stay, its bytes are inside a free
    block. *)
Record released (lo : Z) (H : gmap Z hdr) (a : Z) (h : hdr) (H' : gmap Z hdr) : Prop := mkReleased {
  re_live : forall b sz, live H' b sz <-> b <> a /\ live H b sz;
  re_free : exists x hx hn, freed lo H a h H' x hx hn
}.

Lemma live_insert H x hx f b sz : H !! x = Some hx -> h_size (f hx) = h_size hx -> h_free (f hx) = h_free hx ->
  live (<[x := f hx]> H) b sz <-> live H b sz.
Proof.
  intros Hx Es Ef. unfold live. split; intros (h & Hb & Hf & E).
  - hlook; [|by eauto]. exists hx. split_and!; congruence.
  - destruct (decide (b = x)) as [->|Hne].
    + exists (f hx). rewrite lookup_insert_eq. simplify_eq. split_and!; congruence.
    + exists h. by rewrite lookup_insert_ne.
Qed.

Lemma live_freed H x hx b sz : H !! x = Some hx ->
  live (<[x := with_free true hx]> H) b sz <-> b <> x /\ live H b sz.
Proof.
  intros Hx. unfold live. split.
  - intros (h & Hb & Hf & E). hlook. eauto.
  - intros [Hne (h & Hb & Hf & E)]. exists h. by rewrite lookup_insert_ne.
Qed.

Lemma prev_ok_insert lo H x hx f b : H !! x = Some hx -> h_size (f hx) = h_size hx -> h_prev (f hx) = h_prev hx ->
  prev_ok lo H b -> prev_ok lo (<[x := f hx]> H) b.
Proof.
  intros Hx Es Ep Hok hb Hb Hbl.
  assert (exists h0, H !! b = Some h0 /\ h_prev h0 = h_prev hb) as (h0 & H0 & <-) by (hlook; eauto).
  destruct (Hok h0 H0 Hbl) as (hp & Hhp & E). destruct (decide (h_prev h0 = x)) as [Ex|Hne].
  - exists (f hx). rewrite Ex in *. rewrite lookup_insert_eq. simplify_eq. by rewrite Es.
  - exists hp. by rewrite lookup_insert_ne.
Qed.

Lemma wp_tlsf_dealloc t m lo hi H G a h :
  tlsf t m lo hi H G -> H !! a = Some h -> h_free h = false -> a <> hi -> (h_pf h = true -> prev_ok lo H a) ->
  wp (tlsf_dealloc (payload a)) (t, m) (fun _ s' =>
    exists H' G', tlsf (fst s') (snd s') lo hi H' G' /\ released lo H a h H' /\
      writes_only (hdr_cell H) m (snd s')).
Proof.
  intros HT Ha Hf Hah Hprev. unfold tlsf_dealloc, payload. replace (a + HEADER - HEADER) with a by lia.
  wp_step. eapply wp_merge_prev; [done|done|done|done|done|].
  intros t1 m1 H1 G1 x hx T1 Hx Hfx Hxh Hxa He Hl1 Hp1 Hid1 Exa Hx0 Hd1 Hn1 W1. wp_step.
  eapply wp_merge_next; [done|done|done|done|].
  intros t2 m2 H2 G2 hx2 R2 P2 Hx2 Hfx2 Hle Hl2 Hp2 (hn0 & Hn0 & He2 & Hid2) Hd2 W2. wp_step.
  rewrite Hn1 in Hn0. rewrite He in He2, Hp2.
  pose proof (hp_size _ _ _ _ _ P2 x hx2 Hx2 Hxh) as Hok2.
  eapply wp_insert_free; [exact R2|exact Hx2|done|exact (not_listed _ _ _ _ _ _ _ P2 Hx2 Hfx2)|].
  intros t3 m3 R3 W3. wp_step. set (H3 := <[x := with_free true hx2]> H2) in *.
  assert (H3 !! x = Some (with_free true hx2)) as Hx3 by (unfold H3; by rewrite lookup_insert_eq).
  eapply wp_next_phys; [exact R3|exact Hx3|]. cbn [h_size with_free].
  pose proof (heap_put lo hi H2 G2 x hx2 (cls (h_size hx2)) P2 Hx2 Hxh Hfx2) as P3. fold H3 in P3.
  destruct (hp_next _ _ _ _ _ P3 x _ Hx3 Hxh) as (hn & Hn & _). cbn [h_size with_free] in Hn.
  eapply wp_set_prev_free; [exact R3|exact Hn|]. intros m4 R4 W4.
  pose proof (heap_settle x lo hi H3 _ (with_free true hx2) hn P3 Hx3 Hxh Hn) as P4.
  cbn [h_size h_free with_free] in P4. set (H4 := <[x + HEADER + h_size hx2 := with_pf true hn]> H3) in *.
  exists H4. eexists. split; [split; [exact R4|exact P4]|].
  assert (x + HEADER + h_size hx2 <> x) as Hnx by (destruct Hok2; unfold HEADER; lia).
  assert (forall b, prev_ok lo H2 b -> prev_ok lo H4 b) as Hp4.
  { intros b Hb. apply (prev_ok_insert lo H3 _ hn (with_pf true)); [done..|].
    by apply (prev_ok_insert lo H2 x hx2 (with_free true)). }
  split; [split|].
  - intros b sz. unfold H4. rewrite (live_insert H3 _ hn (with_pf true)) by done.
    unfold H3. rewrite live_freed by done. rewrite <- (Hl2 b sz), <- (Hl1 b sz). done.
  - exists x, (with_free true hx2), hn0. change (end_of x (with_free true hx2)) with (end_of x hx2). split.
    + unfold H4. by rewrite lookup_insert_ne.
    + done.
    + done.
    + done.
    + intros b hb Hb Hbx. assert (exists h2, H2 !! b = Some h2 /\ h_size h2 = h_size hb /\ h_free h2 = h_free hb /\ h_prev h2 = h_prev hb)
        as (h2 & Hb2 & Es) by (unfold H4, H3 in *; hlook; eauto).
      exists h2. split; [|done]. apply Hd1, Hbx. by apply Hd2.
    + intros b [Hb|[Hpf Hnf]] Hok; apply Hp4.
      * apply Hp2; [exact Hb|]. intros Hb2. apply Hp1; [by rewrite He|done].
      * destruct (Hid2 Hnf) as [-> ->]. by destruct (Hid1 Hpf) as (-> & _).
  - assert (forall z, hdr_cell H1 z -> hdr_cell H z) as C1.
    { intros z. apply hdr_cell_mono. intros b hb Hb. destruct (decide (b = x)) as [->|Hbx]; [done|]. eexists. by apply Hd1. }
    assert (forall z, hdr_cell H2 z -> hdr_cell H z) as C2.
    { intros z Hz. apply C1. revert Hz. apply hdr_cell_mono. intros b hb Hb.
      destruct (decide (b = x)) as [->|Hbx]; [by eexists|]. eexists. by apply Hd2. }
    eapply writes_only_trans; [exact W1|]. eapply writes_only_trans; [eapply writes_only_weaken; [exact C1|exact W2]|].
    eapply writes_only_trans; [eapply writes_only_weaken; [exact C2|exact W3]|].
    eapply writes_only_weaken; [|exact W4]. intros z Hz. apply C2. by apply (hdr_cell_insert H2 x hx2) in Hz.
Qed.

(** ** Setting up the pool *)

Definition no_blocks : class -> list Z := fun _ => [].

Lemma raw_empty m : raw TlsfInner_new m ∅ no_blocks.
Proof.
  assert (shape_ok TlsfInner_new) as S.
  { split; cbn [TlsfInner_new free_lists sl_bitmap]; rewrite ?length_replicate; try done.
    intros f r [-> _]%lookup_replicate. by rewrite length_replicate. }
  split; try done.
  - intros c [Hf Hl]. unfold head_of, no_blocks, TlsfInner_new. cbn [free_lists].
    rewrite lookup_replicate_2 by (unfold FL_INDEX_COUNT in *; lia). cbn [default from_option id].
    rewrite lookup_replicate_2; [done|lia].
  - intros c. constructor.
  - intros c a Ha. by apply elem_of_nil in Ha.
  - assert (forall f, sl_of TlsfInner_new f = 0) as E.
    { intros f. unfold sl_of, TlsfInner_new. cbn [sl_bitmap].
      destruct (replicate _ 0 !! Z.to_nat f) eqn:L; [|done]. apply lookup_replicate in L as [-> _]. done. }
    split.
    + intros f Hf. rewrite E. split; [done|]. intros l Hl. by rewrite Z.bits_0.
    + done.
    + intros f Hf. rewrite E. apply Z.bits_0.
Qed.

(** The two headers of a fresh pool. *)
Definition pool_hdrs (mem size : Z) : gmap Z hdr :=
  <[mem := mkHdr (size - 2 * HEADER) true false 0]>
    (<[mem + (size - HEADER) := mkHdr 0 false false mem]> ∅).

Lemma heap_pool mem size :
  0 < mem -> (8 | mem) -> (8 | size) -> 2 * HEADER + BLOCK_MIN < size < 2 ^ 30 -> mem + size <= W64 ->
  heap 0 mem (mem + (size - HEADER)) (pool_hdrs mem size)
    (<[cls (size - 2 * HEADER) := [mem]]> no_blocks).
Proof.
  intros Hm Dm Ds Hs He. unfold HEADER, BLOCK_MIN in *. set (hi := mem + (size - 32)).
  set (payload := size - 2 * 32).
  assert (mem < hi) as Hlt by (unfold hi; lia).
  assert (forall b hb, pool_hdrs mem size !! b = Some hb ->
    (b = mem /\ hb = mkHdr payload true false 0) \/ (b = hi /\ hb = mkHdr 0 false false mem)) as HL.
  { unfold pool_hdrs, HEADER. intros b hb Hb.
    apply lookup_insert_Some in Hb as [[<- <-]|[_ Hb]]; [by left|].
    apply lookup_insert_Some in Hb as [[<- <-]|[_ Hb]]; [by right|]. by rewrite lookup_empty in Hb. }
  assert (pool_hdrs mem size !! mem = Some (mkHdr payload true false 0)) as L1
    by (unfold pool_hdrs; by rewrite lookup_insert_eq).
  assert (pool_hdrs mem size !! hi = Some (mkHdr 0 false false mem)) as L2.
  { unfold pool_hdrs, HEADER. rewrite lookup_insert_ne by lia. by rewrite lookup_insert_eq. }
  assert (forall b, (exists c, b ∈ <[cls payload := [mem]]> no_blocks c) <-> b = mem) as HG.
  { intros b. split.
    - intros [c Hc]. destruct (decide (c = cls payload)) as [->|Hne].
      + rewrite fn_lookup_insert in Hc. by apply list_elem_of_singleton in Hc.
      + rewrite fn_lookup_insert_ne in Hc by done. by apply elem_of_nil in Hc.
    - intros ->. exists (cls payload). rewrite fn_lookup_insert. set_solver. }
  split.
  - eexists. by rewrite L1.
  - eexists. by rewrite L2.
  - unfold HEADER, hi in *. lia.
  - intros b hb [[-> _]|[-> _]]%HL; (split; [lia|]); [done|]. unfold hi.
    apply Z.divide_add_r; [done|]. apply Z.divide_sub_r; [done|by exists 4].
  - intros b hb [[-> ->]|[-> ->]]%HL Hb; [|done]. simpl. unfold payload. destruct Ds as [d ->].
    split; [lia|]. exists (d - 8). lia.
  - intros b hb [[-> ->]|[-> ->]]%HL Hb; [|done]. exists (mkHdr 0 false false mem). cbn [h_size].
    replace (mem + HEADER + payload) with hi by (unfold HEADER, payload, hi; lia). by split.
  - intros b b' hb hb' [[-> ->]|[-> ->]]%HL [[-> ->]|[-> ->]]%HL Hbb; cbn [h_size]; unfold HEADER, payload, hi in *; lia.
  - intros b hb [[-> ->]|[-> ->]]%HL; rewrite HG; simpl; [done|]. split; [done|lia].
  - intros c b Hb. destruct (HG b) as [Hb' _]. rewrite (Hb' (ex_intro _ c Hb)), L1. eauto.
Qed.

Lemma wp_add_pool m mem size :
  0 < mem -> (8 | mem) -> (8 | size) -> 2 * HEADER + BLOCK_MIN < size < 2 ^ 30 -> mem + size <= W64 ->
  wp (add_pool mem size) (TlsfInner_new, m) (fun _ s' =>
    tlsf (fst s') (snd s') mem (mem + (size - HEADER)) (pool_hdrs mem size)
      (<[cls (size - 2 * HEADER) := [mem]]> no_blocks) /\
    changes (fun x => mem <= x < mem + size) m (snd s')).
Proof.
  intros Hm Dm Ds Hs He. pose proof (heap_pool mem size Hm Dm Ds Hs He) as Hp.
  set (hi := mem + (size - HEADER)) in *. set (payload := size - 2 * HEADER) in *.
  assert (size_ok payload) as Hpay.
  { unfold payload, HEADER, BLOCK_MIN in *. destruct Ds as [d ->]. split; [lia|]. exists (d - 8). lia. }
  unfold add_pool. unfold HEADER, BLOCK_MIN in Hs.
  wp_steps; [unfold HEADER, BLOCK_MIN; lia|unfold HEADER; lia|]. fold hi payload.
  match goal with |- wp _ (_, ?m1) _ => set (m8 := m1) end.
  assert (hi - mem >= 64) as Hd by (unfold hi, HEADER; lia).
  set (H0 := <[mem := mkHdr payload false false 0]> (<[hi := mkHdr 0 false false 0]> (∅ : gmap Z hdr))).
  assert (raw TlsfInner_new m8 H0 no_blocks) as R0.
  { apply raw_extend.
    - apply raw_extend; [apply raw_empty|by intros c Hc%elem_of_nil|by split; [|exists 0]|lia|done| |];
        unfold m8, H_SIZE, H_PREV_PHYS, H_NEXT_FREE, H_PREV_FREE; by cells.
    - by intros c Hc%elem_of_nil.
    - split; [unfold W64; destruct Hpay; simpl; lia|apply Hpay].
    - done.
    - intros b hb Hb _. apply lookup_insert_Some in Hb as [[<- _]|[_ Hb]]; [unfold HEADER; lia|done].
    - unfold m8, H_SIZE, H_PREV_PHYS, H_NEXT_FREE, H_PREV_FREE. cells. unfold word; simpl. lia.
    - unfold m8, H_SIZE, H_PREV_PHYS, H_NEXT_FREE, H_PREV_FREE. cells. done. }
  assert (H0 !! mem = Some (mkHdr payload false false 0)) as L1 by (unfold H0; by rewrite lookup_insert_eq).
  assert (forall (H : gmap Z hdr) m1 m2, (forall b hb, H !! b = Some hb -> b = mem \/ b = hi) ->
    writes_only (hdr_cell H) m1 m2 -> changes (fun x => mem <= x < mem + size) m1 m2) as Hin.
  { intros H m1 m2 Hdom Hw x Hx. destruct (decide (mem <= x < mem + size)) as [|Hn]; [done|]. destruct Hx. apply Hw.
    intros (b & hb & Hb & Hr). apply Hn. unfold hi, HEADER in *. destruct (Hdom b hb Hb) as [-> | ->]; lia. }
  assert (changes (fun x => mem <= x < mem + size) m m8) as C8.
  { unfold m8, H_SIZE, H_PREV_PHYS, H_NEXT_FREE, H_PREV_FREE.
    repeat (eapply changes_trans; [|apply changes_wr; unfold hi, HEADER in *; lia]). apply changes_refl. }
  eapply wp_set_prev_free; [exact R0|exact L1|]. intros m9 R9 W9. rewrite insert_id in R9 by exact L1. wp_step.
  assert (H0 !! hi = Some (mkHdr 0 false false 0)) as L2.
  { unfold H0. rewrite lookup_insert_ne by lia. by rewrite lookup_insert_eq. }
  eapply wp_set_prev_phys; [exact R9|exact L2|]. intros m10 R10 W10.
  eapply wp_insert_free; [exact R10|rewrite lookup_insert_ne by lia; exact L1|exact Hpay|by intros c Hc%elem_of_nil|].
  intros t' m' R' W'. assert (forall b hb, H0 !! b = Some hb -> b = mem \/ b = hi) as Hdom.
  { intros b hb [[<- _]|[_ Hb]]%lookup_insert_Some; [by left|]. by apply lookup_insert_Some in Hb as [[<- _]|[_ Hb]]; [right|]. }
  split.
  2: { eapply changes_trans; [exact C8|]. eapply changes_trans; [exact (Hin _ _ _ Hdom W9)|].
    eapply changes_trans; [exact (Hin _ _ _ Hdom W10)|]. refine (Hin _ _ _ _ W').
    intros b hb [[<- _]|[_ Hb]]%lookup_insert_Some; [by right|by eapply Hdom]. }
  split; [|exact Hp].
  cbn [h_size] in R'. replace (pool_hdrs mem size) with
    (<[mem:=with_free true (mkHdr payload false false 0)]>
       (<[hi:=with_prev mem (mkHdr 0 false false 0)]> H0)); [exact R'|].
  unfold pool_hdrs, H0. fold hi payload. rewrite (insert_insert_ne _ hi mem) by lia.
  rewrite insert_insert_eq. f_equal. by rewrite insert_insert_eq.
Qed.
