(* ===== verification/TlsfSpec.v ===== *)
(** * What the TLSF heap promises (abalone/src/tlsf.rs)

    Total correctness of [alloc] and [dealloc] on a well-formed pool, the
    bounds of the size classes, the release that leaves a stale [prev_phys]
    behind, the over-aligned pointers that [dealloc] cannot map back to their
    header, and the clients that release in reverse order, for which the links
    do not matter. *)

From Stdlib Require Import Sorted.
From S2P Require Import Prelude Dll Tlsf.

(** Bytes handed to the client of a live block. *)
Definition payload_byte (H : gmap Z hdr) (b x : Z) : Prop :=
  exists sz, live H b sz /\ payload b <= x < payload b + sz.

Lemma cls_mono s s' : 32 <= s <= s' -> class_le (cls s) (cls s').
Proof.
  intros Hs. unfold class_le, cls; simpl. pose proof (Z.log2_le_mono s s' ltac:(lia)).
  destruct (decide (Z.log2 s = Z.log2 s')) as [E|]; [right|left; lia]. split; [done|]. rewrite E.
  pose proof (log2_ge5 s' ltac:(lia)). pose proof (Z.pow_pos_nonneg 2 (Z.log2 s' - 5) ltac:(lia) ltac:(lia)).
  pose proof (Z.div_le_mono s s' (2 ^ (Z.log2 s' - 5)) ltac:(lia) ltac:(lia)). lia.
Qed.

(** Payloads of different live blocks do not meet, and meet no header. *)
Lemma payload_disjoint lo hi H G t m b b' x x' :
  tlsf t m lo hi H G -> b <> b' -> payload_byte H b x -> payload_byte H b' x' -> x <> x'.
Proof.
  intros [R Hp] Hne (sz & (h & Hb & _ & <-) & Hx) (sz' & (h' & Hb' & _ & <-) & Hx') <-.
  unfold payload, HEADER in *. destruct (Ztrichotomy b b') as [Hlt|[|Hgt]]; [|done|].
  - pose proof (hp_sep _ _ _ _ _ Hp _ _ _ _ Hb Hb' Hlt). unfold HEADER in *. lia.
  - pose proof (hp_sep _ _ _ _ _ Hp _ _ _ _ Hb' Hb ltac:(lia)). unfold HEADER in *. lia.
Qed.

Lemma payload_not_header ex lo hi H G b x :
  heap ex lo hi H G -> payload_byte H b x -> ~ hdr_cell H x.
Proof.
  intros Hp (sz & (h & Hb & _ & <-) & Hx) (a & ha & Ha & Hxa). unfold payload, HEADER in *.
  destruct (Ztrichotomy a b) as [Hlt|[->|Hgt]].
  - pose proof (hp_sep _ _ _ _ _ Hp _ _ _ _ Ha Hb Hlt). unfold HEADER in *.
    destruct (decide (a = hi)) as [->|Hne].
    + pose proof (hp_range _ _ _ _ _ Hp _ _ Hb). lia.
    + pose proof (next_pos _ _ _ _ _ _ _ Hp Ha Hne). lia.
  - lia.
  - pose proof (hp_sep _ _ _ _ _ Hp _ _ _ _ Hb Ha ltac:(lia)). unfold HEADER in *. lia.
Qed.

(** C9: on a well-formed pool [TlsfInner::alloc] never panics, for requests
    that stay below 1 GiB when rounded up to their size class.  A pointer it
    returns is the 8-byte aligned payload of a block that was free, at least
    as large as the request and inside the pool; its bytes belong to no other
    live block, no byte of a live payload was written, all other live blocks
    stay, and the pool is well formed again with every [prev_phys] link that
    was right still right. *)
Theorem tlsf_alloc_sound t m lo hi H G size :
  tlsf t m lo hi H G -> 0 <= size -> round_up (adjusted size) < 2 ^ 30 ->
  exists r t' m', tlsf_alloc size (t, m) = Ok (r, (t', m')) /\
    match r with
    | None => (t', m') = (t, m)
    | Some ptr => exists a sz H' G', ptr = payload a /\ ptr mod 8 = 0 /\
        tlsf t' m' lo hi H' G' /\ live H' a sz /\ size <= sz /\ lo < ptr /\ ptr + sz <= hi /\
        (exists h, H !! a = Some h /\ h_free h = true) /\
        (forall b s, b <> a -> live H' b s <-> live H b s) /\
        (forall b x x', b <> a -> payload_byte H' b x -> payload_byte H' a x' -> x <> x') /\
        (forall b x, payload_byte H b x -> rd m' x = rd m x) /\
        ((forall b, prev_ok lo H b) -> forall b, prev_ok lo H' b)
    end.
Proof.
  intros HT Hs Hru. pose proof (wp_tlsf_alloc t m lo hi H G size HT Hs Hru) as Hw.
  apply wp_run in Hw as (r & [t' m'] & Hrun & Hpost). exists r, t', m'. split; [done|].
  destruct r as [ptr|]; [|by destruct Hpost].
  destruct Hpost as (a & H' & G' & -> & HT' & [(h & h' & Ha & Hf & Ha' & Hf' & Hsz) Hk Hn _ Hpv] & Hw & _).
  cbn [fst snd] in *. pose proof HT' as [R' Hp']. destruct HT as [R Hp].
  pose proof (proj1 (proj2 (adjusted_facts size))) as Hadj.
  assert (a <> hi) as Hne by (intros ->; destruct (hp_hi _ _ _ _ _ Hp) as (h0 & H0 & _ & Hf0); congruence).
  destruct (next_pos _ _ _ _ _ _ _ Hp' Ha' Hne) as (Hs32 & _ & Hend).
  pose proof (hp_range _ _ _ _ _ Hp' _ _ Ha') as [Hr [d Hd]].
  assert (forall b s, b <> a -> live H' b s <-> live H b s) as Hlive.
  { intros b s Hb. split; intros (hb & Hhb & Hfb & <-).
    - destruct (Hn b hb Hhb Hfb) as [|(h0 & H0 & Hf0)]; [done|].
      destruct (Hk b h0 H0 Hb) as (hb' & Hhb' & Es & _). exists h0. split_and!; congruence.
    - destruct (Hk b hb Hhb Hb) as (hb' & Hhb' & Es & Ef). exists hb'. split_and!; congruence. }
  exists a, (h_size h'), H', G'. split_and!; try done; try (unfold payload, HEADER in *; lia).
  - unfold payload, HEADER. rewrite Hd. replace (d * 8 + 32) with ((d + 4) * 8) by lia. apply Z.mod_mul. lia.
  - by exists h'.
  - by exists h.
  - intros b x x' Hb Hx Hx'. by eapply payload_disjoint.
  - intros b x Hx. apply Hw. assert (b <> a) as Hba.
    { intros ->. destruct Hx as (sz & (h0 & H0 & Hf0 & _) & _). congruence. }
    destruct Hx as (sz & Hl & Hx). apply Hlive in Hl; [|done].
    eapply payload_not_header; [exact Hp'|]. by exists sz.
Qed.

(** A pool of one page, for the witnesses. *)
Definition pool0 : TState := final (add_pool 65536 4096) (TlsfInner_new, ∅).

Lemma pool0_tlsf : tlsf (fst pool0) (snd pool0) 65536 69600 (pool_hdrs 65536 4096)
    (<[cls 4032 := [65536]]> no_blocks).
Proof.
  pose proof (wp_add_pool ∅ 65536 4096 ltac:(lia) ltac:(by exists 8192) ltac:(by exists 512)
    ltac:(split; reflexivity) ltac:(done)) as Hw.
  apply wp_result in Hw as ([] & _ & HT & _). exact HT.
Qed.

Lemma tlsf_alloc_sound_witness :
  exists r t' m', tlsf_alloc 64 pool0 = Ok (r, (t', m')).
Proof.
  destruct (tlsf_alloc_sound _ _ _ _ _ _ 64 pool0_tlsf ltac:(lia) ltac:(by vm_compute))
    as (r & t' & m' & Hrun & _).
  exists r, t', m'. by rewrite (surjective_pairing pool0).
Defined.

(** C10: the search is a good fit.  It looks in the class of the adjusted request
    rounded up, less than 1/32 above it.  A block found was free, holds the
    adjusted request, and no free block at or above that class is of a smaller
    class than it; a request fails exactly when no free block is of that class
    or above, and then every free block is smaller than the rounded request. *)
Theorem tlsf_alloc_good_fit t m lo hi H G size :
  tlsf t m lo hi H G -> 0 <= size -> round_up (adjusted size) < 2 ^ 30 ->
  size <= adjusted size /\ 32 * (round_up (adjusted size) - adjusted size) < adjusted size /\
  exists r, result (tlsf_alloc size) (t, m) = Some r /\
  match r with
  | Some ptr => exists a, ptr = payload a /\ good_fit H (adjusted size) a
  | None => forall a h, H !! a = Some h -> h_free h = true ->
      ~ class_le (cls (round_up (adjusted size))) (cls (h_size h)) /\ h_size h < round_up (adjusted size)
  end.
Proof.
  intros HT Hs Hru. destruct (adjusted_facts size) as (H32 & Hle & _). pose proof (log2_ge5 _ H32) as Hl.
  pose proof (Z.log2_spec (adjusted size) ltac:(lia)) as [Hp _].
  replace (Z.log2 (adjusted size)) with (Z.log2 (adjusted size) - 5 + 5) in Hp by lia.
  rewrite Z.pow_add_r in Hp by lia. pose proof (Z.pow_pos_nonneg 2 (Z.log2 (adjusted size) - 5) ltac:(lia) ltac:(lia)).
  split; [done|]. split; [unfold round_up; lia|]. pose proof (wp_tlsf_alloc t m lo hi H G size HT Hs Hru) as Hw.
  apply wp_result in Hw as (r & Hr & Hpost). exists r. split; [done|]. destruct r as [ptr|].
  - destruct Hpost as (a & H' & G' & -> & _ & _ & _ & Hg). by exists a.
  - destruct Hpost as [_ Hno]. intros a h Ha Hf. split; [by apply (Hno a)|].
    destruct (Z_lt_le_dec (h_size h) (round_up (adjusted size))) as [|Hge]; [done|exfalso].
    apply (Hno a h Ha Hf), cls_mono. unfold round_up in *. lia.
Qed.

Lemma tlsf_alloc_good_fit_witness :
  result (tlsf_alloc 4040) pool0 = Some None /\ 4032 < round_up (adjusted 4040).
Proof.
  split; [by vm_compute|].
  destruct (tlsf_alloc_good_fit _ _ _ _ _ _ 4040 pool0_tlsf) as (_ & _ & r & Hr & Hpost); [lia|by vm_compute|].
  assert (result (tlsf_alloc 4040) (fst pool0, snd pool0) = Some None) as E by by vm_compute.
  rewrite E in Hr. injection Hr as <-. apply (Hpost 65536 (mkHdr 4032 true false 0)); [by vm_compute|done].
Defined.

Lemma end_after ex lo hi H G a h : heap ex lo hi H G -> H !! a = Some h -> a < end_of a h.
Proof.
  intros Hp Ha. unfold end_of, HEADER. destruct (decide (a = hi)) as [->|Hne].
  - destruct (hp_hi _ _ _ _ _ Hp) as (h0 & H0 & Hs & _). rewrite Ha in H0. injection H0 as <-. lia.
  - destruct (next_pos _ _ _ _ _ _ _ Hp Ha Hne). lia.
Qed.

(** A block is behind one block only. *)
Lemma pred_unique ex lo hi H G p q hp hq : heap ex lo hi H G -> H !! p = Some hp -> H !! q = Some hq ->
  end_of p hp = end_of q hq -> p = q.
Proof.
  intros Hp H1 H2 E. pose proof (end_after _ _ _ _ _ _ _ Hp H1). pose proof (end_after _ _ _ _ _ _ _ Hp H2).
  destruct (Ztrichotomy p q) as [Hlt|[|Hgt]]; [|done|].
  - pose proof (hp_sep _ _ _ _ _ Hp _ _ _ _ H1 H2 Hlt). unfold end_of in *. lia.
  - pose proof (hp_sep _ _ _ _ _ Hp _ _ _ _ H2 H1 ltac:(lia)). unfold end_of in *. lia.
Qed.

(** The link of the block behind a merged block is left stale: it names a
    header that is gone. *)
Lemma freed_stale lo hi H G H' G' a h x hx hn :
  heap 0 lo hi H G -> heap 0 lo hi H' G' -> H !! a = Some h -> (h_pf h = true -> prev_ok lo H a) ->
  freed lo H a h H' x hx hn -> h_pf h = true \/ h_free hn = true ->
  prev_ok lo H (end_of x hx) -> ~ prev_ok lo H' (end_of x hx).
Proof.
  intros Hp Hp' Ha Hpv [[Hx Hfx] Hn [Ex Hxa] He Hrest _] Hm Hok Hok'.
  assert (x <> hi) as Hxh by (intros ->; destruct (hp_hi _ _ _ _ _ Hp') as (h0 & H0 & _ & Hf0); congruence).
  destruct (hp_next _ _ _ _ _ Hp' x hx Hx Hxh) as (hS & HS & _). fold (end_of x hx) in HS.
  pose proof (end_after _ _ _ _ _ _ _ Hp' Hx) as Hex. pose proof (hp_range _ _ _ _ _ Hp' _ _ Hx) as [Hxr _].
  destruct (Hok' hS HS ltac:(lia)) as (hp & Hhp & Ep). destruct (Hrest _ _ HS ltac:(lia)) as (h0 & H0 & _ & _ & Eprev).
  pose proof (pred_unique _ _ _ _ _ _ _ _ _ Hp' Hhp Hx Ep) as E.
  destruct (Hok h0 H0 ltac:(lia)) as (hq & Hq & Eq). rewrite Eprev, E in Hq, Eq. fold (end_of x hq) in Eq.
  pose proof (end_after _ _ _ _ _ _ _ Hp Ha) as Hea. pose proof (end_after _ _ _ _ _ _ _ Hp Hn) as Hen.
  destruct (h_pf h) eqn:Epf.
  - assert (a <> lo) as Hal by (intros ->; destruct (hp_lo _ _ _ _ _ Hp) as (h1 & H1 & Hf1); congruence).
    destruct (Hpv eq_refl h Ha Hal) as (hp0 & Hp0 & E0). rewrite <- Ex in Hp0, E0.
    rewrite Hq in Hp0. injection Hp0 as <-. assert (a = end_of x hx) as E1 by (by rewrite <- E0, <- Eq).
    rewrite He in E1. destruct (h_free hn); lia.
  - destruct Hm as [|Hfn]; [done|]. rewrite Hfn in He. rewrite Ex in Hq, Eq, He. rewrite Ha in Hq. injection Hq as <-. lia.
Qed.

(** C11: [TlsfInner::dealloc] of a live block is right whenever the block's own
    [prev_phys] is, or is not consulted because the block in front is in use:
    it never panics, merges exactly with the free neighbours, leaves every
    other live block and its bytes alone, puts the released bytes in a free
    block and restores the invariant (which does not speak of the links).  All
    links that were right stay right except, after a merge, the one of the
    block behind the merged block: if it was right it is stale now. *)
Theorem tlsf_dealloc_sound t m lo hi H G a h :
  tlsf t m lo hi H G -> H !! a = Some h -> h_free h = false -> a <> hi -> (h_pf h = true -> prev_ok lo H a) ->
  exists t' m' H' G' x hx hn, tlsf_dealloc (payload a) (t, m) = Ok (tt, (t', m')) /\
    tlsf t' m' lo hi H' G' /\ (forall b sz, live H' b sz <-> b <> a /\ live H b sz) /\
    freed lo H a h H' x hx hn /\
    (h_pf h = true \/ h_free hn = true -> prev_ok lo H (end_of x hx) -> ~ prev_ok lo H' (end_of x hx)) /\
    (forall b x, b <> a -> payload_byte H b x -> payload_byte H' b x /\ rd m' x = rd m x).
Proof.
  intros HT Ha Hf Hne Hpv. pose proof (wp_tlsf_dealloc t m lo hi H G a h HT Ha Hf Hne Hpv) as Hw.
  apply wp_run in Hw as ([] & [t' m'] & Hrun & H' & G' & HT' & [Hlive (x & hx & hn & Hfr)] & Hw). cbn [fst snd] in *.
  exists t', m', H', G', x, hx, hn. split_and!; try done.
  { by apply (freed_stale lo hi H G H' G' a h x hx hn (proj2 HT) (proj2 HT') Ha Hpv Hfr). }
  intros b y Hb Hy. split.
  - destruct Hy as (sz & Hl & Hy). exists sz. split; [|done]. by apply Hlive.
  - apply Hw. exact (payload_not_header 0 lo hi H G b y (proj2 HT) Hy).
Qed.

Lemma pool0_prev b : prev_ok 65536 (pool_hdrs 65536 4096) b.
Proof.
  intros h Hb Hne. unfold pool_hdrs in Hb. hlook. exists (mkHdr 4032 true false 0).
  split; [by vm_compute|done].
Qed.

Lemma tlsf_dealloc_sound_witness :
  exists ptr s1 s2, tlsf_alloc 64 pool0 = Ok (Some ptr, s1) /\ tlsf_dealloc ptr s1 = Ok (tt, s2).
Proof.
  pose proof (wp_tlsf_alloc _ _ _ _ _ _ 64 pool0_tlsf ltac:(lia) ltac:(by vm_compute)) as Hw.
  assert (result (tlsf_alloc 64) pool0 = Some (Some 65568)) as Hres by by vm_compute.
  revert Hw Hres. generalize pool0. intros [t m] Hw Hres. cbn [fst snd] in Hw.
  apply wp_run in Hw as (r & s1 & Hrun & Hpost). unfold result in Hres. rewrite Hrun in Hres. injection Hres as ->.
  destruct Hpost as (a & H' & G' & E & HT' & [(h & h' & Ha & _ & Ha' & Hf' & Hsz) _ _ _ Hpv] & _).
  assert (a = 65536) as -> by (unfold payload, HEADER in E; lia).
  destruct (tlsf_dealloc_sound _ _ _ _ _ _ 65536 h' HT' Ha' Hf' ltac:(done) (fun _ => Hpv pool0_prev 65536))
    as (t2 & m2 & H2 & G2 & _ & _ & _ & Hrun2 & _).
  exists 65568, s1, (t2, m2). split; [done|]. by rewrite (surjective_pairing s1).
Defined.

(** A script of calls on the pool, collecting the pointers. *)
Fixpoint allocs (sizes : list Z) : M TState (list (option Z)) :=
  match sizes with
  | [] => ret []
  | size :: rest =>
      let* p := tlsf_alloc size in
      let* ps := allocs rest in
      ret (p :: ps)
  end.
Fixpoint deallocs (ptrs : list Z) : M TState unit :=
  match ptrs with
  | [] => ret tt
  | p :: rest => tlsf_dealloc p ;; deallocs rest
  end.

(** C27: releasing a block whose predecessor is free leaves the successor's
    [prev_phys] pointing at the absorbed header.  Four 64-byte allocations on
    a fresh one-page pool, the first three of them released in order, then two
    150-byte allocations: every call succeeds and respects the contract, and
    the two pointers returned are 96 bytes apart, so that two live allocations
    of 150 bytes overlap. *)
Theorem tlsf_stale_prev_phys_double_allocation :
  exists a b c d e f s,
    (add_pool 65536 4096 ;;
     let* ps := allocs [64; 64; 64; 64] in
     deallocs [a; b; c] ;;
     let* qs := allocs [150; 150] in
     ret (ps, qs)) (TlsfInner_new, ∅) = Ok (([Some a; Some b; Some c; Some d], [Some e; Some f]), s) /\
    NoDup [a; b; c; d] /\ f < e < f + 150.
Proof.
  exists 65568, 65664, 65760, 65856, 65664, 65568. eexists. split; [by vm_compute|].
  split; [|lia]. repeat (constructor; [set_solver by lia|]). constructor.
Qed.

(** C30: a request of about one gibibyte or more does not fail with a null
    pointer, it panics: its first-level index is past the end of the
    second-level bitmap array, and [mapping] does not check it. *)
Theorem tlsf_alloc_huge_panics t m lo hi H G size :
  tlsf t m lo hi H G -> 0 <= size -> 2 ^ 30 <= round_up (adjusted size) -> size < 2 ^ 62 ->
  tlsf_alloc size (t, m) = Panic.
Proof.
  intros [R _] Hs Hru Hmax. destruct (adjusted_facts size) as (H32 & _ & _).
  assert (adjusted size <= 2 ^ 62 + 7) as Hadj.
  { unfold adjusted, BLOCK_MIN. pose proof (Z.mod_pos_bound (Z.max size 32 + 7) 8). lia. }
  pose proof (log2_ge5 _ H32) as Hl. pose proof (Z.log2_spec (adjusted size) ltac:(lia)) as [Hlo _].
  assert (2 ^ (Z.log2 (adjusted size) - 5) <= 2 ^ Z.log2 (adjusted size)) by (apply Z.pow_le_mono_r; lia).
  unfold tlsf_alloc. apply panic_bind. apply wp_adjust_size; [done|unfold W64; lia|].
  apply panic_here. unfold find_free. apply panic_bind.
  apply wp_mapping_search; [done|unfold round_up, W64; lia|].
  apply panic_here. unfold get_sl. apply panic_bind, wp_gets. apply panic_aget. cbn [fst].
  rewrite (so_sl _ (raw_shape _ _ _ _ R)). unfold cls, FL_INDEX_COUNT; simpl.
  change (Z.of_nat (Z.to_nat 30)) with 30. apply Z.log2_le_pow2; lia.
Qed.

Lemma tlsf_alloc_huge_panics_witness : tlsf_alloc (2 ^ 30) pool0 = Panic.
Proof.
  rewrite (surjective_pairing pool0).
  apply (tlsf_alloc_huge_panics _ _ _ _ _ _ (2 ^ 30) pool0_tlsf); [lia|by vm_compute|lia].
Defined.

(** What [GlobalAlloc::alloc] asks for, and the pointer it makes of the payload
    [u] it gets. *)
Definition slack (k : Z) : Z := if 8 <? 2 ^ k then 2 ^ k - 1 else 0.
Definition asked (size k : Z) : Z := Z.max size BLOCK_MIN + slack k.
Definition aligned (u k : Z) : Z := u + slack k - (u + slack k) mod 2 ^ k.

Lemma slack_range k : 0 <= k <= 12 -> 0 < 2 ^ k <= 2 ^ 12 /\ 0 <= slack k < 2 ^ 12.
Proof.
  intros Hk. assert (2 ^ k <= 2 ^ 12) by (apply Z.pow_le_mono_r; lia). pose proof (Z.pow_pos_nonneg 2 k ltac:(lia) ltac:(lia)).
  unfold slack. destruct (8 <? 2 ^ k); lia.
Qed.

Lemma asked_fits size k : 0 <= size < 2 ^ 29 -> 0 <= k <= 12 ->
  32 <= asked size k < 2 ^ 29 + 2 ^ 12 /\ round_up (adjusted (asked size k)) < 2 ^ 30.
Proof.
  intros Hs Hk. destruct (slack_range k Hk) as [_ Hsl].
  assert (32 <= asked size k < 2 ^ 29 + 2 ^ 12) as Ht by (unfold asked, BLOCK_MIN; lia). split; [done|].
  set (total := asked size k) in *. destruct (adjusted_facts total) as (H32 & _). pose proof (log2_ge5 _ H32) as Hl.
  pose proof (Z.log2_spec (adjusted total) ltac:(lia)) as [Hlo _].
  replace (Z.log2 (adjusted total)) with (Z.log2 (adjusted total) - 5 + 5) in Hlo by lia.
  rewrite Z.pow_add_r in Hlo by lia. unfold round_up. assert (adjusted total <= total + 7); [|lia].
  unfold adjusted, BLOCK_MIN. pose proof (Z.mod_pos_bound (Z.max total 32 + 7) 8). lia.
Qed.

Lemma aligned_facts u k : 0 <= k <= 12 -> (8 | u) -> 0 <= u ->
  aligned u k mod 2 ^ k = 0 /\ u <= aligned u k <= u + slack k /\ (aligned u k = u <-> u mod 2 ^ k = 0).
Proof.
  intros Hk [d Hd] Hu. destruct (slack_range k Hk) as [Hpk Hsl]. unfold aligned. set (x := u + slack k).
  pose proof (Z.mod_pos_bound x (2 ^ k) ltac:(lia)) as Hm. pose proof (Z.div_mod x (2 ^ k) ltac:(lia)) as Hx.
  assert ((x - x mod 2 ^ k) mod 2 ^ k = 0) as Hz.
  { replace (x - x mod 2 ^ k) with (x / 2 ^ k * 2 ^ k) by lia. apply Z.mod_mul. lia. }
  split; [done|]. destruct (Z.ltb_spec 8 (2 ^ k)) as [H8|H8].
  - assert (slack k = 2 ^ k - 1) as Es by (unfold slack; by rewrite (proj2 (Z.ltb_lt _ _))).
    split; [lia|]. split; [intros E; by rewrite <- E|]. intros E0. unfold x in *. rewrite Es in *.
    pose proof (Z.div_mod u (2 ^ k) ltac:(lia)). assert ((u + (2 ^ k - 1)) mod 2 ^ k = 2 ^ k - 1) as ->; [|lia].
    symmetry. apply (Z.mod_unique _ _ (u / 2 ^ k)); [left; lia|]. lia.
  - assert (slack k = 0) as Es by (unfold slack; by rewrite (proj2 (Z.ltb_ge _ _))).
    assert (k <= 3) as Hk3 by (apply (Z.pow_le_mono_r_iff 2); lia).
    assert (u mod 2 ^ k = 0) as Eu. { apply Z.mod_divide; [lia|]. apply (divide_pow2_le k 3); [lia|]. by exists d. }
    unfold x in *. rewrite Es, Z.add_0_r, Eu in *. split; [lia|]. split; [done|lia].
Qed.

Lemma wp_global_alloc t m lo hi H G size k :
  tlsf t m lo hi H G -> 0 <= size < 2 ^ 29 -> 0 <= k <= 12 ->
  wp (global_alloc size (2 ^ k)) (t, m) (fun p s' => p = 0 \/
    exists a h' H' G', p = aligned (payload a) k /\ (8 | payload a) /\ 0 < payload a /\ tlsf (fst s') (snd s') lo hi H' G' /\
      allocated lo H a (adjusted (asked size k)) H' /\ H' !! a = Some h' /\ h_free h' = false /\ a <> hi /\
      size + slack k <= h_size h').
Proof.
  intros HT Hs Hk. destruct (asked_fits size k Hs Hk) as [Ht Hru]. destruct (slack_range k Hk) as [Hpk Hex]. unfold global_alloc.
  assert (forall Q, Q (slack k) (t, m) -> wp (if 8 <? 2 ^ k then usub (2 ^ k) 1 else ret 0) (t, m) Q) as He.
  { unfold slack. intros Q HQ. destruct (8 <? 2 ^ k); wp_step; done. }
  wp_step. apply He. wp_step. apply wp_uadd; [fold (asked size k); unfold W64; lia|]. fold (asked size k). wp_step.
  eapply wp_mono; [apply (wp_tlsf_alloc t m lo hi H G (asked size k) HT); [lia|exact Hru]|].
  intros [ptr|] [t' m'] Hpost; [|by wp_step; left].
  destruct Hpost as (a & H' & G' & -> & HT' & Hal & _). cbn [fst snd] in *.
  destruct (al_block _ _ _ _ _ Hal) as (h & h' & Ha & Hf & Ha' & Hf' & Hsz).
  pose proof (proj1 (proj2 (adjusted_facts (asked size k)))) as Hadj. pose proof HT' as [R' Hp'].
  assert (a <> hi) as Hne by (intros ->; destruct (hp_hi _ _ _ _ _ (proj2 HT)) as (h0 & Hh0 & _ & Hf0); congruence).
  destruct (next_pos _ _ _ _ _ _ _ Hp' Ha' Hne) as (Hs32 & _ & Hend).
  pose proof (hp_range _ _ _ _ _ Hp' _ _ Ha') as [Hr [d Hd]]. pose proof (hp_pool _ _ _ _ _ Hp') as (Hlo & _ & Hhi).
  assert (0 < payload a + slack k < W64) as Hrg by (unfold asked, BLOCK_MIN, payload, HEADER, W64 in *; lia).
  wp_step. apply wp_uadd; [lia|]. wp_step. apply wp_usub; [lia|]. wp_step. rewrite land_not64_mask by lia. fold (aligned (payload a) k).
  right. exists a, h', H', G'. split_and!; try done; [|unfold payload, HEADER; lia|unfold asked, BLOCK_MIN in *; lia].
  exists (d + 4). unfold payload, HEADER. lia.
Qed.

(** C31: [GlobalAlloc::alloc] never panics on a well-formed pool, for sizes below
    512 MiB and alignments up to a page, and a non-null pointer it returns is
    aligned as asked, with the requested bytes inside the live block it came
    from, which is new. *)
Theorem global_alloc_aligned t m lo hi H G size k :
  tlsf t m lo hi H G -> 0 <= size -> 0 <= k <= 12 -> size < 2 ^ 29 ->
  exists p t' m', global_alloc size (2 ^ k) (t, m) = Ok (p, (t', m')) /\
    (p = 0 \/ p mod 2 ^ k = 0 /\ exists a sz H' G', tlsf t' m' lo hi H' G' /\ live H' a sz /\
       ~ live H a sz /\ payload a <= p /\ p + size <= payload a + sz).
Proof.
  intros HT Hs Hk Hmax. pose proof (wp_global_alloc t m lo hi H G size k HT ltac:(lia) Hk) as Hw.
  apply wp_run in Hw as (p & [t' m'] & Hrun & Hp). exists p, t', m'. split; [done|].
  destruct Hp as [->|(a & h' & H' & G' & -> & H8 & Hpos & HT' & Hal & Ha' & Hf' & _ & Hsz)]; [by left|right].
  destruct (aligned_facts (payload a) k Hk H8 ltac:(lia)) as (H1 & H2 & _). split; [done|].
  exists a, (h_size h'), H', G'. split_and!; [done|by exists h'| |lia|lia].
  destruct (al_block _ _ _ _ _ Hal) as (h & _ & Ha & Hf & _). intros (h0 & Hh0 & Hf0 & _). congruence.
Qed.

Lemma global_alloc_aligned_witness :
  exists p t' m', global_alloc 64 (2 ^ 4) pool0 = Ok (p, (t', m')).
Proof.
  destruct (global_alloc_aligned _ _ _ _ _ _ 64 4 pool0_tlsf ltac:(lia) ltac:(lia) ltac:(lia))
    as (p & t' & m' & Hrun & _).
  exists p, t', m'. by rewrite (surjective_pairing pool0).
Defined.

(** Releasing the address [p] when the words at [p] and one header below it are
    zero: the block read there is empty, and its size class does not exist. *)
Lemma dealloc_zeroes t m p : rd m (p - HEADER) = 0 -> rd m p = 0 -> tlsf_dealloc p (t, m) = Panic.
Proof.
  intros H0 H1.
  assert (forall b, rd m (b + H_SIZE) = rd m b) as Hz by (intros; unfold H_SIZE; by rewrite Z.add_0_r).
  unfold tlsf_dealloc. apply panic_bind. unfold merge_prev, prev_free. wp_steps. rewrite Hz, H0. wp_steps.
  apply panic_bind. unfold merge_next, next_phys, block_size, is_free. wp_steps. rewrite !Hz, H0.
  change (size_of_word 0) with 0. rewrite Z.add_0_r, Z.sub_add, H1. wp_steps.
  apply panic_here. unfold insert_free, block_size. apply panic_bind. wp_steps. rewrite Hz, H0. by apply panic_here.
Qed.



(** ** Clients that release in reverse order

    Blocks released in the reverse order of their allocation never have a free
    block in front of them, so that [prev_phys] is not read.  The live blocks
    are stacked from the start of the pool, and the one free block, if any, is
    at its end. *)
Record stacked (hi : Z) (H : gmap Z hdr) (st : list Z) : Prop := mkStacked {
  stk_free : forall b h, H !! b = Some h -> h_free h = true -> end_of b h = hi;
  stk_live : forall b h, H !! b = Some h -> h_free h = false -> b <> hi -> payload b ∈ st;
  stk_held : forall p, p ∈ st -> exists a sz, p = payload a /\ live H a sz /\ a <> hi;
  stk_sorted : StronglySorted Z.gt st
}.

(** Every block but the first has a block in front of it. *)
Lemma pred_exists lo hi H G a h : heap 0 lo hi H G -> H !! a = Some h -> a <> lo ->
  exists p hp, H !! p = Some hp /\ end_of p hp = a.
Proof.
  intros Hp Ha Hne. pose proof (hp_range _ _ _ _ _ Hp _ _ Ha) as [Hr _].
  destruct (hp_lo _ _ _ _ _ Hp) as (hl & Hl & _). assert (lo < a) as Hlt by lia. clear Hne. revert hl Hl Hlt.
  assert (forall n p hp, H !! p = Some hp -> p < a -> a - p < Z.of_nat n -> exists q hq, H !! q = Some hq /\ end_of q hq = a) as Hn.
  { induction n as [|n IH]; intros p hp Hpp Hlt Hd; [lia|]. pose proof (hp_sep _ _ _ _ _ Hp _ _ _ _ Hpp Ha Hlt) as Hs.
    destruct (hp_next _ _ _ _ _ Hp p hp Hpp ltac:(lia)) as (hn & Hn & _). pose proof (end_after _ _ _ _ _ _ _ Hp Hpp) as Hea.
    unfold end_of in *. destruct (decide (p + HEADER + h_size hp = a)) as [E|Hn0]; [by exists p, hp|].
    apply (IH (p + HEADER + h_size hp) hn); [done|lia|lia]. }
  intros hl Hl Hlt. apply (Hn (S (Z.to_nat (a - lo))) lo hl); [done|done|lia].
Qed.

Lemma stacked_pf lo hi H G st a h : heap 0 lo hi H G -> stacked hi H st -> H !! a = Some h -> a <> hi -> h_pf h = false.
Proof.
  intros Hp St Ha Hne. destruct (decide (a = lo)) as [->|Hlo].
  - destruct (hp_lo _ _ _ _ _ Hp) as (h0 & H0 & Hf). congruence.
  - destruct (pred_exists _ _ _ _ _ _ Hp Ha Hlo) as (p & hp & Hpp & E). pose proof (end_after _ _ _ _ _ _ _ Hp Hpp).
    pose proof (hp_range _ _ _ _ _ Hp _ _ Ha) as [Hr _]. pose proof (hp_pool _ _ _ _ _ Hp) as (Hlo0 & _).
    destruct (hp_next _ _ _ _ _ Hp p hp Hpp ltac:(lia)) as (hn & Hn & Hpf). fold (end_of p hp) in Hn, Hpf. rewrite E in Hn, Hpf.
    rewrite Ha in Hn. injection Hn as <-. pose proof (hp_range _ _ _ _ _ Hp _ _ Hpp) as [Hrp _].
    rewrite Hpf by lia. destruct (h_free hp) eqn:Ef; [|done]. pose proof (stk_free _ _ _ St _ _ Hpp Ef). lia.
Qed.

Lemma stacked_alloc lo hi H G H' G' a size st : heap 0 lo hi H G -> heap 0 lo hi H' G' -> stacked hi H st ->
  allocated lo H a size H' -> stacked hi H' (payload a :: st).
Proof.
  intros Hp Hp' [S1 S2 S3 S4] [(h & h' & Ha & Hf & Ha' & Hf' & _) Hkeep Hnew Htail _].
  pose proof (S1 _ _ Ha Hf) as Hend. pose proof (end_after _ _ _ _ _ _ _ Hp Ha) as Hea.
  assert (forall b sz, live H b sz -> b <> hi -> b < a) as Hbelow.
  { intros b sz (hb & Hb & Hfb & _) Hbh. destruct (Ztrichotomy b a) as [|[->|Hgt]]; [done|congruence|].
    pose proof (hp_sep _ _ _ _ _ Hp _ _ _ _ Ha Hb ltac:(lia)). pose proof (hp_range _ _ _ _ _ Hp _ _ Hb). unfold end_of in *. lia. }
  split.
  - intros b hb Hb Hfb. destruct (H !! b) as [h0|] eqn:H0; [|by rewrite (Htail b hb h)].
    assert (b <> a) as Hba by congruence. destruct (Hkeep b h0 H0 Hba) as (h1 & H1 & Es & Ef). rewrite Hb in H1. injection H1 as <-.
    destruct Hba. apply (pred_unique _ _ _ _ _ _ _ _ _ Hp H0 Ha). rewrite Hend. apply S1; congruence.
  - intros b hb Hb Hfb Hbh. apply elem_of_cons. destruct (Hnew b hb Hb Hfb) as [->|(h0 & H0 & Hf0)]; [by left|right; by apply (S2 b h0)].
  - intros p [->|Hin]%elem_of_cons; [exists a, (h_size h'); split_and!; [done|by exists h'|unfold end_of, HEADER in *; lia]|].
    destruct (S3 p Hin) as (b & sz & -> & (hb & Hb & Hfb & <-) & Hbh). assert (b <> a) as Hba by congruence.
    destruct (Hkeep b hb Hb Hba) as (hb' & Hb' & Es & Ef). exists b, (h_size hb). split_and!; [done|exists hb'; split_and!; congruence|done].
  - constructor; [done|]. apply List.Forall_forall. intros p Hin%list_elem_of_In. destruct (S3 p Hin) as (b & sz & -> & Hl & Hbh).
    pose proof (Hbelow b sz Hl Hbh). unfold payload. lia.
Qed.

Lemma stacked_free lo hi H G H' G' a h st : heap 0 lo hi H G -> heap 0 lo hi H' G' -> stacked hi H (payload a :: st) ->
  H !! a = Some h -> a <> hi -> released lo H a h H' -> stacked hi H' st.
Proof.
  intros Hp Hp' St Ha Hne [Hlive (x & hx & hn & [[Hx Hfx] Hn [Ex _] He Hrest _])].
  rewrite (stacked_pf _ _ _ _ _ _ _ Hp St Ha Hne) in Ex. subst x. destruct St as [S1 S2 S3 S4].
  inversion S4 as [|? ? S5 Habove]; subst. rewrite List.Forall_forall in Habove.
  assert (end_of a hx = hi) as Ehx.
  { destruct (h_free hn) eqn:Ef; rewrite He; [by apply S1|]. destruct (decide (end_of a h = hi)) as [|Hh]; [done|exfalso].
    pose proof (S2 _ _ Hn Ef Hh) as Hin. pose proof (end_after _ _ _ _ _ _ _ Hp Ha).
    apply elem_of_cons in Hin as [E|Hin%list_elem_of_In]; [unfold payload in E; lia|]. specialize (Habove _ Hin). unfold payload in *. lia. }
  split.
  - intros b hb Hb Hfb. destruct (decide (b = a)) as [->|Hba]; [by simplify_eq|].
    destruct (Hrest b hb Hb Hba) as (h0 & H0 & Es & Ef & _). rewrite <- (S1 b h0) by congruence. unfold end_of. lia.
  - intros b hb Hb Hfb Hbh. destruct (proj1 (Hlive b (h_size hb))) as [Hba (h0 & H0 & Hf0 & _)]; [by exists hb|].
    pose proof (S2 b h0 H0 Hf0 Hbh) as [E|?]%elem_of_cons; [unfold payload in E; lia|done].
  - intros p Hin. destruct (S3 p) as (b & sz & -> & Hl & Hbh); [by right|]. exists b, sz. split_and!; [done| |done].
    apply Hlive. split; [|done]. intros ->. apply list_elem_of_In in Hin. specialize (Habove _ Hin). lia.
  - done.
Qed.

(** The fresh pool, and the pool after the last release. *)
Lemma stacked_nil lo hi H G h : heap 0 lo hi H G -> stacked hi H [] -> H !! lo = Some h -> lo <> hi /\ h_free h = true /\ end_of lo h = hi.
Proof.
  intros Hp [S1 S2 _ _] Hl. pose proof (hp_pool _ _ _ _ _ Hp). assert (lo <> hi) by lia. split; [done|].
  destruct (h_free h) eqn:Ef; [split; [done|by apply S1]|]. pose proof (S2 _ _ Hl Ef ltac:(done)) as Hin. by apply not_elem_of_nil in Hin.
Qed.

Lemma stacked_pool lo size : stacked (lo + (size - HEADER)) (pool_hdrs lo size) [].
Proof.
  unfold pool_hdrs. split.
  - intros b h Hb Hf. hlook. unfold end_of. cbn [h_size]. lia.
  - intros b h Hb Hf Hne. hlook; done.
  - intros p Hp. by apply not_elem_of_nil in Hp.
  - constructor.
Qed.
