(* ===== verification/Slab.v ===== *)
(** * The typed slab cache (abalone/src/slab.rs)

    [SlabCacheInner] is the struct of the source, for an object type of
    [size_T] bytes aligned to [align_T].  Its function pointers [alloc_page]
    and [dealloc_page] are the page-allocator interface of [Pages], so the
    state of a run is the cache paired with the page allocator's, and the
    memory.  A slab starts with its [SlabHeader] ([free_head] at byte 0,
    [in_use] at 8, [capacity] at 12, [prev] at 16, [next] at 24); every free
    slot holds the index of the next free slot in its first eight bytes.  The
    source reads and writes these links with [ptr::read] and [ptr::write] of a
    [usize], which panic on a misaligned address in a build with debug
    assertions; the headers are at multiples of the page size. *)

From S2P Require Import Prelude Dll Pages.

Definition PAGE_SIZE : Z := 4096.

(** ** Headers and layout *)

Definition SH_FREE_HEAD : Z := 0.
Definition SH_IN_USE : Z := 8.
Definition SH_CAPACITY : Z := 12.
Definition SH_PREV : Z := 16.
Definition SH_NEXT : Z := 24.
Definition SLAB_HEADER : Z := 32.
Definition SLAB_HEADER_ALIGN : Z := 8.

Record SlabStats := mkSlabStats {
  total_bytes : Z;
  used_bytes : Z;
  free_bytes : Z;
  alloc_count : Z;
  dealloc_count : Z;
  peak_bytes : Z
}.

Record SlabCacheInner := mkSlab {
  slab_order : Z;
  capacity : Z;
  partial : Z;
  stats : SlabStats
}.

(** [header_stride::<T>()]. *)
Definition header_stride (align_T : Z) : Z :=
  let align := if SLAB_HEADER_ALIGN <? align_T then align_T else SLAB_HEADER_ALIGN in
  Z.land (SLAB_HEADER + align - 1) (not64 (align - 1)).

(** [capacity_for::<T>(order)]. *)
Definition capacity_for (size_T align_T order : Z) : Z :=
  let slab_bytes := Z.shiftl PAGE_SIZE order in
  let stride := header_stride align_T in
  if (size_T =? 0) || (slab_bytes <=? stride) then 0 else (slab_bytes - stride) / size_T.

(** [assert_slab_compatible::<T>()], also the assertions of [new]. *)
Definition assert_slab_compatible (size_T align_T : Z) : bool :=
  (8 <=? size_T) && (align_T <=? PAGE_SIZE).

Definition SlabCacheInner_new (size_T align_T order : Z) : option SlabCacheInner :=
  if assert_slab_compatible size_T align_T
  then Some (mkSlab order (capacity_for size_T align_T order) 0 (mkSlabStats 0 0 0 0 0 0))
  else None.

Section slab.
Context {C : Type} {PA : PageAllocator C} (size_T align_T : Z).

Abbreviation SState := (SlabCacheInner * C * mem)%type.

Definition cache : M SState SlabCacheInner := gets (fun s => fst (fst s)).
Definition set_partial (p : Z) : M SState unit :=
  upd (fun c => (mkSlab (slab_order (fst c)) (capacity (fst c)) p (stats (fst c)), snd c)).
Definition set_stats (st : SlabStats) : M SState unit :=
  upd (fun c => (mkSlab (slab_order (fst c)) (capacity (fst c)) (partial (fst c)) st, snd c)).

(** ** The partial list *)

Definition link_partial (header : Z) : M SState unit :=
  let* c := cache in
  store (header + SH_NEXT) (partial c) ;;
  store (header + SH_PREV) 0 ;;
  (if negb (partial c =? 0) then store (partial c + SH_PREV) header else ret tt) ;;
  set_partial header.

Definition unlink_partial (header : Z) : M SState unit :=
  let* prev := load (header + SH_PREV) in
  let* next := load (header + SH_NEXT) in
  (if negb (prev =? 0) then store (prev + SH_NEXT) next else set_partial next) ;;
  (if negb (next =? 0) then store (next + SH_PREV) prev else ret tt).

Definition is_full (header : Z) : M SState bool :=
  let* u := load (header + SH_IN_USE) in
  let* c := load (header + SH_CAPACITY) in
  ret (u =? c).
Definition is_empty (header : Z) : M SState bool :=
  let* u := load (header + SH_IN_USE) in ret (u =? 0).

(** ** The link in a free slot *)

Definition read_link (a : Z) : M SState Z := assert (a mod 8 =? 0) ;; load a.
Definition write_link (a v : Z) : M SState unit := assert (a mod 8 =? 0) ;; store a v.

(** ** Growing *)

(** The loop threading the free list, [n] slots from slot [i] on. *)
Fixpoint thread_slots (n : nat) (slab_base stride cap i : Z) : M SState unit :=
  match n with
  | O => ret tt
  | S n =>
      let* off := umul i size_T in
      let* a := uadd slab_base stride in
      let* slot_ptr := uadd a off in
      write_link slot_ptr (if i + 1 <? cap then i + 1 else usize_MAX) ;;
      thread_slots n slab_base stride cap (i + 1)
  end.

Definition grow : M SState (option unit) :=
  let* c := cache in
  let* slab_bytes := ushl PAGE_SIZE (slab_order c) in
  let stride := header_stride align_T in
  let cap := capacity c in
  assert (0 <? cap) ;;
  let* raw := page_call (pa_alloc (slab_order c)) in
  match raw with
  | None => ret None
  | Some slab_base =>
      if negb (Z.land slab_base (not64 (slab_bytes - 1)) =? slab_base) then
        page_call (pa_dealloc slab_base (slab_order c)) ;;
        ret None
      else
        thread_slots (Z.to_nat cap) slab_base stride cap 0 ;;
        store (slab_base + SH_FREE_HEAD) 0 ;;
        store (slab_base + SH_IN_USE) 0 ;;
        store (slab_base + SH_CAPACITY) (cap mod W32) ;;
        store (slab_base + SH_PREV) 0 ;;
        store (slab_base + SH_NEXT) 0 ;;
        link_partial slab_base ;;
        let* c := cache in
        let st := stats c in
        let* total := uadd (total_bytes st) slab_bytes in
        let* bytes := umul cap size_T in
        let* free := uadd (free_bytes st) bytes in
        set_stats (mkSlabStats total (used_bytes st) free
                     (alloc_count st) (dealloc_count st) (peak_bytes st)) ;;
        ret (Some tt)
  end.

(** ** Allocation *)

Definition alloc_stats : M SState unit :=
  let* c := cache in
  let st := stats c in
  let* count := uadd (alloc_count st) 1 in
  let* used := uadd (used_bytes st) size_T in
  let peak := if peak_bytes st <? used then used else peak_bytes st in
  set_stats (mkSlabStats (total_bytes st) used (free_bytes st) count (dealloc_count st) peak).

(** [alloc] once a partial slab is there. *)
Definition take_slot : M SState Z :=
  let stride := header_stride align_T in
  let* c := cache in
  let header := partial c in
  let* slot_idx := load (header + SH_FREE_HEAD) in
  assert (negb (slot_idx =? usize_MAX)) ;;
  let* a := uadd header stride in
  let* off := umul slot_idx size_T in
  let* obj_ptr := uadd a off in
  let* next := read_link obj_ptr in
  store (header + SH_FREE_HEAD) next ;;
  let* u := load (header + SH_IN_USE) in
  let* u := uadd32 u 1 in
  store (header + SH_IN_USE) u ;;
  let* full := is_full header in
  (if full : bool then unlink_partial header else ret tt) ;;
  alloc_stats ;;
  ret obj_ptr.

Definition alloc : M SState (option Z) :=
  let* c := cache in
  let* ready := (if partial c =? 0 then grow else ret (Some tt)) in
  match ready with
  | None => ret None
  | Some _ => let* p := take_slot in ret (Some p)
  end.

(** ** Release *)

Definition dealloc_stats : M SState unit :=
  let* c := cache in
  let st := stats c in
  let* count := uadd (dealloc_count st) 1 in
  let* used := usub (used_bytes st) size_T in
  let* free := uadd (free_bytes st) size_T in
  set_stats (mkSlabStats (total_bytes st) used free (alloc_count st) count (peak_bytes st)).

(** Returning an emptied slab to the page allocator. *)
Definition release_slab (slab_base slab_bytes : Z) : M SState unit :=
  unlink_partial slab_base ;;
  let* c := cache in
  page_call (pa_dealloc slab_base (slab_order c)) ;;
  let* c := cache in
  let st := stats c in
  let* total := usub (total_bytes st) slab_bytes in
  let* bytes := umul (capacity c) size_T in
  let* free := usub (free_bytes st) bytes in
  set_stats (mkSlabStats total (used_bytes st) free
               (alloc_count st) (dealloc_count st) (peak_bytes st)).

Definition dealloc (obj_ptr : Z) : M SState unit :=
  let* c := cache in
  let* slab_bytes := ushl PAGE_SIZE (slab_order c) in
  let stride := header_stride align_T in
  let slab_base := Z.land obj_ptr (not64 (slab_bytes - 1)) in
  let* u := load (slab_base + SH_IN_USE) in
  assert (0 <? u) ;;
  let* first := uadd slab_base stride in
  assert (first <=? obj_ptr) ;;
  let* obj_end := uadd obj_ptr size_T in
  let* slab_end := uadd slab_base slab_bytes in
  assert (obj_end <=? slab_end) ;;
  let* off := usub obj_ptr first in
  let* slot_idx := udiv off size_T in
  let* was_full := is_full slab_base in
  let* head := load (slab_base + SH_FREE_HEAD) in
  write_link obj_ptr head ;;
  store (slab_base + SH_FREE_HEAD) slot_idx ;;
  let* u := load (slab_base + SH_IN_USE) in
  let* u := usub u 1 in
  store (slab_base + SH_IN_USE) u ;;
  (if was_full : bool then link_partial slab_base
   else
     let* empty := is_empty slab_base in
     if empty : bool then release_slab slab_base slab_bytes else ret tt) ;;
  dealloc_stats.

(** ** Layout facts *)

Context (order : Z).

(** What Rust guarantees of a type the cache accepts, and a usable order; the
    cache's own check leaves out the last one, that a second slot's link is
    aligned. *)
Record layout_ok : Prop := mkLayout {
  lo_size : 8 <= size_T < W32;
  lo_align : exists k, 0 <= k <= 12 /\ align_T = 2 ^ k;
  lo_multiple : (align_T | size_T);
  lo_order : 0 <= order < 17;
  lo_cap : 0 < capacity_for size_T align_T order;
  lo_word : 1 < capacity_for size_T align_T order -> (8 | size_T)
}.

Definition slab_size : Z := block_size order.
Definition cap : Z := capacity_for size_T align_T order.
Definition stride : Z := header_stride align_T.

Context (LO : layout_ok).

Lemma stride_max : stride = Z.max 32 align_T.
Proof.
  destruct (lo_align LO) as (k & Hk & E). unfold stride. rewrite E.
  assert (k = 0 \/ k = 1 \/ k = 2 \/ k = 3 \/ k = 4 \/ k = 5 \/ k = 6 \/ k = 7 \/ k = 8 \/ k = 9 \/
          k = 10 \/ k = 11 \/ k = 12) as Hc by lia.
  destruct Hc as [->|[->|[->|[->|[->|[->|[->|[->|[->|[->|[->|[->| ->]]]]]]]]]]]]; by vm_compute.
Qed.

Lemma align_range : 1 <= align_T <= 4096.
Proof.
  destruct (lo_align LO) as (k & Hk & ->). split.
  - pose proof (Z.pow_pos_nonneg 2 k). lia.
  - change 4096 with (2 ^ 12). apply Z.pow_le_mono_r; lia.
Qed.

Lemma slab_size_facts : 4096 <= slab_size <= 2 ^ 28 /\ slab_size = 2 ^ (order + 12) /\
  Z.shiftl PAGE_SIZE order = slab_size.
Proof.
  destruct (lo_order LO) as [H0 H1]. unfold slab_size, block_size.
  assert (2 ^ order * 4096 = 2 ^ (order + 12)) as E by (rewrite Z.pow_add_r by lia; lia).
  rewrite E. split_and!; [| |done|].
  - change 4096 with (2 ^ 12). apply Z.pow_le_mono_r; lia.
  - apply Z.pow_le_mono_r; lia.
  - unfold PAGE_SIZE. rewrite Z.shiftl_mul_pow2 by lia. lia.
Qed.

Lemma cap_facts : 0 < cap /\ stride + cap * size_T <= slab_size /\ cap < 2 ^ 26.
Proof.
  pose proof (lo_cap LO) as Hc. destruct (lo_size LO) as [Hs _]. pose proof slab_size_facts as (Hb & _ & E).
  unfold cap, capacity_for in *. rewrite E in *. fold stride in *.
  destruct (Z.eqb_spec size_T 0); [simpl in Hc; lia|]. destruct (Z.leb_spec slab_size stride); simpl in *; [lia|].
  pose proof (Z.div_mod (slab_size - stride) size_T ltac:(lia)).
  pose proof (Z.mod_pos_bound (slab_size - stride) size_T ltac:(lia)).
  set (q := (slab_size - stride) / size_T) in *. pose proof stride_max. split_and!; [done|nia|].
  assert (q * 8 <= q * size_T) by (apply Z.mul_le_mono_nonneg_l; lia). lia.
Qed.

(** ** Slabs in memory *)

Definition slot (s i : Z) : Z := s + stride + i * size_T.

(** The link of every slot is aligned. *)
Lemma slot_word s i : s mod slab_size = 0 -> 0 <= i < cap -> slot s i mod 8 = 0.
Proof.
  intros Hs Hi. pose proof slab_size_facts as (Hb & E & _). pose proof (lo_order LO).
  apply Z.mod_divide; [lia|]. unfold slot. apply Z.divide_add_r; [apply Z.divide_add_r|].
  - apply (Z.divide_trans _ slab_size); [|apply Z.mod_divide; [lia|done]].
    rewrite E. exists (2 ^ (order + 12 - 3)). change 8 with (2 ^ 3). rewrite <- Z.pow_add_r by lia. f_equal; lia.
  - rewrite stride_max. destruct (lo_align LO) as (k & Hk & ->). destruct (Z.max_spec 32 (2 ^ k)) as [[Hm ->]|[_ ->]]; [|by exists 4].
    change 32 with (2 ^ 5) in Hm. apply Z.pow_lt_mono_r_iff in Hm; [|lia|lia].
    exists (2 ^ (k - 3)). change 8 with (2 ^ 3). rewrite <- Z.pow_add_r by lia. f_equal; lia.
  - destruct (decide (i = 0)) as [->|Hne]; [by rewrite Z.mul_0_l; apply Z.divide_0_r|].
    apply Z.divide_mul_r, (lo_word LO). unfold cap in Hi. lia.
Qed.

Lemma wp_read_link s i c m (Q : Z -> SState -> Prop) : s mod slab_size = 0 -> 0 <= i < cap ->
  Q (rd m (slot s i)) (c, m) -> wp (read_link (slot s i)) (c, m) Q.
Proof. intros Hs Hi HQ. unfold read_link. rewrite slot_word by done. by wp_steps. Qed.
Lemma wp_write_link s i v c m (Q : unit -> SState -> Prop) : s mod slab_size = 0 -> 0 <= i < cap ->
  Q tt (c, wr m (slot s i) v) -> wp (write_link (slot s i) v) (c, m) Q.
Proof. intros Hs Hi HQ. unfold write_link. rewrite slot_word by done. by wp_steps. Qed.

(** The free chain of a slab, from the slot index [h]. *)
Fixpoint chain (m : mem) (s h : Z) (l : list Z) : Prop :=
  match l with
  | [] => h = usize_MAX
  | i :: l' => h = i /\ chain m s (rd m (slot s i)) l'
  end.

(** A slab at [s] whose free slots are [l]. *)
Record slab_ok (m : mem) (s : Z) (l : list Z) : Prop := mkSlabOk {
  sk_align : s mod slab_size = 0;
  sk_range : 0 < s /\ s + slab_size <= W64;
  sk_use : rd m (s + SH_IN_USE) = cap - Z.of_nat (length l);
  sk_cap : rd m (s + SH_CAPACITY) = cap;
  sk_chain : chain m s (rd m (s + SH_FREE_HEAD)) l;
  sk_nodup : NoDup l;
  sk_index : forall i, i ∈ l -> 0 <= i < cap
}.

Definition live_slots (S : gmap Z (list Z)) : Z :=
  zsum ((fun p => cap - Z.of_nat (length (snd p))) <$> map_to_list S).

(** The cache [c] over the page allocator [pc]: [S] maps each slab to its free
    slots, [P] is the partial list, [A] the blocks held from the allocator. *)
Record slab_inv (c : SlabCacheInner) (pc : C) (m : mem) (S : gmap Z (list Z)) (P : list Z)
    (A : gset (Z * Z)) : Prop := mkSlabInv {
  si_order : slab_order c = order;
  si_cap : capacity c = cap;
  si_pages : pa_inv pc m A;
  si_held : forall s l, S !! s = Some l -> (order, s) ∈ A;
  si_slabs : forall s l, S !! s = Some l -> slab_ok m s l;
  si_list : dlist SH_PREV SH_NEXT m (partial c) P;
  si_nodup : NoDup P;
  si_partial : forall s, s ∈ P <-> exists l, S !! s = Some l /\ l <> [];
  si_used : used_bytes (stats c) = live_slots S * size_T;
  si_total : total_bytes (stats c) = Z.of_nat (size S) * slab_size;
  si_free : cap * size_T * Z.of_nat (size S) <= free_bytes (stats c)
}.

(** The counters can take one more operation. *)
Definition room (c : SlabCacheInner) (pc : C) : Prop :=
  pa_can_alloc 1 pc /\ pa_can_free pc /\ alloc_count (stats c) + 1 < W64 /\ dealloc_count (stats c) + 1 < W64 /\
  total_bytes (stats c) + slab_size < W64 /\ free_bytes (stats c) + slab_size < W64 /\
  used_bytes (stats c) + size_T < W64.

Lemma slot_range i s : 0 <= i < cap -> s + 32 <= slot s i /\ slot s i + size_T <= s + slab_size.
Proof.
  intros Hi. pose proof cap_facts as (_ & Hc & _). pose proof stride_max. destruct (lo_size LO) as [Hs _].
  unfold slot. assert (i * size_T + size_T <= cap * size_T) by nia. assert (0 <= i * size_T) by nia. lia.
Qed.

Lemma slot_inj s i j : slot s i = slot s j -> i = j.
Proof. destruct (lo_size LO) as [Hs _]. unfold slot. intros. nia. Qed.

(** Different slots do not overlap. *)
Lemma slot_disj s i j : i <> j -> slot s i + size_T <= slot s j \/ slot s j + size_T <= slot s i.
Proof. destruct (lo_size LO) as [Hs _]. unfold slot. intros. destruct (Ztrichotomy i j) as [|[|]]; [left|done|right]; nia. Qed.

(** Slabs are aligned to their size, so two of them never overlap. *)
Lemma slabs_apart s s' : s mod slab_size = 0 -> s' mod slab_size = 0 -> s <> s' ->
  s + slab_size <= s' \/ s' + slab_size <= s.
Proof.
  pose proof slab_size_facts as (Hb & _ & _). intros H1 H2 Hne.
  pose proof (Z.div_mod s slab_size ltac:(lia)). pose proof (Z.div_mod s' slab_size ltac:(lia)).
  set (a := s / slab_size) in *. set (b := s' / slab_size) in *.
  destruct (Ztrichotomy a b) as [|[|]]; [left|congruence|right]; nia.
Qed.

Lemma chain_ext m m' s l : forall h, (forall i, i ∈ l -> rd m' (slot s i) = rd m (slot s i)) ->
  chain m s h l -> chain m' s h l.
Proof.
  induction l as [|i l IH]; [done|]. intros h Hm [-> Hc]. split; [done|].
  rewrite Hm by set_solver. apply IH; [set_solver|done].
Qed.

(** A slab does not depend on its link cells, nor on anything outside. *)
Lemma slab_ok_ext m m' s l : slab_ok m s l ->
  (forall x, s <= x < s + slab_size -> x <> s + SH_PREV -> x <> s + SH_NEXT -> rd m' x = rd m x) ->
  slab_ok m' s l.
Proof.
  intros [K1 K2 K3 K4 K5 K6 K7] Hm. pose proof slab_size_facts as (Hb & _ & _).
  unfold SH_PREV, SH_NEXT, SH_IN_USE, SH_CAPACITY, SH_FREE_HEAD in *.
  split; try done; unfold SH_IN_USE, SH_CAPACITY, SH_FREE_HEAD.
  - by rewrite Hm by lia.
  - by rewrite Hm by lia.
  - rewrite (Hm (s + 0)) by lia. eapply chain_ext; [|exact K5]. intros i Hi.
    destruct (slot_range i s (K7 i Hi)) as [? ?]. destruct (lo_size LO). apply Hm; lia.
Qed.

(** ** Counting *)

Lemma live_slots_insert (S : gmap Z (list Z)) s l :
  S !! s = None -> live_slots (<[s := l]> S) = live_slots S + (cap - Z.of_nat (length l)).
Proof.
  intros Hs. unfold live_slots. rewrite map_to_list_insert by done. rewrite fmap_cons.
  change (zsum (?a :: ?r)) with (a + zsum r). simpl. lia.
Qed.

Lemma live_slots_delete (S : gmap Z (list Z)) s l :
  S !! s = Some l -> live_slots (delete s S) = live_slots S - (cap - Z.of_nat (length l)).
Proof.
  intros Hs. rewrite <- (insert_delete_id S s l) at 2 by done.
  rewrite live_slots_insert by apply lookup_delete_eq. lia.
Qed.

Lemma live_slots_update (S : gmap Z (list Z)) s l l' :
  S !! s = Some l ->
  live_slots (<[s := l']> S) = live_slots S + Z.of_nat (length l) - Z.of_nat (length l').
Proof.
  intros Hs. rewrite <- insert_delete_eq, live_slots_insert by apply lookup_delete_eq.
  rewrite (live_slots_delete S s l Hs). lia.
Qed.

(** Distinct indices below the capacity. *)
Lemma free_count l : NoDup l -> (forall i, i ∈ l -> 0 <= i < cap) -> Z.of_nat (length l) <= cap.
Proof.
  intros Hnd Hi. pose proof cap_facts as (Hc & _).
  enough (length l <= length (seqZ 0 cap))%nat as H by (rewrite length_seqZ in H; lia).
  apply submseteq_length, NoDup_submseteq; [done|]. intros i Hin. apply elem_of_seqZ. specialize (Hi i Hin). lia.
Qed.

Lemma live_slots_nonneg S m : (forall s l, S !! s = Some l -> slab_ok m s l) -> 0 <= live_slots S.
Proof.
  intros HS. apply zsum_nonneg. intros x ([s l] & -> & Hin)%list_elem_of_fmap. simpl.
  apply elem_of_map_to_list in Hin. pose proof (HS s l Hin) as K.
  pose proof (free_count l (sk_nodup _ _ _ K) (sk_index _ _ _ K)). lia.
Qed.

(** ** Symbolic execution of the list operations *)

Definition with_partial (p : Z) (c : SlabCacheInner) : SlabCacheInner :=
  mkSlab (slab_order c) (capacity c) p (stats c).
Definition with_stats (st : SlabStats) (c : SlabCacheInner) : SlabCacheInner :=
  mkSlab (slab_order c) (capacity c) (partial c) st.

Lemma wp_link c pc m s (Q : unit -> SState -> Prop) :
  Q tt ((with_partial s c, pc), push_mem SH_PREV SH_NEXT m (partial c) s) ->
  wp (link_partial s) ((c, pc), m) Q.
Proof.
  rewrite push_mem_comm by done. intros HQ. unfold link_partial, cache, set_partial, upd. wp_steps.
  destruct (Z.eqb_spec (partial c) 0); cbn [negb]; wp_steps; exact HQ.
Qed.

Lemma wp_unlink c pc m s (Q : unit -> SState -> Prop) :
  let p := rd m (s + SH_PREV) in
  let n := rd m (s + SH_NEXT) in
  Q tt ((with_partial (if p =? 0 then n else partial c) c, pc), unlink_mem SH_PREV SH_NEXT m p n) ->
  wp (unlink_partial s) ((c, pc), m) Q.
Proof.
  intros p n HQ. unfold unlink_partial, set_partial, upd. wp_steps. fold p n. unfold unlink_mem in HQ.
  destruct (Z.eqb_spec p 0), (Z.eqb_spec n 0); cbn [negb]; wp_steps;
    first [exact HQ|by destruct c].
Qed.

(** ** Framing *)

(** A write inside one slab. *)
Definition in_slab (s x : Z) : Prop := s <= x < s + slab_size.

Lemma slab_ok_other m m' s s' l : slab_ok m s l -> s' mod slab_size = 0 -> s <> s' ->
  changes (in_slab s') m m' -> slab_ok m' s l.
Proof.
  intros K Ha Hne Hc. eapply slab_ok_ext; [done|]. intros x Hx _ _.
  destruct (decide (rd m' x = rd m x)) as [|Hd]; [done|exfalso].
  pose proof (Hc x Hd) as Hin. unfold in_slab in Hin.
  pose proof (slabs_apart s s' (sk_align _ _ _ K) Ha Hne). lia.
Qed.

(** Link cells of slabs. *)
Definition link_of (S : gmap Z (list Z)) (x : Z) : Prop :=
  exists q l, S !! q = Some l /\ (x = q + SH_PREV \/ x = q + SH_NEXT).

Lemma slabs_links S m m' : (forall s l, S !! s = Some l -> slab_ok m s l) ->
  changes (link_of S) m m' -> forall s l, S !! s = Some l -> slab_ok m' s l.
Proof.
  intros HS Hc s l Hs. pose proof slab_size_facts as (Hb & _).
  eapply slab_ok_ext; [by apply HS|]. intros x Hx H1 H2.
  destruct (decide (rd m' x = rd m x)) as [|Hd]; [done|exfalso].
  destruct (Hc x Hd) as (q & lq & Hq & Hxq). destruct (decide (q = s)) as [->|Hne]; [by destruct Hxq|].
  pose proof (slabs_apart s q (sk_align _ _ _ (HS _ _ Hs)) (sk_align _ _ _ (HS _ _ Hq)) ltac:(done)).
  unfold SH_PREV, SH_NEXT in *. lia.
Qed.

(** The bytes of a slab are held. *)
Lemma slab_cell_held (S : gmap Z (list Z)) (A : gset (Z * Z)) q lq x :
  (forall s l, S !! s = Some l -> (order, s) ∈ A) -> S !! q = Some lq -> in_slab q x ->
  exists bl, bl ∈ A /\ in_block bl x.
Proof. intros HA Hq Hx. exists (order, q). split; [by eapply HA|exact Hx]. Qed.

Lemma sep_slabs m (S : gmap Z (list Z)) P : (forall s l, S !! s = Some l -> slab_ok m s l) ->
  (forall s, s ∈ P -> is_Some (S !! s)) -> sep_nodes SH_PREV SH_NEXT P.
Proof.
  intros HS HP x y [lx Hx]%HP [ly Hy]%HP. destruct (decide (x = y)) as [->|Hne]; [unfold SH_PREV, SH_NEXT; lia|].
  pose proof slab_size_facts as (Hb & _).
  pose proof (slabs_apart x y (sk_align _ _ _ (HS _ _ Hx)) (sk_align _ _ _ (HS _ _ Hy)) Hne).
  unfold SH_PREV, SH_NEXT. lia.
Qed.

(** ** Taking a slot *)

(** The slab and slot of the block at the head of the partial list. *)
Lemma partial_head c pc m S P A : slab_inv c pc m S P A -> partial c <> 0 ->
  exists P' i l, P = partial c :: P' /\ S !! partial c = Some (i :: l) /\ slab_ok m (partial c) (i :: l) /\
    rd m (partial c + SH_PREV) = 0.
Proof.
  intros I Hz. pose proof (dlist_head _ _ _ _ _ (si_list _ _ _ _ _ _ I)) as Hh.
  destruct P as [|s P']; [done|]. simpl in Hh. subst s.
  destruct (proj1 (si_partial _ _ _ _ _ _ I (partial c))) as ([|i l] & Hs & Hne); [set_solver|done|].
  exists P', i, l. split_and!; [done|done|by apply (si_slabs _ _ _ _ _ _ I)|].
  by apply (dlist_middle _ _ _ _ [] _ P' (si_list _ _ _ _ _ _ I)).
Qed.

(** The slab after one of its slots was taken. *)
Lemma slab_take m s i l :
  slab_ok m s (i :: l) ->
  let m1 := wr (wr m (s + SH_FREE_HEAD) (rd m (slot s i))) (s + SH_IN_USE) (cap - Z.of_nat (length l)) in
  slab_ok m1 s l /\ changes (fun x => x = s + SH_FREE_HEAD \/ x = s + SH_IN_USE) m m1.
Proof.
  intros [K1 K2 K3 K4 K5 K6 K7] m1. pose proof slab_size_facts as (Hb & _).
  assert (forall j, j ∈ i :: l -> rd m1 (slot s j) = rd m (slot s j)) as Hsl.
  { intros j Hj. destruct (slot_range j s (K7 j Hj)) as [? _]. unfold m1, SH_FREE_HEAD, SH_IN_USE. by cells. }
  apply NoDup_cons in K6 as [Hni K6]. destruct K5 as [Eh K5]. split; [split|].
  - done.
  - done.
  - unfold m1. by cells.
  - unfold m1, SH_FREE_HEAD, SH_IN_USE, SH_CAPACITY in *. by cells.
  - assert (rd m1 (s + SH_FREE_HEAD) = rd m (slot s i)) as ->
      by (unfold m1, SH_FREE_HEAD, SH_IN_USE; by cells).
    eapply chain_ext; [|exact K5]. intros j Hj. apply Hsl. set_solver.
  - done.
  - intros j Hj. apply K7. set_solver.
  - eapply changes_trans; apply changes_wr; auto.
Qed.

(** What one allocation does to the abstract cache. *)
Record taken (S : gmap Z (list Z)) (s i : Z) (l : list Z) (m : mem) (S' : gmap Z (list Z)) (m' : mem) : Prop :=
  mkTaken {
    tk_slab : S !! s = Some (i :: l);
    tk_index : 0 <= i < cap;
    tk_new : S' = <[s := l]> S;
    tk_align : slot s i mod align_T = 0;
    tk_range : 0 < s /\ s mod slab_size = 0 /\ s + slab_size <= W64;
    (** only header cells of slabs changed *)
    tk_frame : changes (fun x => exists q lq, S !! q = Some lq /\ q <= x < q + SLAB_HEADER) m m'
  }.

Lemma slot_aligned s i : s mod slab_size = 0 -> slot s i mod align_T = 0.
Proof.
  intros Hs. destruct (lo_align LO) as (k & Hk & E). pose proof align_range as Hr.
  destruct (lo_multiple LO) as [d Hd]. apply Z.mod_divide; [lia|].
  unfold slot. apply Z.divide_add_r; [apply Z.divide_add_r|].
  - pose proof slab_size_facts as (Hb & E2 & _). pose proof (lo_order LO).
    apply (Z.divide_trans _ slab_size); [|apply Z.mod_divide; [lia|done]].
    rewrite E, E2. exists (2 ^ (order + 12 - k)). rewrite <- Z.pow_add_r by lia. f_equal; lia.
  - rewrite stride_max. destruct (Z.max_spec 32 align_T) as [[_ ->]|[Hle ->]]; [done|].
    rewrite E in *. change 32 with (2 ^ 5) in *. assert (k <= 5) by (apply (Z.pow_le_mono_r_iff 2); lia).
    exists (2 ^ (5 - k)). rewrite <- Z.pow_add_r by lia. f_equal; lia.
  - rewrite Hd. exists (i * d). lia.
Qed.

Lemma wp_take_slot c pc m S P A :
  slab_inv c pc m S P A -> partial c <> 0 -> alloc_count (stats c) + 1 < W64 ->
  used_bytes (stats c) + size_T < W64 ->
  wp take_slot ((c, pc), m) (fun p s' => exists s i l S' P',
    p = slot s i /\ taken S s i l m S' (snd s') /\ pc = snd (fst s') /\
    slab_inv (fst (fst s')) pc (snd s') S' P' A).
Proof.
  intros I Hz Hct Hus. destruct (partial_head _ _ _ _ _ _ I Hz) as (P' & i & l & HP & Hs & K & Hprev).
  set (s := partial c) in *. pose proof K as [K1 K2 K3 K4 K5 K6 K7].
  assert (0 <= i < cap) as Hi by (apply K7; set_solver).
  destruct (slot_range i s Hi) as [Hlo Hhi]. destruct (lo_size LO) as [Hsz _].
  pose proof cap_facts as (Hc & _ & Hcb). pose proof slab_size_facts as (Hb & _). pose proof stride_max as Hst.
  pose proof align_range as Har.
  destruct K5 as [Eh K5].
  destruct (slab_take m s i l K) as [K' Hch]. set (m1 := wr (wr m _ _) _ _) in *.
  unfold take_slot, cache. wp_step. wp_step. wp_step. wp_step. fold s stride. rewrite Eh.
  wp_step. wp_step; [unfold usize_MAX; destruct (Z.eqb_spec i (2 ^ 64 - 1)); lia || done|].
  unfold slot in Hlo, Hhi. assert (0 <= i * size_T) by nia.
  wp_step. wp_step. wp_step. wp_step. wp_step. wp_step. fold (slot s i). fold (slot s i) in Hlo, Hhi.
  wp_step. apply wp_read_link; [exact K1|done|]. wp_step. wp_step. wp_step. wp_step.
  assert (rd (wr m (s + SH_FREE_HEAD) (rd m (slot s i))) (s + SH_IN_USE) + 1 = cap - Z.of_nat (length l)) as Eu.
  { unfold SH_FREE_HEAD, SH_IN_USE in *. cells. rewrite K3. simpl. lia. }
  wp_step. apply wp_uadd32; rewrite Eu; [unfold W32; lia|]. wp_step. wp_step. fold m1. wp_step.
  assert (forall q lq, <[s := l]> S !! q = Some lq -> slab_ok m1 q lq) as HS1.
  { intros q lq [[<- <-]|[Hne Hq]]%lookup_insert_Some; [done|].
    eapply slab_ok_other; [by apply (si_slabs _ _ _ _ _ _ I)|exact K1|done|].
    eapply changes_weaken; [|exact Hch]. unfold in_slab, SH_FREE_HEAD, SH_IN_USE. intros x. lia. }
  assert (forall x, link_of (<[s := l]> S) x <-> link_of S x) as Hlink.
  { intros x. unfold link_of. split.
    - intros (q & lq & [[<- _]|[_ Hq]]%lookup_insert_Some & Hx); eauto.
    - intros (q & lq & Hq & Hx). destruct (decide (q = s)) as [->|Hne].
      + exists s, l. by rewrite lookup_insert_eq.
      + exists q, lq. by rewrite lookup_insert_ne. }
  assert (forall p1 m2 P2, dlist SH_PREV SH_NEXT m2 p1 P2 -> NoDup P2 ->
    (forall x, x ∈ P2 <-> exists l0, <[s := l]> S !! x = Some l0 /\ l0 <> []) -> changes (link_of S) m1 m2 ->
    wp (alloc_stats;; ret (slot s i)) ((with_partial p1 c, pc), m2) (fun p s' => exists s i l S' P',
      p = slot s i /\ taken S s i l m S' (snd s') /\ pc = snd (fst s') /\
      slab_inv (fst (fst s')) pc (snd s') S' P' A)) as Hfin.
  { intros p1 m2 P2 D2 N2 M2 C2. unfold alloc_stats, cache, set_stats, upd. wp_steps; cbn [stats with_partial]; [lia..|].
    assert (changes (fun x => exists q lq, S !! q = Some lq /\ q <= x < q + SLAB_HEADER) m m2) as Hall.
    { eapply changes_trans; (eapply changes_weaken; [|eassumption]).
      - intros x Hx. exists s, (i :: l). split; [done|]. unfold SH_FREE_HEAD, SH_IN_USE, SLAB_HEADER in *. lia.
      - intros x (q & lq & Hq & Hx). exists q, lq. split; [done|]. unfold SH_PREV, SH_NEXT, SLAB_HEADER in *. lia. }
    exists s, i, l, (<[s := l]> S), P2. split; [done|]. split; [split; [done|done|done|by apply slot_aligned|tauto|done]|].
    split; [done|]. destruct I. split; cbn [slab_order capacity partial stats with_partial used_bytes total_bytes free_bytes]; try done.
    - eapply pa_changes; [done|]. eapply changes_weaken; [|exact Hall]. intros x (q & lq & Hq & Hx).
      eapply slab_cell_held; [exact si_held0|exact Hq|]. unfold in_slab, SLAB_HEADER in *. lia.
    - intros q lq Hq. destruct (decide (q = s)) as [->|Hne]; [by eapply si_held0|].
      rewrite lookup_insert_ne in Hq by done. by eapply si_held0.
    - apply (slabs_links _ m1); [done|]. eapply changes_weaken; [|exact C2]. intros x. apply Hlink.
    - rewrite (live_slots_update S s (i :: l) l Hs), si_used0. simpl. lia.
    - by rewrite map_size_insert_Some by eauto.
    - by rewrite map_size_insert_Some by eauto. }
  unfold is_full. wp_steps. rewrite (sk_use _ _ _ K'), (sk_cap _ _ _ K').
  assert (dlist SH_PREV SH_NEXT m1 s P) as D1.
  { eapply dlist_ext; [|apply (si_list _ _ _ _ _ _ I)]. intros x Hx.
    destruct (proj1 (si_partial _ _ _ _ _ _ I x) Hx) as (lx & Hlx & _).
    assert (x = s \/ x + slab_size <= s \/ s + slab_size <= x) as Hap.
    { destruct (decide (x = s)); [by left|right].
      apply slabs_apart; [|done|done]. by apply (si_slabs _ _ _ _ _ _ I x lx). }
    split; eapply changes_eq; try exact Hch; unfold SH_FREE_HEAD, SH_IN_USE, SH_PREV, SH_NEXT in *; lia. }
  pose proof (si_nodup _ _ _ _ _ _ I) as Hnd. rewrite HP in Hnd. apply NoDup_cons in Hnd as [Hni Hnd'].
  destruct (Z.eqb_spec (cap - Z.of_nat (length l)) cap) as [Efull|Hpart].
  - assert (l = []) as -> by (apply length_zero_iff_nil; lia).
    apply wp_unlink. rewrite HP in D1.
    destruct (dlist_middle _ _ _ _ [] _ P' D1) as [Ep _]. simpl in Ep. rewrite Ep. simpl.
    apply Hfin with (P2 := P').
    + pose proof (dlist_unlink SH_PREV SH_NEXT m1 s [] s P' D1) as HU. cbn zeta in HU. rewrite Ep in HU.
      apply HU; [by constructor|]. apply (sep_slabs m S); [apply I|]. intros x Hx.
      destruct (proj1 (si_partial _ _ _ _ _ _ I x) ltac:(by rewrite HP)) as (lx & Hlx & _). eauto.
    + done.
    + intros x. split.
      * intros Hx. destruct (proj1 (si_partial _ _ _ _ _ _ I x)) as (lx & Hlx & Hne); [rewrite HP; set_solver|].
        exists lx. rewrite lookup_insert_ne; [done|]. by intros ->.
      * intros (lx & [[_ <-]|[Hne Hlx]]%lookup_insert_Some & Hnn); [done|].
        assert (x ∈ P) as Hx by (apply (si_partial _ _ _ _ _ _ I); eauto). rewrite HP in Hx. set_solver.
    + eapply changes_weaken; [|apply unlink_mem_changes]. intros x [[? _]|[Hn ->]]; [done|].
      pose proof (dlist_middle _ _ _ _ [] s P' D1) as [_ En]. destruct P' as [|q P'']; simpl in En; [done|].
      rewrite En. destruct (proj1 (si_partial _ _ _ _ _ _ I q)) as (lq & Hlq & _); [rewrite HP; set_solver|].
      exists q, lq. auto.
  - wp_step. replace c with (with_partial s c) by (by destruct c).
    apply Hfin with (P2 := P); [done|apply I| |apply changes_refl].
    intros x. rewrite (si_partial _ _ _ _ _ _ I x). split.
    + intros (lx & Hlx & Hne). destruct (decide (x = s)) as [->|Hxs].
      * exists l. rewrite lookup_insert_eq. split; [done|]. intros ->. simpl in Hpart. lia.
      * exists lx. by rewrite lookup_insert_ne.
    + intros (lx & [[<- <-]|[Hne Hlx]]%lookup_insert_Some & Hnn); eauto.
Qed.

(** ** Growing *)

(** The link the threading loop writes into slot [j]. *)
Definition link_after (j : Z) : Z := if j + 1 <? cap then j + 1 else usize_MAX.

Lemma wp_thread_slots n : forall c pc m s i (Q : unit -> SState -> Prop),
  0 < s -> s mod slab_size = 0 -> s + slab_size <= W64 -> 0 <= i -> i + Z.of_nat n = cap ->
  (forall m', (forall j, i <= j < cap -> rd m' (slot s j) = link_after j) ->
     changes (fun x => exists j, i <= j < cap /\ x = slot s j) m m' -> Q tt ((c, pc), m')) ->
  wp (thread_slots n s stride cap i) ((c, pc), m) Q.
Proof.
  induction n as [|n IH]; intros c pc m s i Q Hs Hal Hend Hi Hn HQ.
  { cbn [thread_slots]. wp_step. apply HQ; [intros j Hj; lia|apply changes_refl]. }
  destruct (slot_range i s ltac:(lia)) as [Hlo Hhi]. destruct (lo_size LO) as [Hsz _].
  pose proof align_range. pose proof stride_max. unfold slot in Hlo, Hhi. assert (0 <= i * size_T) by nia.
  cbn [thread_slots]. wp_steps. fold (slot s i). fold (link_after i).
  apply wp_write_link; [done|lia|]. apply IH; [done|done|done|lia|lia|]. intros m' Hm' Hc'. apply HQ.
  - intros j Hj. destruct (decide (j = i)) as [->|Hne]; [|apply Hm'; lia].
    rewrite (changes_eq _ _ _ (slot s i) Hc'); [by rewrite rd_wr_eq|].
    intros (k & Hk & E). apply slot_inj in E. lia.
  - eapply changes_trans; [apply changes_wr; exists i; split; [lia|done]|].
    eapply changes_weaken; [|exact Hc']. intros x (k & Hk & E). exists k. split; [lia|done].
Qed.

(** The links of a fresh slab chain all slots in order. *)
Lemma chain_fresh m s n : forall i,
  0 <= i -> i + Z.of_nat n = cap -> (forall j, i <= j < cap -> rd m (slot s j) = link_after j) ->
  chain m s (if i <? cap then i else usize_MAX) (seqZ i (Z.of_nat n)).
Proof.
  induction n as [|n IH]; intros i Hi Hn Hm.
  { simpl. destruct (Z.ltb_spec i cap); [lia|done]. }
  rewrite seqZ_cons by lia. destruct (Z.ltb_spec i cap); [|lia]. split; [done|].
  rewrite Hm by lia. unfold link_after. replace (Z.pred (Z.of_nat (Datatypes.S n))) with (Z.of_nat n) by lia.
  apply IH; [lia|lia|]. intros j Hj. apply Hm. lia.
Qed.

Definition all_full (S : gmap Z (list Z)) : Prop := forall s l, S !! s = Some l -> l = [].

Lemma no_partial c pc m S P A : slab_inv c pc m S P A -> partial c = 0 -> P = [] /\ all_full S.
Proof.
  intros I Hz. apply (dlist_null _ _ _ _ _ (si_list _ _ _ _ _ _ I)) in Hz as ->. split; [done|].
  intros s [|i l] Hs; [done|exfalso].
  assert (s ∈ []) as Hin by (apply (si_partial _ _ _ _ _ _ I); eauto). by apply elem_of_nil in Hin.
Qed.

(** A fresh slab in memory. *)
Lemma slab_fresh m s m' : 0 < s -> s mod slab_size = 0 -> s + slab_size <= W64 ->
  (forall j, 0 <= j < cap -> rd m (slot s j) = link_after j) ->
  m' = wr (wr (wr m (s + SH_FREE_HEAD) 0) (s + SH_IN_USE) 0) (s + SH_CAPACITY) cap ->
  slab_ok m' s (seqZ 0 cap).
Proof.
  intros Hs Ha He Hm ->. pose proof cap_facts as (Hc & _).
  unfold SH_FREE_HEAD, SH_IN_USE, SH_CAPACITY. split.
  - done.
  - done.
  - unfold SH_IN_USE. cells. rewrite length_seqZ. lia.
  - unfold SH_CAPACITY. by cells.
  - unfold SH_FREE_HEAD. cells. eapply chain_ext.
    2: { pose proof (chain_fresh m s (Z.to_nat cap) 0 ltac:(lia) ltac:(lia) Hm) as Hch.
         rewrite (proj2 (Z.ltb_lt 0 cap)), Z2Nat.id in Hch by lia. exact Hch. }
    intros i Hi%elem_of_seqZ. destruct (slot_range i s ltac:(lia)) as [? _]. by cells.
  - apply NoDup_seqZ.
  - intros i Hi%elem_of_seqZ. lia.
Qed.

Lemma wp_grow c pc m S P A (Q : option unit -> SState -> Prop) :
  slab_inv c pc m S P A -> partial c = 0 -> room c pc ->
  (forall pc' m', slab_inv c pc' m' S P A -> pages_kept A m m' -> Q None ((c, pc'), m')) ->
  (forall c' pc' m' s, S !! s = None -> pages_kept A m m' -> (forall bl, bl ∈ A -> block_disj (order, s) bl) ->
     partial c' = s -> s <> 0 -> alloc_count (stats c') = alloc_count (stats c) ->
     used_bytes (stats c') = used_bytes (stats c) ->
     slab_inv c' pc' m' (<[s := seqZ 0 cap]> S) [s] ({[(order, s)]} ∪ A) -> Q (Some tt) ((c', pc'), m')) ->
  wp grow ((c, pc), m) Q.
Proof.
  intros I Hz (Hra & Hrf & _ & _ & Hrt & Hrb & _) HN HS. pose proof I as [I1 I2 I3 I4 I5 I6 I7 I8 I9 I10 I11].
  destruct (no_partial _ _ _ _ _ _ I Hz) as [-> Hfull].
  pose proof slab_size_facts as (Hb & Eb & Es). pose proof cap_facts as (Hc & Hfit & Hcb).
  destruct (lo_order LO) as [Ho Ho']. destruct (lo_size LO) as [Hsz _]. pose proof stride_max. pose proof align_range.
  unfold grow, cache. wp_step. wp_step. cbn [fst]. rewrite I1, I2. wp_step.
  apply wp_ushl; [done|lia|fold (block_size order); unfold PAGE_SIZE; rewrite Z.mul_comm; fold (block_size order); fold slab_size; unfold W64; lia|].
  replace (PAGE_SIZE * 2 ^ order) with slab_size by (unfold slab_size, block_size, PAGE_SIZE; lia).
  wp_step. wp_step. wp_step. apply wp_page_call. eapply wp_mono; [by apply wp_and; [apply pa_alloc_spec|eapply pa_alloc_can_free]|].
  intros [s|] [pc1 m1] [Hpost Hfree]; cbn [fst snd] in *.
  2: { destruct Hpost as [[= -> ->] _]. wp_step. by apply HN. }
  destruct Hpost as (I3' & Hs0 & Hend & _ & Hdisj & Hkept & _). fold slab_size in Hend.
  assert ((order, s) ∉ A) as Hni.
  { intros Hin. apply (Hdisj _ Hin s); unfold in_block; simpl; fold slab_size; lia. }
  assert (S !! s = None) as HSs by (destruct (S !! s) as [l|] eqn:E; [|done]; by apply I4 in E).
  assert (Z.land s (not64 (slab_size - 1)) = s - s mod slab_size) as Emask.
  { rewrite Eb. apply land_not64_mask; lia. }
  rewrite Emask. destruct (Z.eqb_spec (s - s mod slab_size) s) as [Eal|Eal]; cbn [negb].
  2: { wp_step. apply wp_page_call. eapply wp_mono; [apply pa_dealloc_spec; [exact I3'|auto|set_solver]|].
       intros _ [pc2 m2] [I3'' Hkept2]. cbn [fst snd] in *. wp_step.
       replace (({[(order, s)]} ∪ A) ∖ {[(order, s)]}) with A in * by set_solver.
       assert (pages_kept A m m2) as Hk by (intros bl x Hbl Hx; rewrite (Hkept2 bl x Hbl Hx); by apply (Hkept bl)).
       apply HN; [|done]. split; try done.
       - intros q lq Hq. eapply slab_ok_ext; [by apply I5|]. intros x Hx _ _. apply (Hk (order, q)); [by eapply I4|done]. }
  assert (s mod slab_size = 0) as Hal by lia.
  wp_step. apply wp_thread_slots; [done|done|done|lia|lia|]. intros m2 Hm2 Hc2.
  wp_steps. rewrite (Z.mod_small cap) by (unfold W32; lia).
  set (m3 := wr (wr (wr m2 (s + SH_FREE_HEAD) 0) (s + SH_IN_USE) 0) (s + SH_CAPACITY) cap).
  apply wp_link. rewrite Hz. set (m4 := push_mem _ _ _ _ _).
  unfold set_stats, cache, upd. wp_steps; cbn [stats with_partial]; [lia|nia|].
  assert (changes (in_slab s) m1 m4) as Hch.
  { eapply changes_trans; [eapply changes_weaken; [|exact Hc2]|].
    { intros x (j & Hj & ->). destruct (slot_range j s ltac:(lia)). unfold in_slab. lia. }
    unfold m4, m3, push_mem. simpl.
    repeat (eapply changes_trans; [|apply changes_wr; unfold in_slab, SH_FREE_HEAD, SH_IN_USE, SH_CAPACITY, SH_PREV, SH_NEXT; lia]).
    apply changes_refl. }
  assert (forall x, in_slab s x -> x <> s + SH_PREV -> x <> s + SH_NEXT -> rd m4 x = rd m3 x) as Hlk.
  { intros x Hx H1 H2. unfold m4, push_mem. simpl. by rewrite !rd_wr_ne by done. }
  assert (pages_kept A m m4) as Hk.
  { intros bl x Hbl Hx. rewrite (changes_eq _ _ _ x Hch); [by apply (Hkept bl)|].
    intros Hin. by apply (Hdisj bl Hbl x). }
  apply (HS _ pc1 m4 s); try done; [lia|].
  split; cbn [slab_order capacity partial stats with_partial used_bytes total_bytes free_bytes]; try done.
  - eapply pa_changes; [exact I3'|]. eapply changes_weaken; [|exact Hch]. intros x Hx.
    exists (order, s). split; [set_solver|exact Hx].
  - intros q lq [[<- _]|[_ Hq]]%lookup_insert_Some; [set_solver|]. apply I4 in Hq. set_solver.
  - intros q lq [[<- <-]|[Hne Hq]]%lookup_insert_Some.
    + eapply slab_ok_ext; [by eapply (slab_fresh m2 s m3); [lia|done|done|..]|]. intros x Hx. by apply Hlk.
    + eapply slab_ok_ext; [by apply I5|]. intros x Hx _ _. apply (Hk (order, q)); [by eapply I4|done].
  - pose proof (dlist_push SH_PREV SH_NEXT (wr (wr m3 (s + SH_PREV) 0) (s + SH_NEXT) 0) 0 s []) as Hp.
    apply Hp; [done|repeat constructor; set_solver|lia|].
    intros x y ->%list_elem_of_singleton ->%list_elem_of_singleton. unfold SH_PREV, SH_NEXT. lia.
  - repeat constructor. set_solver.
  - intros q. rewrite list_elem_of_singleton. split.
    + intros ->. exists (seqZ 0 cap). rewrite lookup_insert_eq. split; [done|].
      intros E. apply (f_equal length) in E. rewrite length_seqZ in E. simpl in E. lia.
    + intros (l & [[-> _]|[Hne Hq]]%lookup_insert_Some & Hnn); [done|]. by rewrite (Hfull q l Hq) in Hnn.
  - rewrite live_slots_insert by done. rewrite length_seqZ, I9. f_equal. lia.
  - rewrite map_size_insert_None by done. rewrite I10. lia.
  - rewrite map_size_insert_None by done. nia.
Qed.

(** ** Allocation *)

(** Live objects: the slots not on their slab's chain. *)
Definition live (S : gmap Z (list Z)) (s i : Z) : Prop :=
  exists l, S !! s = Some l /\ 0 <= i < cap /\ i ∉ l.

(** Cells an allocation may write: slab headers, and pages nobody held. *)
Definition alloc_cell (S : gmap Z (list Z)) (A : gset (Z * Z)) (x : Z) : Prop :=
  (forall bl, bl ∈ A -> ~ in_block bl x) \/ exists q lq, S !! q = Some lq /\ q <= x < q + SLAB_HEADER.

(** Allocating [(s, i)], possibly in a slab added for it. *)
Record allocated (S : gmap Z (list Z)) (A : gset (Z * Z)) (s i : Z) (S' : gmap Z (list Z)) (A' : gset (Z * Z)) : Prop :=
  mkAllocated {
    al_index : 0 <= i < cap;
    al_addr : 0 < s /\ s + slab_size <= W64;
    al_fresh : ~ live S s i;
    al_live : forall t j, live S' t j <-> live S t j \/ (t = s /\ j = i);
    al_aligned : slot s i mod align_T = 0;
    al_blocks : A' = A \/ (all_full S /\ S !! s = None /\ A' = {[(order, s)]} ∪ A /\
                            forall bl, bl ∈ A -> block_disj (order, s) bl);
    al_slabs : forall t, is_Some (S' !! t) -> is_Some (S !! t) \/ (t = s /\ A' = {[(order, s)]} ∪ A /\
                            forall bl, bl ∈ A -> block_disj (order, s) bl)
  }.

Lemma taken_live S s i l m S' m' :
  taken S s i l m S' m' -> NoDup (i :: l) ->
  ~ live S s i /\ forall t j, live S' t j <-> live S t j \/ (t = s /\ j = i).
Proof.
  intros [Hs Hi -> _ _ _] [Hni Hnd]%NoDup_cons. split.
  - intros (l0 & Hl0 & _ & Hn). simplify_eq. set_solver.
  - intros t j. unfold live. destruct (decide (t = s)) as [->|Hne].
    + setoid_rewrite lookup_insert_eq. rewrite Hs. split.
      * intros (l0 & [= <-] & Hj & Hn). destruct (decide (j = i)); [auto|].
        left. eexists. split_and!; [done|lia|lia|]. set_solver.
      * intros [(l0 & [= <-] & Hj & Hn)|[_ ->]]; (eexists; split_and!; [done|lia|lia|set_solver]).
    + setoid_rewrite lookup_insert_ne; [|done]. naive_solver.
Qed.

Lemma wp_alloc c pc m S P A :
  slab_inv c pc m S P A -> room c pc ->
  wp alloc ((c, pc), m) (fun r s' =>
    match r with
    | None => all_full S /\ slab_inv (fst (fst s')) (snd (fst s')) (snd s') S P A /\ pages_kept A m (snd s')
    | Some p => exists s i S' P' A', p = slot s i /\ allocated S A s i S' A' /\
        slab_inv (fst (fst s')) (snd (fst s')) (snd s') S' P' A' /\ changes (alloc_cell S A) m (snd s')
    end).
Proof.
  intros I Hroom. pose proof Hroom as (_ & _ & Hct & _ & _ & _ & Hus).
  unfold alloc, cache. wp_step. wp_step. cbn [fst]. wp_step.
  destruct (Z.eqb_spec (partial c) 0) as [Hz|Hz].
  - destruct (no_partial _ _ _ _ _ _ I Hz) as [_ Hfull].
    eapply wp_grow; [done|done|done| |].
    + intros pc' m' I' Hk. wp_step. done.
    + intros c' pc' m' s Hs Hk Hdisj Hp Hs0 Hc' Hu' I'. cbn beta iota. wp_step.
      eapply wp_mono; [apply (wp_take_slot c' pc' m' _ _ _ I'); [by rewrite Hp|by rewrite Hc'|by rewrite Hu']|].
      intros p [[c2 pc2] m2] (s2 & i & l & S' & P' & -> & T & -> & I2). cbn [fst snd] in *. wp_step.
      pose proof T as [Ts Ti TS Tal (Tr1 & Tr2 & Tr3) Tf].
      assert (s2 = s) as ->.
      { apply lookup_insert_Some in Ts as [[<- _]|[_ Hs2]]; [done|]. by apply Hfull in Hs2. }
      pose proof (si_slabs _ _ _ _ _ _ I' s _ Ts) as K.
      destruct (taken_live _ _ _ _ _ _ _ T (sk_nodup _ _ _ K)) as [Hfr Hlv].
      assert (forall t j, live (<[s := seqZ 0 cap]> S) t j <-> live S t j) as Hlv0.
      { intros t j. unfold live. destruct (decide (t = s)) as [->|Hne].
        - rewrite lookup_insert_eq, Hs. split; [|naive_solver]. intros (l0 & [= <-] & Hj & Hn).
          exfalso. apply Hn, elem_of_seqZ. lia.
        - by rewrite lookup_insert_ne. }
      exists s, i, S', P', ({[(order, s)]} ∪ A). split; [done|split; [split|split; [done|]]]; try done.
      * by rewrite <- Hlv0.
      * intros t j. by rewrite Hlv, Hlv0.
      * right. done.
      * intros t. rewrite TS. intros [lt [[<- _]|[_ [[<- _]|[_ Ht]]%lookup_insert_Some]]%lookup_insert_Some]; [by right..|left; by exists lt].
      * eapply changes_trans.
        -- eapply changes_weaken; [|by apply kept_changes]. intros x Hx. by left.
        -- eapply changes_weaken; [|exact Tf]. intros x (q & lq & Hq & Hx).
           apply lookup_insert_Some in Hq as [[<- _]|[_ Hq]]; [left|right; eauto].
           intros bl Hbl Hin. apply (Hdisj bl Hbl x); [|done].
           pose proof slab_size_facts. unfold in_block, SLAB_HEADER in *. simpl. fold slab_size. lia.
  - wp_step. wp_step. eapply wp_mono; [by apply (wp_take_slot c pc m S P A)|].
    intros p [[c2 pc2] m2] (s & i & l & S' & P' & -> & T & -> & I2). cbn [fst snd] in *. wp_step.
    pose proof T as [Ts Ti TS Tal (Tr1 & Tr2 & Tr3) Tf].
    pose proof (si_slabs _ _ _ _ _ _ I s _ Ts) as K.
    destruct (taken_live _ _ _ _ _ _ _ T (sk_nodup _ _ _ K)) as [Hfr Hlv].
    exists s, i, S', P', A. split; [done|split; [split|split; [done|]]]; try done; [by left|..].
    { intros t. rewrite TS. intros [lt [[<- _]|[_ Ht]]%lookup_insert_Some]; left; [by eexists|by exists lt]. }
    eapply changes_weaken; [|exact Tf]. intros x Hx. by right.
Qed.

(** ** Release *)

(** The slab after one of its objects was released. *)
Lemma slab_put m s i l :
  slab_ok m s l -> 0 <= i < cap -> i ∉ l ->
  let m1 := wr (wr (wr m (slot s i) (rd m (s + SH_FREE_HEAD))) (s + SH_FREE_HEAD) i)
               (s + SH_IN_USE) (cap - Z.of_nat (length l) - 1) in
  slab_ok m1 s (i :: l) /\
  changes (fun x => x = slot s i \/ x = s + SH_FREE_HEAD \/ x = s + SH_IN_USE) m m1.
Proof.
  intros [K1 K2 K3 K4 K5 K6 K7] Hi Hni m1. destruct (slot_range i s Hi) as [Hlo _].
  assert (forall j, j ∈ l -> rd m1 (slot s j) = rd m (slot s j)) as Hsl.
  { intros j Hj. destruct (slot_range j s (K7 j Hj)) as [? _]. unfold m1, SH_FREE_HEAD, SH_IN_USE.
    rewrite !rd_wr_ne; [done| |lia|lia]. intros E%slot_inj. by subst. }
  split; [split|].
  - done.
  - done.
  - unfold m1. rewrite rd_wr_eq, length_cons. lia.
  - unfold m1, SH_FREE_HEAD, SH_IN_USE, SH_CAPACITY in *. by cells.
  - assert (rd m1 (s + SH_FREE_HEAD) = i) as -> by (unfold m1, SH_FREE_HEAD, SH_IN_USE; by cells).
    split; [done|]. assert (rd m1 (slot s i) = rd m (s + SH_FREE_HEAD)) as ->
      by (unfold m1, SH_FREE_HEAD, SH_IN_USE; by cells).
    by eapply chain_ext.
  - by constructor.
  - intros j [->|Hj]%elem_of_cons; [done|by apply K7].
  - repeat (eapply changes_trans; [|apply changes_wr; auto]). apply changes_refl.
Qed.

(** Releasing [(s, i)], and its slab with it when it was the last object. *)
Record released (S : gmap Z (list Z)) (A : gset (Z * Z)) (s i : Z) (S' : gmap Z (list Z)) (A' : gset (Z * Z)) : Prop :=
  mkReleased {
    re_live : forall t j, live S' t j <-> live S t j /\ ~ (t = s /\ j = i);
    (** the slab is given back when this was its last object and it was not full *)
    re_blocks : exists l, S !! s = Some l /\
      if bool_decide (l <> [] /\ Z.of_nat (length l) + 1 = cap)
      then A' = A ∖ {[(order, s)]} /\ S' = delete s S
      else A' = A /\ is_Some (S' !! s);
    re_slabs : forall t, is_Some (S' !! t) -> is_Some (S !! t)
  }.

(** Cells a release may write: slab headers, the slot, and the slab given back. *)
Definition release_cell (S S' : gmap Z (list Z)) (A' : gset (Z * Z)) (s i x : Z) : Prop :=
  x = slot s i \/ (exists q lq, S !! q = Some lq /\ q <= x < q + SLAB_HEADER) \/
  (S' !! s = None /\ forall bl, bl ∈ A' -> ~ in_block bl x).

Lemma slab_base_of s i : s mod slab_size = 0 -> 0 < s /\ s + slab_size <= W64 -> 0 <= i < cap ->
  Z.land (slot s i) (not64 (slab_size - 1)) = s.
Proof.
  intros Ha Hr Hi. destruct (slot_range i s Hi) as [Hlo Hhi]. destruct (lo_size LO) as [Hsz _].
  pose proof slab_size_facts as (Hb & Eb & _). destruct (lo_order LO).
  rewrite Eb, land_not64_mask by lia. rewrite <- Eb.
  assert (slot s i mod slab_size = slot s i - s) as ->; [|lia].
  symmetry. apply Z.mod_unique_pos with (s / slab_size); [lia|].
  pose proof (Z.div_mod s slab_size ltac:(lia)). lia.
Qed.

Lemma put_live S s i l S' :
  S !! s = Some l -> 0 <= i < cap -> i ∉ l -> S' !! s = Some (i :: l) ->
  (forall t, t <> s -> S' !! t = S !! t) ->
  forall t j, live S' t j <-> live S t j /\ ~ (t = s /\ j = i).
Proof.
  intros Hs Hi Hni Hs' Ho t j. unfold live. destruct (decide (t = s)) as [->|Hne].
  - rewrite Hs, Hs'. split.
    + intros (l0 & [= <-] & Hj & Hn). split; [|set_solver]. eexists. split_and!; [done|lia|lia|set_solver].
    + intros [(l0 & [= <-] & Hj & Hn) Hne]. eexists. split_and!; [done|lia|lia|]. set_solver.
  - rewrite Ho by done. naive_solver.
Qed.

Lemma drop_live S s i l :
  S !! s = Some l -> NoDup (i :: l) -> (forall j, j ∈ i :: l -> 0 <= j < cap) ->
  Z.of_nat (length (i :: l)) = cap ->
  forall t j, live (delete s S) t j <-> live S t j /\ ~ (t = s /\ j = i).
Proof.
  intros Hs Hnd Hi Hlen t j. unfold live. destruct (decide (t = s)) as [->|Hne].
  - rewrite lookup_delete_eq, Hs. split; [naive_solver|].
    intros [(l0 & [= <-] & Hj & Hn) Hne]. exfalso.
    assert (j ∉ i :: l) as Hn' by set_solver.
    pose proof (free_count (j :: i :: l) ltac:(by constructor)) as Hc.
    assert (Z.of_nat (length (j :: i :: l)) <= cap) as Hc' by (apply Hc; set_solver).
    rewrite length_cons in Hc'. lia.
  - rewrite lookup_delete_ne by done. naive_solver.
Qed.

Lemma wp_slab_dealloc_stats c pc m (Q : unit -> SState -> Prop) :
  dealloc_count (stats c) + 1 < W64 -> size_T <= used_bytes (stats c) -> free_bytes (stats c) + size_T < W64 ->
  (forall st, total_bytes st = total_bytes (stats c) -> used_bytes st = used_bytes (stats c) - size_T ->
     free_bytes st = free_bytes (stats c) + size_T -> Q tt ((with_stats st c, pc), m)) ->
  wp dealloc_stats ((c, pc), m) Q.
Proof.
  intros H1 H2 H3 HQ. unfold dealloc_stats, cache, set_stats, upd. wp_steps. by apply HQ.
Qed.

Lemma live_slots_lookup S m s l : (forall s l, S !! s = Some l -> slab_ok m s l) -> S !! s = Some l ->
  cap - Z.of_nat (length l) <= live_slots S.
Proof.
  intros HS Hs. pose proof (live_slots_delete S s l Hs).
  pose proof (live_slots_nonneg (delete s S) m) as Hn.
  assert (0 <= live_slots (delete s S)); [|lia]. apply Hn.
  intros t lt [_ Ht]%lookup_delete_Some. by apply HS.
Qed.

(** The state in which [dealloc] reaches its tail: the object is back on the
    chain of its slab, the partial list is untouched. *)
Record put_back (c : SlabCacheInner) (S : gmap Z (list Z)) (P : list Z) (s i : Z) (l : list Z) (m m1 : mem) : Prop :=
  mkPutBack {
    pb_slabs : forall q lq, <[s := i :: l]> S !! q = Some lq -> slab_ok m1 q lq;
    pb_list : dlist SH_PREV SH_NEXT m1 (partial c) P;
    pb_changes : changes (fun x => x = slot s i \/ s <= x < s + SLAB_HEADER) m m1
  }.

Lemma link_of_put S s i l : is_Some (S !! s) -> forall x, link_of (<[s := i :: l]> S) x <-> link_of S x.
Proof.
  intros [l0 Hs] x. unfold link_of. split.
  - intros (q & lq & [[<- _]|[_ Hq]]%lookup_insert_Some & Hx); eauto.
  - intros (q & lq & Hq & Hx). destruct (decide (q = s)) as [->|Hne].
    + exists s, (i :: l). by rewrite lookup_insert_eq.
    + exists q, lq. by rewrite lookup_insert_ne.
Qed.

Lemma put_back_ok c pc m S P A s i l :
  slab_inv c pc m S P A -> S !! s = Some l -> 0 <= i < cap -> i ∉ l ->
  put_back c S P s i l m
    (wr (wr (wr m (slot s i) (rd m (s + SH_FREE_HEAD))) (s + SH_FREE_HEAD) i)
        (s + SH_IN_USE) (cap - Z.of_nat (length l) - 1)).
Proof.
  intros I Hs Hi Hni. pose proof (si_slabs _ _ _ _ _ _ I s l Hs) as K.
  destruct (slab_put m s i l K Hi Hni) as [K' Hch]. set (m1 := wr (wr (wr m _ _) _ _) _ _) in *.
  destruct (slot_range i s Hi) as [Hlo Hhi]. destruct (lo_size LO) as [Hsz _].
  pose proof slab_size_facts as (Hb & _).
  assert (changes (in_slab s) m m1) as Hin.
  { eapply changes_weaken; [|exact Hch]. unfold in_slab, SH_FREE_HEAD, SH_IN_USE. intros x. lia. }
  split.
  - intros q lq [[<- <-]|[Hne Hq]]%lookup_insert_Some; [done|].
    eapply slab_ok_other; [by apply (si_slabs _ _ _ _ _ _ I)|exact (sk_align _ _ _ K)|done|exact Hin].
  - eapply dlist_ext; [|apply (si_list _ _ _ _ _ _ I)]. intros x Hx.
    destruct (proj1 (si_partial _ _ _ _ _ _ I x) Hx) as (lx & Hlx & _).
    assert (x = s \/ x + slab_size <= s \/ s + slab_size <= x) as Hap.
    { destruct (decide (x = s)); [by left|right]. apply slabs_apart; [|exact (sk_align _ _ _ K)|done].
      exact (sk_align _ _ _ (si_slabs _ _ _ _ _ _ I x lx Hlx)). }
    split; eapply changes_eq; try exact Hch; unfold SH_FREE_HEAD, SH_IN_USE, SH_PREV, SH_NEXT in *; lia.
  - eapply changes_weaken; [|exact Hch]. unfold SH_FREE_HEAD, SH_IN_USE, SLAB_HEADER. intros x. lia.
Qed.

(** The tail of [dealloc] when the slab stays. *)
Lemma wp_dealloc_keep c pc m m1 m2 S P A s i l p1 P2 :
  slab_inv c pc m S P A -> room c pc -> S !! s = Some l -> 0 <= i < cap -> i ∉ l ->
  ~ (l <> [] /\ Z.of_nat (length l) + 1 = cap) -> put_back c S P s i l m m1 ->
  dlist SH_PREV SH_NEXT m2 p1 P2 -> NoDup P2 ->
  (forall x, x ∈ P2 <-> exists l0, <[s := i :: l]> S !! x = Some l0 /\ l0 <> []) ->
  changes (link_of S) m1 m2 ->
  wp dealloc_stats ((with_partial p1 c, pc), m2) (fun _ s' => exists S' P' A',
    released S A s i S' A' /\ slab_inv (fst (fst s')) (snd (fst s')) (snd s') S' P' A' /\
    changes (release_cell S S' A' s i) m (snd s')).
Proof.
  intros I (_ & _ & _ & Hdc & _ & Hfb & _) Hs Hi Hni Hnr [B1 B2 B3] D2 N2 M2 C2.
  pose proof (si_slabs _ _ _ _ _ _ I s l Hs) as K. pose proof (sk_nodup _ _ _ K) as Hnd.
  destruct (slot_range i s Hi) as [Hlo Hhi]. destruct (lo_size LO) as [Hsz _].
  pose proof cap_facts as (Hc & _). pose proof slab_size_facts as (Hb & _). pose proof stride_max as Hst.
  assert (1 <= cap - Z.of_nat (length l)) as Hlive.
  { assert (Z.of_nat (length (i :: l)) <= cap); [|simpl in *; lia].
    apply free_count; [by constructor|]. intros j [->|Hj]%elem_of_cons; [done|by apply (sk_index _ _ _ K)]. }
  pose proof (live_slots_lookup S m s l (si_slabs _ _ _ _ _ _ I) Hs) as Hlv.
  pose proof (si_used _ _ _ _ _ _ I) as Hused.
  assert (size_T <= slab_size) by (pose proof (slot_range i s Hi); lia).
  apply wp_slab_dealloc_stats; cbn [stats with_partial]; [done|rewrite Hused; nia|lia|].
  intros st E1 E2 E3. exists (<[s := i :: l]> S), P2, A.
  assert (changes (fun x => x = slot s i \/ exists q lq, S !! q = Some lq /\ q <= x < q + SLAB_HEADER) m m2) as Hall.
  { eapply changes_trans; (eapply changes_weaken; [|eassumption]).
    - intros x [->|Hx]; [by left|right]. by exists s, l.
    - intros x (q & lq & Hq & Hx). right. exists q, lq. split; [done|].
      unfold SH_PREV, SH_NEXT, SLAB_HEADER in *. lia. }
  split; [split; [|exists l; split; [done|]|]|split].
  2: { rewrite bool_decide_false by tauto. split; [done|by rewrite lookup_insert_eq]. }
  2: { intros t [lt [[<- _]|[_ Ht]]%lookup_insert_Some]; [by exists l|by exists lt]. }
  - eapply put_live; [exact Hs|done|done|apply lookup_insert_eq|]. intros. by apply lookup_insert_ne.
  - destruct I. split; cbn [fst snd slab_order capacity partial stats with_partial with_stats]; try done.
    + eapply pa_changes; [done|]. eapply changes_weaken; [|exact Hall].
      intros x [->|(q & lq & Hq & Hx)]; eapply slab_cell_held; try exact si_held0.
      * exact Hs.
      * unfold in_slab. lia.
      * exact Hq.
      * unfold in_slab, SLAB_HEADER in *. lia.
    + intros q lq Hq. destruct (decide (q = s)) as [->|Hne]; [by eapply si_held0|].
      rewrite lookup_insert_ne in Hq by done. by eapply si_held0.
    + apply (slabs_links _ m1); [done|]. eapply changes_weaken; [|exact C2]. intros x.
      by apply link_of_put; eexists.
    + rewrite (live_slots_update S s l (i :: l) Hs), E2, si_used0. simpl. lia.
    + rewrite map_size_insert_Some by eauto. by rewrite E1.
    + rewrite map_size_insert_Some by eauto. lia.
  - eapply changes_weaken; [|exact Hall]. intros x [->|Hx]; [by left|right; by left].
Qed.

(** The tail of [dealloc] when the last object goes. *)
Lemma wp_dealloc_release c pc m m1 S P A s i l :
  slab_inv c pc m S P A -> room c pc -> S !! s = Some l -> l <> [] -> 0 <= i < cap -> i ∉ l ->
  Z.of_nat (length l) + 1 = cap -> put_back c S P s i l m m1 ->
  wp (release_slab s slab_size) ((c, pc), m1) (fun _ s1 => wp dealloc_stats s1 (fun _ s' => exists S' P' A',
    released S A s i S' A' /\ slab_inv (fst (fst s')) (snd (fst s')) (snd s') S' P' A' /\
    changes (release_cell S S' A' s i) m (snd s'))).
Proof.
  intros I (_ & Hfree & _ & Hdc & _ & Hfb & _) Hs Hnn Hi Hni Hlen [B1 B2 B3].
  pose proof (si_slabs _ _ _ _ _ _ I) as HS. pose proof (HS s l Hs) as K. pose proof (sk_nodup _ _ _ K) as Hnd.
  destruct (slot_range i s Hi) as [Hlo Hhi]. destruct (lo_size LO) as [Hsz _].
  pose proof cap_facts as (Hc & Hfit & _). pose proof slab_size_facts as (Hb & _). pose proof stride_max as Hst.
  assert (s ∈ P) as HsP by (apply (si_partial _ _ _ _ _ _ I); eauto).
  assert (forall x, x ∈ P -> is_Some (S !! x)) as HP
    by (intros x (lx & Hx & _)%(si_partial _ _ _ _ _ _ I); eauto).
  apply list_elem_of_split in HsP as (P1 & P2 & EP). pose proof (si_nodup _ _ _ _ _ _ I) as HndP.
  rewrite EP in B2, HndP. destruct (dlist_middle _ _ _ _ P1 s P2 B2) as [Ep En].
  assert (forall m0, (forall q lq, S !! q = Some lq -> slab_ok m0 q lq) -> sep_nodes SH_PREV SH_NEXT (P1 ++ s :: P2)) as Hsep
    by (intros m0 Hm0; rewrite <- EP; by eapply sep_slabs).
  pose proof (dlist_unlink SH_PREV SH_NEXT m1 (partial c) P1 s P2 B2 HndP (Hsep m HS)) as D2. cbn zeta in D2.
  pose proof (unlink_mem_changes SH_PREV SH_NEXT m1 (rd m1 (s + SH_PREV)) (rd m1 (s + SH_NEXT))) as C2.
  assert (changes (link_of (delete s S)) m1 (unlink_mem SH_PREV SH_NEXT m1 (rd m1 (s + SH_PREV)) (rd m1 (s + SH_NEXT)))) as C2'.
  { apply NoDup_app in HndP as (_ & Hd1 & [Hs2 _]%NoDup_cons).
    eapply changes_weaken; [|exact C2]. intros x [[Hz ->]|[Hz ->]]; [rewrite Ep in *|rewrite En in *].
    - destruct (last P1) as [q|] eqn:E; [|done]. apply last_Some_elem_of in E. simpl.
      destruct (HP q ltac:(rewrite EP; set_solver)) as [lq Hq]. exists q, lq.
      rewrite lookup_delete_ne; [by auto|]. intros ->. apply (Hd1 q); set_solver.
    - destruct P2 as [|q P2']; [done|]. simpl.
      destruct (HP q ltac:(rewrite EP; set_solver)) as [lq Hq]. exists q, lq.
      rewrite lookup_delete_ne; [by auto|]. intros ->. set_solver. }
  set (p1 := if rd m1 (s + SH_PREV) =? 0 then rd m1 (s + SH_NEXT) else partial c) in *.
  unfold release_slab. wp_step. apply wp_unlink. fold p1.
  set (m2 := unlink_mem _ _ _ _ _) in *.
  assert (forall x, x ∈ P1 ++ P2 -> x <> s /\ is_Some (delete s S !! x)) as Hrest.
  { apply NoDup_app in HndP as (_ & Hd1 & [Hs2 _]%NoDup_cons). intros x Hx.
    assert (x <> s) as Hne by (intros ->; apply elem_of_app in Hx as [Hx|Hx]; [apply (Hd1 s); set_solver|done]).
    split; [done|]. rewrite lookup_delete_ne by done. apply HP. rewrite EP. set_solver. }
  assert (forall q lq, delete s S !! q = Some lq -> slab_ok m2 q lq) as HS2.
  { intros q lq [Hne Hq]%lookup_delete_Some. eapply slab_ok_ext; [apply B1; by rewrite lookup_insert_ne|].
    intros x Hx H1 H2. eapply changes_eq; [exact C2'|]. intros (q' & lq' & [Hne' Hq']%lookup_delete_Some & Hxq).
    destruct (decide (q' = q)) as [->|Hqq]; [by destruct Hxq|].
    pose proof (slabs_apart q q' (sk_align _ _ _ (HS _ _ Hq)) (sk_align _ _ _ (HS _ _ Hq')) ltac:(done)).
    unfold SH_PREV, SH_NEXT in *. lia. }
  assert (changes (fun x => x = slot s i \/ exists q lq, S !! q = Some lq /\ q <= x < q + SLAB_HEADER) m m2) as Hall.
  { eapply changes_trans; (eapply changes_weaken; [|eassumption]).
    - intros x [->|Hx]; [by left|right]. by exists s, l.
    - intros x (q & lq & [_ Hq]%lookup_delete_Some & Hx). right. exists q, lq. split; [done|].
      unfold SH_PREV, SH_NEXT, SLAB_HEADER in *. lia. }
  pose proof I as [I1 I2 I3 I4 _ I6 I7 I8 I9 I10 I11].
  assert (pa_inv pc m2 A) as I3'.
  { eapply pa_changes; [done|]. eapply changes_weaken; [|exact Hall].
    intros x [->|(q & lq & Hq & Hx)]; eapply slab_cell_held; try exact I4.
    - exact Hs.
    - unfold in_slab. lia.
    - exact Hq.
    - unfold in_slab, SLAB_HEADER in *. lia. }
  unfold cache. wp_step. wp_step. cbn [fst slab_order with_partial]. rewrite I1. wp_step.
  apply wp_page_call. eapply wp_mono; [apply pa_dealloc_spec; [exact I3'|done|by eapply I4]|].
  intros _ [pc3 m3] [I3'' Hk]. cbn [fst snd] in *.
  assert (forall q x, q <> s -> is_Some (S !! q) -> in_slab q x -> rd m3 x = rd m2 x) as Hk'.
  { intros q x Hne [lq Hq] Hx. apply (Hk (order, q)); [|exact Hx]. apply elem_of_difference. split; [by eapply I4|]. set_solver. }
  pose proof (live_slots_lookup S m s l HS Hs) as Hlv.
  assert (0 < Z.of_nat (size S)) as Hsize.
  { apply Nat2Z.inj_lt with (n := O). apply Nat.neq_0_lt_0. intros E%map_size_empty_inv. by subst S. }
  assert (cap * size_T <= slab_size) by lia. assert (1 <= cap - Z.of_nat (length l)) by lia.
  unfold set_stats, upd. wp_steps; cbn [stats with_partial fst capacity]; rewrite ?I2; [rewrite I10; nia|lia|nia|].
  apply wp_slab_dealloc_stats; cbn [stats dealloc_count used_bytes free_bytes]; [done|rewrite I9; nia|nia|].
  intros st E1 E2 E3. cbn [stats total_bytes used_bytes free_bytes] in E1, E2, E3.
  exists (delete s S), (P1 ++ P2), (A ∖ {[(order, s)]}). split; [split|split].
  - eapply drop_live; [exact Hs|by constructor| |simpl; lia].
    intros j [->|Hj]%elem_of_cons; [done|by apply (sk_index _ _ _ K)].
  - exists l. split; [done|]. by rewrite bool_decide_true.
  - intros t [lt [_ Ht]%lookup_delete_Some]. by exists lt.
  - split; cbn [fst snd slab_order capacity partial stats with_partial with_stats]; try done.
    + intros q lq [Hne Hq]%lookup_delete_Some. apply elem_of_difference. split; [by eapply I4|]. set_solver.
    + intros q lq Hq. eapply slab_ok_ext; [by apply HS2|]. apply lookup_delete_Some in Hq as [Hne Hq].
      intros x Hx _ _. by apply (Hk' q).
    + eapply dlist_ext; [|exact D2]. intros x Hx. destruct (Hrest x Hx) as [Hne [lx Hlx]].
      apply lookup_delete_Some in Hlx as [_ Hlx].
      split; apply (Hk' x); try done; unfold in_slab, SH_PREV, SH_NEXT; lia.
    + apply NoDup_app in HndP as (Ha & Hb' & [Hc' Hd]%NoDup_cons). apply NoDup_app. split_and!; [done| |done].
      intros x Hx Hx2. apply (Hb' x); set_solver.
    + intros x. split.
      * intros Hx. destruct (Hrest x Hx) as [Hne [lx Hlx]]. exists lx. split; [done|].
        apply lookup_delete_Some in Hlx as [_ Hlx]. destruct (proj1 (I8 x)) as (lx' & Hlx' & ?); [rewrite EP; set_solver|].
        by simplify_eq.
      * intros (lx & [Hne Hlx]%lookup_delete_Some & Hnn'). assert (x ∈ P) as Hx by (apply I8; eauto).
        rewrite EP in Hx. set_solver.
    + rewrite (live_slots_delete S s l Hs), E2, I9. replace (cap - Z.of_nat (length l)) with 1 by lia. lia.
    + rewrite map_size_delete_Some by eauto. replace (Z.of_nat (Nat.pred (size S))) with (Z.of_nat (size S) - 1) by lia.
      rewrite E1, I10. lia.
    + rewrite map_size_delete_Some by eauto. replace (Z.of_nat (Nat.pred (size S))) with (Z.of_nat (size S) - 1) by lia.
      rewrite E3. lia.
  - eapply changes_trans.
    + eapply changes_weaken; [|exact Hall]. intros x [->|Hx]; [by left|right; by left].
    + apply kept_changes in Hk. eapply changes_weaken; [|exact Hk]. intros x Hx. right; right.
      by rewrite lookup_delete_eq.
Qed.

Lemma wp_dealloc c pc m S P A s i l :
  slab_inv c pc m S P A -> room c pc -> S !! s = Some l -> 0 <= i < cap -> i ∉ l -> s + slab_size < W64 ->
  wp (dealloc (slot s i)) ((c, pc), m) (fun _ s' => exists S' P' A',
    released S A s i S' A' /\ slab_inv (fst (fst s')) (snd (fst s')) (snd s') S' P' A' /\
    changes (release_cell S S' A' s i) m (snd s')).
Proof.
  intros I Hroom Hs Hi Hni Hend'. pose proof (si_slabs _ _ _ _ _ _ I s l Hs) as K.
  pose proof (put_back_ok _ _ _ _ _ _ s i l I Hs Hi Hni) as B.
  destruct (slot_range i s Hi) as [Hlo Hhi]. destruct (lo_size LO) as [Hsz _]. destruct (lo_order LO) as [Ho Ho'].
  pose proof cap_facts as (Hc & _ & Hcb). pose proof slab_size_facts as (Hb & Eb & Es). pose proof stride_max as Hst.
  pose proof align_range as Har. pose proof (sk_range _ _ _ K) as [Hs0 Hend].
  assert (1 <= cap - Z.of_nat (length l)) as Hlive.
  { assert (Z.of_nat (length (i :: l)) <= cap); [|simpl in *; lia].
    apply free_count; [constructor; [done|apply (sk_nodup _ _ _ K)]|].
    intros j [->|Hj]%elem_of_cons; [done|by apply (sk_index _ _ _ K)]. }
  pose proof (free_count l (sk_nodup _ _ _ K) (sk_index _ _ _ K)) as Hlen.
  pose proof I as [I1 I2 _ _ _ _ _ _ _ _ _].
  unfold dealloc, cache. wp_step. wp_step. cbn [fst]. rewrite I1. wp_step.
  apply wp_ushl; [done|lia|fold (block_size order); unfold PAGE_SIZE; rewrite Z.mul_comm; fold (block_size order); fold slab_size; unfold W64; lia|].
  replace (PAGE_SIZE * 2 ^ order) with slab_size by (unfold slab_size, block_size, PAGE_SIZE; lia).
  rewrite (slab_base_of s i (sk_align _ _ _ K) (sk_range _ _ _ K) Hi). fold stride.
  assert (slot s i = s + stride + i * size_T) as Eslot by done. assert (0 <= i * size_T) by nia.
  assert ((slot s i - (s + stride)) / size_T = i) as Ediv by (rewrite Eslot, Z.add_simpl_l; apply Z.div_mul; lia).
  wp_step. wp_step. rewrite (sk_use _ _ _ K). wp_steps. unfold is_full. wp_steps; rewrite Ediv.
  apply wp_write_link; [apply K|done|]. wp_steps.
  all: assert (rd (wr (wr m (slot s i) (rd m (s + SH_FREE_HEAD))) (s + SH_FREE_HEAD) i) (s + SH_IN_USE)
          = cap - Z.of_nat (length l)) as Eu
    by (unfold SH_FREE_HEAD, SH_IN_USE in *; cells; exact (sk_use _ _ _ K)).
  { rewrite Eu. lia. }
  rewrite (sk_use _ _ _ K), (sk_cap _ _ _ K), Eu.
  set (m1 := wr (wr (wr m _ _) _ _) _ _) in *. destruct (Z.eqb_spec (cap - Z.of_nat (length l)) cap) as [Efull|Hpart].
  - assert (l = []) as -> by (apply length_zero_iff_nil; lia). apply wp_link.
    assert (s ∉ P) as HsP by (intros (l0 & Hl0 & Hne)%(si_partial _ _ _ _ _ _ I); by simplify_eq).
    assert (forall x, x ∈ s :: P -> is_Some (S !! x)) as HP.
    { intros x [->|Hx]%elem_of_cons; [eauto|]. destruct (proj1 (si_partial _ _ _ _ _ _ I x) Hx) as (lx & ? & _). eauto. }
    eapply wp_dealloc_keep; [exact I|exact Hroom|exact Hs|exact Hi|exact Hni|tauto|exact B| | | |].
    + apply dlist_push; [apply B|constructor; [done|apply (si_nodup _ _ _ _ _ _ I)]|lia|].
      eapply sep_slabs; [apply I|done].
    + constructor; [done|apply (si_nodup _ _ _ _ _ _ I)].
    + intros x. rewrite elem_of_cons, (si_partial _ _ _ _ _ _ I x). split.
      * intros [->|(lx & Hlx & Hne)]; [exists [i]; by rewrite lookup_insert_eq|].
        exists lx. rewrite lookup_insert_ne; [done|]. intros <-. by simplify_eq.
      * intros (lx & [[<- <-]|[Hne Hlx]]%lookup_insert_Some & Hnn); [by left|right; eauto].
    + eapply changes_weaken; [|apply push_mem_changes]. intros x [->|[->|[Hz ->]]]; [by exists s, []; auto..|].
      pose proof (dlist_head _ _ _ _ _ (si_list _ _ _ _ _ _ I)) as Hh. destruct P as [|q P']; [done|].
      simpl in Hh. destruct (HP q ltac:(set_solver)) as [lq Hq]. exists q, lq. rewrite Hh. auto.
  - assert (l <> []) as Hnn by (intros ->; simpl in Hpart; lia).
    unfold is_empty. wp_steps. unfold m1 at 1. rewrite rd_wr_eq.
    destruct (Z.eqb_spec (cap - Z.of_nat (length l) - 1) 0) as [Eempty|Hkeep].
    + eapply wp_dealloc_release; [exact I|exact Hroom|exact Hs|exact Hnn|exact Hi|exact Hni|lia|exact B].
    + wp_step. replace c with (with_partial (partial c) c) by (by destruct c).
      eapply wp_dealloc_keep; [exact I|exact Hroom|exact Hs|exact Hi|exact Hni|lia|exact B|apply B| | |].
      * apply (si_nodup _ _ _ _ _ _ I).
      * intros x. rewrite (si_partial _ _ _ _ _ _ I x). split.
        -- intros (lx & Hlx & Hne). destruct (decide (x = s)) as [->|Hxs].
           ++ exists (i :: l). by rewrite lookup_insert_eq.
           ++ exists lx. by rewrite lookup_insert_ne.
        -- intros (lx & [[<- <-]|[Hne Hlx]]%lookup_insert_Some & Hnn'); eauto.
      * apply changes_refl.
Qed.
End slab.
