(* ===== verification/SlabSpec.v ===== *)
(** * Properties of the slab cache

    The cache is run by clients that allocate objects, write into the ones
    they hold and release them ([cache_step]); the theorems are proved for any
    page allocator that satisfies the interface of [Pages], and the witnesses
    run the cache over the buddy allocator of [Buddy].  The statistics and the
    capacity-one cache behave differently from their documentation, which the
    last theorems show. *)

From S2P Require Import Prelude Dll Pages Buddy BuddySpec Slab.

Section clients.
Context {C : Type} {PA : PageAllocator C} (size_T align_T order : Z) (LO : layout_ok size_T align_T order).

Abbreviation slab_inv := (slab_inv size_T align_T order).
Abbreviation slot := (slot size_T align_T).
Abbreviation live := (live size_T align_T order).
Abbreviation room := (room size_T order).

(** The bytes of an object. *)
Definition object (p x : Z) : Prop := p <= x < p + size_T.

(** ** Clients of a cache *)

Record cache_sys := mkCacheSys {
  cs_run : SlabCacheInner * C * mem;
  cs_held : gset Z
}.

Definition cs_cache (s : cache_sys) : SlabCacheInner := fst (fst (cs_run s)).
Definition cs_pages (s : cache_sys) : C := snd (fst (cs_run s)).
Definition cs_mem (s : cache_sys) : mem := snd (cs_run s).

Definition cs_room (s : cache_sys) : Prop := room (cs_cache s) (cs_pages s).

(** A fresh cache over a page allocator whose clients hold [A]. *)
Inductive cache_init : cache_sys -> Prop :=
  | ci_new c pc m A :
      SlabCacheInner_new size_T align_T order = Some c -> pa_inv pc m A ->
      cache_init (mkCacheSys ((c, pc), m) ∅).

Inductive cache_step : cache_sys -> cache_sys -> Prop :=
  | cs_alloc s p r :
      cs_room s -> alloc size_T align_T (cs_run s) = Ok (Some p, r) ->
      cache_step s (mkCacheSys r ({[p]} ∪ cs_held s))
  | cs_alloc_fail s r :
      cs_room s -> alloc size_T align_T (cs_run s) = Ok (None, r) ->
      cache_step s (mkCacheSys r (cs_held s))
  | cs_dealloc s p r :
      cs_room s -> p ∈ cs_held s -> p + slab_size order < W64 ->
      dealloc size_T align_T p (cs_run s) = Ok (tt, r) ->
      cache_step s (mkCacheSys r (cs_held s ∖ {[p]}))
  | cs_write s p m' :
      p ∈ cs_held s -> changes (object p) (cs_mem s) m' ->
      cache_step s (mkCacheSys (fst (cs_run s), m') (cs_held s)).

Definition cache_reach (s : cache_sys) : Prop := exists s0, cache_init s0 /\ rtc cache_step s0 s.

(** ** The invariant *)

Definition cache_inv (s : cache_sys) : Prop := exists S P A,
  slab_inv (cs_cache s) (cs_pages s) (cs_mem s) S P A /\
  forall p, p ∈ cs_held s <-> exists t j, live S t j /\ p = slot t j.

Lemma live_facts c pc m S P A t j : slab_inv c pc m S P A -> live S t j ->
  slab_ok size_T align_T order m t (default [] (S !! t)) /\ (order, t) ∈ A /\
  t + 32 <= slot t j /\ slot t j + size_T <= t + slab_size order.
Proof.
  intros I (l & Hl & Hj & _). destruct (slot_range size_T align_T order LO j t Hj).
  split_and!; rewrite ?Hl; simpl; try done.
  - by apply (si_slabs _ _ _ _ _ _ _ _ _ I).
  - by eapply (si_held _ _ _ _ _ _ _ _ _ I).
Qed.

(** Two live objects are the same slot or do not overlap. *)
Lemma live_apart c pc m S P A t j t' j' : slab_inv c pc m S P A -> live S t j -> live S t' j' ->
  (t = t' /\ j = j') \/ slot t j + size_T <= slot t' j' \/ slot t' j' + size_T <= slot t j.
Proof.
  intros I H1 H2. destruct (live_facts _ _ _ _ _ _ _ _ I H1) as (K1 & _ & ? & ?).
  destruct (live_facts _ _ _ _ _ _ _ _ I H2) as (K2 & _ & ? & ?).
  destruct (decide (t = t')) as [<-|Hne].
  - destruct (decide (j = j')) as [<-|Hj]; [by left|right]. by eapply slot_disj.
  - right. destruct (slabs_apart size_T align_T order LO t t' (sk_align _ _ _ _ _ _ K1) (sk_align _ _ _ _ _ _ K2) Hne); lia.
Qed.

Lemma live_slot_inj c pc m S P A t j t' j' : slab_inv c pc m S P A -> live S t j -> live S t' j' ->
  slot t j = slot t' j' -> t = t' /\ j = j'.
Proof.
  intros I H1 H2 E. destruct (lo_size _ _ _ LO). destruct (live_apart _ _ _ _ _ _ _ _ _ _ I H1 H2); [done|lia].
Qed.

(** Headers never overlap live objects. *)
Lemma live_header c pc m S P A t j q lq x : slab_inv c pc m S P A -> live S t j -> S !! q = Some lq ->
  q <= x < q + SLAB_HEADER -> object (slot t j) x -> False.
Proof.
  intros I H1 Hq Hx Hob. destruct (live_facts _ _ _ _ _ _ _ _ I H1) as (K1 & _ & ? & ?).
  pose proof (slab_size_facts _ _ _ LO) as (Hb & _). unfold object, SLAB_HEADER in *.
  destruct (decide (t = q)) as [->|Hne]; [lia|].
  pose proof (si_slabs _ _ _ _ _ _ _ _ _ I q lq Hq) as K2.
  destruct (slabs_apart size_T align_T order LO t q (sk_align _ _ _ _ _ _ K1) (sk_align _ _ _ _ _ _ K2) Hne); lia.
Qed.

Lemma live_in_block c pc m S P A t j x : slab_inv c pc m S P A -> live S t j -> object (slot t j) x ->
  in_block (order, t) x.
Proof.
  intros I H1 Hob. destruct (live_facts _ _ _ _ _ _ _ _ I H1) as (_ & _ & ? & ?).
  unfold in_block, object, slab_size in *. simpl. lia.
Qed.

(** Allocation leaves the bytes of the live objects alone. *)
Lemma alloc_keeps c pc m S P A m' t j x : slab_inv c pc m S P A -> live S t j ->
  changes (alloc_cell S A) m m' -> object (slot t j) x -> rd m' x = rd m x.
Proof.
  intros I H1 Hc Hob. eapply changes_eq; [exact Hc|]. intros [Hf|(q & lq & Hq & Hx)].
  - apply (Hf (order, t)); [by eapply live_facts|by eapply live_in_block].
  - by eapply live_header.
Qed.

(** So does the release of another object. *)
Lemma release_keeps c pc m S P A c' pc' m' S' P' A' s i t j x :
  slab_inv c pc m S P A -> slab_inv c' pc' m' S' P' A' -> live S s i ->
  released size_T align_T order S A s i S' A' -> live S' t j ->
  changes (release_cell size_T align_T S S' A' s i) m m' -> object (slot t j) x -> rd m' x = rd m x.
Proof.
  intros I I' Hs [Hlv _ _] H1 Hc Hob. pose proof H1 as [H0 Hne]%Hlv.
  eapply changes_eq; [exact Hc|]. intros [->|[(q & lq & Hq & Hx)|[_ Hf]]].
  - destruct (lo_size _ _ _ LO). destruct (live_apart _ _ _ _ _ _ _ _ _ _ I H0 Hs) as [?|?]; [done|].
    unfold object in Hob. lia.
  - exact (live_header _ _ _ _ _ _ _ _ _ _ _ I H0 Hq Hx Hob).
  - apply (Hf (order, t)); [by eapply (live_facts c' pc')|by eapply (live_in_block c pc)].
Qed.

(** A client's writes into a live object keep the cache consistent. *)
Lemma slab_inv_write c pc m m' S P A t j :
  slab_inv c pc m S P A -> live S t j -> changes (object (slot t j)) m m' -> slab_inv c pc m' S P A.
Proof.
  intros I H1 Hc. destruct (live_facts _ _ _ _ _ _ _ _ I H1) as (K1 & HA & Hlo & Hhi).
  destruct (lo_size _ _ _ LO) as [Hsz _].
  assert (forall q lq x, S !! q = Some lq -> q <= x < q + SLAB_HEADER -> rd m' x = rd m x) as Hhead.
  { intros q lq x Hq Hx. eapply changes_eq; [exact Hc|]. intros Hob. exact (live_header _ _ _ _ _ _ _ _ _ _ _ I H1 Hq Hx Hob). }
  pose proof I as [I1 I2 I3 I4 I5 I6 I7 I8 I9 I10 I11]. split; try done.
  - eapply pa_changes; [done|]. eapply changes_weaken; [|exact Hc]. intros x Hx. exists (order, t).
    split; [done|]. exact (live_in_block _ _ _ _ _ _ _ _ _ I H1 Hx).
  - intros q lq Hq. destruct (decide (q = t)) as [->|Hne].
    + pose proof (I5 t lq Hq) as K. destruct H1 as (l & Hl & Hj & Hni). rewrite Hq in Hl. injection Hl as ->.
      destruct K as [E1 E2 E3 E4 E5 E6 E7]. split; try done.
      * rewrite (Hhead t l _ Hq); [done|]. unfold SH_IN_USE, SLAB_HEADER. lia.
      * rewrite (Hhead t l _ Hq); [done|]. unfold SH_CAPACITY, SLAB_HEADER. lia.
      * rewrite (Hhead t l _ Hq) by (unfold SH_FREE_HEAD, SLAB_HEADER; lia).
        eapply chain_ext; [exact LO| |exact E5]. intros i Hi. eapply changes_eq; [exact Hc|]. unfold object.
        assert (i <> j) as Hij by (by intros ->). destruct (slot_disj size_T align_T order LO t i j Hij); lia.
    + eapply slab_ok_other; [exact LO|by apply I5|exact (sk_align _ _ _ _ _ _ K1)|done|].
      eapply changes_weaken; [|exact Hc]. unfold object, in_slab. intros x. lia.
  - eapply dlist_ext; [|exact I6]. intros x (lx & Hx & _)%I8.
    split; eapply Hhead; try exact Hx; unfold SH_PREV, SH_NEXT, SLAB_HEADER; lia.
Qed.

(** A new cache has no slabs. *)
Lemma slab_inv_new c (pc : C) m A : SlabCacheInner_new size_T align_T order = Some c -> pa_inv pc m A -> slab_inv c pc m ∅ [] A.
Proof.
  intros Hc HA. unfold SlabCacheInner_new in Hc. destruct (assert_slab_compatible _ _); [|done]. injection Hc as <-.
  split; cbn [slab_order capacity partial stats used_bytes total_bytes free_bytes]; try done; [constructor|..].
  - intros x. split; [by intros ?%elem_of_nil|]. by intros (l & Hl & _).
  - rewrite map_size_empty. lia.
Qed.

Lemma cache_init_inv s : cache_init s -> cache_inv s.
Proof.
  intros [c pc m A Hc HA]. exists ∅, [], A. split; [exact (slab_inv_new c pc m A Hc HA)|].
  intros p. split; [by intros ?%elem_of_empty|]. by intros (t & j & (l & Hl & _) & _).
Qed.

Lemma held_live (S : gmap Z (list Z)) (held : gset Z) : (forall p, p ∈ held <-> exists t j, live S t j /\ p = slot t j) ->
  forall p, p ∈ held -> exists t j l, S !! t = Some l /\ 0 <= j < cap size_T align_T order /\ j ∉ l /\ p = slot t j.
Proof. intros H p (t & j & (l & Hl & Hj & Hn) & ->)%H. eauto 8. Qed.

Lemma cache_step_inv s s' : cache_inv s -> cache_step s s' -> cache_inv s'.
Proof.
  intros (S & P & A & I & Hheld) Hs. destruct Hs as [s p r Hr Hrun|s r Hr Hrun|s p r Hr Hp Hend Hrun|s p m' Hp Hch].
  - pose proof (wp_alloc size_T align_T order LO _ _ _ _ _ _ I Hr) as Hw.
    destruct s as [[[c pc] m] held]. unfold cs_cache, cs_pages, cs_mem in *. cbn [cs_run cs_held fst snd] in *.
    use_run Hw Hrun. destruct Hpost as (t & j & S' & P' & A' & -> & [_ _ _ Hlv _ _ _] & I' & _).
    exists S', P', A'. split; [exact I'|]. intros q. cbn [cs_held].
    rewrite elem_of_union, elem_of_singleton, Hheld. setoid_rewrite Hlv. naive_solver.
  - pose proof (wp_alloc size_T align_T order LO _ _ _ _ _ _ I Hr) as Hw.
    destruct s as [[[c pc] m] held]. unfold cs_cache, cs_pages, cs_mem in *. cbn [cs_run cs_held fst snd] in *.
    use_run Hw Hrun. destruct Hpost as (_ & I' & _). exists S, P, A. split; [exact I'|exact Hheld].
  - destruct (held_live _ _ Hheld p Hp) as (t & j & l & Hl & Hj & Hn & ->).
    assert (t + slab_size order < W64) as Hend'.
    { unfold Slab.slot in Hend. destruct (slot_range size_T align_T order LO j t Hj). unfold Slab.slot in *. lia. }
    pose proof (wp_dealloc size_T align_T order LO _ _ _ _ _ _ t j l I Hr Hl Hj Hn Hend') as Hw.
    assert (live S t j) as Hlive by (by exists l).
    destruct s as [[[c pc] m] held]. unfold cs_cache, cs_pages, cs_mem in *. cbn [cs_run cs_held fst snd] in *.
    use_run Hw Hrun. destruct Hpost as (S' & P' & A' & [Hlv _ _] & I' & _).
    exists S', P', A'. split; [exact I'|]. intros q. cbn [cs_held].
    rewrite elem_of_difference, elem_of_singleton, Hheld. setoid_rewrite Hlv. split.
    + intros [(t' & j' & H' & ->) Hne]. exists t', j'. split_and!; [done| |done]. by intros [-> ->].
    + intros (t' & j' & [H' Hne] & ->). split; [by eauto|]. intros E. apply Hne.
      by eapply (live_slot_inj c pc).
  - apply Hheld in Hp as (t & j & Hlive & ->). exists S, P, A. split; [|exact Hheld].
    by apply (slab_inv_write (cs_cache s) (cs_pages s) (cs_mem s) m' S P A t j).
Qed.

Lemma cache_reach_inv s : cache_reach s -> cache_inv s.
Proof.
  intros (s0 & H0 & Hr). apply cache_init_inv in H0. induction Hr as [|s1 s2 s3 Hs _ IH]; [done|].
  apply IH. by eapply cache_step_inv.
Qed.

(** ** Properties *)

(** C12: in every state clients can reach, the objects they hold are aligned,
    inside the address space, and pairwise disjoint.  [layout_ok] asks that the
    object size is a multiple of 8 unless a slab holds one object; without it
    no object is ever handed out ([slab_odd_size_panics]). *)
Theorem slab_no_overlap s p q :
  cache_reach s -> p ∈ cs_held s -> q ∈ cs_held s ->
  p mod align_T = 0 /\ 0 < p /\ p + size_T <= W64 /\
  (p <> q -> forall x, object p x -> object q x -> False).
Proof.
  intros (S & P & A & I & Hheld)%cache_reach_inv Hp Hq.
  apply Hheld in Hp as (t & j & Ht & ->). apply Hheld in Hq as (t' & j' & Ht' & ->).
  destruct (live_facts _ _ _ _ _ _ _ _ I Ht) as (K & _ & Hlo & Hhi). pose proof (sk_range _ _ _ _ _ _ K).
  split_and!; [|lia|lia|].
  - apply (slot_aligned size_T align_T order LO). exact (sk_align _ _ _ _ _ _ K).
  - intros Hne x Hx Hy. unfold object in *.
    destruct (live_apart _ _ _ _ _ _ _ _ _ _ I Ht Ht') as [[-> ->]|?]; [done|lia].
Qed.

(** C13: an allocation in a reachable state returns; the object it returns was
    not held, overlaps no held object, and every byte of every held object is
    preserved, also when the page allocator refuses a new slab.  Layouts as in
    [slab_no_overlap]. *)
Theorem slab_alloc_sound s :
  cache_reach s -> cs_room s ->
  exists r s', alloc size_T align_T (cs_run s) = Ok (r, s') /\
    (forall q x, q ∈ cs_held s -> object q x -> rd (snd s') x = rd (cs_mem s) x) /\
    match r with
    | None => partial (cs_cache s) = 0
    | Some p => p ∉ cs_held s /\ p mod align_T = 0 /\
        forall q x, q ∈ cs_held s -> object q x -> object p x -> False
    end.
Proof.
  intros (S & P & A & I & Hheld)%cache_reach_inv Hr.
  pose proof (wp_alloc size_T align_T order LO _ _ _ _ _ _ I Hr) as Hw.
  destruct s as [[[c pc] m] held]. unfold cs_cache, cs_pages, cs_mem in *. cbn [cs_run cs_held fst snd] in *.
  apply wp_run in Hw as (r & s' & Hrun & Hpost). exists r, s'. split; [done|]. destruct r as [p|].
  - destruct Hpost as (t & j & S' & P' & A' & -> & [_ _ Hfr Hlv Hal _ _] & I' & Hch).
    assert (live S' t j) as Hnew by (apply Hlv; auto).
    split_and!; [|intros (t' & j' & Ht & E)%Hheld|done|].
    + intros q x (t' & j' & Ht & ->)%Hheld Hx. by eapply (alloc_keeps c pc m).
    + assert (live S' t' j') as Ht' by (apply Hlv; auto).
      destruct (live_slot_inj _ _ _ _ _ _ _ _ _ _ I' Hnew Ht' E) as [-> ->]. by apply Hfr.
    + intros q x (t' & j' & Ht & ->)%Hheld Hq Hp. assert (live S' t' j') as Ht' by (apply Hlv; auto).
      destruct (live_apart _ _ _ _ _ _ _ _ _ _ I' Hnew Ht') as [[-> ->]|?]; [by apply Hfr|].
      unfold object in *. lia.
  - destruct Hpost as (Hfull & I' & Hk). split.
    + intros q x (t' & j' & Ht & ->)%Hheld Hx. apply (Hk (order, t')); [by eapply (live_facts c pc)|].
      by eapply (live_in_block c pc).
    + apply (dlist_null _ _ _ _ _ (si_list _ _ _ _ _ _ _ _ _ I)).
      destruct P as [|s P']; [done|]. destruct (proj1 (si_partial _ _ _ _ _ _ _ _ _ I s)) as (l & Hl & Hne); [set_solver|].
      by apply Hfull in Hl.
Qed.

(** C14: releasing a held object returns and preserves every byte of the
    other held objects; the slab goes back to the page allocator exactly when
    the object was its last one and another slot of it was already free.
    Layouts as in [slab_no_overlap]. *)
Theorem slab_dealloc_sound s p :
  cache_reach s -> cs_room s -> p ∈ cs_held s -> p + slab_size order < W64 ->
  exists s' S P A S' P' A' t j, dealloc size_T align_T p (cs_run s) = Ok (tt, s') /\
    (forall q x, q ∈ cs_held s -> q <> p -> object q x -> rd (snd s') x = rd (cs_mem s) x) /\
    p = slot t j /\ slab_inv (cs_cache s) (cs_pages s) (cs_mem s) S P A /\
    slab_inv (fst (fst s')) (snd (fst s')) (snd s') S' P' A' /\
    released size_T align_T order S A t j S' A'.
Proof.
  intros (S & P & A & I & Hheld)%cache_reach_inv Hr Hp Hend.
  destruct (held_live _ _ Hheld p Hp) as (t & j & l & Hl & Hj & Hn & ->).
  assert (t + slab_size order < W64) as Hend'.
  { destruct (slot_range size_T align_T order LO j t Hj). unfold Slab.slot in *. lia. }
  pose proof (wp_dealloc size_T align_T order LO _ _ _ _ _ _ t j l I Hr Hl Hj Hn Hend') as Hw.
  destruct s as [[[c pc] m] held]. unfold cs_cache, cs_pages, cs_mem in *. cbn [cs_run cs_held fst snd] in *.
  assert (live S t j) as Hlive by (by exists l).
  apply wp_run in Hw as ([] & [[c' pc'] m'] & Hrun & S' & P' & A' & Hrel & I' & Hch). cbn [fst snd] in *.
  exists ((c', pc'), m'), S, P, A, S', P', A', t, j. split_and!; try done.
  intros q x (t' & j' & Ht & ->)%Hheld Hne Hx.
  eapply (release_keeps c pc m S P A c' pc' m' S' P' A' t j t' j'); try done.
  apply (re_live _ _ _ _ _ _ _ _ _ Hrel). split; [done|]. by intros [-> ->].
Qed.

(** A cache whose slabs hold one object each never gives a slab back: the
    release of its object relinks the empty slab in the partial list. *)
Theorem slab_capacity_one_never_released c pc m S P A t :
  slab_inv c pc m S P A -> room c pc -> cap size_T align_T order = 1 -> live S t 0 ->
  t + slab_size order < W64 ->
  exists c' pc' m' S' P', dealloc size_T align_T (slot t 0) ((c, pc), m) = Ok (tt, ((c', pc'), m')) /\
    slab_inv c' pc' m' S' P' A /\ is_Some (S' !! t) /\ ~ live S' t 0.
Proof.
  intros I Hr Hcap Hlive Hend. pose proof Hlive as (l & Hl & Hj & Hn).
  pose proof (wp_dealloc size_T align_T order LO _ _ _ _ _ _ t 0 l I Hr Hl Hj Hn Hend) as Hw.
  apply wp_run in Hw as ([] & [[c' pc'] m'] & Hrun & S' & P' & A' & [Hlv (l' & Hl' & Hbl) _] & I' & _). cbn [fst snd] in *.
  rewrite Hl in Hl'. injection Hl' as <-. rewrite bool_decide_false in Hbl.
  - destruct Hbl as [-> Hsome]. exists c', pc', m', S', P'. split_and!; [done..|].
    intros [_ Hne]%Hlv. by apply Hne.
  - intros [Hne Hlen]. rewrite Hcap in Hlen. destruct l; [done|]. simpl in Hlen. lia.
Qed.
End clients.

(** ** A cache over the buddy allocator *)

Lemma reach_alloc size_T align_T order (s : cache_sys (C:=BuddyAllocator)) p :
  cache_reach size_T align_T order s -> cs_room size_T order s ->
  result (alloc size_T align_T) (cs_run s) = Some (Some p) ->
  cache_reach size_T align_T order (mkCacheSys (final (alloc size_T align_T) (cs_run s)) ({[p]} ∪ cs_held s)).
Proof.
  intros (s0 & H0 & Hs) Hr Hrun. exists s0. split; [done|]. eapply rtc_r; [exact Hs|].
  apply cs_alloc; [done|by apply run_ok].
Qed.

Lemma reach_dealloc size_T align_T order (s : cache_sys (C:=BuddyAllocator)) p :
  cache_reach size_T align_T order s -> cs_room size_T order s -> p ∈ cs_held s ->
  p + slab_size order < W64 -> result (dealloc size_T align_T p) (cs_run s) = Some tt ->
  cache_reach size_T align_T order (mkCacheSys (final (dealloc size_T align_T p) (cs_run s)) (cs_held s ∖ {[p]})).
Proof.
  intros (s0 & H0 & Hs) Hr Hp Hend Hrun. exists s0. split; [done|]. eapply rtc_r; [exact Hs|].
  apply cs_dealloc; [done|done|done|by apply run_ok].
Qed.

(** A fresh cache over the eight pages of [run1]. *)
Definition fresh_cache (size_T align_T : Z) : cache_sys :=
  mkCacheSys ((mkSlab 0 (capacity_for size_T align_T 0) 0 (mkSlabStats 0 0 0 0 0 0), fst run1), snd run1) ∅.

Lemma fresh_reach size_T align_T : assert_slab_compatible size_T align_T = true ->
  cache_reach size_T align_T 0 (fresh_cache size_T align_T).
Proof.
  intros Ha. eexists. split; [|constructor]. apply (ci_new size_T align_T 0 _ (fst run1) (snd run1) ∅).
  - unfold SlabCacheInner_new. by rewrite Ha.
  - destruct (reach_inv _ run1_reach) as [F I]. exists F, ∅. split; [apply I|]. split; [done|]. by vm_compute.
Qed.

(** Room, by evaluation. *)
Ltac room_by_compute := unfold cs_room, room; split_and!; by vm_compute.

(** 64-byte objects: 63 to a slab. *)
Lemma layout64 : layout_ok 64 8 0.
Proof. split; [by unfold W32| |by exists 8|lia|by vm_compute|by exists 8]. exists 3. split; [lia|done]. Qed.

Definition p1 : Z := 1048608.
Definition p2 : Z := 1048672.
Definition c0 : cache_sys := fresh_cache 64 8.
Definition c1 : cache_sys := mkCacheSys (final (alloc 64 8) (cs_run c0)) ({[p1]} ∪ cs_held c0).
Definition c2 : cache_sys := mkCacheSys (final (alloc 64 8) (cs_run c1)) ({[p2]} ∪ cs_held c1).

Lemma c0_reach : cache_reach 64 8 0 c0.
Proof. by apply fresh_reach. Qed.
Lemma c1_reach : cache_reach 64 8 0 c1.
Proof. apply reach_alloc; [apply c0_reach|room_by_compute|by vm_compute]. Qed.
Lemma c2_reach : cache_reach 64 8 0 c2.
Proof. apply reach_alloc; [apply c1_reach|room_by_compute|by vm_compute]. Qed.

Lemma slab_no_overlap_witness : object 64 p1 (p1 + 63) /\ ~ object 64 p2 (p1 + 63).
Proof.
  split; [by vm_compute|].
  intros Hx. apply (slab_no_overlap 64 8 0 layout64 c2 p1 p2 c2_reach) in Hx; [done|simpl; set_solver..|done|].
  by vm_compute.
Defined.

Lemma slab_alloc_sound_witness :
  exists p s', alloc 64 8 (cs_run c1) = Ok (Some p, s') /\ p ∉ cs_held c1 /\ p mod 8 = 0.
Proof.
  destruct (slab_alloc_sound 64 8 0 layout64 c1 c1_reach) as ([p|] & s' & Hrun & _ & Hp); [room_by_compute| |].
  - exists p, s'. tauto.
  - exfalso. revert Hp. by vm_compute.
Defined.

Lemma slab_dealloc_sound_witness :
  exists s', dealloc 64 8 p1 (cs_run c2) = Ok (tt, s') /\
    forall x, object 64 p2 x -> rd (snd s') x = rd (cs_mem c2) x.
Proof.
  destruct (slab_dealloc_sound 64 8 0 layout64 c2 p1 c2_reach) as (s' & _ & _ & _ & _ & _ & _ & _ & _ & Hrun & Hk & _);
    [room_by_compute|simpl; set_solver|by vm_compute|].
  exists s'. split; [done|]. intros x. apply Hk; [simpl; set_solver|done].
Defined.

(** 4064-byte objects: one to a slab. *)
Lemma layout4064 : layout_ok 4064 8 0.
Proof. split; [by unfold W32| |by exists 508|lia|by vm_compute|by exists 508]. exists 3. split; [lia|done]. Qed.

Definition d1 : cache_sys :=
  mkCacheSys (final (alloc 4064 8) (cs_run (fresh_cache 4064 8))) ({[p1]} ∪ cs_held (fresh_cache 4064 8)).

Lemma d1_reach : cache_reach 4064 8 0 d1.
Proof. apply reach_alloc; [by apply fresh_reach|room_by_compute|by vm_compute]. Qed.

Lemma slab_capacity_one_never_released_witness :
  exists c' pc' m', dealloc 4064 8 p1 (cs_run d1) = Ok (tt, ((c', pc'), m')).
Proof.
  destruct (cache_reach_inv 4064 8 0 layout4064 d1 d1_reach) as (S & P & A & I & Hheld).
  destruct (proj1 (Hheld p1)) as (t & j & Hlive & E); [simpl; set_solver|].
  assert (j = 0) as -> by (destruct Hlive as (l & _ & Hj & _); change (cap 4064 8 0) with 1 in Hj; lia).
  rewrite E. destruct (slab_capacity_one_never_released 4064 8 0 layout4064 _ _ _ S P A t I) as (c' & pc' & m' & _ & _ & Hrun & _);
    [room_by_compute|by vm_compute|done| |by exists c', pc', m'].
  unfold slot in E. change (stride 8) with 32 in E. unfold p1 in E.
  assert (t = 1048576) as -> by lia. by vm_compute.
Defined.

Definition c3 : cache_sys := mkCacheSys (final (dealloc 64 8 p2) (cs_run c2)) (cs_held c2 ∖ {[p2]}).
Definition c4 : cache_sys := mkCacheSys (final (alloc 64 8) (cs_run c3)) ({[p2]} ∪ cs_held c3).
Definition c5 : cache_sys := mkCacheSys (final (dealloc 64 8 p2) (cs_run c4)) (cs_held c4 ∖ {[p2]}).

(** The cache accepts object types of at least eight bytes, whatever their
    alignment, and threads its list through words at multiples of their size:
    with objects of 12 bytes aligned to 4 the second slot's link is misaligned,
    and the first allocation panics. *)
Theorem slab_odd_size_panics :
  assert_slab_compatible 12 4 = true /\ alloc 12 4 (cs_run (fresh_cache 12 4)) = Panic.
Proof. by vm_compute. Qed.

(** The free-byte statistic drifts: [grow] counts a new slab's slots as
    free, [alloc] never subtracts, [dealloc] adds; after two allocations and
    two releases of the second object the cache reports more free bytes than
    it owns. *)
Theorem slab_free_bytes_exceed_total :
  cache_reach 64 8 0 c5 /\ total_bytes (stats (cs_cache c5)) = 4096 /\ free_bytes (stats (cs_cache c5)) = 4160 /\
  used_bytes (stats (cs_cache c5)) = 64.
Proof.
  split; [|by vm_compute]. apply reach_dealloc; [|room_by_compute|simpl; set_solver|by vm_compute..].
  apply reach_alloc; [|room_by_compute|by vm_compute].
  apply reach_dealloc; [apply c2_reach|room_by_compute|simpl; set_solver|by vm_compute..].
Qed.
