(* ===== verification/Serial.v ===== *)
(** * The serial log, panics and the test runner

    src/src/writers/serial.rs: text goes out on the port at 0x3F8, behind a spin
    lock that the first use creates.  The uart_16550 crate that drives the port
    is not part of this repository: here the port is the bytes handed to it.
    src/src/panic.rs prints on it and halts; src/src/testing.rs prints the
    results of the kernel's tests and leaves QEMU.

    The formats of core::fmt that the kernel prints with are functions to
    bytes.  Spinning on a lock that is never released is [OutOfFuel]. *)

From Stdlib Require Import Ascii String.
From stdpp Require Import strings.
From S2P Require Import Prelude.

(** ** Text *)

(** The bytes of a literal. *)
Definition text (s : string) : list Z :=
  List.map (fun c => Z.of_N (N_of_ascii c)) (list_ascii_of_string s).

Definition digit (d : Z) : Z := if d <? 10 then 48 + d else 87 + d.

(** The digits of [n] in front of [acc], the lowest one first to be found. *)
Fixpoint digits (fuel : nat) (base n : Z) (acc : list Z) : list Z :=
  match fuel with
  | O => acc
  | S fuel =>
      let acc := digit (n mod base) :: acc in
      if n / base =? 0 then acc else digits fuel base (n / base) acc
  end.

(** [{:#x}] and [{}] of a 64-bit number. *)
Definition hex (n : Z) : list Z := text "0x" ++ digits 16 16 n [].
Definition dec (n : Z) : list Z := digits 20 10 n [].

(** ** The port *)
Definition SERIAL_BASE : Z := 0x3F8.

Record Serial : Type := mkSerial {
  opened : option Z;   (* the base of the initialised port *)
  locked : bool;
  sent : list Z
}.

Definition SERIAL1 : Serial := mkSerial None false [].

(** Dereferencing the [lazy_static] initialises the port the first time. *)
Definition serial_force : M Serial unit :=
  modify (fun s => match opened s with
                   | Some _ => s
                   | None => mkSerial (Some SERIAL_BASE) (locked s) (sent s)
                   end).

Definition serial_lock : M Serial unit :=
  serial_force ;;
  let* s := get in
  if locked s then out_of_fuel else put (mkSerial (opened s) true (sent s)).
Definition serial_unlock : M Serial unit := modify (fun s => mkSerial (opened s) false (sent s)).
Definition serial_write (t : list Z) : M Serial unit := modify (fun s => mkSerial (opened s) (locked s) (sent s ++ t)).

Definition _print (t : list Z) : M Serial unit := serial_lock ;; serial_write t ;; serial_unlock.

(** [serial_print!] and [serial_println!]. *)
Definition serial_print (t : list Z) : M Serial unit := _print t.
Definition serial_println (t : list Z) : M Serial unit := serial_print (t ++ [10]).

(** ** Panics (panic.rs) *)

(** What the handler works on: the interrupt flag, the port, and the writes to
    QEMU's exit port. *)
Record Host : Type := mkHost {
  h_IF : bool;
  h_serial : Serial;
  h_exit : list Z
}.

Definition on_serial {A} (f : M Serial A) : M Host A := fun h =>
  match f (h_serial h) with
  | Ok (a, s) => Ok (a, mkHost (h_IF h) s (h_exit h))
  | Panic => Panic
  | OutOfFuel => OutOfFuel
  end.

Definition disable : M Host unit := modify (fun h => mkHost false (h_serial h) (h_exit h)).

(** Up to the endless loop of [hlt]. *)
Definition panic_handler (info : list Z) : M Host unit :=
  disable ;; on_serial (serial_println (text "[PANIC] " ++ info)).

(** ** The test runner (testing.rs) *)
Inductive QemuExitCode : Type := Success | Failed.
Definition exit_u32 (c : QemuExitCode) : Z := match c with Success => 0x10 | Failed => 0x11 end.

(** The code goes to the port twice. *)
Definition exit_qemu (code : QemuExitCode) : M Host unit :=
  disable ;;
  modify (fun h => mkHost (h_IF h) (h_serial h) (h_exit h ++ [exit_u32 code])) ;;
  modify (fun h => mkHost (h_IF h) (h_serial h) (h_exit h ++ [exit_u32 code])).

(** A test: its type's name and what it does. *)
Record Testable : Type := mkTest {
  type_name : list Z;
  test_fn : M Host unit
}.

Definition run_test (t : Testable) : M Host unit :=
  on_serial (serial_print (type_name t ++ text "... ")) ;;
  test_fn t ;;
  on_serial (serial_println (text "[ok]")).

Fixpoint run_tests (tests : list Testable) : M Host unit :=
  match tests with
  | [] => ret tt
  | t :: tests' => run_test t ;; run_tests tests'
  end.

Definition test_runner (tests : list Testable) : M Host unit :=
  on_serial (serial_println ([10] ++ text "running " ++ dec (Z.of_nat (length tests)) ++ text " test" ++
    (if (length tests =? 1)%nat then [] else text "s"))) ;;
  run_tests tests ;;
  on_serial (serial_println (text "all tests passed")) ;;
  exit_qemu Success.

Definition test_panic_handler (info : list Z) : M Host unit :=
  on_serial (serial_println (text "[FAILED]")) ;;
  on_serial (serial_println info) ;;
  exit_qemu Failed.

(** The panic handler of a test build. *)
Definition panic_handler_test (info : list Z) : M Host unit := disable ;; test_panic_handler info.

(** ** Lemmas *)

(** Printing on a free port appends the text. *)
Definition idle (s : Serial) : Prop := locked s = false.
Definition after (s : Serial) (t : list Z) : Serial := mkSerial (Some (default SERIAL_BASE (opened s))) false (sent s ++ t).

Lemma run_serial_print t s : idle s -> serial_print t s = Ok (tt, after s t).
Proof. destruct s as [[b|] l st]; unfold idle; cbn [locked]; by intros ->. Qed.

Lemma run_serial_println t s : idle s -> serial_println t s = Ok (tt, after s (t ++ [10])).
Proof. apply run_serial_print. Qed.

Lemma after_idle s t : idle (after s t).
Proof. done. Qed.

Lemma after_after s t u : after (after s t) u = after s (t ++ u).
Proof. unfold after. cbn [opened sent]. by rewrite app_assoc. Qed.

Lemma locked_print t s : locked s = true -> serial_print t s = OutOfFuel.
Proof. destruct s as [[b|] l st]; cbn [locked]; by intros ->. Qed.

(** The value of a numeral. *)
Definition digit_value (c : Z) : Z := if c <? 58 then c - 48 else c - 87.
Definition value (base : Z) (l : list Z) : Z := foldl (fun n c => n * base + digit_value c) 0 l.

Lemma digit_value_digit d : 0 <= d < 16 -> digit_value (digit d) = d.
Proof.
  intros Hd. unfold digit, digit_value. destruct (Z.ltb_spec d 10).
  - rewrite (proj2 (Z.ltb_lt _ _)) by lia. lia.
  - rewrite (proj2 (Z.ltb_ge _ _)) by lia. lia.
Qed.

Lemma value_app base l1 l2 : value base (l1 ++ l2) = foldl (fun n c => n * base + digit_value c) (value base l1) l2.
Proof. unfold value. by rewrite foldl_app. Qed.

Lemma digits_app fuel base : forall n acc, digits fuel base n acc = digits fuel base n [] ++ acc.
Proof.
  induction fuel as [|fuel IH]; intros n acc; cbn [digits]; [done|].
  destruct (n / base =? 0); [done|]. rewrite (IH _ (_ :: acc)), (IH _ [_]). by rewrite <- app_assoc.
Qed.

Lemma value_digits fuel base : 2 <= base <= 16 -> forall n, 0 <= n < base ^ Z.of_nat fuel ->
  value base (digits fuel base n []) = n.
Proof.
  intros Hb. induction fuel as [|fuel IH]; intros n Hn.
  { change (base ^ Z.of_nat 0) with 1 in Hn. cbn [digits]. unfold value. cbn. lia. }
  rewrite Nat2Z.inj_succ, Z.pow_succ_r in Hn by lia. cbn [digits].
  pose proof (Z.div_mod n base ltac:(lia)) as Hdm. pose proof (Z.mod_pos_bound n base ltac:(lia)).
  assert (0 <= n / base < base ^ Z.of_nat fuel) as Hq.
  { split; [apply Z.div_pos; lia|apply Z.div_lt_upper_bound; lia]. }
  destruct (Z.eqb_spec (n / base) 0) as [E|E].
  - unfold value. cbn [foldl]. rewrite digit_value_digit by lia. lia.
  - rewrite digits_app, value_app, IH by done. cbn [foldl]. rewrite digit_value_digit by lia. lia.
Qed.

(** The numerals of the log can be read back. *)
Lemma value_hex n : 0 <= n < W64 -> value 16 (digits 16 16 n []) = n.
Proof. intros Hn. apply value_digits; [lia|]. change (16 ^ Z.of_nat 16) with W64. done. Qed.

Lemma value_dec n : 0 <= n < W64 -> value 10 (dec n) = n.
Proof. intros Hn. apply value_digits; [lia|]. unfold W64 in *. change (10 ^ Z.of_nat 20) with 100000000000000000000. lia. Qed.

(** ** Panics while printing *)

(** A print that a panic interrupts after [n] bytes: the port's lock is held. *)
Definition interrupted_print (t : list Z) (n : nat) (info : list Z) : M Host unit :=
  on_serial (serial_lock ;; serial_write (take n t)) ;;
  panic_handler info.

(** C39: a panic is reported on the serial port, with interrupts off, when the
    port is free; one that strikes while the interrupted code is printing spins
    for ever on the lock that code holds, and its message is lost. *)
Theorem panic_reported_unless_printing info h :
  idle (h_serial h) ->
  (exists h', panic_handler info h = Ok (tt, h') /\ h_IF h' = false /\
     sent (h_serial h') = sent (h_serial h) ++ text "[PANIC] " ++ info ++ [10]) /\
  forall t n, interrupted_print t n info h = OutOfFuel.
Proof.
  intros Hi. split.
  - eexists. split; [unfold panic_handler, bind, disable, modify, on_serial; cbn [h_serial]; by rewrite run_serial_println|].
    split; [done|]. cbn [h_serial after sent]. by rewrite <- app_assoc.
  - intros t n. unfold interrupted_print, panic_handler. destruct h as [fl [o l st] ex]. unfold idle in Hi. cbn in Hi. subst l.
    by destruct o.
Qed.

Lemma panic_reported_unless_printing_witness :
  exists h', panic_handler (text "oops") (mkHost true SERIAL1 []) = Ok (tt, h') /\ h_IF h' = false.
Proof.
  destruct (panic_reported_unless_printing (text "oops") (mkHost true SERIAL1 []) eq_refl) as [(h' & Hrun & Hf & _) _].
  exists h'. split; [exact Hrun|exact Hf].
Defined.

(** ** Test runs *)

(** A test that passes and prints [out]. *)
Definition passes (t : Testable) (out : list Z) : Prop :=
  forall fl s u ex, exists fl', test_fn t (mkHost fl (after s u) ex) = Ok (tt, mkHost fl' (after s (u ++ out)) ex).

Definition report (t : Testable) (out : list Z) : list Z := type_name t ++ text "... " ++ out ++ text "[ok]" ++ [10].

Lemma run_passing t out h : passes t out -> idle (h_serial h) ->
  exists fl, run_test t h = Ok (tt, mkHost fl (after (h_serial h) (report t out)) (h_exit h)).
Proof.
  intros Hp Hi. unfold run_test, on_serial, bind. rewrite run_serial_print by done.
  destruct (Hp (h_IF h) (h_serial h) (type_name t ++ text "... ") (h_exit h)) as [fl ->].
  cbn [h_serial]. rewrite run_serial_println by done. exists fl. cbn [h_IF h_exit]. rewrite !after_after.
  unfold report. by rewrite <- !app_assoc.
Qed.

Lemma run_passing_tests ts outs : Forall2 passes ts outs -> forall s t fl ex,
  exists fl', run_tests ts (mkHost fl (after s t) ex) = Ok (tt, mkHost fl' (after s (t ++ concat (zip_with report ts outs))) ex).
Proof.
  induction 1 as [|test out ts outs Ht Hts IH]; intros s t fl ex; cbn [run_tests zip_with concat].
  - exists fl. by rewrite app_nil_r.
  - unfold bind. destruct (run_passing test out (mkHost fl (after s t) ex) Ht eq_refl) as [fl1 ->]. cbn [h_serial h_exit].
    rewrite after_after, app_assoc. apply IH.
Qed.

(** A run of passing tests leaves its transcript on the serial port, a
    line per test between the header with their number and the final line, and
    hands QEMU the code for success, twice. *)
Theorem test_runner_transcript ts outs h : Forall2 passes ts outs -> idle (h_serial h) ->
  exists h', test_runner ts h = Ok (tt, h') /\ h_IF h' = false /\ h_exit h' = h_exit h ++ [0x10; 0x10] /\
    sent (h_serial h') = sent (h_serial h) ++
      ([10] ++ text "running " ++ dec (Z.of_nat (length ts)) ++ text " test" ++ (if (length ts =? 1)%nat then [] else text "s") ++ [10]) ++
      concat (zip_with report ts outs) ++ text "all tests passed" ++ [10].
Proof.
  intros Hp Hi. set (header := [10] ++ text "running " ++ dec (Z.of_nat (length ts)) ++ text " test" ++ (if (length ts =? 1)%nat then [] else text "s")).
  destruct (run_passing_tests ts outs Hp (h_serial h) (header ++ [10]) (h_IF h) (h_exit h)) as [fl Hrun].
  eexists. split.
  - unfold test_runner, bind. fold header. unfold on_serial at 1. rewrite run_serial_println by done. cbv beta iota. rewrite Hrun.
    unfold on_serial. cbn [h_serial]. rewrite run_serial_println by done. unfold exit_qemu, disable, bind, modify. reflexivity.
  - cbn [h_IF h_exit h_serial]. split; [done|]. split; [by rewrite <- app_assoc|]. rewrite after_after. cbn [after sent].
    unfold header. by rewrite <- !app_assoc.
Qed.

Definition two_tests : list Testable :=
  [mkTest (text "kernel::tests::empty") (ret tt); mkTest (text "kernel::tests::prints") (on_serial (serial_print (text "dots ")))].

Lemma test_runner_transcript_witness :
  exists h', test_runner two_tests (mkHost false SERIAL1 []) = Ok (tt, h') /\ h_exit h' = [0x10; 0x10] /\
    sent (h_serial h') = [10] ++ text "running 2 tests" ++ [10] ++ text "kernel::tests::empty... [ok]" ++ [10] ++
      text "kernel::tests::prints... dots [ok]" ++ [10] ++ text "all tests passed" ++ [10].
Proof.
  destruct (test_runner_transcript two_tests [[]; text "dots "] (mkHost false SERIAL1 [])) as (h' & Hrun & _ & He & Hs); [|done|].
  - repeat constructor; intros fl s u ex; exists fl; [by rewrite app_nil_r|].
    unfold two_tests, on_serial. cbn [test_fn h_serial]. rewrite run_serial_print by done. by rewrite after_after.
  - exists h'. split; [exact Hrun|]. split; [exact He|]. rewrite Hs. by vm_compute.
Defined.
