(* ===== verification/Paging.v ===== *)
(** * Page tables (mantle/src/{prot,table,walker,pml4}.rs)

    The page tables live in the kernel's memory: the table at physical address
    [t] is the 512 cells at [t + hhdm], eight bytes apart.  The functions of
    the [bitwise] crate that encode and decode entries are not part of this
    repository: they are the parameter [Bitwise], with their documented
    behaviour as the laws [BitwiseLaws] (entries and indices as the x86_64
    architecture defines them).  Table frames come from the page allocator of
    [Pages].  The processor state the walker touches (CR3, the invalidated
    addresses, the MSR writes) is [Cpu]. *)

From S2P Require Import Prelude Pages.

(** ** The bitwise crate *)

Class Bitwise := {
  pte_encode : Z -> Z -> Z -> Z;
  pte_phys_addr : Z -> Z -> Z;
  pte_is_present : Z -> bool;
  pte_is_huge : Z -> bool;
  vaddr_pt_index : Z -> Z -> Z;
  PRESENT : Z;
  WRITABLE : Z;
  WRITE_THROUGH : Z;
  CACHE_DISABLE : Z;
  HUGE_PAGE : Z;
  PAT : Z;
  GLOBAL : Z;
  NO_EXECUTE : Z;
  IA32_PAT : Z
}.

(** The page sizes, and a frame address of that size (52-bit physical). *)
Definition page_size (sz : Z) : Prop := sz = 2 ^ 12 \/ sz = 2 ^ 21 \/ sz = 2 ^ 30.
Definition frame_ok (phys sz : Z) : Prop := 0 <= phys < 2 ^ 52 /\ phys mod sz = 0.
(** Bits outside the address field of an entry. *)
Definition flags_ok (fl : Z) : Prop := 0 <= fl < W64 /\ Z.land fl (2 ^ 52 - 2 ^ 12) = 0.

Class BitwiseLaws (B : Bitwise) : Prop := {
  index_law v l : 0 <= v < W64 -> 1 <= l <= 4 -> vaddr_pt_index v l = (v / 2 ^ (12 + 9 * (l - 1))) mod 512;
  present_law e : pte_is_present e = Z.testbit e 0;
  huge_law e : pte_is_huge e = Z.testbit e 7;
  addr_law e sz : page_size sz -> pte_phys_addr e sz = Z.land e (2 ^ 52 - sz);
  encode_law phys sz fl : page_size sz -> frame_ok phys sz -> flags_ok fl ->
    pte_encode phys sz fl = Z.lor phys fl;
  present_bit : PRESENT = 2 ^ 0;
  writable_bit : WRITABLE = 2 ^ 1;
  write_through_bit : WRITE_THROUGH = 2 ^ 3;
  cache_disable_bit : CACHE_DISABLE = 2 ^ 4;
  huge_bit : HUGE_PAGE = 2 ^ 7;
  pat_bit : PAT = 2 ^ 7;
  global_bit : GLOBAL = 2 ^ 8;
  no_execute_bit : NO_EXECUTE = 2 ^ 63
}.

Definition PAGE_SIZE : Z := 4096.
Definition HUGE_2M : Z := 2097152.

(** ** Protection flags (prot.rs) *)

Section prot.
Context {B : Bitwise}.

(** [Protection(pub u64)], and its constants. *)
Definition Protection : Type := Z.
Definition KERNEL_RO : Protection := Z.lor NO_EXECUTE GLOBAL.
Definition KERNEL_RW : Protection := Z.lor (Z.lor WRITABLE NO_EXECUTE) GLOBAL.
Definition KERNEL_RX : Protection := GLOBAL.
Definition KERNEL_RWX_BOOT : Protection := Z.lor WRITABLE GLOBAL.
Definition KERNEL_RWX : Protection := WRITABLE.
Definition MMIO_UC : Protection :=
  Z.lor (Z.lor (Z.lor WRITABLE NO_EXECUTE) CACHE_DISABLE) WRITE_THROUGH.
Definition MMIO_WC : Protection :=
  Z.lor (Z.lor (Z.lor (Z.lor WRITABLE NO_EXECUTE) CACHE_DISABLE) WRITE_THROUGH) PAT.
Definition bits (p : Protection) : Z := p.
End prot.

(** ** The processor *)

Record Cpu := mkCpu {
  cr3 : Z;
  invalidated : list Z;
  msr_writes : list (Z * Z)
}.

Inductive MapError := OutOfFrames | Misaligned.

Section paging.
Context {B : Bitwise} {C : Type} {PA : FrameSource C} (hhdm : Z).

Abbreviation PState := (Cpu * C * mem)%type.

Definition cpu : M PState Cpu := gets (fun s => fst (fst s)).
Definition set_cpu (c : Cpu) : M PState unit := upd (fun x => (c, snd x)).

Definition invlpg (v : Z) : M PState unit :=
  let* c := cpu in set_cpu (mkCpu (cr3 c) (v :: invalidated c) (msr_writes c)).
Definition wrmsr (n v : Z) : M PState unit :=
  let* c := cpu in set_cpu (mkCpu (cr3 c) (invalidated c) ((n, v) :: msr_writes c)).
Definition mov_cr3 (v : Z) : M PState unit :=
  let* c := cpu in set_cpu (mkCpu v (invalidated c) (msr_writes c)).

(** A fallible call: [?] on a [Result]. *)
Definition try_ {A B} (c : M PState (MapError + A)) (k : A -> M PState (MapError + B)) :
    M PState (MapError + B) :=
  let* r := c in match r with inl e => ret (inl e) | inr a => k a end.
Notation "'let?' x ':=' c 'in' k" := (try_ c (fun x => k))
  (at level 10, x name, c at level 100, k at level 200).

(** ** Tables (table.rs) *)

(** [PageTable::read] and [write] of the table at the virtual address [tbl]. *)
Definition table_read (tbl index : Z) : M PState Z :=
  assert (index <? 512) ;;
  load (tbl + 8 * index).
Definition table_write (tbl index value : Z) : M PState unit :=
  assert (index <? 512) ;;
  store (tbl + 8 * index) value.

(** [PageTable::zero], [n] entries from entry [i] on. *)
Fixpoint zero_entries (n : nat) (tbl i : Z) : M PState unit :=
  match n with
  | O => ret tt
  | S n => store (tbl + 8 * i) 0 ;; zero_entries n tbl (i + 1)
  end.
Definition table_zero (tbl : Z) : M PState unit := zero_entries 512 tbl 0.

(** ** The walker (walker.rs) *)

Definition PAT_VALUE : Z :=
  Z.lor (Z.lor (Z.lor (Z.lor (Z.lor (Z.lor (Z.lor 6 (Z.shiftl 4 8)) (Z.shiftl 7 16)) (Z.shiftl 0 24))
    (Z.shiftl 6 32)) (Z.shiftl 4 40)) (Z.shiftl 7 48)) (Z.shiftl 1 56).

Definition init_pat : M PState unit := wrmsr IA32_PAT PAT_VALUE.

Definition pml4_phys : M PState Z :=
  let* c := cpu in ret (Z.land (cr3 c) (not64 4095)).

Definition phys_to_virt (phys : Z) : M PState Z := uadd phys hhdm.
Definition table_at_phys (phys : Z) : M PState Z := phys_to_virt phys.

Definition alloc_table_frame : M PState (option Z) :=
  let* virt := page_call (pa_alloc 0) in
  match virt with
  | None => ret None
  | Some virt =>
      assert (hhdm <=? virt) ;;
      table_zero virt ;;
      ret (Some virt)
  end.

Definition descend_or_create (table_phys vaddr level : Z) : M PState (MapError + Z) :=
  let* table := table_at_phys table_phys in
  let idx := vaddr_pt_index vaddr level in
  let* entry := table_read table idx in
  if pte_is_present entry then ret (inr (pte_phys_addr entry PAGE_SIZE))
  else
    let* frame := alloc_table_frame in
    match frame with
    | None => ret (inl OutOfFrames)
    | Some frame_virt =>
        let* frame_phys := usub frame_virt hhdm in
        let new_entry := pte_encode frame_phys PAGE_SIZE (Z.lor PRESENT WRITABLE) in
        table_write table idx new_entry ;;
        ret (inr frame_phys)
    end.

Definition map (vaddr phys : Z) (prot : Protection) : M PState (MapError + option Z) :=
  if negb (Z.land vaddr (PAGE_SIZE - 1) =? 0) || negb (Z.land phys (PAGE_SIZE - 1) =? 0)
  then ret (inl Misaligned)
  else
    let* pml4_phys := pml4_phys in
    let? pdpt_phys := descend_or_create pml4_phys vaddr 4 in
    let? pd_phys := descend_or_create pdpt_phys vaddr 3 in
    let? pt_phys := descend_or_create pd_phys vaddr 2 in
    let* pt := table_at_phys pt_phys in
    let idx := vaddr_pt_index vaddr 1 in
    let* old := table_read pt idx in
    let old_frame := if pte_is_present old then Some (pte_phys_addr old PAGE_SIZE) else None in
    let leaf := pte_encode phys PAGE_SIZE (Z.lor PRESENT (bits prot)) in
    table_write pt idx leaf ;;
    invlpg vaddr ;;
    ret (inr old_frame).

Definition walk_existing (table_phys vaddr level : Z) : M PState (option Z) :=
  let* table := table_at_phys table_phys in
  let idx := vaddr_pt_index vaddr level in
  let* entry := table_read table idx in
  if pte_is_present entry && negb (pte_is_huge entry)
  then ret (Some (pte_phys_addr entry PAGE_SIZE)) else ret None.

Definition unmap (vaddr : Z) : M PState unit :=
  let* pml4_phys := pml4_phys in
  let* pdpt_phys := walk_existing pml4_phys vaddr 4 in
  match pdpt_phys with None => ret tt | Some pdpt_phys =>
  let* pd_phys := walk_existing pdpt_phys vaddr 3 in
  match pd_phys with None => ret tt | Some pd_phys =>
  let* pt_phys := walk_existing pd_phys vaddr 2 in
  match pt_phys with None => ret tt | Some pt_phys =>
  let* pt := table_at_phys pt_phys in
  let idx := vaddr_pt_index vaddr 1 in
  table_write pt idx 0 ;;
  invlpg vaddr
  end end end.

Definition translate (vaddr : Z) : M PState (option Z) :=
  let* pml4_phys := pml4_phys in
  let* pml4 := table_at_phys pml4_phys in
  let* pdpt_entry := table_read pml4 (vaddr_pt_index vaddr 4) in
  if negb (pte_is_present pdpt_entry) then ret None else
  let pdpt_phys := pte_phys_addr pdpt_entry PAGE_SIZE in
  let* pdpt := table_at_phys pdpt_phys in
  let* pd_entry := table_read pdpt (vaddr_pt_index vaddr 3) in
  if negb (pte_is_present pd_entry) then ret None else
  if pte_is_huge pd_entry then
    let base := pte_phys_addr pd_entry 1073741824 in
    let* a := uadd base (Z.land vaddr 1073741823) in ret (Some a)
  else
  let pd_phys := pte_phys_addr pd_entry PAGE_SIZE in
  let* pd := table_at_phys pd_phys in
  let* pt_entry := table_read pd (vaddr_pt_index vaddr 2) in
  if negb (pte_is_present pt_entry) then ret None else
  if pte_is_huge pt_entry then
    let base := pte_phys_addr pt_entry HUGE_2M in
    let* a := uadd base (Z.land vaddr 2097151) in ret (Some a)
  else
  let pt_phys := pte_phys_addr pt_entry PAGE_SIZE in
  let* pt := table_at_phys pt_phys in
  let* leaf := table_read pt (vaddr_pt_index vaddr 1) in
  if negb (pte_is_present leaf) then ret None else
  let* a := uadd (pte_phys_addr leaf PAGE_SIZE) (Z.land vaddr (PAGE_SIZE - 1)) in
  ret (Some a).

(** The loop of [map_mmio], [n] pages from page [i] on. *)
Fixpoint map_mmio_loop (n : nat) (virt_start phys_start : Z) (prot : Protection) (i : Z) :
    M PState (MapError + unit) :=
  match n with
  | O => ret (inr tt)
  | S n =>
      let* off := umul i PAGE_SIZE in
      let* v := uadd virt_start off in
      let* p := uadd phys_start off in
      let? old := map v p prot in
      map_mmio_loop n virt_start phys_start prot (i + 1)
  end.

Definition map_mmio (virt_start phys_start size : Z) (prot : Protection) : M PState (MapError + unit) :=
  let* a := uadd size PAGE_SIZE in
  let* a := usub a 1 in
  let pages := a / PAGE_SIZE in
  map_mmio_loop (Z.to_nat pages) virt_start phys_start prot 0.

End paging.

(** ** The kernel's own page tables (pml4.rs) *)

Module Pml4.
Section pml4.
Context {B : Bitwise} {C : Type} {PA : FrameSource C} (hhdm : Z).

Abbreviation PState := (Cpu * C * mem)%type.

Definition alloc_zero_frame : M PState Z :=
  let* r := page_call (pa_alloc 0) in
  let* virt := expect r in
  table_zero virt ;;
  usub virt hhdm.

Definition descend_or_create (table_phys vaddr level : Z) : M PState Z :=
  let* table := uadd hhdm table_phys in
  let idx := vaddr_pt_index vaddr level in
  let* entry := table_read table idx in
  if pte_is_present entry then ret (pte_phys_addr entry PAGE_SIZE)
  else
    let* child_phys := alloc_zero_frame in
    let e := pte_encode child_phys PAGE_SIZE (Z.lor PRESENT WRITABLE) in
    table_write table idx e ;;
    ret child_phys.

Definition HHDM_FLAGS : Z :=
  Z.lor (Z.lor (Z.lor (Z.lor PRESENT WRITABLE) NO_EXECUTE) HUGE_PAGE) GLOBAL.

(** The loop of [map_hhdm_2m], [n] huge pages from page [i] on. *)
Fixpoint map_hhdm_loop (n : nat) (pml4_phys i : Z) : M PState unit :=
  match n with
  | O => ret tt
  | S n =>
      let* phys := umul i HUGE_2M in
      let* virt := uadd hhdm phys in
      let* pdpt_phys := descend_or_create pml4_phys virt 4 in
      let* pd_phys := descend_or_create pdpt_phys virt 3 in
      let* pd := uadd hhdm pd_phys in
      let idx := vaddr_pt_index virt 2 in
      let pde := pte_encode phys HUGE_2M HHDM_FLAGS in
      table_write pd idx pde ;;
      map_hhdm_loop n pml4_phys (i + 1)
  end.

Definition map_hhdm_2m (pml4_phys phys_mem_size : Z) : M PState unit :=
  let* a := uadd phys_mem_size HUGE_2M in
  let* a := usub a 1 in
  let huge_pages := a / HUGE_2M in
  map_hhdm_loop (Z.to_nat huge_pages) pml4_phys 0.

(** The loop of [map_range_4k], [n] pages from page [i] on. *)
Fixpoint map_range_loop (n : nat) (pml4_phys virt_start phys_start : Z) (prot : Protection) (i : Z) :
    M PState unit :=
  match n with
  | O => ret tt
  | S n =>
      let* off := umul i PAGE_SIZE in
      let* virt := uadd virt_start off in
      let* phys := uadd phys_start off in
      let* pdpt_phys := descend_or_create pml4_phys virt 4 in
      let* pd_phys := descend_or_create pdpt_phys virt 3 in
      let* pt_phys := descend_or_create pd_phys virt 2 in
      let* pt := uadd hhdm pt_phys in
      let idx := vaddr_pt_index virt 1 in
      let leaf := pte_encode phys PAGE_SIZE (Z.lor PRESENT (bits prot)) in
      table_write pt idx leaf ;;
      map_range_loop n pml4_phys virt_start phys_start prot (i + 1)
  end.

Definition map_range_4k (pml4_phys virt_start phys_start pages : Z) (prot : Protection) : M PState unit :=
  map_range_loop (Z.to_nat pages) pml4_phys virt_start phys_start prot 0.

Definition install_kernel_pml4 (kernel_virt_start kernel_virt_end kernel_phys_start phys_mem_size : Z) :
    M PState unit :=
  let* pml4_phys := alloc_zero_frame in
  map_hhdm_2m pml4_phys phys_mem_size ;;
  let* len := usub kernel_virt_end kernel_virt_start in
  let* a := uadd len PAGE_SIZE in
  let* a := usub a 1 in
  let kernel_pages := a / PAGE_SIZE in
  map_range_4k pml4_phys kernel_virt_start kernel_phys_start kernel_pages KERNEL_RWX_BOOT ;;
  mov_cr3 pml4_phys.
End pml4.
End Pml4.
