(* ===== verification/PageTree.v ===== *)
(** * The tree of page tables

    The ghost map [T] of a table tree sends a path of indices (from the root
    down) to the table found there.  [walk] is the hardware's walk; [tree] says
    that [T] is exactly the set of tables reachable from the root, that no
    table is reachable on two paths, and that each is a page of physical
    memory inside the direct map.  The lemmas say which walks a store to a
    table can change. *)

From S2P Require Import Prelude Pages Paging.

(** ** Bits of entries *)

Lemma testbit_field k i : 0 <= k <= 52 -> 0 <= i ->
  Z.testbit (2 ^ 52 - 2 ^ k) i = (k <=? i) && (i <? 52).
Proof.
  intros Hk Hi. assert (2 ^ 52 - 2 ^ k = Z.shiftl (Z.ones (52 - k)) k) as ->.
  { rewrite Z.shiftl_mul_pow2, Z.ones_equiv by lia. rewrite Z.mul_pred_l, <- Z.pow_add_r by lia.
    replace (52 - k + k) with 52 by lia. done. }
  rewrite Z.shiftl_spec by lia. destruct (Z.leb_spec k i) as [Hle|Hlt]; simpl.
  - destruct (Z.ltb_spec i 52); [apply Z.ones_spec_low; lia|apply Z.ones_spec_high; lia].
  - apply Z.testbit_neg_r. lia.
Qed.

Lemma page_size_pow sz : page_size sz -> exists k, sz = 2 ^ k /\ 12 <= k <= 30.
Proof. intros [->|[->| ->]]; eexists; (split; [reflexivity|lia]). Qed.

Lemma aligned_bit a k i : 0 <= k -> a mod 2 ^ k = 0 -> 0 <= i < k -> Z.testbit a i = false.
Proof.
  intros Hk Ha Hi. rewrite <- (Z.mod_pow2_bits_low a k i) by lia. by rewrite Ha, Z.bits_0.
Qed.

Lemma flags_bit fl i : flags_ok fl -> 12 <= i < 52 -> Z.testbit fl i = false.
Proof.
  intros [_ H] Hi. apply (f_equal (fun x => Z.testbit x i)) in H.
  rewrite Z.land_spec, testbit_field, Z.bits_0 in H by lia.
  rewrite (proj2 (Z.leb_le 12 i)), (proj2 (Z.ltb_lt i 52)), andb_true_r in H by lia. done.
Qed.

Lemma flags_lor f g : flags_ok f -> flags_ok g -> flags_ok (Z.lor f g).
Proof.
  intros [Hf Hf0] [Hg Hg0]. split; [|by rewrite Z.land_lor_distr_l, Hf0, Hg0].
  assert (forall x, 0 <= x < W64 -> forall i, 64 <= i -> Z.testbit x i = false) as Hhi
    by (intros x Hx i Hi; apply (testbit_above x 64); unfold W64 in *; lia).
  assert (0 <= Z.lor f g) by (apply Z.lor_nonneg; lia). split; [done|].
  unfold W64. apply bits_range; [lia| |done]. intros i Hi. by rewrite Z.lor_spec, !Hhi by done.
Qed.

Lemma flag_bit k : 0 <= k < 64 -> k < 12 \/ 52 <= k -> flags_ok (2 ^ k).
Proof.
  intros Hk Hr. split; [split; [apply Z.pow_nonneg; lia|unfold W64; apply Z.pow_lt_mono_r; lia]|].
  apply Z.bits_inj'. intros i Hi. rewrite Z.land_spec, testbit_field, Z.bits_0, Z.pow2_bits_eqb by lia.
  destruct (Z.eqb_spec k i), (Z.leb_spec 12 i), (Z.ltb_spec i 52); simpl; lia || done.
Qed.

Section entries.
Context {B : Bitwise} {BL : BitwiseLaws B}.

Lemma encode_present phys sz fl : page_size sz -> frame_ok phys sz -> flags_ok fl ->
  pte_is_present (pte_encode phys sz fl) = Z.testbit fl 0.
Proof.
  intros Hs [Hr Ha] Hf. rewrite present_law, encode_law, Z.lor_spec by done.
  destruct (page_size_pow sz Hs) as (k & -> & Hk). by rewrite (aligned_bit phys k 0) by lia.
Qed.

Lemma encode_huge phys sz fl : page_size sz -> frame_ok phys sz -> flags_ok fl ->
  pte_is_huge (pte_encode phys sz fl) = Z.testbit fl 7.
Proof.
  intros Hs [Hr Ha] Hf. rewrite huge_law, encode_law, Z.lor_spec by done.
  destruct (page_size_pow sz Hs) as (k & -> & Hk). by rewrite (aligned_bit phys k 7) by lia.
Qed.

Lemma encode_addr phys sz fl : page_size sz -> frame_ok phys sz -> flags_ok fl ->
  pte_phys_addr (pte_encode phys sz fl) sz = phys.
Proof.
  intros Hs [Hr Ha] Hf. rewrite addr_law, encode_law by done.
  destruct (page_size_pow sz Hs) as (k & -> & Hk). apply Z.bits_inj'. intros i Hi.
  rewrite Z.land_spec, Z.lor_spec, testbit_field by lia.
  destruct (Z.leb_spec k i), (Z.ltb_spec i 52); rewrite ?andb_true_r, ?andb_false_r; simpl.
  - rewrite (flags_bit fl) by (done || lia). by rewrite orb_false_r.
  - symmetry. apply (testbit_above phys 52); lia.
  - symmetry. apply (aligned_bit phys k); lia.
  - symmetry. apply (aligned_bit phys k); lia.
Qed.

Lemma addr_frame e sz : page_size sz -> frame_ok (pte_phys_addr e sz) sz.
Proof.
  intros Hs. rewrite addr_law by done. destruct (page_size_pow sz Hs) as (k & -> & Hk). 
  assert (0 <= Z.land e (2 ^ 52 - 2 ^ k)) as H0.
  { apply Z.land_nonneg. right. assert (2 ^ k <= 2 ^ 52) by (apply Z.pow_le_mono_r; lia). lia. }
  split; [split; [done|]|].
  - apply bits_range; [lia| |done]. intros i Hi. rewrite Z.land_spec, testbit_field by lia.
    destruct (Z.ltb_spec i 52); [lia|]. by rewrite !andb_false_r.
  - apply Z.bits_inj'. intros i Hi. rewrite Z.bits_0.
    destruct (decide (i < k)).
    + rewrite Z.mod_pow2_bits_low, Z.land_spec, testbit_field by lia.
      destruct (Z.leb_spec k i); [lia|]. by rewrite andb_false_r.
    + by rewrite Z.mod_pow2_bits_high by lia.
Qed.

Lemma zero_absent : pte_is_present 0 = false.
Proof. by rewrite present_law. Qed.

(** The flags of the source. *)
Lemma table_flags_ok : flags_ok (Z.lor PRESENT WRITABLE).
Proof. rewrite present_bit, writable_bit. by apply flags_lor; apply flag_bit; lia. Qed.

Lemma present_flags_ok p : flags_ok p -> flags_ok (Z.lor PRESENT p) /\ Z.testbit (Z.lor PRESENT p) 0 = true.
Proof.
  intros Hp. rewrite present_bit, Z.lor_spec. split; [|done]. apply flags_lor; [apply flag_bit; lia|done].
Qed.

(** Indices. *)
Definition vi (v l : Z) : Z := (v / 2 ^ (12 + 9 * (l - 1))) mod 512.

Lemma vi_range v l : 0 <= vi v l < 512.
Proof. apply Z.mod_pos_bound. lia. Qed.

(** ** Walks *)

(** The table at physical address [t]. *)
Definition entry (hhdm : Z) (m : mem) (t i : Z) : Z := rd m (t + hhdm + 8 * i).
(** Bytes mapped by one entry, at level [l]. *)
Definition level_size (l : Z) : Z := 2 ^ (12 + 9 * (l - 1)).

(** The hardware walk for [v] from the table [t], with [n] levels to go: the
    size and the frame of the page found. *)
Fixpoint walk (hhdm : Z) (n : nat) (m : mem) (t v : Z) : option (Z * Z) :=
  match n with
  | O => None
  | S n' =>
      let e := entry hhdm m t (vi v (Z.of_nat n)) in
      if pte_is_present e then
        match n' with
        | O => Some (PAGE_SIZE, pte_phys_addr e PAGE_SIZE)
        | _ =>
            if (n <=? 3)%nat && pte_is_huge e
            then Some (level_size (Z.of_nat n), pte_phys_addr e (level_size (Z.of_nat n)))
            else walk hhdm n' m (pte_phys_addr e PAGE_SIZE) v
        end
      else None
  end.

(** An entry that leads to another table. *)
Definition link (e : Z) : bool := pte_is_present e && negb (pte_is_huge e).

Definition vpath (v : Z) (k : nat) : list Z := take k [vi v 4; vi v 3; vi v 2].

Record tree (hhdm : Z) (root : Z) (m : mem) (T : gmap (list Z) Z) : Prop := mkTree {
  tr_root : T !! [] = Some root;
  tr_frame : forall p t, T !! p = Some t -> (length p <= 3)%nat /\ frame_ok t PAGE_SIZE /\ t + hhdm + PAGE_SIZE <= W64;
  tr_inj : forall p q t, T !! p = Some t -> T !! q = Some t -> p = q;
  tr_child : forall p t i, T !! p = Some t -> (length p < 3)%nat -> 0 <= i < 512 ->
    T !! (p ++ [i]) = if link (entry hhdm m t i) then Some (pte_phys_addr (entry hhdm m t i) PAGE_SIZE) else None;
  tr_closed : forall p i t, T !! (p ++ [i]) = Some t -> 0 <= i < 512 /\ is_Some (T !! p);
  (** the top level has no huge entries *)
  tr_top : forall i, 0 <= i < 512 -> pte_is_present (entry hhdm m root i) = true -> pte_is_huge (entry hhdm m root i) = false
}.
End entries.

Lemma vpath_S v k : (k < 3)%nat -> vpath v (S k) = vpath v k ++ [vi v (4 - Z.of_nat k)].
Proof. intros Hk. destruct k as [|[|[|k]]]; [done|done|done|lia]. Qed.

Lemma vpath_length v k : (k <= 3)%nat -> length (vpath v k) = k.
Proof. intros Hk. unfold vpath. rewrite length_take. simpl. lia. Qed.

(** Side conditions on paths and indices. *)
Ltac path_side := solve [lia | rewrite vpath_length; lia | apply vi_range].

Section trees.
Context {B : Bitwise} {BL : BitwiseLaws B} (hhdm : Z).

Abbreviation entry := (entry hhdm).
Abbreviation walk := (walk hhdm).
Abbreviation tree := (tree hhdm).

Lemma walk_step n m t v : (1 <= n < 4)%nat ->
  walk (S n) m t v =
    let e := entry m t (vi v (Z.of_nat (S n))) in
    if pte_is_present e then
      if (S n <=? 3)%nat && pte_is_huge e
      then Some (level_size (Z.of_nat (S n)), pte_phys_addr e (level_size (Z.of_nat (S n))))
      else walk n m (pte_phys_addr e PAGE_SIZE) v
    else None.
Proof. intros Hn. destruct n as [|n]; [lia|done]. Qed.

Lemma walk_leaf m t v : walk 1 m t v =
  let e := entry m t (vi v 1) in
  if pte_is_present e then Some (PAGE_SIZE, pte_phys_addr e PAGE_SIZE) else None.
Proof. done. Qed.

Lemma parent root m T v k t : tree root m T -> (k < 3)%nat -> T !! vpath v (S k) = Some t ->
  exists t0, T !! vpath v k = Some t0 /\ link (entry m t0 (vi v (4 - Z.of_nat k))) = true /\
    t = pte_phys_addr (entry m t0 (vi v (4 - Z.of_nat k))) PAGE_SIZE.
Proof.
  intros I Hk Ht. rewrite vpath_S in Ht by done.
  destruct (tr_closed _ _ _ _ I _ _ _ Ht) as (_ & t0 & H0). exists t0. split; [done|].
  rewrite (tr_child _ _ _ _ I _ _ _ H0) in Ht; [|by rewrite vpath_length by lia|apply vi_range].
  destruct (link _); [|done]. by injection Ht.
Qed.

Lemma root_here root m T v t : tree root m T -> T !! vpath v 0 = Some t -> t = root.
Proof. intros I Ht. pose proof (tr_root _ _ _ _ I) as Hr. change (vpath v 0) with (@nil Z) in Ht. congruence. Qed.

(** A table on the path of [v] is where its walk goes. *)
Lemma walk_down root m T v k : forall t, tree root m T -> (k <= 3)%nat -> T !! vpath v k = Some t ->
  walk 4 m root v = walk (4 - k) m t v.
Proof.
  induction k as [|k IH]; intros t I Hk Ht.
  { pose proof (root_here _ _ _ _ _ I Ht) as ->. done. }
  destruct (parent root m T v k t I ltac:(lia) Ht) as (t0 & H0 & Hl & ->).
  rewrite (IH t0 I ltac:(lia) H0). replace (4 - k)%nat with (S (4 - S k)) by lia.
  rewrite walk_step by lia. replace (Z.of_nat (S (4 - S k))) with (4 - Z.of_nat k) by lia. cbn zeta.
  unfold link in Hl. apply andb_true_iff in Hl as [-> Hh]. apply negb_true_iff in Hh. by rewrite Hh, andb_false_r.
Qed.

(** Where the walk ends above the leaves. *)
Lemma walk_end root m T v k t : tree root m T -> (k < 3)%nat -> T !! vpath v k = Some t ->
  T !! vpath v (S k) = None ->
  let e := entry m t (vi v (4 - Z.of_nat k)) in
  walk 4 m root v = (if pte_is_present e
    then Some (level_size (4 - Z.of_nat k), pte_phys_addr e (level_size (4 - Z.of_nat k))) else None) /\
  (pte_is_present e = true -> (1 <= k)%nat).
Proof.
  intros I Hk Ht Hn e. rewrite (walk_down _ _ _ _ k t I ltac:(lia) Ht).
  rewrite vpath_S, (tr_child _ _ _ _ I _ _ _ Ht) in Hn; [|path_side..].
  fold e in Hn. destruct (link e) eqn:Hl; [done|]. unfold link in Hl.
  replace (4 - k)%nat with (S (3 - k)) by lia. rewrite walk_step by lia.
  replace (Z.of_nat (S (3 - k))) with (4 - Z.of_nat k) by lia. cbn zeta. fold e.
  destruct (pte_is_present e) eqn:Hp; [|done]. simpl in Hl. apply negb_false_iff in Hl. rewrite Hl.
  destruct k as [|k].
  { exfalso. pose proof (root_here _ _ _ _ _ I Ht) as ->.
    assert (pte_is_huge e = false); [|congruence]. apply (tr_top _ _ _ _ I); [apply vi_range|done]. }
  replace (S (3 - S k) <=? 3)%nat with true by (symmetry; apply Nat.leb_le; lia). split; [done|lia].
Qed.

(** Walks see only the entries of tables on their path. *)
Lemma walk_same root m m' T v n : forall k t, tree root m T -> (k + n = 4)%nat -> (1 <= n)%nat ->
  T !! vpath v k = Some t ->
  (forall j u, (k <= j <= 3)%nat -> T !! vpath v j = Some u ->
     entry m' u (vi v (4 - Z.of_nat j)) = entry m u (vi v (4 - Z.of_nat j))) ->
  walk n m' t v = walk n m t v.
Proof.
  induction n as [|n IH]; intros k t I Hkn Hn Ht He; [lia|].
  assert (Z.of_nat (S n) = 4 - Z.of_nat k) as El by lia.
  destruct n as [|n].
  { rewrite !walk_leaf. specialize (He k t ltac:(lia) Ht). replace (4 - Z.of_nat k) with 1 in He by lia. by rewrite He. }
  rewrite !walk_step, El, (He k t) by (done || lia). cbn zeta.
  destruct (pte_is_present _) eqn:Hp; [|done]. destruct (_ && _) eqn:Hh; [done|].
  apply (IH (S k)); [done|lia|lia| |intros j u Hj; apply He; lia].
  rewrite vpath_S, (tr_child _ _ _ _ I _ _ _ Ht); [|path_side..].
  assert (link (entry m t (vi v (4 - Z.of_nat k))) = true) as ->; [|done].
  unfold link. rewrite Hp. simpl. apply negb_true_iff. destruct k as [|k].
  - pose proof (root_here _ _ _ _ _ I Ht) as ->. apply (tr_top _ _ _ _ I); [apply vi_range|done].
  - replace (S (S n) <=? 3)%nat with true in Hh by (symmetry; apply Nat.leb_le; lia). done.
Qed.

(** Cells of tables are distinct. *)
Lemma cell_inj root m T p q t u i j : tree root m T -> T !! p = Some t -> T !! q = Some u ->
  0 <= i < 512 -> 0 <= j < 512 -> t + hhdm + 8 * i = u + hhdm + 8 * j -> p = q /\ i = j.
Proof.
  intros I Hp Hq Hi Hj E. destruct (tr_frame _ _ _ _ I _ _ Hp) as (_ & [_ Ht] & _).
  destruct (tr_frame _ _ _ _ I _ _ Hq) as (_ & [_ Hu] & _). unfold PAGE_SIZE in *.
  pose proof (Z.div_mod t 4096 ltac:(lia)). pose proof (Z.div_mod u 4096 ltac:(lia)).
  assert (t = u) as -> by lia. split; [by eapply tr_inj|lia].
Qed.

(** Only entry [i] of the table at path [p] may have changed. *)
Definition kept_but (T : gmap (list Z) Z) (m m' : mem) (p : list Z) (i : Z) : Prop :=
  forall q u j, T !! q = Some u -> 0 <= j < 512 -> ~ (q = p /\ j = i) -> entry m' u j = entry m u j.

(** The walk of [v] goes through entry [i] of the table at [p]. *)
Definition through (v : Z) (p : list Z) (i : Z) : Prop :=
  vpath v (length p) = p /\ vi v (4 - Z.of_nat (length p)) = i.

#[export] Instance through_dec v p i : Decision (through v p i).
Proof. unfold through. apply _. Defined.

Lemma walk_other root m m' T p i v : tree root m T -> kept_but T m m' p i -> ~ through v p i ->
  walk 4 m' root v = walk 4 m root v.
Proof.
  intros I Hk Hn. apply (walk_same root m m' T v 4 0); [done|done|lia|apply (tr_root _ _ _ _ I)|].
  intros j u Hj Hu. apply (Hk (vpath v j)); [done|apply vi_range|].
  intros [<- <-]. apply Hn. unfold through. by rewrite vpath_length by lia.
Qed.

(** A store that creates no link. *)
Lemma tree_store root m m' T p t i :
  tree root m T -> T !! p = Some t -> (1 <= length p)%nat -> 0 <= i < 512 -> T !! (p ++ [i]) = None ->
  kept_but T m m' p i -> ((length p < 3)%nat -> link (entry m' t i) = false) ->
  tree root m' T.
Proof.
  intros I Hp Hlen Hi Hnone Hk Hl. pose proof I as [I1 I2 I3 I4 I5 I6]. split; try done.
  - intros q u j Hq Hlq Hj. destruct (decide (q = p /\ j = i)) as [[-> ->]|Hne].
    + rewrite Hp in Hq. injection Hq as <-. by rewrite Hl, Hnone.
    + rewrite (Hk q u j) by done. by apply I4.
  - intros j Hj. rewrite (Hk [] root j); [by apply I6|done|done|]. intros [<- _]. simpl in Hlen. lia.
Qed.

(** A store that links a fresh zeroed table. *)
Lemma tree_extend root m m' T p t i c :
  tree root m T -> T !! p = Some t -> (length p < 3)%nat -> 0 <= i < 512 ->
  pte_is_present (entry m t i) = false -> kept_but T m m' p i ->
  frame_ok c PAGE_SIZE -> c + hhdm + PAGE_SIZE <= W64 -> (forall q, T !! q <> Some c) ->
  entry m' t i = pte_encode c PAGE_SIZE (Z.lor PRESENT WRITABLE) ->
  (forall j, 0 <= j < 512 -> entry m' c j = 0) ->
  tree root m' (<[p ++ [i] := c]> T).
Proof.
  intros I Hp Hlen Hi Habs Hk Hc Hend Hfresh He Hz. pose proof I as [I1 I2 I3 I4 I5 I6].
  assert (page_size PAGE_SIZE) as Hps by (by left).
  assert (pte_is_present (entry m' t i) = true /\ pte_is_huge (entry m' t i) = false /\
          pte_phys_addr (entry m' t i) PAGE_SIZE = c) as (Ep & Eh & Ea).
  { rewrite He, encode_present, encode_huge, encode_addr by (done || apply table_flags_ok).
    by rewrite present_bit, writable_bit. }
  assert (T !! (p ++ [i]) = None) as Hnone by (rewrite (I4 p t i) by done; unfold link; by rewrite Habs).
  assert (forall j, T !! ((p ++ [i]) ++ [j]) = None) as Hnone2.
  { intros j. destruct (T !! ((p ++ [i]) ++ [j])) as [u|] eqn:E; [|done].
    apply I5 in E as (_ & [? ?]). congruence. }
  split.
  - rewrite lookup_insert_ne; [done|]. by destruct p.
  - intros q u [[<- <-]|[_ Hq]]%lookup_insert_Some; [|by apply (I2 q)].
    split; [rewrite length_app; simpl; lia|done].
  - intros q r u [[<- <-]|[Hq1 Hq]]%lookup_insert_Some [[<- E]|[Hr1 Hr]]%lookup_insert_Some; try done.
    + by apply Hfresh in Hr.
    + subst u. by apply Hfresh in Hq.
    + by eapply I3.
  - intros q u j [[<- <-]|[Hq1 Hq]]%lookup_insert_Some Hlq Hj.
    + rewrite Hz by done. unfold link. rewrite zero_absent. simpl.
      rewrite lookup_insert_ne; [apply Hnone2|]. intros E. apply (f_equal length) in E.
      rewrite !length_app in E. simpl in E. lia.
    + destruct (decide (q = p /\ j = i)) as [[-> ->]|Hne].
      * rewrite Hp in Hq. injection Hq as <-. unfold link. rewrite Ep, Eh, Ea. simpl. apply lookup_insert_eq.
      * rewrite lookup_insert_ne by (intros E%app_inj_tail; naive_solver).
        rewrite (Hk q u j) by done. by apply I4.
  - intros q j u [[E <-]|[_ Hq]]%lookup_insert_Some.
    + apply app_inj_tail in E as [<- <-]. split; [done|]. rewrite lookup_insert_ne; [done|].
      intros E. apply (f_equal length) in E. rewrite length_app in E. simpl in E. lia.
    + destruct (I5 _ _ _ Hq) as [Hj [w Hw]]. split; [done|].
      destruct (decide (p ++ [i] = q)) as [->|Hne]; [rewrite lookup_insert_eq; eauto|].
      rewrite lookup_insert_ne by done. eauto.
  - intros j Hj. destruct (decide ([] = p /\ j = i)) as [[<- ->]|Hne].
    + rewrite I1 in Hp. injection Hp as <-. by rewrite Eh.
    + rewrite (Hk [] root j) by done. by apply I6.
Qed.

(** Such a store does not change any walk. *)
Lemma walk_extend root m m' T p t i c v :
  tree root m T -> T !! p = Some t -> (length p < 3)%nat -> 0 <= i < 512 ->
  pte_is_present (entry m t i) = false -> kept_but T m m' p i ->
  frame_ok c PAGE_SIZE -> entry m' t i = pte_encode c PAGE_SIZE (Z.lor PRESENT WRITABLE) ->
  (forall j, 0 <= j < 512 -> entry m' c j = 0) -> tree root m' (<[p ++ [i] := c]> T) ->
  walk 4 m' root v = walk 4 m root v.
Proof.
  intros I Hp Hlen Hi Habs Hk Hc He Hz I'. destruct (decide (through v p i)) as [[Hv Hvi]|Hne]; [|by eapply walk_other].
  set (k := length p) in *. assert (T !! vpath v k = Some t) as Hpv by (by rewrite Hv).
  assert (walk 4 m root v = None) as ->.
  { destruct (walk_end _ _ _ v k t I Hlen Hpv) as [-> _].
    - rewrite vpath_S, Hv, Hvi by done. rewrite (tr_child _ _ _ _ I p t i) by done.
      unfold link. by rewrite Habs.
    - by rewrite Hvi, Habs. }
  rewrite (walk_down _ _ _ v (S k) c I'); [|lia|rewrite vpath_S, Hv, Hvi by done; apply lookup_insert_eq].
  destruct (4 - S k)%nat as [|n] eqn:E; [done|]. simpl. rewrite Hz by apply vi_range. by rewrite zero_absent.
Qed.
End trees.
