(* ===== verification/PagingSpec.v ===== *)
(** * Properties of the page-table code

    The walker of walker.rs and the boot-time builder of pml4.rs against the
    table trees of [PageTree]: mapping a page changes the translation of that
    page and of no other, translation is the hardware's walk, unmapping removes
    exactly one page, and the tables the kernel installs map the direct map and
    the kernel image. *)

From S2P Require Import Prelude Pages Paging PageTree.

Section walker.
Context {B : Bitwise} {BL : BitwiseLaws B} {C : Type} {PA : FrameSource C} (hhdm : Z).
Context (hhdm_ok : 0 <= hhdm /\ hhdm mod 4096 = 0).

Abbreviation entry := (entry hhdm).
Abbreviation walk := (walk hhdm).
Abbreviation tree := (tree hhdm).
Abbreviation PState := (Cpu * C * mem)%type.

(** The tables of the tree at [root] are frames held from the page allocator,
    whose pages all lie in the direct map. *)
Record pt_inv (root : Z) (pc : C) (m : mem) (T : gmap (list Z) Z) (A : gset (Z * Z)) : Prop := mkPtInv {
  pt_tree : tree root m T;
  pt_pages : pa_inv pc m A;
  pt_held : forall p t, T !! p = Some t -> (0, t + hhdm) ∈ A;
  pt_low : hhdm <= pa_lo pc;
  pt_high : pa_hi pc <= hhdm + 2 ^ 52 /\ pa_hi pc <= W64
}.

(** The bytes of the held blocks that are not tables. *)
Definition others_kept (A : gset (Z * Z)) (T : gmap (list Z) Z) (m m' : mem) : Prop :=
  forall bl x, bl ∈ A -> (forall p t, T !! p = Some t -> bl <> (0, t + hhdm)) -> in_block bl x ->
    rd m' x = rd m x.

(** More tables, the same translations. *)
Record grown (root : Z) (pc : C) (m : mem) (T : gmap (list Z) Z) (A : gset (Z * Z))
    (pc' : C) (m' : mem) (T' : gmap (list Z) Z) (A' : gset (Z * Z)) : Prop := mkGrown {
  gr_inv : pt_inv root pc' m' T' A';
  gr_tables : forall p t, T !! p = Some t -> T' !! p = Some t;
  gr_held : forall bl, bl ∈ A -> bl ∈ A';
  gr_new : forall p t, T' !! p = Some t -> (0, t + hhdm) ∈ A -> exists q, T !! q = Some t;
  gr_others : others_kept A T m m';
  gr_walk : forall v, walk 4 m' root v = walk 4 m root v;
  gr_frames : pa_frames pc' = pa_frames pc - (Z.of_nat (size T') - Z.of_nat (size T))
}.

Lemma grown_refl root pc m T A : pt_inv root pc m T A -> grown root pc m T A pc m T A.
Proof. intros I. split; try done; [eauto|lia]. Qed.

Lemma grown_trans root pc1 m1 T1 A1 pc2 m2 T2 A2 pc3 m3 T3 A3 :
  grown root pc1 m1 T1 A1 pc2 m2 T2 A2 -> grown root pc2 m2 T2 A2 pc3 m3 T3 A3 ->
  grown root pc1 m1 T1 A1 pc3 m3 T3 A3.
Proof.
  intros [I1 S1 H1 N1 O1 W1 F1] [I2 S2 H2 N2 O2 W2 F2]. split; auto.
  - intros p t Ht Hin. destruct (N2 p t Ht (H1 _ Hin)) as [q Hq]. by apply (N1 q).
  - intros bl x Hbl Hnt Hx. rewrite (O2 bl x); [by apply (O1 bl x)|by apply H1| |done].
    intros p t Ht ->. destruct (N1 p t Ht Hbl) as [q Hq]. by apply (Hnt q t).
  - intros v. by rewrite W2.
  - lia.
Qed.

(** Cells of a table lie in its frame. *)
Lemma table_cell t i : 0 <= i < 512 -> in_block (0, t + hhdm) (t + hhdm + 8 * i).
Proof. unfold in_block, block_size. simpl. lia. Qed.

(** A held block that is not the frame of [t] does not meet its cells. *)
Lemma store_elsewhere root pc m T A p t i bl x : pt_inv root pc m T A -> T !! p = Some t ->
  0 <= i < 512 -> bl ∈ A -> bl <> (0, t + hhdm) -> in_block bl x -> x <> t + hhdm + 8 * i.
Proof.
  intros I Hp Hi Hbl Hne Hx ->.
  exact (pa_disj _ _ _ _ _ (pt_pages _ _ _ _ _ I) Hbl (pt_held _ _ _ _ _ I _ _ Hp) Hne _ Hx (table_cell t i Hi)).
Qed.

Lemma kept_but_store root pc m T A p t i w : pt_inv root pc m T A -> T !! p = Some t -> 0 <= i < 512 ->
  kept_but hhdm T m (wr m (t + hhdm + 8 * i) w) p i.
Proof.
  intros I Hp Hi q u j Hq Hj Hne. unfold PageTree.entry. apply rd_wr_ne. intros E.
  destruct (cell_inj hhdm root m T p q t u i j (pt_tree _ _ _ _ _ I) Hp Hq Hi Hj E) as [-> ->]. by apply Hne.
Qed.

Lemma others_store root pc m T A p t i w : pt_inv root pc m T A -> T !! p = Some t -> 0 <= i < 512 ->
  others_kept A T m (wr m (t + hhdm + 8 * i) w).
Proof.
  intros I Hp Hi bl x Hbl Hnt Hx. apply rd_wr_ne. apply not_eq_sym. eapply store_elsewhere; eauto.
Qed.

(** ** Symbolic execution of the table operations *)

Lemma wp_table_read c pc m t i (Q : Z -> PState -> Prop) : 0 <= i < 512 ->
  Q (rd m (t + 8 * i)) ((c, pc), m) -> wp (table_read t i) ((c, pc), m) Q.
Proof. intros Hi HQ. unfold table_read. wp_steps. exact HQ. Qed.

Lemma wp_table_write c pc m t i w (Q : unit -> PState -> Prop) : 0 <= i < 512 ->
  Q tt ((c, pc), wr m (t + 8 * i) w) -> wp (table_write t i w) ((c, pc), m) Q.
Proof. intros Hi HQ. unfold table_write. wp_steps. exact HQ. Qed.

Lemma wp_zero_entries n : forall c pc m t i (Q : unit -> PState -> Prop),
  0 <= i -> i + Z.of_nat n = 512 ->
  (forall m', (forall j, i <= j < 512 -> rd m' (t + 8 * j) = 0) ->
     changes (fun x => t + 8 * i <= x < t + 4096) m m' -> Q tt ((c, pc), m')) ->
  wp (zero_entries n t i) ((c, pc), m) Q.
Proof.
  induction n as [|n IH]; intros c pc m t i Q Hi Hn HQ; cbn [zero_entries].
  { wp_step. apply HQ; [intros j Hj; lia|apply changes_refl]. }
  wp_steps. apply IH; [lia|lia|]. intros m' Hz Hc. apply HQ.
  - intros j Hj. destruct (decide (j = i)) as [->|Hne]; [|apply Hz; lia].
    rewrite (changes_eq _ _ _ (t + 8 * i) Hc) by (cbv beta; lia). apply rd_wr_eq.
  - eapply changes_trans; [|eapply changes_weaken; [|exact Hc]; intros x; cbv beta; lia]. apply changes_wr. cbv beta. lia.
Qed.

Lemma wp_table_zero c pc m t (Q : unit -> PState -> Prop) :
  (forall m', (forall j, 0 <= j < 512 -> rd m' (t + 8 * j) = 0) ->
     changes (in_block (0, t)) m m' -> Q tt ((c, pc), m')) ->
  wp (table_zero t) ((c, pc), m) Q.
Proof.
  intros HQ. apply wp_zero_entries; [lia|done|]. intros m' Hz Hc. apply HQ; [done|].
  eapply changes_weaken; [|exact Hc]. unfold in_block, block_size. simpl. intros x. lia.
Qed.

Lemma index_vi v l : 0 <= v < W64 -> 1 <= l <= 4 -> vaddr_pt_index v l = vi v l.
Proof. apply index_law. Qed.

(** Linking a fresh zeroed frame under an absent entry. *)
Lemma link_frame root pc m T A p t i pc1 m1 virt m2 :
  pt_inv root pc m T A -> T !! p = Some t -> (length p < 3)%nat -> 0 <= i < 512 ->
  pte_is_present (entry m t i) = false ->
  pa_inv pc1 m1 ({[(0, virt)]} ∪ A) -> virt mod 4096 = 0 -> pages_kept A m m1 ->
  (forall bl, bl ∈ A -> block_disj (0, virt) bl) ->
  pa_lo pc1 = pa_lo pc -> pa_hi pc1 = pa_hi pc -> pa_frames pc1 = pa_frames pc - 1 ->
  (forall j, 0 <= j < 512 -> rd m2 (virt + 8 * j) = 0) -> changes (in_block (0, virt)) m1 m2 ->
  hhdm <= virt /\
  grown root pc m T A pc1
    (wr m2 (t + hhdm + 8 * i) (pte_encode (virt - hhdm) PAGE_SIZE (Z.lor PRESENT WRITABLE)))
    (<[p ++ [i] := virt - hhdm]> T) ({[(0, virt)]} ∪ A).
Proof.
  intros I Hp Hlen Hi Habs Ipa Hal Hkept Hdisj Hlo Hhi Hfr Hz Hch. pose proof I as [IT _ Iheld Ilow Ihigh].
  destruct (pa_window _ _ _ 0 virt Ipa ltac:(set_solver)) as [Hv1 Hv2].
  unfold block_size in Hv2. rewrite Hlo in Hv1. rewrite Hhi in Hv2. change (2 ^ 0 * 4096) with 4096 in Hv2.
  split; [lia|]. set (c := virt - hhdm). set (e := pte_encode c _ _). set (m3 := wr m2 _ e).
  assert (frame_ok c PAGE_SIZE) as Hc.
  { unfold c, frame_ok, PAGE_SIZE. split; [lia|]. rewrite Zminus_mod, Hal, (proj2 hhdm_ok). done. }
  assert (c + hhdm = virt) as Ec by (unfold c; lia).
  assert (forall bl x, bl ∈ A -> in_block bl x -> rd m2 x = rd m x) as Hk2.
  { intros bl x Hbl Hx. rewrite (changes_eq _ _ _ x Hch); [by apply (Hkept bl)|]. intros Hv. by apply (Hdisj bl Hbl x). }
  assert (forall q, T !! q <> Some c) as Hfresh.
  { intros q Hq. apply Iheld in Hq. rewrite Ec in Hq. apply (Hdisj _ Hq virt); unfold in_block, block_size; simpl; lia. }
  assert (kept_but hhdm T m m3 p i) as Hkb.
  { intros q u j Hq Hj Hne. unfold PageTree.entry, m3. rewrite rd_wr_ne.
    - by apply (Hk2 (0, u + hhdm)); [by eapply Iheld|apply table_cell].
    - intros E. destruct (cell_inj hhdm root m T p q t u i j IT Hp Hq Hi Hj E) as [-> ->]. by apply Hne. }
  assert (entry m3 t i = e) as Hent by (unfold PageTree.entry, m3; apply rd_wr_eq).
  assert (forall j, 0 <= j < 512 -> entry m3 c j = 0) as Hz3.
  { intros j Hj. unfold PageTree.entry, m3. rewrite Ec, rd_wr_ne; [by apply Hz|]. intros E.
    apply (Hdisj (0, t + hhdm) (Iheld _ _ Hp) (virt + 8 * j)); [|rewrite <- E; by apply table_cell].
    unfold in_block, block_size. simpl. lia. }
  assert (tree root m3 (<[p ++ [i] := c]> T)) as IT'.
  { eapply tree_extend; try done. rewrite Ec. unfold PAGE_SIZE. lia. }
  split.
  - split; [done| | |by rewrite Hlo|by rewrite Hhi].
    + eapply pa_changes; [exact Ipa|]. eapply changes_trans.
      * eapply changes_weaken; [|exact Hch]. intros x Hx. exists (0, virt). split; [set_solver|done].
      * apply changes_wr. exists (0, t + hhdm). split; [set_solver|by apply table_cell].
    + intros q u [[<- <-]|[_ Hq]]%lookup_insert_Some; [rewrite Ec; set_solver|apply Iheld in Hq; set_solver].
  - intros q u Hq. rewrite lookup_insert_ne; [done|]. intros E. rewrite <- E in Hq.
    rewrite (tr_child _ _ _ _ IT p t i) in Hq by done. unfold link in Hq. by rewrite Habs in Hq.
  - set_solver.
  - intros q u [[<- <-]|[_ Hq]]%lookup_insert_Some Hin; [|eauto]. exfalso. rewrite Ec in Hin.
    apply (Hdisj _ Hin virt); unfold in_block, block_size; simpl; lia.
  - intros bl x Hbl Hnt Hx. unfold m3. rewrite rd_wr_ne; [by apply (Hk2 bl)|].
    apply not_eq_sym. eapply (store_elsewhere root pc m T A p t i bl x); eauto.
  - intros v. eapply walk_extend; done.
  - rewrite Hfr, map_size_insert_None; [lia|].
    rewrite (tr_child _ _ _ _ IT p t i) by done. unfold link. by rewrite Habs.
Qed.

(** The walk of [v] meets no huge page. *)
Definition small (root : Z) (m : mem) (v : Z) : Prop :=
  forall sz f, walk 4 m root v = Some (sz, f) -> sz = PAGE_SIZE.

(** A present entry on the path of [v], when no huge page is met. *)
Lemma present_link root m T v k t : tree root m T -> (k < 3)%nat -> T !! vpath v k = Some t -> small root m v ->
  pte_is_present (entry m t (vi v (4 - Z.of_nat k))) = true ->
  T !! vpath v (S k) = Some (pte_phys_addr (entry m t (vi v (4 - Z.of_nat k))) PAGE_SIZE).
Proof.
  intros I Hk Ht Hs Hp. destruct (T !! vpath v (S k)) as [c|] eqn:E.
  - destruct (parent hhdm root m T v k c I Hk E) as (t0 & H0 & _ & ->). congruence.
  - destruct (walk_end hhdm root m T v k t I Hk Ht E) as [Hw H1]. rewrite Hp in Hw. specialize (H1 Hp).
    apply Hs in Hw. unfold level_size, PAGE_SIZE in Hw.
    assert (k = 1 \/ k = 2)%nat as [-> | ->] by lia; done.
Qed.

(** A 4 KiB translation comes from a leaf table. *)
Lemma leaf_table root m T v f : tree root m T -> walk 4 m root v = Some (PAGE_SIZE, f) -> is_Some (T !! vpath v 3).
Proof.
  intros I Hw.
  assert (forall k t, (k < 3)%nat -> T !! vpath v k = Some t -> is_Some (T !! vpath v (S k))) as Hstep.
  { intros k t Hk Ht. destruct (T !! vpath v (S k)) eqn:E; [eauto|exfalso].
    destruct (walk_end hhdm root m T v k t I Hk Ht E) as [Hend H1]. rewrite Hend in Hw.
    destruct (pte_is_present _); [|done]. specialize (H1 eq_refl). injection Hw as Hw _. unfold level_size, PAGE_SIZE in Hw.
    assert (k = 1 \/ k = 2)%nat as [-> | ->] by lia; done. }
  destruct (Hstep 0%nat root ltac:(lia) (tr_root _ _ _ _ I)) as [t1 H1].
  destruct (Hstep 1%nat t1 ltac:(lia) H1) as [t2 H2]. exact (Hstep 2%nat t2 ltac:(lia) H2).
Qed.

(** At most [n] frames were taken, and none when the table at [p] existed. *)
Definition table_cost (T : gmap (list Z) Z) (p : list Z) (n : Z) (pc pc' : C) : Prop :=
  pa_frames pc - (if decide (is_Some (T !! p)) then 0 else n) <= pa_frames pc'.

Lemma wp_descend root c pc m T A v k t n level :
  pt_inv root pc m T A -> (k < 3)%nat -> T !! vpath v k = Some t -> small root m v -> 0 <= v < W64 ->
  level = 4 - Z.of_nat k -> pa_can_alloc (S n) pc ->
  wp (descend_or_create hhdm t v level) ((c, pc), m) (fun r s' => fst (fst s') = c /\
    match r with
    | inl e => e = OutOfFrames /\ pa_frames pc <= 0 /\ s' = ((c, pc), m) /\ T !! vpath v (S k) = None
    | inr u => exists T' A', grown root pc m T A (snd (fst s')) (snd s') T' A' /\
        T' !! vpath v (S k) = Some u /\ pa_can_alloc n (snd (fst s')) /\
        table_cost T (vpath v (S k)) 1 pc (snd (fst s'))
    end).
Proof.
  intros I Hk Ht Hs Hv -> Hn. pose proof I as [IT Ipa Iheld Ilow Ihigh].
  destruct (tr_frame _ _ _ _ IT _ _ Ht) as (_ & [Ht0 Hta] & Hend). unfold PAGE_SIZE in Hend.
  pose proof (vi_range v (4 - Z.of_nat k)) as Hi. set (i := vi v (4 - Z.of_nat k)) in *.
  unfold descend_or_create, table_at_phys, phys_to_virt. wp_steps. rewrite index_vi by lia. fold i.
  apply wp_table_read; [done|]. fold (PageTree.entry hhdm m t i).
  destruct (pte_is_present (entry m t i)) eqn:Hp.
  - wp_step. cbn [fst snd]. split; [done|]. exists T, A. split; [by apply grown_refl|].
    split; [by apply (present_link root m)|]. split; [by apply pa_can_less|]. unfold table_cost. case_decide; lia.
  - assert (T !! vpath v (S k) = None) as Hnone.
    { rewrite vpath_S, (tr_child _ _ _ _ IT _ _ _ Ht) by path_side. fold i. unfold link. by rewrite Hp. }
    unfold alloc_table_frame. wp_step. wp_step. apply wp_page_call.
    eapply wp_mono; [apply (pa_alloc_spec pc m A 0 n); [done|done|lia]|].
    intros [virt|] [pc1 m1] Hpost; cbn [fst snd] in *.
    2: { destruct Hpost as [[= -> ->] Hfr]. wp_steps. auto. }
    destruct Hpost as (Ipa1 & Hv0 & Hvend & Hal & Hdisj & Hkept & Hcan & Hlo & Hhi & Hfr).
    assert (length (vpath v k) < 3)%nat as Hlen by (rewrite vpath_length; lia).
    destruct (pa_window _ _ _ 0 virt Ipa1 ltac:(set_solver)) as [Hv1 _]. rewrite Hlo in Hv1.
    wp_steps. apply wp_table_zero. intros m2 Hz Hch. wp_steps.
    apply wp_table_write; [done|]. wp_steps. cbn [fst snd]. split; [done|].
    destruct (link_frame root pc m T A (vpath v k) t i pc1 m1 virt m2) as [_ G]; try done.
    exists (<[vpath v k ++ [i] := virt - hhdm]> T), ({[(0, virt)]} ∪ A). split; [exact G|].
    split; [rewrite vpath_S by done; apply lookup_insert_eq|]. split; [done|].
    unfold table_cost. rewrite Hnone, decide_False; [lia|by intros [? ?]].
Qed.

(** ** Pages *)

(** The page of an address, as the four levels of tables see it. *)
Definition page_no (v : Z) : Z := (v / 4096) mod 2 ^ 36.

Lemma vi_digits v : 0 <= v ->
  vi v 1 = (v / 4096) mod 512 /\ vi v 2 = (v / 4096 / 512) mod 512 /\
  vi v 3 = (v / 4096 / 512 / 512) mod 512 /\ vi v 4 = (v / 4096 / 512 / 512 / 512) mod 512.
Proof. intros Hv. unfold vi. rewrite !Z.div_div by lia. done. Qed.

Lemma page_digits x : 0 <= x ->
  x mod 2 ^ 36 = x mod 512 + 512 * ((x / 512) mod 512) + 512 * 512 * ((x / 512 / 512) mod 512) +
    512 * 512 * 512 * ((x / 512 / 512 / 512) mod 512).
Proof.
  intros Hx. change (2 ^ 36) with (512 * (512 * (512 * 512))).
  rewrite !Z.rem_mul_r by lia. lia.
Qed.

Lemma page_through v v' : 0 <= v -> 0 <= v' ->
  (through v' (vpath v 3) (vi v 1) <-> page_no v' = page_no v).
Proof.
  intros Hv Hv'. unfold through. rewrite vpath_length by lia. change (4 - Z.of_nat 3) with 1.
  destruct (vi_digits v Hv) as (E1 & E2 & E3 & E4), (vi_digits v' Hv') as (F1 & F2 & F3 & F4).
  pose proof (page_digits (v / 4096) ltac:(apply Z.div_pos; lia)) as D.
  pose proof (page_digits (v' / 4096) ltac:(apply Z.div_pos; lia)) as D'. unfold page_no. rewrite D, D'.
  rewrite <- E1, <- E2, <- E3, <- E4, <- F1, <- F2, <- F3, <- F4. unfold vpath. simpl.
  pose proof (vi_range v 1). pose proof (vi_range v 2). pose proof (vi_range v 3). pose proof (vi_range v 4).
  pose proof (vi_range v' 1). pose proof (vi_range v' 2). pose proof (vi_range v' 3). pose proof (vi_range v' 4).
  split.
  - intros [[= -> -> ->] ->]. done.
  - intros E. assert (vi v' 1 = vi v 1 /\ vi v' 2 = vi v 2 /\ vi v' 3 = vi v 3 /\ vi v' 4 = vi v 4)
      as (-> & -> & -> & ->); [|done]. lia.
Qed.

(** Storing a leaf entry. *)
Lemma leaf_store root pc m T A v t w : pt_inv root pc m T A -> T !! vpath v 3 = Some t -> 0 <= v ->
  let m' := wr m (t + hhdm + 8 * vi v 1) w in
  pt_inv root pc m' T A /\ others_kept A T m m' /\
  forall v', 0 <= v' -> walk 4 m' root v' =
    if decide (page_no v' = page_no v)
    then if pte_is_present w then Some (PAGE_SIZE, pte_phys_addr w PAGE_SIZE) else None
    else walk 4 m root v'.
Proof.
  intros I Ht Hv m'. pose proof I as [IT Ipa Iheld Ilow Ihigh]. pose proof (vi_range v 1) as Hi.
  pose proof (kept_but_store root pc m T A _ t (vi v 1) w I Ht Hi) as Hk. fold m' in Hk.
  assert (length (vpath v 3) = 3%nat) as Hlen by done.
  assert (tree root m' T) as IT'.
  { eapply (tree_store hhdm root m m' T (vpath v 3) t (vi v 1)); try done; [rewrite Hlen; lia| |rewrite Hlen; lia].
    destruct (T !! (vpath v 3 ++ [vi v 1])) as [u|] eqn:E; [|done].
    destruct (tr_frame _ _ _ _ IT _ _ E) as [Hl _]. rewrite length_app in Hl. simpl in Hl. lia. }
  split_and!.
  - split; try done. eapply pa_changes; [exact Ipa|]. apply changes_wr. exists (0, t + hhdm).
    split; [by eapply Iheld|by apply table_cell].
  - by eapply others_store.
  - intros v' Hv'. destruct (decide (page_no v' = page_no v)) as [E|E].
    + apply page_through in E as [Ep Ei]; [|done|done]. rewrite Hlen in Ep, Ei. change (4 - Z.of_nat 3) with 1 in Ei.
      rewrite (walk_down hhdm root m' T v' 3 t IT') by (lia || by rewrite Ep). change (4 - 3)%nat with 1%nat.
      rewrite walk_leaf, Ei. unfold PageTree.entry, m'. by rewrite rd_wr_eq.
    + eapply walk_other; [exact IT|exact Hk|]. by rewrite page_through.
Qed.

Lemma wp_try {A' B'} (f : M PState (MapError + A')) (k : A' -> M PState (MapError + B')) s Q :
  wp f s (fun r s' => match r with inl e => Q (inl e) s' | inr a => wp (k a) s' Q end) -> wp (try_ f k) s Q.
Proof.
  intros H. unfold try_. apply wp_bind. eapply wp_mono; [exact H|]. intros [e|a] s' Hr; [by apply wp_ret|done].
Qed.

Definition active_root (c : Cpu) : Z := Z.land (cr3 c) (not64 4095).

Lemma wp_pml4_phys c (pc : C) m (Q : Z -> PState -> Prop) :
  Q (active_root c) ((c, pc), m) -> wp pml4_phys ((c, pc), m) Q.
Proof. intros HQ. unfold pml4_phys, cpu. wp_steps. exact HQ. Qed.

Lemma aligned_land v : Z.land v (PAGE_SIZE - 1) = v mod 4096.
Proof. change (PAGE_SIZE - 1) with (Z.ones 12). rewrite Z.land_ones by lia. done. Qed.

Lemma grown_small root pc m T A pc' m' T' A' v : grown root pc m T A pc' m' T' A' -> small root m v -> small root m' v.
Proof. intros G Hs sz f. rewrite (gr_walk _ _ _ _ _ _ _ _ _ G). apply Hs. Qed.

(** The table of [v]'s leaf, created if need be. *)
Lemma wp_descend3 {R} root c pc m T A v n (k : Z -> M PState (MapError + R)) Q :
  pt_inv root pc m T A -> small root m v -> 0 <= v < W64 -> pa_can_alloc (S (S (S n))) pc ->
  (forall pc' m' T' A', grown root pc m T A pc' m' T' A' -> pa_frames pc' <= 0 ->
     T !! vpath v 3 = None -> pa_frames pc <= 2 -> Q (inl OutOfFrames) ((c, pc'), m')) ->
  (forall pc' m' T' A' t, grown root pc m T A pc' m' T' A' -> T' !! vpath v 3 = Some t -> pa_can_alloc n pc' ->
     table_cost T (vpath v 3) 3 pc pc' -> wp (k t) ((c, pc'), m') Q) ->
  wp (try_ (descend_or_create hhdm root v 4) (fun pdpt =>
      try_ (descend_or_create hhdm pdpt v 3) (fun pd =>
      try_ (descend_or_create hhdm pd v 2) k))) ((c, pc), m) Q.
Proof.
  intros I Hs Hv Hn HE HK. pose proof (pt_tree _ _ _ _ _ I) as IT.
  assert (forall j, (j < 3)%nat -> T !! vpath v j = None -> T !! vpath v (S j) = None) as Hup.
  { intros j Hj Hno. destruct (T !! vpath v (S j)) as [t|] eqn:E; [|done].
    destruct (parent hhdm root m T v j t IT Hj E) as (u & Hu & _). congruence. }
  apply wp_try.
  eapply wp_mono; [apply (wp_descend root c pc m T A v 0 root (S (S n))); try done; [lia|apply (tr_root _ _ _ _ (pt_tree _ _ _ _ _ I))]|].
  intros [e|t1] [[c1 pc1] m1] [Hc H]; cbn [fst snd] in *; subst c1.
  { destruct H as (-> & Hf & [= -> ->] & H1). eapply HE; [by apply grown_refl|done|by do 2 (apply Hup; [lia|])|lia]. }
  destruct H as (T1 & A1 & G1 & Ht1 & Hn1 & F1). apply wp_try.
  assert (forall p, T1 !! p = None -> T !! p = None) as B1.
  { intros p Hp. destruct (T !! p) as [t|] eqn:E; [|done]. apply (gr_tables _ _ _ _ _ _ _ _ _ G1) in E. congruence. }
  eapply wp_mono; [apply (wp_descend root c pc1 m1 T1 A1 v 1 t1 (S n)); try done;
    [apply G1|lia|by eapply grown_small]|].
  intros [e|t2] [[c2 pc2] m2] [Hc H]; cbn [fst snd] in *; subst c2.
  { destruct H as (-> & Hf & [= -> ->] & H2). eapply HE; [exact G1|done|by apply Hup, B1; [lia|]|].
    unfold table_cost in F1. case_decide; lia. }
  destruct H as (T2 & A2 & G2' & Ht2 & Hn2 & F2). pose proof (grown_trans _ _ _ _ _ _ _ _ _ _ _ _ _ G1 G2') as G2. apply wp_try.
  eapply wp_mono; [apply (wp_descend root c pc2 m2 T2 A2 v 2 t2 n); try done;
    [apply G2|lia|by eapply grown_small]|].
  intros [e|t3] [[c3 pc3] m3] [Hc H]; cbn [fst snd] in *; subst c3.
  { destruct H as (-> & Hf & [= -> ->] & H3). eapply HE; [exact G2|done| |].
    - destruct (T !! vpath v 3) as [t|] eqn:E; [|done]. apply (gr_tables _ _ _ _ _ _ _ _ _ G2) in E. congruence.
    - unfold table_cost in F1, F2. repeat case_decide; lia. }
  destruct H as (T3 & A3 & G3' & Ht3 & Hn3 & F3).
  eapply HK; [exact (grown_trans _ _ _ _ _ _ _ _ _ _ _ _ _ G2 G3')|done|done|].
  unfold table_cost in *. destruct (decide (is_Some (T !! vpath v 3))) as [[t Ht]|].
  - destruct (parent hhdm root m T v 2 t IT ltac:(lia) Ht) as (u & Hu & _).
    destruct (parent hhdm root m T v 1 u IT ltac:(lia) Hu) as (w & Hw & _).
    rewrite decide_True in F1 by eauto. rewrite decide_True in F2 by (exists u; by apply G1). rewrite decide_True in F3 by (exists t; by apply G2). lia.
  - repeat case_decide; lia.
Qed.

(** ** The walker's operations *)

(** What a successful [map] of [v] to [phys] does to the translations. *)
Record mapped (root : Z) (pc : C) (m : mem) (T : gmap (list Z) Z) (A : gset (Z * Z)) (v phys : Z)
    (pc' : C) (m' : mem) (T' : gmap (list Z) Z) (A' : gset (Z * Z)) : Prop := mkMapped {
  mp_inv : pt_inv root pc' m' T' A';
  mp_tables : forall p t, T !! p = Some t -> T' !! p = Some t;
  mp_held : forall bl, bl ∈ A -> bl ∈ A';
  mp_new : forall p t, T' !! p = Some t -> (0, t + hhdm) ∈ A -> exists q, T !! q = Some t;
  mp_others : others_kept A T m m';
  mp_walk : forall v', 0 <= v' -> walk 4 m' root v' =
    if decide (page_no v' = page_no v) then Some (PAGE_SIZE, phys) else walk 4 m root v'
}.

Lemma mapped_store root pc m T A pc1 m1 T1 A1 v phys fl t :
  grown root pc m T A pc1 m1 T1 A1 -> T1 !! vpath v 3 = Some t -> 0 <= v ->
  frame_ok phys PAGE_SIZE -> flags_ok fl ->
  mapped root pc m T A v phys pc1
    (wr m1 (t + hhdm + 8 * vi v 1) (pte_encode phys PAGE_SIZE (Z.lor PRESENT fl))) T1 A1.
Proof.
  intros G Ht Hv Hph Hfl. destruct (present_flags_ok fl Hfl) as [Hfl' Hbit].
  destruct (leaf_store root pc1 m1 T1 A1 v t (pte_encode phys PAGE_SIZE (Z.lor PRESENT fl)) (gr_inv _ _ _ _ _ _ _ _ _ G) Ht Hv)
    as (I2 & O2 & W2). rewrite encode_present, Hbit, encode_addr in W2 by (done || by left).
  destruct G as [G1 G2 G3 G4 G5 G6 G7]. split; try done.
  - intros bl x Hbl Hnt Hx. rewrite (O2 bl x); [by apply (G5 bl x)|by apply G3| |done].
    intros p u Hu ->. destruct (G4 p u Hu Hbl) as [q Hq]. by apply (Hnt q u).
  - intros v' Hv'. rewrite W2 by done. by rewrite G6.
Qed.

Lemma wp_map root c pc m T A v phys prot n :
  pt_inv root pc m T A -> active_root c = root -> small root m v -> 0 <= v < W64 -> 0 <= phys < 2 ^ 52 ->
  flags_ok prot -> pa_can_alloc (S (S (S n))) pc ->
  wp (map hhdm v phys prot) ((c, pc), m) (fun r s' =>
    match r with
    | inl Misaligned => (v mod 4096 <> 0 \/ phys mod 4096 <> 0) /\ s' = ((c, pc), m)
    | inl OutOfFrames => fst (fst s') = c /\
        T !! vpath v 3 = None /\ pa_frames pc <= 2 /\
        exists T' A', grown root pc m T A (snd (fst s')) (snd s') T' A' /\ pa_frames (snd (fst s')) <= 0
    | inr old => v mod 4096 = 0 /\ phys mod 4096 = 0 /\
        old = option_map snd (walk 4 m root v) /\
        fst (fst s') = mkCpu (cr3 c) (v :: invalidated c) (msr_writes c) /\
        exists T' A', mapped root pc m T A v phys (snd (fst s')) (snd s') T' A' /\ pa_can_alloc n (snd (fst s')) /\
          table_cost T (vpath v 3) 3 pc (snd (fst s')) /\ is_Some (T' !! vpath v 3)
    end).
Proof.
  intros I Hc Hs Hv Hph Hfl Hn. unfold map. rewrite !aligned_land.
  destruct (Z.eqb_spec (v mod 4096) 0) as [Hva|Hva]; cbn [negb orb]; [|wp_step; auto].
  destruct (Z.eqb_spec (phys mod 4096) 0) as [Hpa|Hpa]; cbn [negb]; [|wp_step; auto].
  wp_step. apply wp_pml4_phys. rewrite Hc. apply (wp_descend3 root c pc m T A v n); try done.
  { intros pc' m' T' A' G Hfr H3 H2. cbn [fst snd]. split_and!; [done|done|done|]. by exists T', A'. }
  intros pc' m' T' A' t G Ht Hn' Hcost. pose proof (gr_inv _ _ _ _ _ _ _ _ _ G) as I'.
  destruct (tr_frame _ _ _ _ (pt_tree _ _ _ _ _ I') _ _ Ht) as (_ & [Ht0 _] & Hend). unfold PAGE_SIZE in Hend.
  unfold table_at_phys, phys_to_virt. wp_steps. rewrite index_vi by lia. pose proof (vi_range v 1) as Hi.
  apply wp_table_read; [done|]. wp_step. apply wp_table_write; [done|]. unfold invlpg, cpu, set_cpu, upd. wp_steps.
  split_and!; [done|done| |done|].
  - rewrite <- (gr_walk _ _ _ _ _ _ _ _ _ G).
    rewrite (walk_down hhdm root m' T' v 3 t (pt_tree _ _ _ _ _ I')) by (done || lia).
    change (4 - 3)%nat with 1%nat. rewrite walk_leaf. unfold PageTree.entry.
    cbn zeta. by destruct (pte_is_present _).
  - exists T', A'. split; [apply mapped_store; [done|done|lia|by split|done]|]. split_and!; [done|done|by exists t].
Qed.

Lemma wp_walk_existing root c pc m T A v k t level (Q : option Z -> PState -> Prop) :
  pt_inv root pc m T A -> (k < 3)%nat -> T !! vpath v k = Some t -> 0 <= v < W64 -> level = 4 - Z.of_nat k ->
  Q (T !! vpath v (S k)) ((c, pc), m) -> wp (walk_existing hhdm t v level) ((c, pc), m) Q.
Proof.
  intros I Hk Ht Hv -> HQ. pose proof (pt_tree _ _ _ _ _ I) as IT.
  destruct (tr_frame _ _ _ _ IT _ _ Ht) as (_ & [Ht0 _] & Hend). unfold PAGE_SIZE in Hend.
  unfold walk_existing, table_at_phys, phys_to_virt. wp_steps. rewrite index_vi by lia.
  apply wp_table_read; [apply vi_range|]. fold (PageTree.entry hhdm m t (vi v (4 - Z.of_nat k))).
  rewrite vpath_S, (tr_child _ _ _ _ IT _ _ _ Ht) in HQ; [|path_side..].
  unfold link in HQ. destruct (pte_is_present _ && _); by wp_step.
Qed.

(** Is [v]'s page mapped by a leaf entry, or on its way to one? *)
Lemma wp_unmap root c pc m T A v :
  pt_inv root pc m T A -> active_root c = root -> 0 <= v < W64 ->
  wp (unmap hhdm v) ((c, pc), m) (fun _ s' =>
    (T !! vpath v 3 = None /\ s' = ((c, pc), m)) \/
    (is_Some (T !! vpath v 3) /\ fst (fst s') = mkCpu (cr3 c) (v :: invalidated c) (msr_writes c) /\
     snd (fst s') = pc /\ pt_inv root pc (snd s') T A /\ others_kept A T m (snd s') /\
     forall v', 0 <= v' -> walk 4 (snd s') root v' =
       if decide (page_no v' = page_no v) then None else walk 4 m root v')).
Proof.
  intros I Hc Hv. pose proof (pt_tree _ _ _ _ _ I) as IT.
  assert (forall k, (k < 3)%nat -> T !! vpath v k = None -> T !! vpath v (S k) = None) as Hup.
  { intros k Hk Hn. destruct (T !! vpath v (S k)) as [u|] eqn:E; [|done].
    destruct (parent hhdm root m T v k u IT Hk E) as (t0 & H0 & _). congruence. }
  pose proof (Hup 1%nat ltac:(lia)) as Hup1. pose proof (Hup 2%nat ltac:(lia)) as Hup2.
  unfold unmap. wp_step. apply wp_pml4_phys. rewrite Hc. wp_step.
  apply (wp_walk_existing root c pc m T A v 0); [done|lia|apply (tr_root _ _ _ _ IT)|done|lia|].
  destruct (T !! vpath v 1) as [t1|] eqn:E1; [|wp_step; left; auto].
  wp_step. apply (wp_walk_existing root c pc m T A v 1); [done|lia|done|done|lia|].
  destruct (T !! vpath v 2) as [t2|] eqn:E2; [|wp_step; left; auto].
  wp_step. apply (wp_walk_existing root c pc m T A v 2); [done|lia|done|done|lia|].
  destruct (T !! vpath v 3) as [t3|] eqn:E3; [|wp_step; by left].
  destruct (tr_frame _ _ _ _ IT _ _ E3) as (_ & [Ht0 _] & Hend). unfold PAGE_SIZE in Hend.
  unfold table_at_phys, phys_to_virt. wp_steps. rewrite index_vi by lia. pose proof (vi_range v 1) as Hi.
  apply wp_table_write; [done|]. unfold invlpg, cpu, set_cpu, upd. wp_steps.
  destruct (leaf_store root pc m T A v t3 0 I E3 ltac:(lia)) as (I' & O' & W').
  rewrite zero_absent in W'. right. split_and!; done.
Qed.

(** The physical address [v] translates to. *)
Definition translation (root : Z) (m : mem) (v : Z) : option Z :=
  match walk 4 m root v with
  | Some (sz, f) => Some (f + v mod sz)
  | None => None
  end.

Lemma land_mod v k mask : mask = Z.ones k -> 0 <= k -> Z.land v mask = v mod 2 ^ k.
Proof. intros -> Hk. by apply Z.land_ones. Qed.

Lemma wp_translate root c pc m T A v :
  pt_inv root pc m T A -> active_root c = root -> 0 <= v < W64 ->
  wp (translate hhdm v) ((c, pc), m) (fun r s' => r = translation root m v /\ s' = ((c, pc), m)).
Proof.
  intros I Hc Hv. pose proof (pt_tree _ _ _ _ _ I) as IT. unfold translation.
  assert (forall p t, T !! p = Some t -> 0 <= t /\ t + hhdm < W64) as Hfr.
  { intros p t Ht. destruct (tr_frame _ _ _ _ IT _ _ Ht) as (_ & [Ht0 _] & Hend). unfold PAGE_SIZE in Hend. lia. }
  assert (forall k t, (k < 3)%nat -> T !! vpath v k = Some t -> let e := entry m t (vi v (4 - Z.of_nat k)) in
    link e = true -> T !! vpath v (S k) = Some (pte_phys_addr e PAGE_SIZE)) as Hdown.
  { intros k t Hk Ht e Hl. rewrite vpath_S, (tr_child _ _ _ _ IT _ _ _ Ht); [|path_side..]. fold e. by rewrite Hl. }
  assert (forall e sz, page_size sz -> pte_phys_addr e sz + v mod sz < W64) as Hsum.
  { intros e sz Hsz. destruct (addr_frame e sz Hsz) as [? _].
    assert (0 < sz < 2 ^ 52) by (destruct Hsz as [->|[->| ->]]; lia).
    pose proof (Z.mod_pos_bound v sz ltac:(lia)). unfold W64. lia. }
  pose proof (tr_root _ _ _ _ IT) as H0. change [] with (vpath v 0) in H0. pose proof (Hfr _ _ H0).
  unfold translate. wp_step. apply wp_pml4_phys. rewrite Hc. unfold table_at_phys, phys_to_virt. wp_steps.
  rewrite !index_vi by lia. apply wp_table_read; [apply vi_range|].
  fold (PageTree.entry hhdm m root (vi v 4)). rewrite walk_step by lia. cbn [Nat.leb andb]. cbn zeta.
  change (Z.of_nat 4) with 4. pose proof (Hdown 0%nat root ltac:(lia) H0) as Hd1. change (4 - Z.of_nat 0) with 4 in Hd1.
  pose proof (tr_top _ _ _ _ IT (vi v 4) (vi_range v 4)) as Htop. unfold link in Hd1. cbn zeta in Hd1.
  set (e4 := entry m root (vi v 4)) in *. destruct (pte_is_present e4); [|cbn [negb]; by wp_step].
  rewrite Htop in Hd1 by done. specialize (Hd1 eq_refl). clear Htop. set (t3 := pte_phys_addr e4 PAGE_SIZE) in *.
  pose proof (Hfr _ _ Hd1). cbn [negb]. wp_steps. apply wp_table_read; [apply vi_range|].
  fold (PageTree.entry hhdm m t3 (vi v 3)). rewrite walk_step by lia. cbn [Nat.leb andb]. cbn zeta.
  change (Z.of_nat 3) with 3. pose proof (Hdown 1%nat t3 ltac:(lia) Hd1) as Hd2. change (4 - Z.of_nat 1) with 3 in Hd2.
  unfold link in Hd2. cbn zeta in Hd2. set (e3 := entry m t3 (vi v 3)) in *.
  destruct (pte_is_present e3); [|cbn [negb]; by wp_step]. destruct (pte_is_huge e3); cbn [negb].
  { change (level_size 3) with (2 ^ 30). rewrite (land_mod v 30) by (lia || by vm_compute). change 1073741824 with (2 ^ 30).
    pose proof (Hsum e3 (2 ^ 30) ltac:(unfold page_size; auto)). wp_steps. done. }
  specialize (Hd2 eq_refl). set (t2 := pte_phys_addr e3 PAGE_SIZE) in *.
  pose proof (Hfr _ _ Hd2). wp_steps. apply wp_table_read; [apply vi_range|].
  fold (PageTree.entry hhdm m t2 (vi v 2)). rewrite walk_step by lia. cbn [Nat.leb andb]. cbn zeta.
  change (Z.of_nat 2) with 2. pose proof (Hdown 2%nat t2 ltac:(lia) Hd2) as Hd3. change (4 - Z.of_nat 2) with 2 in Hd3.
  unfold link in Hd3. cbn zeta in Hd3. set (e2 := entry m t2 (vi v 2)) in *.
  destruct (pte_is_present e2); [|cbn [negb]; by wp_step]. destruct (pte_is_huge e2); cbn [negb].
  { change (level_size 2) with (2 ^ 21). rewrite (land_mod v 21) by (lia || by vm_compute). change HUGE_2M with (2 ^ 21).
    pose proof (Hsum e2 (2 ^ 21) ltac:(unfold page_size; auto)). wp_steps. done. }
  specialize (Hd3 eq_refl). set (t1 := pte_phys_addr e2 PAGE_SIZE) in *.
  pose proof (Hfr _ _ Hd3). wp_steps. apply wp_table_read; [apply vi_range|].
  fold (PageTree.entry hhdm m t1 (vi v 1)). rewrite walk_leaf. cbn zeta.
  set (e1 := entry m t1 (vi v 1)). destruct (pte_is_present e1); cbn [negb]; [|cbn [negb]; by wp_step].
  rewrite (land_mod v 12) by (lia || by vm_compute). pose proof (Hsum e1 PAGE_SIZE ltac:(unfold page_size; auto)). change (2 ^ 12) with PAGE_SIZE.
  wp_steps. done.
Qed.

(** ** Sequences of changes to a tree *)

(** A tree that only gained tables, in memory where only tables changed. *)
Record evolved (root : Z) (pc : C) (m : mem) (T : gmap (list Z) Z) (A : gset (Z * Z))
    (pc' : C) (m' : mem) (T' : gmap (list Z) Z) (A' : gset (Z * Z)) : Prop := mkEvolved {
  ev_inv : pt_inv root pc' m' T' A';
  ev_tables : forall p t, T !! p = Some t -> T' !! p = Some t;
  ev_held : forall bl, bl ∈ A -> bl ∈ A';
  ev_new : forall p t, T' !! p = Some t -> (0, t + hhdm) ∈ A -> exists q, T !! q = Some t;
  ev_others : others_kept A T m m'
}.

Lemma evolved_refl root pc m T A : pt_inv root pc m T A -> evolved root pc m T A pc m T A.
Proof. intros I. split; try done. eauto. Qed.

Lemma evolved_trans root pc1 m1 T1 A1 pc2 m2 T2 A2 pc3 m3 T3 A3 :
  evolved root pc1 m1 T1 A1 pc2 m2 T2 A2 -> evolved root pc2 m2 T2 A2 pc3 m3 T3 A3 ->
  evolved root pc1 m1 T1 A1 pc3 m3 T3 A3.
Proof.
  intros [I1 S1 H1 N1 O1] [I2 S2 H2 N2 O2]. split; auto.
  - intros p t Ht Hin. destruct (N2 p t Ht (H1 _ Hin)) as [q Hq]. by apply (N1 q).
  - intros bl x Hbl Hnt Hx. rewrite (O2 bl x); [by apply (O1 bl x)|by apply H1| |done].
    intros p t Ht ->. destruct (N1 p t Ht Hbl) as [q Hq]. by apply (Hnt q t).
Qed.

Lemma grown_evolved root pc m T A pc' m' T' A' :
  grown root pc m T A pc' m' T' A' -> evolved root pc m T A pc' m' T' A'.
Proof. by intros [? ? ? ? ? _ _]. Qed.

Lemma mapped_evolved root pc m T A v phys pc' m' T' A' :
  mapped root pc m T A v phys pc' m' T' A' -> evolved root pc m T A pc' m' T' A'.
Proof. by intros [? ? ? ? ? _]. Qed.

(** Distance in pages from [vs] to [v], as the tables see it. *)
Definition page_off (vs v : Z) : Z := (page_no v - page_no vs) mod 2 ^ 36.

Lemma page_off_spec vs v j : 0 <= vs -> vs mod 4096 = 0 -> 0 <= j < 2 ^ 36 ->
  page_no v = page_no (vs + j * 4096) <-> page_off vs v = j.
Proof.
  intros Hvs Ha Hj. unfold page_off, page_no. rewrite Z.div_add by lia.
  set (a := v / 4096). set (b := vs / 4096). rewrite Zminus_mod_idemp_l, Zminus_mod_idemp_r. split; intros E.
  - rewrite Zminus_mod, E, <- Zminus_mod. replace (b + j - b) with j by lia. by apply Z.mod_small.
  - rewrite <- E at 1. rewrite Zplus_mod_idemp_r. f_equal. lia.
Qed.

(** The first [k] pages of a range are mapped in order, the rest as before. *)
Definition range_walk (root vs ps : Z) (m m' : mem) (i k : Z) : Prop :=
  forall v, 0 <= v -> walk 4 m' root v =
    if decide (i <= page_off vs v < k) then Some (PAGE_SIZE, ps + page_off vs v * 4096) else walk 4 m root v.

Lemma range_walk_step root vs ps m m1 m' i k :
  0 <= vs -> vs mod 4096 = 0 -> 0 <= i < 2 ^ 36 -> i < k ->
  (forall v', 0 <= v' -> walk 4 m1 root v' =
     if decide (page_no v' = page_no (vs + i * 4096)) then Some (PAGE_SIZE, ps + i * 4096) else walk 4 m root v') ->
  range_walk root vs ps m1 m' (i + 1) k -> range_walk root vs ps m m' i k.
Proof.
  intros Hvs Ha Hi Hk H1 H2 v Hv. rewrite H2, H1 by done.
  pose proof (page_off_spec vs v i Hvs Ha Hi) as E.
  destruct (decide (i + 1 <= page_off vs v < k)), (decide (i <= page_off vs v < k)),
    (decide (page_no v = page_no (vs + i * 4096))) as [P|P]; try done; try lia.
  - apply E in P. by rewrite P.
Qed.

(** The leaf table that an address is in: 2 MiB each. *)
Definition leaf_no (v : Z) : Z := v / 2 ^ 21.

Lemma vpath_leaf v v' : leaf_no v = leaf_no v' -> vpath v 3 = vpath v' 3.
Proof.
  unfold leaf_no, vpath, vi. intros E. assert (forall w l, 0 <= l -> w / 2 ^ (21 + l) = w / 2 ^ 21 / 2 ^ l) as H.
  { intros w l Hl. by rewrite Z.pow_add_r, Z.div_div by lia. }
  change (12 + 9 * (4 - 1)) with (21 + 18). change (12 + 9 * (3 - 1)) with (21 + 9). change (12 + 9 * (2 - 1)) with (21 + 0).
  by rewrite !H, E by lia.
Qed.

Lemma leaf_step vs i : 0 <= i -> 0 <= vs -> vs mod 4096 = 0 ->
  leaf_no (vs + i * 4096) <= leaf_no (vs + (i + 1) * 4096) /\ leaf_no (vs + (i + 1) * 4096) <= leaf_no (vs + i * 4096) + 1.
Proof.
  intros Hi Hvs Ha. unfold leaf_no. change (2 ^ 21) with 2097152.
  pose proof (Z.div_mod (vs + i * 4096) 2097152 ltac:(lia)). pose proof (Z.div_mod (vs + (i + 1) * 4096) 2097152 ltac:(lia)).
  pose proof (Z.mod_pos_bound (vs + i * 4096) 2097152 ltac:(lia)). pose proof (Z.mod_pos_bound (vs + (i + 1) * 4096) 2097152 ltac:(lia)). lia.
Qed.

Lemma wp_map_mmio_loop root vs ps prot n : forall c pc m T A i b l,
  pt_inv root pc m T A -> active_root c = root -> 0 <= vs -> vs mod 4096 = 0 -> 0 <= ps -> ps mod 4096 = 0 ->
  0 <= i -> i + Z.of_nat n <= 2 ^ 36 -> vs + (i + Z.of_nat n) * 4096 <= W64 -> ps + (i + Z.of_nat n) * 4096 <= 2 ^ 52 ->
  flags_ok prot -> (forall j, i <= j < i + Z.of_nat n -> small root m (vs + j * 4096)) ->
  pa_can_alloc (n * 3 + b) pc -> l <= leaf_no (vs + i * 4096) <= l + 1 ->
  (leaf_no (vs + i * 4096) = l -> is_Some (T !! vpath (vs + i * 4096) 3)) ->
  wp (map_mmio_loop hhdm n vs ps prot i) ((c, pc), m) (fun r s' => exists k T' A',
    i <= k <= i + Z.of_nat n /\ cr3 (fst (fst s')) = cr3 c /\
    (r = inr tt /\ k = i + Z.of_nat n /\ pa_can_alloc b (snd (fst s')) /\
       pa_frames pc - 3 * (Z.max l (leaf_no (vs + (i + Z.of_nat n) * 4096 - 1)) - l) <= pa_frames (snd (fst s')) \/
     r = inl OutOfFrames /\ k < i + Z.of_nat n /\ pa_frames (snd (fst s')) <= 0 /\
       pa_frames pc < 3 * (Z.max l (leaf_no (vs + (i + Z.of_nat n) * 4096 - 1)) - l)) /\
    evolved root pc m T A (snd (fst s')) (snd s') T' A' /\ range_walk root vs ps m (snd s') i k).
Proof.
  induction n as [|n IH]; intros c pc m T A i b l I Hc Hvs Hva Hps Hpa Hi Hin Hvend Hpend Hfl Hsmall Hb Hl Hhas; cbn [map_mmio_loop].
  { wp_step. cbn [fst snd]. exists i, T, A. split_and!; [lia|lia|done|left; split_and!; [done|lia|done|lia]|by apply evolved_refl|].
    intros v Hv. rewrite decide_False by lia. done. }
  unfold W64 in Hvend.
  wp_step. wp_step; [unfold PAGE_SIZE, W64; lia|]. wp_step. wp_step; [unfold PAGE_SIZE, W64; lia|].
  wp_step. wp_step; [unfold PAGE_SIZE, W64; lia|]. unfold PAGE_SIZE. apply wp_try.
  eapply wp_mono; [apply (wp_map root c pc m T A (vs + i * 4096) (ps + i * 4096) prot (n * 3 + b)); try done;
    [apply Hsmall; lia|unfold W64; lia|lia]|].
  destruct (leaf_step vs i Hi Hvs Hva) as [Hn1 Hn2]. set (l1 := leaf_no (vs + i * 4096)) in *.
  assert (l1 <= leaf_no (vs + (i + Z.of_nat (S n)) * 4096 - 1)) as Hl1 by (apply Z.div_le_mono; lia).
  intros [[]|old] [[c1 pc1] m1] H; cbn [fst snd] in *.
  - destruct H as (-> & Hno & Hf2 & T' & A' & G & Hfr). exists i, T', A'.
    assert (l1 <> l) as Hne by (intros E; destruct (Hhas E); congruence).
    split_and!; [lia|lia|done|right; split_and!; [done|lia|done|lia]|by apply grown_evolved|].
    intros v Hv. rewrite decide_False by lia. apply (gr_walk _ _ _ _ _ _ _ _ _ G).
  - exfalso. destruct H as [[H|H] _]; apply H; by rewrite Z.mod_add.
  - destruct H as (_ & _ & _ & -> & T1 & A1 & Mp & Hb1 & Hcost & Hleaf).
    assert (pa_frames pc - 3 * (l1 - l) <= pa_frames pc1) as Hf1.
    { unfold table_cost in Hcost. case_decide as Hd; [lia|]. destruct (decide (l1 = l)); [by destruct Hd; apply Hhas|lia]. }
    eapply wp_mono; [apply (IH _ pc1 m1 T1 A1 (i + 1) b l1); try done; [apply Mp|lia|lia|unfold W64; lia|lia| |intros E; by rewrite (vpath_leaf _ (vs + i * 4096))]|].
    { intros j Hj sz f. rewrite (mp_walk _ _ _ _ _ _ _ _ _ _ _ Mp) by lia.
      destruct (decide _); [by intros [= <- _]|]. apply Hsmall. lia. }
    intros r [[c2 pc2] m2] (k & T2 & A2 & Hk & Hc2 & Hr & Ev & W2). cbn [fst snd] in *.
    exists k, T2, A2. split_and!; [lia|lia|done| | |].
    + replace (i + 1 + Z.of_nat n) with (i + Z.of_nat (S n)) in Hr by lia.
      destruct Hr as [(-> & -> & ? & ?)|(-> & ? & ? & ?)]; [left|right]; split_and!; done || lia.
    + eapply evolved_trans; [by eapply mapped_evolved|exact Ev].
    + eapply range_walk_step; try done; [lia|lia|]. by intros v' Hv'; apply (mp_walk _ _ _ _ _ _ _ _ _ _ _ Mp).
Qed.

(** ** Building the kernel's tables (pml4.rs) *)

Lemma wp_alloc_zero_frame c pc m A n (Q : Z -> PState -> Prop) :
  pa_inv pc m A -> pa_can_alloc (S n) pc -> 0 < pa_frames pc -> hhdm <= pa_lo pc ->
  (forall pc1 m1 virt m2, pa_inv pc1 m1 ({[(0, virt)]} ∪ A) -> virt mod 4096 = 0 -> pages_kept A m m1 ->
     (forall bl, bl ∈ A -> block_disj (0, virt) bl) -> pa_lo pc1 = pa_lo pc -> pa_hi pc1 = pa_hi pc ->
     pa_frames pc1 = pa_frames pc - 1 -> pa_can_alloc n pc1 -> hhdm <= virt ->
     (forall j, 0 <= j < 512 -> rd m2 (virt + 8 * j) = 0) -> changes (in_block (0, virt)) m1 m2 ->
     Q (virt - hhdm) ((c, pc1), m2)) ->
  wp (Pml4.alloc_zero_frame hhdm) ((c, pc), m) Q.
Proof.
  intros Ipa Hn Hf Hlow HQ. unfold Pml4.alloc_zero_frame. wp_step. apply wp_page_call.
  eapply wp_mono; [apply (pa_alloc_spec pc m A 0 n); [done|done|lia]|].
  intros [virt|] [pc1 m1] Hpost; cbn [fst snd] in *; [|destruct Hpost as [_ Hz]; specialize (Hz eq_refl); lia].
  destruct Hpost as (Ipa1 & _ & _ & Hal & Hdisj & Hkept & Hcan & Hlo & Hhi & Hfr).
  destruct (pa_window _ _ _ 0 virt Ipa1 ltac:(set_solver)) as [Hv1 _]. rewrite Hlo in Hv1.
  wp_step. eapply wp_expect; [done|]. wp_step. apply wp_table_zero. intros m2 Hz Hch. wp_steps.
  apply (HQ pc1 m1 virt m2); try done. lia.
Qed.

Lemma wp_pml4_descend root c pc m T A v k t n level :
  pt_inv root pc m T A -> (k < 3)%nat -> T !! vpath v k = Some t -> small root m v -> 0 <= v < W64 ->
  level = 4 - Z.of_nat k -> pa_can_alloc (S n) pc -> 0 < pa_frames pc ->
  wp (Pml4.descend_or_create hhdm t v level) ((c, pc), m) (fun u s' => fst (fst s') = c /\
    exists T' A', grown root pc m T A (snd (fst s')) (snd s') T' A' /\
      T' !! vpath v (S k) = Some u /\ pa_can_alloc n (snd (fst s')) /\ pa_frames pc - 1 <= pa_frames (snd (fst s')) /\
      forall p u, T' !! p = Some u -> T !! p = Some u \/ p = vpath v (S k)).
Proof.
  intros I Hk Ht Hs Hv -> Hn Hfr0. pose proof I as [IT Ipa Iheld Ilow Ihigh].
  destruct (tr_frame _ _ _ _ IT _ _ Ht) as (_ & [Ht0 Hta] & Hend). unfold PAGE_SIZE in Hend.
  pose proof (vi_range v (4 - Z.of_nat k)) as Hi. set (i := vi v (4 - Z.of_nat k)) in *.
  unfold Pml4.descend_or_create. wp_steps. rewrite index_vi, (Z.add_comm hhdm t) by lia. fold i.
  apply wp_table_read; [done|]. fold (PageTree.entry hhdm m t i).
  destruct (pte_is_present (entry m t i)) eqn:Hp.
  - wp_step. cbn [fst snd]. split; [done|]. exists T, A. split; [by apply grown_refl|].
    split_and!; [by apply (present_link root m)|by apply pa_can_less|lia|auto].
  - wp_step. apply (wp_alloc_zero_frame c pc m A n); [done|done|done|done|].
    intros pc1 m1 virt m2 Ipa1 Hal Hkept Hdisj Hlo Hhi Hfr Hcan Hv1 Hz Hch.
    assert (length (vpath v k) < 3)%nat as Hlen by (rewrite vpath_length; lia).
    destruct (link_frame root pc m T A (vpath v k) t i pc1 m1 virt m2) as [_ G]; try done.
    wp_step. apply wp_table_write; [done|]. wp_step. cbn [fst snd]. split; [done|].
    exists (<[vpath v k ++ [i] := virt - hhdm]> T), ({[(0, virt)]} ∪ A). rewrite vpath_S by done. fold i.
    split_and!; [exact G|apply lookup_insert_eq|done|lia|].
    intros p u [[<- _]|[_ ?]]%lookup_insert_Some; auto.
Qed.

(** The 2 MiB page of an address. *)
Definition big_no (v : Z) : Z := (v / 2 ^ 21) mod 2 ^ 27.
Definition big_off (vs v : Z) : Z := (big_no v - big_no vs) mod 2 ^ 27.

Lemma big_digits x : 0 <= x ->
  x mod 2 ^ 27 = x mod 512 + 512 * ((x / 512) mod 512) + 512 * 512 * ((x / 512 / 512) mod 512).
Proof.
  intros Hx. change (2 ^ 27) with (512 * (512 * 512)). rewrite !Z.rem_mul_r by lia. lia.
Qed.

Lemma big_through v v' : 0 <= v -> 0 <= v' ->
  (through v' (vpath v 2) (vi v 2) <-> big_no v' = big_no v).
Proof.
  intros Hv Hv'. unfold through. rewrite vpath_length by lia. change (4 - Z.of_nat 2) with 2.
  pose proof (big_digits (v / 2 ^ 21) ltac:(apply Z.div_pos; lia)) as D.
  pose proof (big_digits (v' / 2 ^ 21) ltac:(apply Z.div_pos; lia)) as D'. unfold big_no. rewrite D, D'.
  assert (forall x, 0 <= x -> vi x 2 = (x / 2 ^ 21) mod 512 /\ vi x 3 = (x / 2 ^ 21 / 512) mod 512 /\
    vi x 4 = (x / 2 ^ 21 / 512 / 512) mod 512) as Hd by (intros x Hx; unfold vi; by rewrite !Z.div_div by lia).
  destruct (Hd v Hv) as (E2 & E3 & E4), (Hd v' Hv') as (F2 & F3 & F4).
  rewrite <- E2, <- E3, <- E4, <- F2, <- F3, <- F4. unfold vpath. simpl.
  pose proof (vi_range v 2). pose proof (vi_range v 3). pose proof (vi_range v 4).
  pose proof (vi_range v' 2). pose proof (vi_range v' 3). pose proof (vi_range v' 4).
  split.
  - intros [[= -> ->] ->]. done.
  - intros E. assert (vi v' 2 = vi v 2 /\ vi v' 3 = vi v 3 /\ vi v' 4 = vi v 4) as (-> & -> & ->); [lia|done].
Qed.

Lemma big_off_spec vs v j : 0 <= vs -> vs mod HUGE_2M = 0 -> 0 <= j < 2 ^ 27 ->
  big_no v = big_no (vs + j * HUGE_2M) <-> big_off vs v = j.
Proof.
  intros Hvs Ha Hj. unfold big_off, big_no, HUGE_2M in *. change 2097152 with (2 ^ 21) in *. rewrite Z.div_add by lia.
  set (a := v / 2 ^ 21). set (b := vs / 2 ^ 21). rewrite Zminus_mod_idemp_l, Zminus_mod_idemp_r. split; intros E.
  - rewrite Zminus_mod, E, <- Zminus_mod. replace (b + j - b) with j by lia. by apply Z.mod_small.
  - rewrite <- E at 1. rewrite Zplus_mod_idemp_r. f_equal. lia.
Qed.

(** The flags of a direct-map entry. *)
Lemma hhdm_flags_ok : flags_ok Pml4.HHDM_FLAGS /\ Z.testbit Pml4.HHDM_FLAGS 0 = true /\ Z.testbit Pml4.HHDM_FLAGS 7 = true.
Proof.
  unfold Pml4.HHDM_FLAGS. rewrite present_bit, writable_bit, no_execute_bit, huge_bit, global_bit.
  split; [|split; by vm_compute]. repeat apply flags_lor; apply flag_bit; lia.
Qed.

(** Storing a 2 MiB entry where no table hangs. *)
Lemma huge_store root pc m T A v t phys :
  pt_inv root pc m T A -> T !! vpath v 2 = Some t -> T !! vpath v 3 = None -> 0 <= v -> frame_ok phys HUGE_2M ->
  let m' := wr m (t + hhdm + 8 * vi v 2) (pte_encode phys HUGE_2M Pml4.HHDM_FLAGS) in
  pt_inv root pc m' T A /\ others_kept A T m m' /\
  forall v', 0 <= v' -> walk 4 m' root v' =
    if decide (big_no v' = big_no v) then Some (HUGE_2M, phys) else walk 4 m root v'.
Proof.
  intros I Ht Hnone Hv Hph m'. pose proof I as [IT Ipa Iheld Ilow Ihigh]. pose proof (vi_range v 2) as Hi.
  destruct hhdm_flags_ok as (Hfl & Hf0 & Hf7). assert (page_size HUGE_2M) as Hps by (right; by left).
  pose proof (kept_but_store root pc m T A _ t (vi v 2) (pte_encode phys HUGE_2M Pml4.HHDM_FLAGS) I Ht Hi) as Hk. fold m' in Hk.
  assert (length (vpath v 2) = 2%nat) as Hlen by done.
  assert (entry m' t (vi v 2) = pte_encode phys HUGE_2M Pml4.HHDM_FLAGS) as Hent by (unfold PageTree.entry, m'; apply rd_wr_eq).
  assert (tree root m' T) as IT'.
  { eapply (tree_store hhdm root m m' T (vpath v 2) t (vi v 2)); try done; [rewrite Hlen; lia|].
    intros _. rewrite Hent. unfold link. by rewrite encode_huge, Hf7, andb_false_r. }
  split_and!.
  - split; try done. eapply pa_changes; [exact Ipa|]. apply changes_wr. exists (0, t + hhdm).
    split; [by eapply Iheld|by apply table_cell].
  - by eapply others_store.
  - intros v' Hv'. destruct (decide (big_no v' = big_no v)) as [E|E].
    + apply big_through in E as [Ep Ei]; [|done|done]. rewrite Hlen in Ep, Ei. change (4 - Z.of_nat 2) with 2 in Ei.
      rewrite (walk_down hhdm root m' T v' 2 t IT') by (lia || by rewrite Ep). change (4 - 2)%nat with 2%nat.
      rewrite walk_step by lia. change (Z.of_nat 2) with 2. rewrite Ei, Hent. cbn zeta.
      rewrite encode_present, encode_huge, Hf0, Hf7 by done. change (level_size 2) with HUGE_2M. by rewrite encode_addr.
    + eapply walk_other; [exact IT|exact Hk|]. by rewrite big_through.
Qed.

(** Only directories so far: no table below the third level. *)
Definition shallow (T : gmap (list Z) Z) : Prop := forall p t, T !! p = Some t -> (length p <= 2)%nat.

Lemma shallow_none T v : shallow T -> T !! vpath v 3 = None.
Proof.
  intros Hs. destruct (T !! vpath v 3) as [t|] eqn:E; [|done]. apply Hs in E. rewrite vpath_length in E; lia.
Qed.

Lemma shallow_grow T T' v k : shallow T -> (S k <= 2)%nat ->
  (forall p u, T' !! p = Some u -> T !! p = Some u \/ p = vpath v (S k)) -> shallow T'.
Proof.
  intros Hs Hk Hg p t [Hp|Hp]%Hg; [by eapply Hs|]. rewrite Hp, vpath_length by lia. lia.
Qed.

(** The first [k] huge pages of the direct map, the rest as before. *)
Definition hhdm_walk (root : Z) (m m' : mem) (i k : Z) : Prop :=
  forall v, 0 <= v -> walk 4 m' root v =
    if decide (i <= big_off hhdm v < k) then Some (HUGE_2M, big_off hhdm v * HUGE_2M) else walk 4 m root v.

Lemma hhdm_walk_step root m m1 m' i k :
  hhdm mod HUGE_2M = 0 -> 0 <= i < 2 ^ 27 -> i < k ->
  (forall v', 0 <= v' -> walk 4 m1 root v' =
     if decide (big_no v' = big_no (hhdm + i * HUGE_2M)) then Some (HUGE_2M, i * HUGE_2M) else walk 4 m root v') ->
  hhdm_walk root m1 m' (i + 1) k -> hhdm_walk root m m' i k.
Proof.
  intros Ha Hi Hk H1 H2 v Hv. rewrite H2, H1 by done.
  pose proof (big_off_spec hhdm v i (proj1 hhdm_ok) Ha Hi) as E.
  destruct (decide (i + 1 <= big_off hhdm v < k)), (decide (i <= big_off hhdm v < k)),
    (decide (big_no v = big_no (hhdm + i * HUGE_2M))) as [P|P]; try done; try lia.
  apply E in P. by rewrite P.
Qed.

Lemma wp_map_hhdm_loop root n : forall c pc m T A i b,
  pt_inv root pc m T A -> shallow T -> hhdm mod HUGE_2M = 0 ->
  0 <= i -> i + Z.of_nat n <= 2 ^ 27 -> hhdm + (i + Z.of_nat n) * HUGE_2M <= W64 ->
  (forall j, i <= j < i + Z.of_nat n -> small root m (hhdm + j * HUGE_2M)) ->
  pa_can_alloc (n * 2 + b) pc -> 2 * Z.of_nat n <= pa_frames pc ->
  wp (Pml4.map_hhdm_loop hhdm n root i) ((c, pc), m) (fun _ s' => fst (fst s') = c /\ exists T' A',
    evolved root pc m T A (snd (fst s')) (snd s') T' A' /\ shallow T' /\
    hhdm_walk root m (snd s') i (i + Z.of_nat n) /\
    pa_can_alloc b (snd (fst s')) /\ pa_frames pc - 2 * Z.of_nat n <= pa_frames (snd (fst s'))).
Proof.
  induction n as [|n IH]; intros c pc m T A i b I Hsh Ha Hi Hin Hend Hsmall Hb Hfr; cbn [Pml4.map_hhdm_loop].
  { wp_step. cbn [fst snd]. split; [done|]. exists T, A. split_and!; [by apply evolved_refl|done| |done|lia].
    intros v Hv. rewrite decide_False by lia. done. }
  unfold HUGE_2M, W64 in Hend. destruct hhdm_ok as [Hh0 _]. set (v := hhdm + i * HUGE_2M) in *.
  assert (0 <= v < W64) as Hv by (unfold v, HUGE_2M, W64; lia).
  assert (small root m v) as Hsv by (apply Hsmall; lia).
  wp_step. wp_step. wp_step. wp_step. fold v. wp_step.
  eapply wp_mono; [apply (wp_pml4_descend root c pc m T A v 0 root (S (n * 2 + b)) 4); try done;
    [lia|apply (tr_root _ _ _ _ (pt_tree _ _ _ _ _ I))|lia]|].
  intros u [[c1 pc1] m1] (Hc & T1 & A1 & G1 & Hu & Hb1 & Hf1 & Hg1); cbn [fst snd] in *. subst c1. wp_step.
  eapply wp_mono; [apply (wp_pml4_descend root c pc1 m1 T1 A1 v 1 u (n * 2 + b) 3); try done;
    [apply G1|lia|by eapply grown_small|lia]|].
  intros t [[c2 pc2] m2] (Hc & T2 & A2 & G2' & Ht & Hb2 & Hf2 & Hg2); cbn [fst snd] in *. subst c2.
  pose proof (grown_trans _ _ _ _ _ _ _ _ _ _ _ _ _ G1 G2') as G2. pose proof (gr_inv _ _ _ _ _ _ _ _ _ G2) as I2.
  assert (shallow T2) as Hsh2 by (apply (shallow_grow T1 T2 v 1); [apply (shallow_grow T T1 v 0); [exact Hsh|lia|exact Hg1]|lia|exact Hg2]).
  destruct (tr_frame _ _ _ _ (pt_tree _ _ _ _ _ I2) _ _ Ht) as (_ & [Ht0 _] & Hend2). unfold PAGE_SIZE in Hend2.
  wp_steps. rewrite index_vi, (Z.add_comm hhdm t) by lia. apply wp_table_write; [apply vi_range|].
  assert (frame_ok (i * HUGE_2M) HUGE_2M) as Hph.
  { unfold frame_ok, HUGE_2M. split; [lia|]. by apply Z.mod_mul. }
  destruct (huge_store root pc2 m2 T2 A2 v t (i * HUGE_2M) I2 Ht (shallow_none _ _ Hsh2) ltac:(lia) Hph) as (I3 & O3 & W3).
  set (m3 := wr m2 _ _) in *.
  assert (evolved root pc m T A pc2 m3 T2 A2) as E3.
  { eapply evolved_trans; [eapply grown_evolved, G2|]. split; try done. eauto. }
  assert (forall v', 0 <= v' -> walk 4 m3 root v' =
    if decide (big_no v' = big_no v) then Some (HUGE_2M, i * HUGE_2M) else walk 4 m root v') as W.
  { intros v' Hv'. rewrite W3 by done. by rewrite (gr_walk _ _ _ _ _ _ _ _ _ G2). }
  eapply wp_mono; [apply (IH c pc2 m3 T2 A2 (i + 1) b); try done; [lia|lia|unfold HUGE_2M, W64; lia| |lia]|].
  { intros j Hj sz f. rewrite W by (unfold HUGE_2M; lia). destruct (decide _) as [E|_].
    - exfalso. unfold v in E. rewrite (big_off_spec hhdm _ i) in E by (done || lia).
      assert (big_off hhdm (hhdm + j * HUGE_2M) = j) as Ej by (apply big_off_spec; done || lia). lia.
    - apply Hsmall. lia. }
  intros [] [[c4 pc4] m4] (Hc & T4 & A4 & E4 & Hsh4 & W4 & Hb4 & Hf4). cbn [fst snd] in *.
  split; [done|]. exists T4, A4. split_and!; [by eapply evolved_trans|done| |done|lia].
  replace (i + Z.of_nat (S n)) with (i + 1 + Z.of_nat n) by lia.
  eapply hhdm_walk_step; [done|lia|lia|exact W|exact W4].
Qed.

Lemma wp_map_range_loop root vs ps prot n : forall c pc m T A i b,
  pt_inv root pc m T A -> 0 <= vs -> vs mod 4096 = 0 -> 0 <= ps -> ps mod 4096 = 0 ->
  0 <= i -> i + Z.of_nat n <= 2 ^ 36 -> vs + (i + Z.of_nat n) * 4096 <= W64 -> ps + (i + Z.of_nat n) * 4096 <= 2 ^ 52 ->
  flags_ok prot -> (forall j, i <= j < i + Z.of_nat n -> small root m (vs + j * 4096)) ->
  pa_can_alloc (n * 3 + b) pc -> 3 * Z.of_nat n <= pa_frames pc ->
  wp (Pml4.map_range_loop hhdm n root vs ps prot i) ((c, pc), m) (fun _ s' => fst (fst s') = c /\ exists T' A',
    evolved root pc m T A (snd (fst s')) (snd s') T' A' /\ range_walk root vs ps m (snd s') i (i + Z.of_nat n)).
Proof.
  induction n as [|n IH]; intros c pc m T A i b I Hvs Hva Hps Hpa Hi Hin Hvend Hpend Hfl Hsmall Hb Hfr;
    cbn [Pml4.map_range_loop].
  { wp_step. cbn [fst snd]. split; [done|]. exists T, A. split; [by apply evolved_refl|].
    intros v Hv. rewrite decide_False by lia. done. }
  unfold W64 in Hvend. unfold PAGE_SIZE. set (v := vs + i * 4096) in *.
  assert (0 <= v < W64) as Hv by (unfold v, W64; lia). assert (small root m v) as Hsv by (apply Hsmall; lia).
  wp_step. wp_step. wp_step. wp_step. wp_step. wp_step; [unfold W64; lia|]. fold v. wp_step.
  eapply wp_mono; [apply (wp_pml4_descend root c pc m T A v 0 root (S (S (n * 3 + b))) 4); try done;
    [lia|apply (tr_root _ _ _ _ (pt_tree _ _ _ _ _ I))|lia]|].
  intros u [[c1 pc1] m1] (Hc & T1 & A1 & G1 & Hu & Hb1 & Hf1 & _); cbn [fst snd] in *. subst c1. wp_step.
  eapply wp_mono; [apply (wp_pml4_descend root c pc1 m1 T1 A1 v 1 u (S (n * 3 + b)) 3); try done;
    [apply G1|lia|by eapply grown_small|lia]|].
  intros w [[c2 pc2] m2] (Hc & T2 & A2 & G2' & Hw & Hb2 & Hf2 & _); cbn [fst snd] in *. subst c2.
  pose proof (grown_trans _ _ _ _ _ _ _ _ _ _ _ _ _ G1 G2') as G2. wp_step.
  eapply wp_mono; [apply (wp_pml4_descend root c pc2 m2 T2 A2 v 2 w (n * 3 + b) 2); try done;
    [apply G2|lia|by eapply grown_small|lia]|].
  intros t [[c3 pc3] m3] (Hc & T3 & A3 & G3' & Ht & Hb3 & Hf3 & _); cbn [fst snd] in *. subst c3.
  pose proof (grown_trans _ _ _ _ _ _ _ _ _ _ _ _ _ G2 G3') as G3. pose proof (gr_inv _ _ _ _ _ _ _ _ _ G3) as I3.
  destruct (tr_frame _ _ _ _ (pt_tree _ _ _ _ _ I3) _ _ Ht) as (_ & [Ht0 _] & Hend3). unfold PAGE_SIZE in Hend3.
  wp_steps. rewrite index_vi, (Z.add_comm hhdm t) by lia. apply wp_table_write; [apply vi_range|].
  assert (frame_ok (ps + i * 4096) 4096) as Hph by (unfold frame_ok; split; [lia|by rewrite Z.mod_add]).
  pose proof (mapped_store root pc m T A pc3 m3 T3 A3 v (ps + i * 4096) prot t G3 Ht ltac:(lia) Hph Hfl) as Mp.
  unfold PAGE_SIZE in Mp. set (m4 := wr m3 _ _) in *.
  eapply wp_mono; [apply (IH c pc3 m4 T3 A3 (i + 1) b); try done; [apply Mp|lia|lia|unfold W64; lia|lia| |lia]|].
  { intros j Hj sz f. rewrite (mp_walk _ _ _ _ _ _ _ _ _ _ _ Mp) by lia.
    destruct (decide _); [by intros [= <- _]|]. apply Hsmall. lia. }
  intros [] [[c5 pc5] m5] (Hc & T5 & A5 & E5 & W5). cbn [fst snd] in *. split; [done|].
  exists T5, A5. split; [eapply evolved_trans; [eapply mapped_evolved, Mp|exact E5]|].
  replace (i + Z.of_nat (S n)) with (i + 1 + Z.of_nat n) by lia.
  eapply range_walk_step; [done|done|lia|lia|exact (mp_walk _ _ _ _ _ _ _ _ _ _ _ Mp)|exact W5].
Qed.

(** A fresh zeroed root. *)
Lemma fresh_root pc m A virt m0 pc0 m1 :
  pa_inv pc m1 ({[(0, virt)]} ∪ A) -> virt mod 4096 = 0 -> hhdm <= virt -> hhdm <= pa_lo pc ->
  pa_hi pc <= hhdm + 2 ^ 52 /\ pa_hi pc <= W64 -> pages_kept A m0 m1 ->
  (forall bl, bl ∈ A -> block_disj (0, virt) bl) ->
  (forall j, 0 <= j < 512 -> rd m (virt + 8 * j) = 0) -> changes (in_block (0, virt)) m1 m ->
  let root := virt - hhdm in
  evolved root pc0 m0 ∅ A pc m {[ [] := root ]} ({[(0, virt)]} ∪ A) /\ shallow {[ [] := root ]} /\
  (forall v, walk 4 m root v = None) /\ Z.land root (not64 4095) = root.
Proof.
  intros Ipa Hal Hv Hlo Hhi Hkept Hdisj Hz Hch root.
  assert (root + hhdm = virt) as Er by (unfold root; lia).
  destruct (pa_window _ _ _ 0 virt Ipa ltac:(set_solver)) as [Hv1 Hv2].
  unfold block_size in Hv2. change (2 ^ 0 * 4096) with 4096 in Hv2.
  assert (forall i, 0 <= i < 512 -> entry m root i = 0) as Hz'
    by (intros i Hi; unfold PageTree.entry; rewrite Er; by apply Hz).
  assert (frame_ok root PAGE_SIZE) as Hfr.
  { unfold frame_ok, PAGE_SIZE, root. split; [lia|]. by rewrite Zminus_mod, Hal, (proj2 hhdm_ok). }
  split_and!.
  - split.
    + split; [split| | |done|done].
      * apply lookup_singleton_eq.
      * intros p t [<- <-]%lookup_singleton_Some. split; [simpl; lia|]. split; [done|]. unfold PAGE_SIZE. lia.
      * intros p q t [<- _]%lookup_singleton_Some [<- _]%lookup_singleton_Some. done.
      * intros p t i [<- <-]%lookup_singleton_Some _ Hi. rewrite Hz' by done. unfold link. rewrite zero_absent. by apply lookup_singleton_ne.
      * intros p i t [E _]%lookup_singleton_Some. by destruct p.
      * intros i Hi. rewrite Hz' by done. by rewrite zero_absent.
      * eapply pa_changes; [exact Ipa|]. eapply changes_weaken; [|exact Hch]. intros x Hx. exists (0, virt). set_solver.
      * intros p t [<- <-]%lookup_singleton_Some. rewrite Er. set_solver.
    + by intros p t Ht%lookup_empty_Some.
    + set_solver.
    + intros p t [<- <-]%lookup_singleton_Some Hin. exfalso. rewrite Er in Hin.
      apply (Hdisj _ Hin virt); unfold in_block, block_size; simpl; lia.
    + intros bl x Hbl _ Hx. rewrite (changes_eq _ _ _ x Hch); [by apply (Hkept bl)|]. intros H. by apply (Hdisj bl Hbl x).
  - intros p t [<- _]%lookup_singleton_Some. simpl. lia.
  - intros v. rewrite walk_step by lia. cbn zeta. rewrite Hz' by apply vi_range. by rewrite zero_absent.
  - change 4095 with (2 ^ 12 - 1). destruct Hfr as [? Ha].
    rewrite land_not64_mask; [|unfold W64; lia|lia]. change (root mod 2 ^ 12) with (root mod PAGE_SIZE). lia.
Qed.

(** Huge and small pages to map: [(n + size - 1) / size]. *)
Definition page_count (n size : Z) : Z := (n + size - 1) / size.

(** The contract of [install_kernel_pml4]: an aligned direct map and kernel
    image that do not meet, and enough frames. *)
Record install_ok (kvs kve kps mem_size : Z) (pc : C) (A : gset (Z * Z)) : Prop := mkInstall {
  in_hhdm : hhdm mod HUGE_2M = 0;
  in_mem : 0 <= mem_size /\ page_count mem_size HUGE_2M <= 2 ^ 27 /\ hhdm + page_count mem_size HUGE_2M * HUGE_2M <= W64 /\
    mem_size + HUGE_2M < W64;
  in_image : 0 <= kvs <= kve /\ kvs mod 4096 = 0 /\ 0 <= kps /\ kps mod 4096 = 0;
  in_image_end : kvs + page_count (kve - kvs) PAGE_SIZE * 4096 <= W64 /\ kps + page_count (kve - kvs) PAGE_SIZE * 4096 <= 2 ^ 52 /\
    kve - kvs + 4096 < W64 /\ page_count (kve - kvs) PAGE_SIZE <= 2 ^ 36;
  in_apart : forall j, 0 <= j < page_count (kve - kvs) PAGE_SIZE ->
    page_count mem_size HUGE_2M <= big_off hhdm (kvs + j * 4096);
  in_window : hhdm <= pa_lo pc /\ pa_hi pc <= hhdm + 2 ^ 52 /\ pa_hi pc <= W64;
  in_frames : 1 + 2 * page_count mem_size HUGE_2M + 3 * page_count (kve - kvs) PAGE_SIZE <= pa_frames pc;
  in_calls : pa_can_alloc (S (Z.to_nat (page_count mem_size HUGE_2M) * 2 + (Z.to_nat (page_count (kve - kvs) PAGE_SIZE) * 3 + 0))) pc
}.

Lemma page_count_nonneg n size : 0 < size -> 0 <= n -> 0 <= page_count n size.
Proof. intros Hs Hn. apply Z.div_pos; lia. Qed.

Lemma big_off_range vs v : 0 <= big_off vs v.
Proof. apply Z.mod_pos_bound. lia. Qed.
Lemma page_off_range vs v : 0 <= page_off vs v < 2 ^ 36.
Proof. apply Z.mod_pos_bound. lia. Qed.

Lemma rwx_boot_ok : flags_ok KERNEL_RWX_BOOT.
Proof. unfold KERNEL_RWX_BOOT. rewrite writable_bit, global_bit. apply flags_lor; apply flag_bit; lia. Qed.

Lemma wp_install c pc m A kvs kve kps mem_size :
  pa_inv pc m A -> install_ok kvs kve kps mem_size pc A ->
  wp (Pml4.install_kernel_pml4 hhdm kvs kve kps mem_size) ((c, pc), m) (fun _ s' => exists root T A',
    fst (fst s') = mkCpu root (invalidated c) (msr_writes c) /\ active_root (fst (fst s')) = root /\
    evolved root pc m ∅ A (snd (fst s')) (snd s') T A' /\
    forall v, 0 <= v -> walk 4 (snd s') root v =
      if decide (page_off kvs v < page_count (kve - kvs) PAGE_SIZE) then Some (PAGE_SIZE, kps + page_off kvs v * 4096)
      else if decide (big_off hhdm v < page_count mem_size HUGE_2M) then Some (HUGE_2M, big_off hhdm v * HUGE_2M)
      else None).
Proof.
  intros Ipa [Ha (Hm0 & Hm1 & Hm2 & Hm3) (Hk0 & Hk1 & Hk2 & Hk3) (Hk4 & Hk5 & Hk6 & Hk7) Hapart (Hw1 & Hw2) Hfr Hcalls].
  set (H := page_count mem_size HUGE_2M) in *. set (K := page_count (kve - kvs) PAGE_SIZE) in *.
  pose proof (page_count_nonneg mem_size HUGE_2M ltac:(done) Hm0) as HH. fold H in HH.
  pose proof (page_count_nonneg (kve - kvs) PAGE_SIZE ltac:(done) ltac:(lia)) as HK. fold K in HK.
  unfold Pml4.install_kernel_pml4. wp_step.
  apply (wp_alloc_zero_frame c pc m A _ _ Ipa Hcalls); [lia|done|].
  intros pc1 m1 virt m2 Ipa1 Hal Hkept Hdisj Hlo Hhi Hf1 Hcan Hv Hz Hch.
  destruct (fresh_root pc1 m2 A virt m pc m1) as (E0 & Hsh & Hnone & Hroot); try done; [by rewrite Hlo|by rewrite Hhi|].
  set (root := virt - hhdm) in *. wp_step. unfold Pml4.map_hhdm_2m, Pml4.map_range_4k. wp_steps.
  { unfold HUGE_2M. lia. }
  change ((mem_size + HUGE_2M - 1) / HUGE_2M) with H.
  eapply wp_mono; [apply (wp_map_hhdm_loop root (Z.to_nat H) c pc1 m2 _ _ 0 (Z.to_nat K * 3 + 0) (ev_inv _ _ _ _ _ _ _ _ _ E0) Hsh Ha);
    [lia|lia|rewrite Z2Nat.id by done; done| |exact Hcan|lia]|].
  { intros j _ sz f. by rewrite Hnone. }
  intros [] [[c3 pc3] m3] (Hc & T3 & A3 & E3 & Hsh3 & W3 & Hcan3 & Hf3). cbn [fst snd] in *. subst c3.
  rewrite Z2Nat.id in * by done. unfold PAGE_SIZE in *. wp_steps.
  change ((kve - kvs + 4096 - 1) / 4096) with K.
  assert (forall v, 0 <= v -> walk 4 m3 root v =
    if decide (big_off hhdm v < H) then Some (HUGE_2M, big_off hhdm v * HUGE_2M) else None) as W3'.
  { intros v Hv'. rewrite W3, Hnone by done. pose proof (big_off_range hhdm v).
    destruct (decide (0 <= _ < _)), (decide (_ < _)); done || lia. }
  eapply wp_mono; [apply (wp_map_range_loop root kvs kps KERNEL_RWX_BOOT (Z.to_nat K) c pc3 m3 T3 A3 0 0 (ev_inv _ _ _ _ _ _ _ _ _ E3));
    [lia|done|lia|done|lia|lia|rewrite Z2Nat.id by done; unfold W64 in *; lia|rewrite Z2Nat.id by done; lia|apply rwx_boot_ok| |exact Hcan3|lia]|].
  { intros j Hj sz f. rewrite W3' by lia. rewrite decide_False; [done|]. specialize (Hapart j ltac:(lia)). lia. }
  intros [] [[c4 pc4] m4] (Hc & T4 & A4 & E4 & W4). cbn [fst snd] in *. subst c4. rewrite Z2Nat.id in * by done.
  unfold mov_cr3, cpu, set_cpu, upd. wp_steps. exists root, T4, A4. split_and!; [done|done| |].
  - eapply evolved_trans; [exact E0|]. eapply evolved_trans; [exact E3|exact E4].
  - intros v Hv'. rewrite W4, W3' by done. pose proof (page_off_range kvs v).
    destruct (decide (0 <= _ < _)), (decide (page_off kvs v < _)); done || lia.
Qed.

(** ** Allocations next to a tree *)

(** The entries of the tables decide the tree and its walks. *)
Lemma tree_kept root m m' T :
  tree root m T -> (forall p t i, T !! p = Some t -> 0 <= i < 512 -> entry m' t i = entry m t i) ->
  tree root m' T /\ forall v, walk 4 m' root v = walk 4 m root v.
Proof.
  intros I He. pose proof I as [I1 I2 I3 I4 I5 I6]. split.
  - split; try done.
    + intros p t i Ht Hl Hi. rewrite (He p t i Ht Hi). by apply I4.
    + intros i Hi. rewrite (He [] root i I1 Hi). by apply I6.
  - intros v. apply (walk_same hhdm root m m' T v 4 0 root I); [done|lia|done|].
    intros j u _ Hu. eapply He; [exact Hu|apply vi_range].
Qed.

(** A block allocated for something else leaves the tables alone. *)
Lemma pt_alloc root pc m T A pc1 m1 bl :
  pt_inv root pc m T A -> pa_inv pc1 m1 ({[bl]} ∪ A) -> pages_kept A m m1 ->
  pa_lo pc1 = pa_lo pc -> pa_hi pc1 = pa_hi pc ->
  pt_inv root pc1 m1 T ({[bl]} ∪ A) /\ forall v, walk 4 m1 root v = walk 4 m root v.
Proof.
  intros [I1 I2 I3 I4 I5] Ipa Hk Hlo Hhi. destruct (tree_kept root m m1 T I1) as [IT W].
  { intros p t i Ht Hi. unfold PageTree.entry. eapply Hk; [by eapply I3|by apply table_cell]. }
  split; [|done]. split; [done|done| |by rewrite Hlo|by rewrite Hhi]. intros p t Ht. apply elem_of_union_r. by eapply I3.
Qed.

(** Writing to held blocks that are not tables. *)
Lemma pt_write root pc m T A m' :
  pt_inv root pc m T A ->
  changes (fun x => exists bl, bl ∈ A /\ (forall p t, T !! p = Some t -> bl <> (0, t + hhdm)) /\ in_block bl x) m m' ->
  pt_inv root pc m' T A /\ forall v, walk 4 m' root v = walk 4 m root v.
Proof.
  intros [I1 I2 I3 I4 I5] Hc. destruct (tree_kept root m m' T I1) as [IT W].
  { intros p t i Ht Hi. unfold PageTree.entry. eapply changes_eq; [exact Hc|]. intros (bl & Hbl & Hnt & Hin).
    apply (pa_disj _ _ _ _ _ I2 Hbl (I3 _ _ Ht) (Hnt _ _ Ht) _ Hin). by apply table_cell. }
  split; [|done]. split; [done| |done|done|done]. eapply pa_changes; [exact I2|]. eapply changes_weaken; [|exact Hc]. naive_solver.
Qed.
End walker.
