(* ===== verification/PagingProps.v ===== *)
(** * What the page-table code guarantees

    The theorems of [PagingSpec] as properties of the entry points of walker.rs
    and pml4.rs, and a concrete run: the kernel's tables built over the buddy
    allocator of [BuddySpec], with the architectural encoding of entries. *)

From S2P Require Import Prelude Pages Buddy BuddySpec Paging PageTree PagingSpec.

Section properties.
Context {B : Bitwise} {BL : BitwiseLaws B} {C : Type} {PA : FrameSource C} (hhdm : Z).
Context (hhdm_ok : 0 <= hhdm /\ hhdm mod 4096 = 0).

(** A state of the processor, the page allocator and the memory in which the
    active tables are well formed. *)
Definition paging_ok (root : Z) (s : Cpu * C * mem) (T : gmap (list Z) Z) (A : gset (Z * Z)) : Prop :=
  pt_inv hhdm root (snd (fst s)) (snd s) T A /\ active_root (fst (fst s)) = root.

(** The translation of [v] by the active tables. *)
Definition translates (s : Cpu * C * mem) (v : Z) : option Z :=
  translation hhdm (active_root (fst (fst s))) (snd s) v.

Lemma translation_small root m v : small hhdm root m v ->
  forall f, walk hhdm 4 m root v = Some f -> fst f = PAGE_SIZE.
Proof. intros Hs [sz f] Hw. exact (Hs sz f Hw). Qed.

(** C23: [map] of an address that is not inside a huge page ([small]; what it
    does inside one is [map_over_huge_page]) returns for every flag set and
    every address: a misaligned request is refused without effect, running out
    of frames leaves every translation as it was, and success makes exactly the
    page of [v] translate to [phys], reports the frame it replaced, invalidates
    [v] in the TLB, and leaves every held block that is not a page table
    alone. *)
Theorem map_correct root s T A v phys prot n :
  paging_ok root s T A -> small hhdm root (snd s) v -> 0 <= v < W64 -> 0 <= phys < 2 ^ 52 -> flags_ok prot ->
  pa_can_alloc (3 + n) (snd (fst s)) ->
  exists r s', map hhdm v phys prot s = Ok (r, s') /\
  match r with
  | inl Misaligned => (v mod 4096 <> 0 \/ phys mod 4096 <> 0) /\ s' = s
  | inl OutOfFrames => pa_frames (snd (fst s')) <= 0 /\ (forall v', translates s' v' = translates s v') /\
      others_kept hhdm A T (snd s) (snd s') /\ exists T' A', paging_ok root s' T' A'
  | inr old => old = option_map snd (walk hhdm 4 (snd s) root v) /\
      (forall v', 0 <= v' -> translates s' v' =
         if decide (page_no v' = page_no v) then Some (phys + v' mod 4096) else translates s v') /\
      invalidated (fst (fst s')) = v :: invalidated (fst (fst s)) /\
      others_kept hhdm A T (snd s) (snd s') /\ exists T' A', paging_ok root s' T' A'
  end.
Proof.
  destruct s as [[c pc] m]. unfold paging_ok, translates. cbn [fst snd]. intros [I Hc] Hs Hv Hph Hfl Hn.
  pose proof (wp_map hhdm hhdm_ok root c pc m T A v phys prot n I Hc Hs Hv Hph Hfl Hn) as Hw.
  apply wp_run in Hw as (r & [[c' pc'] m'] & Hrun & Hpost). exists r, ((c', pc'), m'). cbn [fst snd] in *.
  split; [done|]. destruct r as [[]|old].
  - destruct Hpost as (-> & _ & _ & T' & A' & G & Hfr). split_and!; [done| |apply G|].
    + intros v'. unfold translation. rewrite Hc. by rewrite (gr_walk _ _ _ _ _ _ _ _ _ _ G).
    + exists T', A'. split; [apply G|done].
  - done.
  - destruct Hpost as (_ & _ & -> & -> & T' & A' & Mp & _). change (active_root (mkCpu _ _ _)) with (active_root c).
    rewrite Hc. split_and!; [done| |done|apply Mp|].
    + intros v' Hv'. unfold translation. rewrite (mp_walk _ _ _ _ _ _ _ _ _ _ _ _ Mp) by done.
      by destruct (decide _).
    + exists T', A'. split; [apply Mp|done].
Qed.

(** C24: [translate] computes the hardware's walk of the active tables, with
    1 GiB and 2 MiB pages, for every address, and changes nothing. *)
Theorem translate_correct root s T A v :
  paging_ok root s T A -> 0 <= v < W64 -> translate hhdm v s = Ok (translates s v, s).
Proof.
  destruct s as [[c pc] m]. unfold paging_ok, translates. cbn [fst snd]. intros [I Hc] Hv.
  pose proof (wp_translate hhdm root c pc m T A v I Hc Hv) as Hw.
  apply wp_run in Hw as (r & s' & Hrun & -> & ->). by rewrite Hc.
Qed.

(** C25: [unmap] returns; it removes the translation of the page of [v] and of
    no other page and invalidates [v], unless no leaf table exists for [v], in
    which case it changes nothing. *)
Theorem unmap_correct root s T A v :
  paging_ok root s T A -> 0 <= v < W64 ->
  exists s', unmap hhdm v s = Ok (tt, s') /\ paging_ok root s' T A /\ others_kept hhdm A T (snd s) (snd s') /\
    (if decide (is_Some (T !! vpath v 3))
     then (forall v', 0 <= v' -> translates s' v' =
             if decide (page_no v' = page_no v) then None else translates s v') /\
          invalidated (fst (fst s')) = v :: invalidated (fst (fst s))
     else s' = s).
Proof.
  destruct s as [[c pc] m]. unfold paging_ok, translates. cbn [fst snd]. intros [I Hc] Hv.
  pose proof (wp_unmap hhdm root c pc m T A v I Hc Hv) as Hw.
  apply wp_run in Hw as ([] & [[c' pc'] m'] & Hrun & Hpost). exists ((c', pc'), m'). cbn [fst snd] in *.
  split; [done|]. destruct Hpost as [[Hn [= -> -> ->]]|(Hs & -> & -> & I' & O & W)].
  - split_and!; [done|done|by intros bl x|]. rewrite decide_False; [done|]. rewrite Hn. by intros [? ?].
  - change (active_root (mkCpu _ _ _)) with (active_root c). split_and!; [done|done|done|].
    rewrite decide_True by done. split; [|done]. intros v' Hv'. unfold translation. rewrite Hc, W by done.
    by destruct (decide _).
Qed.

(** Mapping a page, translating through it, and unmapping it again: the
    mapping is visible at every offset, and afterwards the page is not mapped
    while every other address translates as before. *)
Theorem map_translate_unmap root s T A v phys prot n s1 old :
  paging_ok root s T A -> small hhdm root (snd s) v -> 0 <= v < W64 -> 0 <= phys < 2 ^ 52 -> flags_ok prot ->
  pa_can_alloc (3 + n) (snd (fst s)) -> map hhdm v phys prot s = Ok (inr old, s1) ->
  (forall off, 0 <= off < 4096 -> translate hhdm (v + off) s1 = Ok (Some (phys + off), s1)) /\
  exists s2, unmap hhdm v s1 = Ok (tt, s2) /\
    forall v', 0 <= v' -> translates s2 v' = if decide (page_no v' = page_no v) then None else translates s v'.
Proof.
  destruct s as [[c pc] m]. unfold paging_ok, translates. cbn [fst snd]. intros [I Hc] Hs Hv Hph Hfl Hn Hrun.
  pose proof (wp_map hhdm hhdm_ok root c pc m T A v phys prot n I Hc Hs Hv Hph Hfl Hn) as Hw.
  use_run Hw Hrun. destruct s1 as [[c1 pc1] m1]. cbn [fst snd] in *.
  destruct Hpost as (Hva & Hpa & _ & -> & T1 & A1 & Mp & _). pose proof (mp_inv _ _ _ _ _ _ _ _ _ _ _ _ Mp) as I1.
  set (c1 := mkCpu _ _ _). assert (active_root c1 = root) as Hc1 by done. split.
  - intros off Hoff. unfold W64 in *.
    assert ((v + off) mod 4096 = off) as Emod.
    { rewrite Z.add_mod, Hva, Z.add_0_l, Z.mod_mod by lia. apply Z.mod_small. lia. }
    assert (page_no (v + off) = page_no v) as Epg.
    { unfold page_no. f_equal. pose proof (Z.div_mod v 4096 ltac:(lia)). pose proof (Z.div_mod (v + off) 4096 ltac:(lia)). lia. }
    assert (v + off < 2 ^ 64) as Hend.
    { pose proof (Z.div_mod v 4096 ltac:(lia)). assert (v / 4096 < 2 ^ 52) by (apply Z.div_lt_upper_bound; lia). lia. }
    pose proof (wp_translate hhdm root c1 pc1 m1 T1 A1 (v + off) I1 Hc1 ltac:(unfold W64; lia)) as Ht.
    apply wp_run in Ht as (r & s' & Hr & -> & ->). rewrite Hr. unfold translation.
    rewrite (mp_walk _ _ _ _ _ _ _ _ _ _ _ _ Mp), decide_True by (done || lia). unfold PAGE_SIZE. by rewrite Emod.
  - pose proof (wp_unmap hhdm root c1 pc1 m1 T1 A1 v I1 Hc1 Hv) as Hu.
    apply wp_run in Hu as ([] & [[c2 pc2] m2] & Hr & Hpost). exists ((c2, pc2), m2). cbn [fst snd] in *. split; [done|].
    intros v' Hv'. unfold translation. rewrite Hc. destruct Hpost as [[Hn3 [= -> -> ->]]|(_ & -> & _ & _ & _ & W)].
    + exfalso. destruct (leaf_table hhdm root m1 T1 v phys (pt_tree _ _ _ _ _ _ I1)) as [u Hu]; [|congruence].
      by rewrite (mp_walk _ _ _ _ _ _ _ _ _ _ _ _ Mp), decide_True by (done || lia).
    + change (active_root (mkCpu _ _ _)) with (active_root c). rewrite Hc, W by done.
      destruct (decide (page_no v' = page_no v)) as [|Hne]; [done|].
      by rewrite (mp_walk _ _ _ _ _ _ _ _ _ _ _ _ Mp), decide_False by done.
Qed.

(** The most tables that mapping [n] pages from [vs] takes: three for each leaf
    table it needs. *)
Definition mmio_tables (vs n : Z) : Z := 3 * (leaf_no (vs + n * 4096 - 1) - leaf_no vs + 1).

(** [map_mmio] as the walks it gives. *)
Lemma map_mmio_run root s T A vs ps size prot b :
  let n := page_count size PAGE_SIZE in
  paging_ok root s T A -> 0 <= vs -> vs mod 4096 = 0 -> 0 <= ps -> ps mod 4096 = 0 -> 0 <= size -> size + 4096 < W64 ->
  n <= 2 ^ 36 -> vs + n * 4096 <= W64 -> ps + n * 4096 <= 2 ^ 52 -> flags_ok prot ->
  (forall j, 0 <= j < n -> small hhdm root (snd s) (vs + j * 4096)) ->
  pa_can_alloc (Z.to_nat n * 3 + b) (snd (fst s)) ->
  exists r s' k T' A', map_mmio hhdm vs ps size prot s = Ok (r, s') /\ paging_ok root s' T' A' /\ 0 <= k <= n /\
    (r = inr tt /\ k = n /\ pa_can_alloc b (snd (fst s')) /\ pa_frames (snd (fst s)) - mmio_tables vs n <= pa_frames (snd (fst s')) \/
     r = inl OutOfFrames /\ k < n /\ pa_frames (snd (fst s')) <= 0 /\ pa_frames (snd (fst s)) < mmio_tables vs n) /\
    evolved hhdm root (snd (fst s)) (snd s) T A (snd (fst s')) (snd s') T' A' /\
    range_walk hhdm root vs ps (snd s) (snd s') 0 k.
Proof.
  intros n. destruct s as [[c pc] m]. unfold paging_ok. cbn [fst snd].
  intros [I Hc] Hvs Hva Hps Hpa Hsz Hsz' Hn Hvend Hpend Hfl Hs Hb.
  pose proof (page_count_nonneg size PAGE_SIZE ltac:(done) Hsz) as Hn0. fold n in Hn0.
  assert (wp (map_mmio hhdm vs ps size prot) ((c, pc), m) (fun r s' => exists k T' A',
    0 <= k <= n /\ cr3 (fst (fst s')) = cr3 c /\
    (r = inr tt /\ k = n /\ pa_can_alloc b (snd (fst s')) /\ pa_frames pc - mmio_tables vs n <= pa_frames (snd (fst s')) \/
     r = inl OutOfFrames /\ k < n /\ pa_frames (snd (fst s')) <= 0 /\ pa_frames pc < mmio_tables vs n) /\
    evolved hhdm root pc m T A (snd (fst s')) (snd s') T' A' /\ range_walk hhdm root vs ps m (snd s') 0 k)) as Hw.
  { unfold map_mmio. unfold PAGE_SIZE. wp_steps. change ((size + 4096 - 1) / 4096) with n.
    pose proof (wp_map_mmio_loop hhdm hhdm_ok root vs ps prot (Z.to_nat n) c pc m T A 0 b (leaf_no vs - 1)) as HL.
    rewrite Z2Nat.id in HL by done. rewrite Z.mul_0_l, !Z.add_0_r, !Z.add_0_l in HL.
    eapply wp_mono; [apply HL; (done || lia)|]. intros r s' (k & T' & A' & Hk & Hc' & Hr & Hrest).
    exists k, T', A'. split; [done|]. split; [done|]. split; [|done]. unfold mmio_tables.
    assert (leaf_no vs - 1 <= leaf_no (vs + n * 4096 - 1)).
    { unfold leaf_no. change (2 ^ 21) with 2097152. replace (vs / 2097152 - 1) with (vs / 2097152 + -1) by lia. rewrite <- Z.div_add by lia. apply Z.div_le_mono; lia. }
    destruct Hr as [(? & ? & ? & ?)|(? & ? & ? & ?)]; [left|right]; split_and!; done || lia. }
  apply wp_run in Hw as (r & s' & Hrun & k & T' & A' & Hk & Hc' & Hr & Ev & W).
  exists r, s', k, T', A'. split; [done|]. split; [split; [apply Ev|unfold active_root; by rewrite Hc']|done].
Qed.

(** C26: [map_mmio], on an aligned window none of whose pages is inside a huge
    page ([small]; inside one, nothing would be mapped, [map_over_huge_page]),
    maps the pages of the window in order and touches no other translation;
    when it runs out of frames, a prefix of the window is mapped, and fewer
    frames were free than three for each leaf table of the window. *)
Theorem map_mmio_correct root s T A vs ps size prot b :
  let n := page_count size PAGE_SIZE in
  paging_ok root s T A -> 0 <= vs -> vs mod 4096 = 0 -> 0 <= ps -> ps mod 4096 = 0 -> 0 <= size -> size + 4096 < W64 ->
  n <= 2 ^ 36 -> vs + n * 4096 <= W64 -> ps + n * 4096 <= 2 ^ 52 -> flags_ok prot ->
  (forall j, 0 <= j < n -> small hhdm root (snd s) (vs + j * 4096)) ->
  pa_can_alloc (Z.to_nat n * 3 + b) (snd (fst s)) ->
  exists r s' k T' A', map_mmio hhdm vs ps size prot s = Ok (r, s') /\ paging_ok root s' T' A' /\
    (r = inr tt /\ k = n \/
     r = inl OutOfFrames /\ 0 <= k < n /\ pa_frames (snd (fst s')) <= 0 /\ pa_frames (snd (fst s)) < mmio_tables vs n) /\
    others_kept hhdm A T (snd s) (snd s') /\
    forall v, 0 <= v -> translates s' v =
      if decide (page_off vs v < k) then Some (ps + page_off vs v * 4096 + v mod 4096) else translates s v.
Proof.
  intros n Hok Hvs Hva Hps Hpa Hsz Hsz' Hn Hvend Hpend Hfl Hs Hb.
  destruct (map_mmio_run root s T A vs ps size prot b Hok) as (r & s' & k & T' & A' & Hrun & Hok' & Hk & Hr & Ev & W); try done.
  exists r, s', k, T', A'. split; [done|]. split; [done|]. split; [destruct Hr as [(? & ? & _)|(? & ? & ? & ?)]; [by left|right; split_and!; done || lia]|]. split; [apply Ev|].
  intros v Hv. unfold translates, translation. rewrite (proj2 Hok'), (proj2 Hok), W by done. pose proof (page_off_range vs v).
  destruct (decide (0 <= page_off vs v < k)), (decide (page_off vs v < k)); done || lia.
Qed.

Lemma page_off_in vs x n : 0 <= vs -> vs mod 4096 = 0 -> 0 <= x < n * 4096 -> n <= 2 ^ 36 ->
  page_off vs (vs + x) = x / 4096 /\ 0 <= x / 4096 < n.
Proof.
  intros Hvs Ha Hx Hn. assert (0 <= x / 4096 < n) as Hr by (split; [apply Z.div_pos; lia|apply Z.div_lt_upper_bound; lia]).
  split; [|done]. apply page_off_spec; [done|done|lia|]. unfold page_no. f_equal.
  pose proof (Z.div_mod vs 4096 ltac:(lia)). pose proof (Z.div_mod x 4096 ltac:(lia)).
  pose proof (Z.mod_pos_bound x 4096 ltac:(lia)). rewrite Z.div_add by lia.
  symmetry. apply Z.div_unique with (x mod 4096); lia.
Qed.

Lemma big_off_in vs x n : 0 <= vs -> vs mod HUGE_2M = 0 -> 0 <= x < n * HUGE_2M -> n <= 2 ^ 27 ->
  big_off vs (vs + x) = x / HUGE_2M /\ 0 <= x / HUGE_2M < n.
Proof.
  intros Hvs Ha Hx Hn. unfold HUGE_2M in *.
  assert (0 <= x / 2097152 < n) as Hr by (split; [apply Z.div_pos; lia|apply Z.div_lt_upper_bound; lia]).
  split; [|done]. apply big_off_spec; [done|done|lia|]. unfold HUGE_2M, big_no. f_equal. change (2 ^ 21) with 2097152.
  pose proof (Z.div_mod vs 2097152 ltac:(lia)). pose proof (Z.div_mod x 2097152 ltac:(lia)).
  pose proof (Z.mod_pos_bound x 2097152 ltac:(lia)). rewrite Z.div_add by lia.
  symmetry. apply Z.div_unique with (x mod 2097152); lia.
Qed.

Lemma page_count_covers n size : 0 < size -> 0 <= n -> n <= page_count n size * size.
Proof.
  intros Hs Hn. unfold page_count. pose proof (Z.div_mod (n + size - 1) size ltac:(lia)).
  pose proof (Z.mod_pos_bound (n + size - 1) size Hs). lia.
Qed.

Lemma page_big v : 0 <= v -> big_no v = page_no v / 512.
Proof.
  intros Hv. unfold big_no, page_no. change (2 ^ 21) with (4096 * 512). rewrite <- Z.div_div by lia.
  change (2 ^ 36) with (512 * 2 ^ 27). rewrite Z.rem_mul_r by lia.
  rewrite Z.add_comm, Z.mul_comm, Z.div_add_l by lia. rewrite (Z.div_small (_ mod 512)); [lia|].
  apply Z.mod_pos_bound. lia.
Qed.

(** The walks of the kernel's tables for a page, and for the direct map. *)
Definition installed (root : Z) (m : mem) (kvs kve kps mem_size : Z) : Prop := forall v, 0 <= v ->
  walk hhdm 4 m root v =
    if decide (page_off kvs v < page_count (kve - kvs) PAGE_SIZE) then Some (PAGE_SIZE, kps + page_off kvs v * 4096)
    else if decide (big_off hhdm v < page_count mem_size HUGE_2M) then Some (HUGE_2M, big_off hhdm v * HUGE_2M)
    else None.

Lemma installed_direct root m kvs kve kps mem_size pc A x :
  install_ok hhdm kvs kve kps mem_size pc A -> installed root m kvs kve kps mem_size -> 0 <= x < mem_size ->
  translation hhdm root m (hhdm + x) = Some x.
Proof.
  intros [Ha (Hm0 & Hm1 & Hm2 & Hm3) (Hk0 & Hk1 & Hk2 & Hk3) _ Hapart _ _ _] W Hx.
  pose proof (page_count_covers mem_size HUGE_2M ltac:(done) Hm0) as Hcov.
  destruct (big_off_in hhdm x (page_count mem_size HUGE_2M) (proj1 hhdm_ok) Ha ltac:(lia) Hm1) as [Eb Hb].
  unfold translation. rewrite W by lia. rewrite Eb. destruct (decide (page_off kvs (hhdm + x) < _)) as [Hp|Hp].
  + exfalso. pose proof (page_off_range kvs (hhdm + x)). specialize (Hapart (page_off kvs (hhdm + x)) ltac:(lia)).
    pose proof (proj2 (page_off_spec kvs (hhdm + x) _ (proj1 Hk0) Hk1 (page_off_range kvs (hhdm + x))) eq_refl) as E.
    unfold big_off in *. rewrite (page_big (kvs + _)) in Hapart by lia. rewrite <- E, <- page_big in Hapart by lia. lia.
  + rewrite decide_True by lia. f_equal. unfold HUGE_2M in *. rewrite Z.add_mod, Ha, Z.add_0_l, Z.mod_mod by lia.
    pose proof (Z.div_mod x 2097152 ltac:(lia)). lia.
Qed.

(** Building the kernel's tables, as the walks they give. *)
Lemma install_run s A kvs kve kps mem_size :
  pa_inv (snd (fst s)) (snd s) A -> install_ok hhdm kvs kve kps mem_size (snd (fst s)) A ->
  exists s' root T A', Pml4.install_kernel_pml4 hhdm kvs kve kps mem_size s = Ok (tt, s') /\
    paging_ok root s' T A' /\ (cr3 (fst (fst s')) = root /\ evolved hhdm root (snd (fst s)) (snd s) ∅ A (snd (fst s')) (snd s') T A') /\
    installed root (snd s') kvs kve kps mem_size.
Proof.
  destruct s as [[c pc] m]. unfold paging_ok. cbn [fst snd]. intros Ipa HI.
  pose proof (wp_install hhdm hhdm_ok c pc m A kvs kve kps mem_size Ipa HI) as Hw.
  apply wp_run in Hw as ([] & s' & Hrun & root & T & A' & Hc' & Hroot & Ev & W).
  exists s', root, T, A'. split_and!; [done|apply Ev|done|by rewrite Hc'|done|done].
Qed.

(** C15: with enough frames, [install_kernel_pml4] returns with CR3 on fresh
    tables that translate every direct-map address of physical memory to its
    physical address, every address of the kernel image to its load address,
    and nothing outside those two ranges; no block anyone held is touched. *)
Theorem install_kernel_pml4_correct s A kvs kve kps mem_size :
  pa_inv (snd (fst s)) (snd s) A -> install_ok hhdm kvs kve kps mem_size (snd (fst s)) A ->
  exists s' root T A', Pml4.install_kernel_pml4 hhdm kvs kve kps mem_size s = Ok (tt, s') /\
    cr3 (fst (fst s')) = root /\ paging_ok root s' T A' /\ pages_kept A (snd s) (snd s') /\
    (forall x, 0 <= x < mem_size -> translates s' (hhdm + x) = Some x) /\
    (forall x, 0 <= x < kve - kvs -> translates s' (kvs + x) = Some (kps + x)) /\
    (forall v, 0 <= v -> page_count mem_size HUGE_2M <= big_off hhdm v ->
       page_count (kve - kvs) PAGE_SIZE <= page_off kvs v -> translates s' v = None).
Proof.
  intros Ipa HI. destruct (install_run s A kvs kve kps mem_size Ipa HI) as (s' & root & T & A' & Hrun & Hok & [Hc' Ev] & W).
  unfold translates. pose proof (proj2 Hok) as Hroot.
  pose proof HI as [Ha (Hm0 & Hm1 & Hm2 & Hm3) (Hk0 & Hk1 & Hk2 & Hk3) (Hk4 & Hk5 & Hk6 & Hk7) Hapart _ _ _].
  exists s', root, T, A'. split; [exact Hrun|]. rewrite Hroot. split; [done|]. split; [done|].
  split_and!.
  - intros bl x Hbl Hx. apply (ev_others _ _ _ _ _ _ _ _ _ _ Ev bl x Hbl); [|done]. by intros p t Ht%lookup_empty_Some.
  - intros x Hx. eapply installed_direct; [exact HI|exact W|done].
  - intros x Hx. pose proof (page_count_covers (kve - kvs) PAGE_SIZE ltac:(done) ltac:(lia)) as Hcov. unfold PAGE_SIZE in Hcov at 2.
    destruct (page_off_in kvs x (page_count (kve - kvs) PAGE_SIZE) (proj1 Hk0) Hk1 ltac:(lia) Hk7) as [Ep Hp].
    unfold translation. rewrite W, Ep, decide_True by lia. f_equal. unfold PAGE_SIZE.
    rewrite Z.add_mod, Hk1, Z.add_0_l, Z.mod_mod by lia. pose proof (Z.div_mod x 4096 ltac:(lia)). lia.
  - intros v Hv H1 H2. unfold translation. rewrite W, !decide_False by lia. done.
Qed.

(** Descending through a table that exists changes nothing. *)
Lemma wp_descend_existing root c pc m T A v k t u (Q : MapError + Z -> Cpu * C * mem -> Prop) :
  pt_inv hhdm root pc m T A -> (k < 3)%nat -> T !! vpath v k = Some t -> 0 <= v < W64 ->
  pte_is_present (entry hhdm m t (vi v (4 - Z.of_nat k))) = true ->
  u = pte_phys_addr (entry hhdm m t (vi v (4 - Z.of_nat k))) PAGE_SIZE ->
  Q (inr u) ((c, pc), m) -> wp (descend_or_create hhdm t v (4 - Z.of_nat k)) ((c, pc), m) Q.
Proof.
  intros I Hk Ht Hv Hp -> HQ. destruct (tr_frame _ _ _ _ (pt_tree _ _ _ _ _ _ I) _ _ Ht) as (_ & [Ht0 _] & Hend).
  unfold PAGE_SIZE in Hend. unfold descend_or_create, table_at_phys, phys_to_virt. wp_steps. rewrite index_vi by lia.
  apply wp_table_read; [apply vi_range|]. fold (entry hhdm m t (vi v (4 - Z.of_nat k))). rewrite Hp. by wp_step.
Qed.

(** C28: mapping an address that lies in a 2 MiB page does not remap it:
    [descend_or_create] follows the huge entry as if it were a table (it never
    tests the huge bit), so [map] reports success, every translation stays as
    it was, and a word of the data behind the huge page is overwritten. *)
Theorem map_over_huge_page root s T A v phys prot t :
  let e := entry hhdm (snd s) t (vi v 2) in
  let data := pte_phys_addr e PAGE_SIZE in
  paging_ok root s T A -> 0 <= v < W64 -> v mod 4096 = 0 -> 0 <= phys < 2 ^ 52 -> phys mod 4096 = 0 ->
  T !! vpath v 2 = Some t -> pte_is_present e = true -> pte_is_huge e = true ->
  data + hhdm + PAGE_SIZE <= W64 -> (forall q u, T !! q = Some u -> u <> data) ->
  exists old s', map hhdm v phys prot s = Ok (inr old, s') /\
    snd s' = wr (snd s) (data + hhdm + 8 * vi v 1) (pte_encode phys PAGE_SIZE (Z.lor PRESENT (bits prot))) /\
    forall v', 0 <= v' -> translates s' v' = translates s v'.
Proof.
  intros e data. destruct s as [[c pc] m]. unfold paging_ok, translates. cbn [fst snd] in *.
  intros [I Hc] Hv Hva Hph Hpa Ht Hp Hh Hend Hno. pose proof (pt_tree _ _ _ _ _ _ I) as IT.
  destruct (parent hhdm root m T v 1 t IT ltac:(lia) Ht) as (t3 & H3 & L3 & E3).
  destruct (parent hhdm root m T v 0 t3 IT ltac:(lia) H3) as (t4 & H4 & L4 & E4).
  pose proof (root_here hhdm root m T v t4 IT H4) as E. subst t4. apply andb_true_iff in L3 as [L3 _]. apply andb_true_iff in L4 as [L4 _].
  assert (0 <= data) as Hd0 by (apply (addr_frame e PAGE_SIZE); by left).
  pose proof (vi_range v 1) as Hi. unfold PAGE_SIZE in Hend.
  assert (wp (map hhdm v phys prot) ((c, pc), m) (fun r s' => exists old, r = inr old /\
    s' = ((mkCpu (cr3 c) (v :: invalidated c) (msr_writes c), pc),
      wr m (data + hhdm + 8 * vi v 1) (pte_encode phys PAGE_SIZE (Z.lor PRESENT (bits prot)))))) as Hw.
  { unfold map. rewrite !aligned_land, Hva, Hpa. cbn [Z.eqb negb orb]. wp_step. apply wp_pml4_phys. rewrite Hc.
    apply wp_try. apply (wp_descend_existing root c pc m T A v 0 root t3); try done; [lia|].
    apply wp_try. apply (wp_descend_existing root c pc m T A v 1 t3 t); try done; [lia|].
    apply wp_try. apply (wp_descend_existing root c pc m T A v 2 t data); try done; [lia|].
    unfold table_at_phys, phys_to_virt. wp_steps. rewrite index_vi by lia. apply wp_table_read; [done|].
    wp_step. apply wp_table_write; [done|]. unfold invlpg, cpu, set_cpu, upd. wp_steps. by eexists. }
  apply wp_run in Hw as (r & s' & Hrun & old & -> & ->). eexists old, _. split; [exact Hrun|]. split; [done|].
  intros v' Hv'. cbn [fst snd]. change (active_root (mkCpu _ _ _)) with (active_root c). rewrite Hc. unfold translation.
  rewrite (walk_same hhdm root m _ T v' 4 0 root IT); [done|done|lia|exact H4|].
  intros j u Hj Hu. unfold entry. apply rd_wr_ne. intros Ecell.
  destruct (tr_frame _ _ _ _ IT _ _ Hu) as (_ & [_ Hua] & _). destruct (addr_frame e PAGE_SIZE ltac:(by left)) as [_ Hda].
  fold data in Hda. unfold PAGE_SIZE in *. pose proof (Z.div_mod u 4096 ltac:(lia)). pose proof (Z.div_mod data 4096 ltac:(lia)).
  pose proof (vi_range v' (4 - Z.of_nat j)). apply (Hno _ _ Hu). lia.
Qed.

(** The index into the PAT that the cache bits of a 4 KiB leaf select, and the
    memory type stored there. *)
Definition pat_index (fl : Z) : Z :=
  (if Z.testbit fl 3 then 1 else 0) + (if Z.testbit fl 4 then 2 else 0) + (if Z.testbit fl 7 then 4 else 0).
Definition pat_type (pat i : Z) : Z := Z.land (Z.shiftr pat (8 * i)) 255.

(** After [init_pat], leaves mapped with [MMIO_WC] are write-combining
    (type 1), with [MMIO_UC] strongly uncacheable (type 0), and the kernel's
    protections write-back (type 6); [MMIO_UC] and [KERNEL_RO], [KERNEL_RW],
    [KERNEL_RX] are never writable and executable at once, while the boot
    protection is. *)
Theorem protection_types (s : Cpu * C * mem) :
  exists s', init_pat s = Ok (tt, s') /\ msr_writes (fst (fst s')) = (IA32_PAT, PAT_VALUE) :: msr_writes (fst (fst s)) /\
  pat_type PAT_VALUE (pat_index (bits MMIO_WC)) = 1 /\ pat_type PAT_VALUE (pat_index (bits MMIO_UC)) = 0 /\
  (forall p, p ∈ [KERNEL_RO; KERNEL_RW; KERNEL_RX; KERNEL_RWX_BOOT; KERNEL_RWX] -> pat_type PAT_VALUE (pat_index (bits p)) = 6) /\
  (forall p, p ∈ [KERNEL_RO; KERNEL_RW; KERNEL_RX; MMIO_UC; MMIO_WC] ->
     flags_ok p /\ negb (Z.land p WRITABLE =? 0) && (Z.land p NO_EXECUTE =? 0) = false) /\
  negb (Z.land KERNEL_RWX_BOOT WRITABLE =? 0) && (Z.land KERNEL_RWX_BOOT NO_EXECUTE =? 0) = true.
Proof.
  destruct s as [[c pc] m]. eexists. split; [reflexivity|]. split; [done|].
  unfold MMIO_WC, MMIO_UC, KERNEL_RO, KERNEL_RW, KERNEL_RX, KERNEL_RWX_BOOT, KERNEL_RWX, bits.
  rewrite writable_bit, write_through_bit, cache_disable_bit, pat_bit, global_bit, no_execute_bit.
  split; [by vm_compute|]. split; [by vm_compute|]. split; [|split; [|by vm_compute]].
  - intros p Hp. repeat (apply elem_of_cons in Hp as [->|Hp]; [by vm_compute|]). by apply elem_of_nil in Hp.
  - intros p Hp. repeat (apply elem_of_cons in Hp as [->|Hp];
      [split; [repeat apply flags_lor; apply flag_bit; lia|by vm_compute]|]). by apply elem_of_nil in Hp.
Qed.
End properties.

(** ** A concrete run *)

(** Entries and indices as the architecture manual defines them. *)
#[export] Instance x86_paging : Bitwise := {
  pte_encode phys sz fl := Z.lor (Z.land phys (2 ^ 52 - sz)) fl;
  pte_phys_addr e sz := Z.land e (2 ^ 52 - sz);
  pte_is_present e := Z.testbit e 0;
  pte_is_huge e := Z.testbit e 7;
  vaddr_pt_index v l := (v / 2 ^ (12 + 9 * (l - 1))) mod 512;
  PRESENT := 2 ^ 0;
  WRITABLE := 2 ^ 1;
  WRITE_THROUGH := 2 ^ 3;
  CACHE_DISABLE := 2 ^ 4;
  HUGE_PAGE := 2 ^ 7;
  PAT := 2 ^ 7;
  GLOBAL := 2 ^ 8;
  NO_EXECUTE := 2 ^ 63;
  IA32_PAT := 631
}.

#[export] Instance x86_paging_laws : BitwiseLaws x86_paging.
Proof.
  split; try done. intros phys sz fl Hs [Hr Ha] Hf. simpl. f_equal.
  destruct (page_size_pow sz Hs) as (k & -> & Hk). apply Z.bits_inj'. intros i Hi.
  rewrite Z.land_spec, testbit_field by lia.
  destruct (Z.leb_spec k i), (Z.ltb_spec i 52); rewrite ?andb_true_r, ?andb_false_r; [done|..]; symmetry.
  - apply (testbit_above phys 52); lia.
  - apply (aligned_bit phys k); lia.
  - apply (aligned_bit phys k); lia.
Qed.

(** The kernel's tables over the eight pages of [run1], with the direct map at
    0: 2 MiB of memory, and a one-page kernel image at 2 GiB. *)
Definition pg0 : Cpu * BuddyAllocator * mem := ((mkCpu 0 [] [], fst run1), snd run1).
Definition pg1 : Cpu * BuddyAllocator * mem :=
  final (Pml4.install_kernel_pml4 0 2147483648 2147487744 4194304 2097152) pg0.

Lemma pg0_pages : pa_inv (snd (fst pg0)) (snd pg0) ∅.
Proof. destruct (reach_inv _ run1_reach) as [F I]. exists F, ∅. split; [apply I|]. split; [done|]. by vm_compute. Qed.

Lemma hhdm0 : 0 <= 0 /\ 0 mod 4096 = 0.
Proof. done. Qed.

Lemma pg_install_ok : install_ok 0 2147483648 2147487744 4194304 2097152 (snd (fst pg0)) ∅.
Proof.
  assert (page_count 2097152 HUGE_2M = 1) as E1 by by vm_compute.
  assert (page_count (2147487744 - 2147483648) PAGE_SIZE = 1) as E2 by by vm_compute.
  split; rewrite ?E1, ?E2; unfold HUGE_2M, W64.
  - done.
  - split_and!; (lia || by vm_compute).
  - split_and!; (lia || by vm_compute).
  - split_and!; (lia || by vm_compute).
  - intros j Hj. assert (j = 0) as -> by lia. by vm_compute.
  - split_and!; by vm_compute.
  - by vm_compute.
  - by vm_compute.
Qed.

Lemma pg1_run : Pml4.install_kernel_pml4 0 2147483648 2147487744 4194304 2097152 pg0 = Ok (tt, pg1).
Proof. unfold pg1. apply (run_ok (Pml4.install_kernel_pml4 0 2147483648 2147487744 4194304 2097152) pg0 tt). by vm_compute. Qed.

(** The run is evaluated by [vm_compute] only. *)
#[local] Opaque pg1.

Lemma install_kernel_pml4_correct_witness :
  translates 0 pg1 1048577 = Some 1048577 /\ translates 0 pg1 2147483650 = Some 4194306.
Proof.
  destruct (install_kernel_pml4_correct 0 hhdm0 pg0 ∅ 2147483648 2147487744 4194304 2097152 pg0_pages pg_install_ok)
    as (s' & root & T & A' & Hrun & _ & _ & _ & Hh & Hk & _).
  destruct (run_inj _ _ _ _ _ _ pg1_run Hrun) as [_ <-]. split.
  - apply (Hh 1048577). lia.
  - apply (Hk 2). lia.
Defined.

Lemma pg1_ok : exists root T A, paging_ok 0 root pg1 T A /\
  forall v, 0 <= v -> 1 <= big_off 0 v -> 1 <= page_off 2147483648 v -> small 0 root (snd pg1) v.
Proof.
  destruct (install_run 0 hhdm0 pg0 ∅ _ _ _ _ pg0_pages pg_install_ok) as (s' & root & T & A' & Hrun & Hok & _ & W).
  destruct (run_inj _ _ _ _ _ _ pg1_run Hrun) as [_ <-]. exists root, T, A'. split; [exact Hok|].
  intros v Hv H1 H2 sz f Hw. rewrite W in Hw by done.
  assert (page_count 2097152 HUGE_2M = 1) as E1 by by vm_compute.
  assert (page_count (2147487744 - 2147483648) PAGE_SIZE = 1) as E2 by by vm_compute.
  rewrite E1, E2, !decide_False in Hw by lia. done.
Qed.

(** An unmapped page, and a frame for it. *)
Definition v0 : Z := 2147491840.

Lemma pg1_room : pa_can_alloc  6 (snd (fst pg1)).
Proof. by vm_compute. Qed.

Lemma rw_ok : flags_ok KERNEL_RW.
Proof. by vm_compute. Qed.

Lemma v0_off : 1 <= big_off 0 v0 /\ 1 <= page_off 2147483648 v0.
Proof. split; by vm_compute. Qed.

Lemma map_correct_witness : exists r s', map 0 v0 8192 KERNEL_RW pg1 = Ok (r, s').
Proof.
  destruct pg1_ok as (root & T & A & Hok & Hs). destruct v0_off as [H1 H2].
  destruct (map_correct 0 hhdm0 root pg1 T A v0 8192 KERNEL_RW 3 Hok) as (r & s' & Hrun & _);
    [by apply Hs|by vm_compute|lia|apply rw_ok|apply pg1_room|by eexists _, _].
Defined.

Lemma translate_correct_witness : translate 0 v0 pg1 = Ok (translates 0 pg1 v0, pg1).
Proof.
  destruct pg1_ok as (root & T & A & Hok & _). apply (translate_correct 0 root pg1 T A v0 Hok). by vm_compute.
Defined.

Lemma unmap_correct_witness : exists s', unmap 0 2147483648 pg1 = Ok (tt, s').
Proof.
  destruct pg1_ok as (root & T & A & Hok & _).
  destruct (unmap_correct 0 root pg1 T A 2147483648 Hok) as (s' & Hrun & _); [by vm_compute|by exists s'].
Defined.

Definition pg2 : Cpu * BuddyAllocator * mem := final (map 0 v0 8192 KERNEL_RW) pg1.

Lemma pg2_run : map 0 v0 8192 KERNEL_RW pg1 = Ok (inr None, pg2).
Proof. unfold pg2. apply (run_ok (map 0 v0 8192 KERNEL_RW) pg1 (inr None)). by vm_compute. Qed.

Lemma map_translate_unmap_witness : translate 0 (v0 + 5) pg2 = Ok (Some 8197, pg2).
Proof.
  destruct pg1_ok as (root & T & A & Hok & Hs). destruct v0_off as [H1 H2].
  apply (map_translate_unmap 0 hhdm0 root pg1 T A v0 8192 KERNEL_RW 3 pg2 None Hok);
    [by apply Hs|by vm_compute|lia|apply rw_ok|apply pg1_room|apply pg2_run|lia].
Defined.

Lemma map_mmio_correct_witness : exists r s', map_mmio 0 v0 8192 5000 MMIO_UC pg1 = Ok (r, s').
Proof.
  destruct pg1_ok as (root & T & A & Hok & Hs).
  destruct (map_mmio_correct 0 hhdm0 root pg1 T A v0 8192 5000 MMIO_UC 0 Hok) as (r & s' & _ & _ & _ & Hrun & _);
    [by vm_compute..| |apply pg1_room|by eexists _, _].
  change (page_count 5000 PAGE_SIZE) with 2. intros j Hj. apply Hs; [unfold v0; lia|..];
    assert (j = 0 \/ j = 1) as [-> | ->] by lia; by vm_compute.
Defined.

Lemma map_over_huge_page_witness :
  exists s' old, map 0 4096 8192 KERNEL_RW pg1 = Ok (inr old, s') /\ rd (snd s') 8 <> rd (snd pg1) 8.
Proof.
  destruct pg1_ok as (root & T & A & Hok & _). pose proof (pt_tree _ _ _ _ _ _ (proj1 Hok)) as IT.
  pose proof (tr_root _ _ _ _ IT) as H0. pose proof (proj2 Hok) as Hr.
  assert (active_root (fst (fst pg1)) = 1048576) as E by by vm_compute. rewrite E in Hr. subst root.
  pose proof (tr_child _ _ _ _ IT [] 1048576 0 H0 ltac:(simpl; lia) ltac:(lia)) as H1.
  assert (entry 0 (snd pg1) 1048576 0 = 1052675) as E1 by by vm_compute. rewrite E1 in H1.
  pose proof (tr_child _ _ _ _ IT [0] 1052672 0 H1 ltac:(simpl; lia) ltac:(lia)) as H2.
  assert (entry 0 (snd pg1) 1052672 0 = 1056771) as E2 by by vm_compute. rewrite E2 in H2.
  assert (entry 0 (snd pg1) 1056768 (vi 4096 2) = 9223372036854776195) as E3 by by vm_compute.
  pose proof (map_over_huge_page 0 1048576 pg1 T A 4096 8192 KERNEL_RW 1056768 Hok) as HM. cbv zeta in HM.
  rewrite E3 in HM. change (pte_phys_addr 9223372036854776195 PAGE_SIZE) with 0 in HM.
  change (0 + 0 + 8 * vi 4096 1) with 8 in HM.
  assert (rd (snd pg1) 8 = 0) as Erd by by vm_compute. clear E1 E2 E3 E IT H0 H1.
  assert (forall q u, T !! q = Some u -> u <> 0) as Hlow.
  { intros q u Hu. pose proof (pt_held _ _ _ _ _ _ (proj1 Hok) _ _ Hu) as HA.
    destruct (pa_window _ _ _ _ _ (pt_pages _ _ _ _ _ _ (proj1 Hok)) HA) as [Hw _].
    assert (pa_lo (snd (fst pg1)) = 1048576) as El by by vm_compute. lia. }
  assert (vpath 4096 2 = [0; 0]) as Ev by by vm_compute. rewrite Ev in HM. clear Ev.
  assert (link 1056771 = true) as El by by vm_compute. rewrite El in H2.
  assert (pte_phys_addr 1056771 PAGE_SIZE = 1056768) as Ea by by vm_compute. rewrite Ea in H2.
  assert (0 <= 4096 < W64) as A1 by (split; by vm_compute). assert (0 <= 8192 < 2 ^ 52) as A2 by lia.
  assert (0 + 0 + PAGE_SIZE <= W64) as A3 by by vm_compute. cbn [app] in H2.
  specialize (HM A1 eq_refl A2 eq_refl H2 eq_refl eq_refl A3 Hlow).
  destruct HM as (old & s' & Hrun & Hm & _). exists s', old. split; [exact Hrun|].
  rewrite Hm, rd_wr_eq, Erd. by vm_compute.
Defined.

Lemma protection_types_witness : exists s', init_pat pg0 = Ok (tt, s') /\ msr_writes (fst (fst s')) = [(631, PAT_VALUE)].
Proof. destruct (protection_types pg0) as (s' & Hrun & Hw & _). by exists s'. Defined.
