(* ===== verification/OsConstants.v ===== *)
(** * The shared vocabulary of constants and descriptors

    src/src/os_constants.rs: one Module per module of the source, one Inductive
    per enum with its constructors in declaration order (the derived [Ord] is
    the position), one Definition per method.  [bool]-valued methods are
    boolean functions and [cfg] attributes are a record of the compile target.
    The constructors named [None] in the source are [NoFirmware] and
    [NoController] here. *)

From stdpp Require Import strings.
From S2P Require Import Prelude.

(** ** Architectures *)
Module arch.

Inductive Architecture : Type :=
| X86 | X86_64
| Arm | ArmHf | Aarch64
| RiscV32 | RiscV64
| Mips | MipsEl | Mips64 | Mips64El
| PowerPc | PowerPc64 | PowerPc64Le
| S390x | M68k | Sparc64 | LoongArch64
| Wasm32 | Wasm64.

#[export] Instance Architecture_eq_dec : EqDecision Architecture.
Proof. solve_decision. Defined.

Inductive Endianness : Type :=
| Little
| Big.

#[export] Instance Endianness_eq_dec : EqDecision Endianness.
Proof. solve_decision. Defined.

Definition triple_prefix (a : Architecture) : string :=
  match a with
  | X86 => "i686"
  | X86_64 => "x86_64"
  | Arm => "arm"
  | ArmHf => "armv7"
  | Aarch64 => "aarch64"
  | RiscV32 => "riscv32"
  | RiscV64 => "riscv64"
  | Mips => "mips"
  | MipsEl => "mipsel"
  | Mips64 => "mips64"
  | Mips64El => "mips64el"
  | PowerPc => "powerpc"
  | PowerPc64 => "powerpc64"
  | PowerPc64Le => "powerpc64le"
  | S390x => "s390x"
  | M68k => "m68k"
  | Sparc64 => "sparc64"
  | LoongArch64 => "loongarch64"
  | Wasm32 => "wasm32"
  | Wasm64 => "wasm64"
  end.

Definition pointer_width (a : Architecture) : Z :=
  match a with
  | X86 | Arm | ArmHf | RiscV32 | Mips | MipsEl | PowerPc | M68k | Wasm32 => 32
  | X86_64 | Aarch64 | RiscV64 | Mips64 | Mips64El | PowerPc64 | PowerPc64Le
  | S390x | Sparc64 | LoongArch64 | Wasm64 => 64
  end.

Definition is_bi_endian (a : Architecture) : bool :=
  match a with
  | Arm | ArmHf | Mips | MipsEl | Mips64 | Mips64El
  | PowerPc | PowerPc64 | PowerPc64Le | Sparc64 => true
  | _ => false
  end.

Definition endianness (a : Architecture) : Endianness :=
  match a with
  | Mips | Mips64 | PowerPc | PowerPc64 | S390x | Sparc64 | M68k => Big
  | _ => Little
  end.

(** What the [cfg] attributes of the functions below test. *)
Record Target : Type := mkTarget {
  target_arch : string;
  target_endian : Endianness;
  feature_vfp2 : bool
}.

(** The first [cfg] that holds is the [return] that runs; the others are dead
    or removed. *)
Definition current (t : Target) : option Architecture :=
  let arch_is (s : string) := bool_decide (target_arch t = s) in
  let little := bool_decide (target_endian t = Little) in
  let big := bool_decide (target_endian t = Big) in
  if arch_is "x86" then Some X86
  else if arch_is "x86_64" then Some X86_64
  else if arch_is "arm" && feature_vfp2 t then Some ArmHf
  else if arch_is "arm" && negb (feature_vfp2 t) then Some Arm
  else if arch_is "aarch64" then Some Aarch64
  else if arch_is "riscv32" then Some RiscV32
  else if arch_is "riscv64" then Some RiscV64
  else if arch_is "mips" && big then Some Mips
  else if arch_is "mips" && little then Some MipsEl
  else if arch_is "mips64" && big then Some Mips64
  else if arch_is "mips64" && little then Some Mips64El
  else if arch_is "powerpc" then Some PowerPc
  else if arch_is "powerpc64" && big then Some PowerPc64
  else if arch_is "powerpc64" && little then Some PowerPc64Le
  else if arch_is "s390x" then Some S390x
  else if arch_is "m68k" then Some M68k
  else if arch_is "sparc64" then Some Sparc64
  else if arch_is "loongarch64" then Some LoongArch64
  else if arch_is "wasm32" then Some Wasm32
  else if arch_is "wasm64" then Some Wasm64
  else None.

Definition native (t : Target) : Endianness :=
  match target_endian t with Little => Little | Big => Big end.

Definition is_little (e : Endianness) : bool := match e with Little => true | Big => false end.
Definition is_big (e : Endianness) : bool := match e with Big => true | Little => false end.

Inductive RegisterWidth : Type :=
| Bits8 | Bits16 | Bits32 | Bits64 | Bits128.

Definition bits (w : RegisterWidth) : Z :=
  match w with
  | Bits8 => 8
  | Bits16 => 16
  | Bits32 => 32
  | Bits64 => 64
  | Bits128 => 128
  end.

Definition bytes (w : RegisterWidth) : Z := bits w / 8.
End arch.

(** ** Boot environments *)
Module boot.

Inductive BootProtocol : Type :=
| Limine | Multiboot1 | Multiboot2 | EfiStub | LinuxBoot | UBoot | Bare | Unknown.

Inductive FirmwareKind : Type :=
| Uefi | Bios | OpenFirmware | DeviceTree | Acpi | NoFirmware.

Inductive EntryMode : Type :=
| RealMode | ProtectedMode | ProtectedModePaged | LongMode
| AArch64El1 | AArch64El2 | RiscVSupervisor | RiscVMachine.
End boot.

(** ** Pages, regions, caches, protections *)
Module memory.

Inductive PageSize : Type :=
| Kib4 | Kib16 | Kib64 | Mib2 | Gib1.

Definition bytes (s : PageSize) : Z :=
  match s with
  | Kib4 => 4 * 1024
  | Kib16 => 16 * 1024
  | Kib64 => 64 * 1024
  | Mib2 => 2 * 1024 * 1024
  | Gib1 => 1 * 1024 * 1024 * 1024
  end.

Definition shift (s : PageSize) : Z :=
  match s with
  | Kib4 => 12
  | Kib16 => 14
  | Kib64 => 16
  | Mib2 => 21
  | Gib1 => 30
  end.

Definition mask (s : PageSize) : Z := bytes s - 1.

Definition is_aligned (s : PageSize) (addr : Z) : bool := Z.land addr (mask s) =? 0.

Definition align_down (s : PageSize) (addr : Z) : Z := Z.land addr (not64 (mask s)).

(** [checked_add]. *)
Definition align_up (s : PageSize) (addr : Z) : option Z :=
  let a := addr + mask s in
  if a <? W64 then Some (Z.land a (not64 (mask s))) else None.

Inductive MemoryRegionKind : Type :=
| Usable | BootloaderReclaimable | AcpiReclaimable | AcpiNvs | KernelAndModules
| Framebuffer | Mmio | Persistent | BadMemory | Reserved.

Definition is_immediately_usable (k : MemoryRegionKind) : bool :=
  match k with Usable => true | _ => false end.

Definition is_reclaimable (k : MemoryRegionKind) : bool :=
  match k with BootloaderReclaimable | AcpiReclaimable => true | _ => false end.

Definition is_reserved (k : MemoryRegionKind) : bool :=
  negb (is_immediately_usable k) && negb (is_reclaimable k).

(** The derived [Ord] compares positions. *)
Definition rank (k : MemoryRegionKind) : Z :=
  match k with
  | Usable => 0 | BootloaderReclaimable => 1 | AcpiReclaimable => 2 | AcpiNvs => 3
  | KernelAndModules => 4 | Framebuffer => 5 | Mmio => 6 | Persistent => 7
  | BadMemory => 8 | Reserved => 9
  end.

Inductive CachePolicy : Type :=
| WriteBack | WriteThrough | Uncacheable | WriteCombining | WriteProtect.

Record MemoryProtection : Type := mkProtection {
  read : bool;
  write : bool;
  execute : bool
}.

Definition READ_ONLY : MemoryProtection := mkProtection true false false.
Definition READ_WRITE : MemoryProtection := mkProtection true true false.
Definition READ_EXECUTE : MemoryProtection := mkProtection true false true.
Definition KERNEL_CODE : MemoryProtection := READ_EXECUTE.
Definition KERNEL_DATA : MemoryProtection := READ_WRITE.
Definition NONE : MemoryProtection := mkProtection false false false.

Definition is_wx_safe (p : MemoryProtection) : bool := negb (write p && execute p).

Inductive AllocError : Type :=
| OutOfMemory | AlignmentUnsatisfied | RegionOverlap | UnalignedAddress | ZeroSize
| PageTableAllocationFailed.

Definition KIB : Z := 1024.
Definition MIB : Z := 1024 * KIB.
Definition GIB : Z := 1024 * MIB.
Definition TIB : Z := 1024 * GIB.
Definition PAGE_SIZE_4K : Z := bytes Kib4.
Definition PAGE_SIZE_2M : Z := bytes Mib2.
Definition PAGE_SIZE_1G : Z := bytes Gib1.
Definition X86_64_HHDM_DEFAULT : Z := 0xffff800000000000.
Definition X86_64_MAX_PHYS_4LEVEL : Z := Z.shiftl 1 46.
Definition X86_64_MAX_PHYS_5LEVEL : Z := Z.shiftl 1 52.
End memory.

(** ** Privilege levels *)
Module cpu_privilege.

Inductive CPUPrivilegeLevel : Type :=
| Kernel | Hypervisor | SecureMonitor | User.

Definition x86_ring (l : CPUPrivilegeLevel) : option Z :=
  match l with
  | Kernel => Some 0
  | Hypervisor => Some 0
  | SecureMonitor => None
  | User => Some 3
  end.

Definition aarch64_el (l : CPUPrivilegeLevel) : option Z :=
  match l with
  | User => Some 0
  | Kernel => Some 1
  | Hypervisor => Some 2
  | SecureMonitor => Some 3
  end.

Definition is_privileged (l : CPUPrivilegeLevel) : bool :=
  match l with User => false | _ => true end.

(** The position the derived [Ord] compares. *)
Definition rank (l : CPUPrivilegeLevel) : Z :=
  match l with Kernel => 0 | Hypervisor => 1 | SecureMonitor => 2 | User => 3 end.
End cpu_privilege.

(** ** Interrupt vocabulary *)
Module interrupts.

Inductive InterruptController : Type :=
| Pic8259 | Apic | X2Apic | GicV2 | GicV3 | Plic | RiscVAia | NoController.

Inductive TriggerMode : Type :=
| EdgeRising | EdgeFalling | LevelHigh | LevelLow.

Inductive DeliveryMode : Type :=
| Fixed | LowestPriority | Smi | Nmi | Init | StartUp | ExtInt.

Inductive ExceptionKind : Type :=
| Fault | Trap | Abort | Interrupt.
End interrupts.

(** ** Buses *)
Module bus.

Inductive BusKind : Type :=
| Pci | PciExpress | Usb2 | Usb3 | I2c | Spi | Uart | Isa | Eisa | Lpc | SmBus
| AmbApb | AmbaAhb | AmbaAxi | Mmio | Platform | Nvme | Sata | SdMmc | Can.
End bus.

(** ** Displays *)
Module display.

Inductive PixelFormat : Type :=
| Rgb32 | Bgr32 | Argb32 | Bgra32 | Rgb24 | Bgr24 | Rgb565 | Indexed8 | Grey8 | Unknown.

Definition bpp (f : PixelFormat) : Z :=
  match f with
  | Rgb32 | Bgr32 | Argb32 | Bgra32 => 32
  | Rgb24 | Bgr24 => 24
  | Rgb565 => 16
  | Indexed8 | Grey8 => 8
  | Unknown => 0
  end.

(** In [u8]: a sum beyond 255 is a panic. *)
Definition bytes_per_pixel (f : PixelFormat) : outcome Z :=
  if bpp f + 7 <? 256 then Ok ((bpp f + 7) / 8) else Panic.

Definition has_alpha (f : PixelFormat) : bool :=
  match f with Argb32 | Bgra32 => true | _ => false end.

Inductive Rotation : Type :=
| Degrees0 | Degrees90 | Degrees180 | Degrees270.

Definition flipped (r : Rotation) : Rotation :=
  match r with
  | Degrees0 => Degrees180
  | Degrees90 => Degrees270
  | Degrees180 => Degrees0
  | Degrees270 => Degrees90
  end.

Definition transposes_dimensions (r : Rotation) : bool :=
  match r with Degrees90 | Degrees270 => true | _ => false end.
End display.

(** ** Theorems *)

Lemma page_size_bytes_pow s : memory.bytes s = 2 ^ memory.shift s /\ 12 <= memory.shift s <= 30.
Proof. destruct s; done. Qed.

Lemma align_down_mod s x : 0 <= x < W64 -> memory.align_down s x = x - x mod memory.bytes s.
Proof.
  intros Hx. destruct (page_size_bytes_pow s) as [E Hs].
  unfold memory.align_down, memory.mask. rewrite E. apply land_not64_mask; lia.
Qed.

Lemma is_aligned_mod s x : 0 <= x -> memory.is_aligned s x = (x mod memory.bytes s =? 0).
Proof.
  intros Hx. destruct (page_size_bytes_pow s) as [E Hs]. unfold memory.is_aligned, memory.mask. rewrite E.
  replace (2 ^ memory.shift s - 1) with (Z.ones (memory.shift s)) by (rewrite Z.ones_equiv; lia).
  by rewrite Z.land_ones by lia.
Qed.

(** C40: for every page size and every 64-bit address, [is_aligned] decides
    divisibility by the size, [align_down] is the greatest boundary at or below
    the address, and [align_up] is the least boundary at or above it, [None]
    exactly when no such boundary fits in 64 bits. *)
Theorem page_size_alignment s addr :
  0 <= addr < W64 ->
  memory.bytes s = 2 ^ memory.shift s /\
  (memory.is_aligned s addr = true <-> (memory.bytes s | addr)) /\
  ((memory.bytes s | memory.align_down s addr) /\
   memory.align_down s addr <= addr < memory.align_down s addr + memory.bytes s) /\
  match memory.align_up s addr with
  | Some a => (memory.bytes s | a) /\ addr <= a < addr + memory.bytes s /\ a < W64
  | None => forall a, (memory.bytes s | a) -> addr <= a -> W64 <= a
  end.
Proof.
  intros Hx. destruct (page_size_bytes_pow s) as [E Hs].
  assert (0 < memory.bytes s) as Hb by (rewrite E; apply Z.pow_pos_nonneg; lia).
  assert ((memory.bytes s | W64)) as Hw by (rewrite E; apply (divide_pow2_le _ 64); [lia|by exists 1]).
  pose proof (Z.mod_pos_bound addr _ Hb). pose proof (Z.div_mod addr (memory.bytes s) ltac:(lia)).
  split; [done|]. split; [rewrite is_aligned_mod by lia; rewrite Z.eqb_eq; apply Z.mod_divide; lia|].
  split; [rewrite align_down_mod by done; split; [exists (addr / memory.bytes s)|]; lia|].
  unfold memory.align_up. destruct (Z.ltb_spec (addr + memory.mask s) W64) as [Hlt|Hge].
  - fold (memory.align_down s (addr + memory.mask s)).
    rewrite align_down_mod by (unfold memory.mask in *; lia). unfold memory.mask in *.
    pose proof (Z.mod_pos_bound (addr + (memory.bytes s - 1)) _ Hb).
    pose proof (Z.div_mod (addr + (memory.bytes s - 1)) (memory.bytes s) ltac:(lia)).
    split; [exists ((addr + (memory.bytes s - 1)) / memory.bytes s); lia|lia].
  - unfold memory.mask in Hge. intros a [k ->] Ha. destruct Hw as [w Hw].
    assert (w <= k) by nia. nia.
Qed.

Lemma page_size_alignment_witness :
  memory.align_up memory.Kib4 (W64 - 1) = None /\ memory.is_aligned memory.Mib2 4096 = false.
Proof.
  destruct (page_size_alignment memory.Mib2 4096 ltac:(done)) as (_ & Hal & _ & _).
  split; [by vm_compute|]. apply not_true_is_false. intros H. apply Hal in H as [k Hk].
  revert Hk. change (memory.bytes memory.Mib2) with 2097152. lia.
Defined.

(** The architectures of which the enum has a variant per byte order. *)
Definition split_by_endianness : list string := ["mips"; "mips64"; "powerpc64"]%string.

Lemma current_split t a :
  arch.target_arch t ∈ split_by_endianness -> arch.current t = Some a -> arch.endianness a = arch.native t.
Proof.
  destruct t as [s e f]. cbn [arch.target_arch]. intros Hs.
  repeat (apply elem_of_cons in Hs as [->|Hs]; [destruct e; vm_compute; by intros [= <-]|]). by apply elem_of_nil in Hs.
Qed.

Lemma current_unsplit t e :
  arch.target_arch t ∉ split_by_endianness ->
  arch.current (arch.mkTarget (arch.target_arch t) e (arch.feature_vfp2 t)) = arch.current t.
Proof.
  intros Hn. unfold arch.current; cbn [arch.target_arch arch.target_endian arch.feature_vfp2].
  rewrite (bool_decide_eq_false_2 (arch.target_arch t = "mips"%string)),
    (bool_decide_eq_false_2 (arch.target_arch t = "mips64"%string)),
    (bool_decide_eq_false_2 (arch.target_arch t = "powerpc64"%string))
    by (intros E; apply Hn; rewrite E; unfold split_by_endianness; set_solver).
  done.
Qed.

(** [endianness] of the [current] architecture is the target's byte order
    when the enum has one variant per byte order; every other architecture is
    named alike for both byte orders, so that on big-endian [aarch64] and
    [arm] targets [endianness] contradicts [native]. *)
Theorem current_endianness t a :
  arch.current t = Some a ->
  (arch.target_arch t ∈ split_by_endianness -> arch.endianness a = arch.native t) /\
  (arch.target_arch t ∉ split_by_endianness ->
     forall e, arch.current (arch.mkTarget (arch.target_arch t) e (arch.feature_vfp2 t)) = Some a) /\
  (forall s f, s ∈ ["aarch64"; "arm"]%string -> let t' := arch.mkTarget s arch.Big f in
     exists b, arch.current t' = Some b /\ arch.endianness b <> arch.native t').
Proof.
  intros H. split; [|split].
  - intros Hs. by apply current_split.
  - intros Hs e. by rewrite current_unsplit.
  - intros s f Hs. repeat (apply elem_of_cons in Hs as [->|Hs]; [destruct f; vm_compute; by eexists|]). by apply elem_of_nil in Hs.
Qed.

Lemma current_endianness_witness :
  arch.endianness arch.MipsEl = arch.native (arch.mkTarget "mips" arch.Little false).
Proof.
  apply (current_endianness (arch.mkTarget "mips" arch.Little false) arch.MipsEl); [by vm_compute|].
  unfold split_by_endianness. cbn [arch.target_arch]. set_solver.
Defined.

