(* ===== verification/Arch.v ===== *)
(** * The interrupt flag around critical sections

    src/src/arch.rs: [X86IrqControl] is what the kernel's interrupt-safe locks
    keep while they are held.  Taking one pushes RFLAGS and executes cli,
    dropping one pops the RFLAGS it saved.  The locks themselves (pincer's
    [IrqMutex]) are not part of this repository: a client here is a sequence of
    guards taken and dropped, and of code that may change any other flag.

    The guards compose as brackets: in a nested sequence interrupts are off
    exactly while a guard is held and come back as they were.  Dropped out of
    order they do neither. *)

From S2P Require Import Prelude.

(** ** The guard *)

(** The state is RFLAGS; IF is its bit 9. *)
Definition IF_BIT : Z := 9.
Definition interrupts_on (flags : Z) : bool := Z.testbit flags IF_BIT.

Definition pushfq : M Z Z := get.
Definition popfq (flags : Z) : M Z unit := put flags.
Definition cli : M Z unit := modify (fun flags => Z.clearbit flags IF_BIT).

Record X86IrqControl : Type := mkIrqControl { saved_flags : Z }.

Definition save_and_disable : M Z X86IrqControl :=
  let* flags := pushfq in cli ;; ret (mkIrqControl flags).

Definition restore (self : X86IrqControl) : M Z unit := popfq (saved_flags self).

(** ** Clients *)

(** Guards are known by a number.  [Work flags] is code between them: it leaves
    the given flags, but does not touch IF. *)
Inductive op :=
| Take (n : nat)
| Drop_ (n : nat)
| Work (flags : Z).

Abbreviation Client := (Z * gmap nat X86IrqControl)%type.

Definition on_flags {A} (c : M Z A) : M Client A := fun s =>
  match c (fst s) with
  | Ok (a, f) => Ok (a, (f, snd s))
  | Panic => Panic
  | OutOfFuel => OutOfFuel
  end.

Definition set_if (flags : Z) (b : bool) : Z :=
  if b then Z.setbit flags IF_BIT else Z.clearbit flags IF_BIT.

Definition run_op (o : op) : M Client unit :=
  match o with
  | Take n =>
      let* g := on_flags save_and_disable in
      modify (fun s => (fst s, <[n := g]> (snd s)))
  | Drop_ n =>
      let* guards := gets snd in
      let* g := expect (guards !! n) in
      on_flags (restore g) ;;
      modify (fun s => (fst s, delete n (snd s)))
  | Work flags => modify (fun s => (set_if flags (interrupts_on (fst s)), snd s))
  end.

Fixpoint run_ops (os : list op) : M Client unit :=
  match os with
  | [] => ret tt
  | o :: os => run_op o ;; run_ops os
  end.

(** Well-bracketed sequences: a guard is dropped after all taken since. *)
Inductive nested : list op -> Prop :=
| nested_nil : nested []
| nested_work flags os : nested os -> nested (Work flags :: os)
| nested_guard n body os : nested body -> nested os -> Take n ∉ body -> nested (Take n :: body ++ Drop_ n :: os).

(** Guards held after a sequence. *)
Fixpoint depth (os : list op) : Z :=
  match os with
  | [] => 0
  | Take _ :: os => 1 + depth os
  | Drop_ _ :: os => depth os - 1
  | Work _ :: os => depth os
  end.

Lemma depth_app os1 os2 : depth (os1 ++ os2) = depth os1 + depth os2.
Proof. induction os1 as [|[n|n|f] os1 IH]; simpl; lia. Qed.

Lemma nested_depth os : nested os -> depth os = 0.
Proof. induction 1; simpl; rewrite ?depth_app; simpl; lia. Qed.

Lemma set_if_on flags b : interrupts_on (set_if flags b) = b.
Proof.
  unfold interrupts_on, set_if, IF_BIT. destruct b; [by apply Z.setbit_eq|by apply Z.clearbit_eq].
Qed.

Lemma cli_off flags : interrupts_on (Z.clearbit flags IF_BIT) = false.
Proof. unfold interrupts_on, IF_BIT. by apply Z.clearbit_eq. Qed.

Lemma wp_run_app os1 os2 s (Q : unit -> Client -> Prop) :
  wp (run_ops os1) s (fun _ s' => wp (run_ops os2) s' Q) -> wp (run_ops (os1 ++ os2)) s Q.
Proof.
  revert s. induction os1 as [|o os1 IH]; intros s Hw; [exact Hw|].
  cbn [app run_ops] in *. apply wp_bind. unfold wp, bind in Hw |- *.
  destruct (run_op o s) as [[[] s1]| |]; [|done..]. by apply IH.
Qed.

(** The operations on guards, run from a state. *)
Lemma wp_take_guard n f G (Q : unit -> Client -> Prop) :
  Q tt (Z.clearbit f IF_BIT, <[n := mkIrqControl f]> G) -> wp (run_op (Take n)) (f, G) Q.
Proof. done. Qed.

Lemma wp_drop_guard n f G g (Q : unit -> Client -> Prop) :
  G !! n = Some g -> Q tt (saved_flags g, delete n G) -> wp (run_op (Drop_ n)) (f, G) Q.
Proof.
  intros Hg HQ. cbn [run_op]. apply wp_bind, wp_gets. cbn [snd].
  apply wp_bind. eapply wp_expect; [exact Hg|]. exact HQ.
Qed.

Lemma wp_work flags f G (Q : unit -> Client -> Prop) :
  Q tt (set_if flags (interrupts_on f), G) -> wp (run_op (Work flags)) (f, G) Q.
Proof. done. Qed.

(** A nested sequence runs, and leaves IF and the guards held before it. *)
Lemma wp_nested os : nested os -> forall f G, (forall n, Take n ∈ os -> G !! n = None) ->
  wp (run_ops os) (f, G) (fun _ s' => interrupts_on (fst s') = interrupts_on f /\ snd s' = G).
Proof.
  induction 1 as [|flags os _ IH|n body os _ IHb _ IHo Hn]; intros f G Hfresh; cbn [run_ops].
  - by apply wp_ret.
  - apply wp_bind, wp_work.
    eapply wp_mono; [apply IH; intros n Hn; apply Hfresh; by right|]. cbn beta.
    intros _ s' [H1 H2]. split; [by rewrite H1, set_if_on|done].
  - assert (G !! n = None) as Hnone by (apply Hfresh; by left).
    apply wp_bind, wp_take_guard, wp_run_app. eapply wp_mono; [apply IHb|].
    { intros k Hk. rewrite lookup_insert_ne by (intros ->; done). apply Hfresh. right. apply elem_of_app. by left. }
    intros _ [f1 G1] [_ HG]. cbn [fst snd] in HG. subst G1. cbn [run_ops].
    apply wp_bind. eapply wp_drop_guard; [by apply lookup_insert_eq|]. cbn [saved_flags].
    rewrite delete_insert_id by done. apply IHo.
    intros k Hk. apply Hfresh. right. apply elem_of_app. right. by right.
Qed.

(** Every prefix of a nested sequence runs; interrupts are on after it exactly
    when no guard is held and they were on before. *)
Lemma wp_nested_prefix os : nested os -> forall pre post f G,
  (forall n, Take n ∈ os -> G !! n = None) -> os = pre ++ post ->
  0 <= depth pre /\
  wp (run_ops pre) (f, G) (fun _ s' => interrupts_on (fst s') = (depth pre =? 0) && interrupts_on f).
Proof.
  induction 1 as [|flags os _ IH|n body os Hbody IHb _ IHo Hn]; intros [|o pre] post f G Hfresh Hos;
    try (split; [done|apply wp_ret; reflexivity]); [discriminate| |]; injection Hos as <- Hos; cbn [run_ops depth].
  - destruct (IH pre post (set_if flags (interrupts_on f)) G) as [Hd Hw]; [|done|].
    { intros k Hk. apply Hfresh. by right. }
    split; [done|]. apply wp_bind, wp_work. by rewrite set_if_on in Hw.
  - assert (forall k, Take k ∈ body -> <[n := mkIrqControl f]> G !! k = None) as Hb.
    { intros k Hk. rewrite lookup_insert_ne by (intros ->; done). apply Hfresh. right. apply elem_of_app. by left. }
    apply app_eq_inv in Hos as [(l & -> & ->)|(l & -> & Hl)].
    + (* inside the section *)
      destruct (IHb pre l (Z.clearbit f IF_BIT) _ Hb eq_refl) as [Hd Hw]. split; [lia|].
      apply wp_bind, wp_take_guard. eapply wp_mono; [exact Hw|]. cbn beta. intros _ s' ->.
      rewrite cli_off, andb_false_r. by destruct (Z.eqb_spec (1 + depth pre) 0); [lia|].
    + destruct l as [|o l]; cbn [app] in Hl.
      * (* at its end, before the guard is dropped *)
        rewrite app_nil_r. rewrite (nested_depth _ Hbody). split; [lia|].
        apply wp_bind, wp_take_guard. eapply wp_mono; [by apply (wp_nested body)|]. cbn beta.
        intros _ s' [-> _]. by rewrite cli_off.
      * injection Hl as <- Hl. destruct (IHo l post f G) as [Hd Hw]; [|done|].
        { intros k Hk. apply Hfresh. right. apply elem_of_app. right. by right. }
        rewrite depth_app. cbn [depth]. rewrite (nested_depth _ Hbody).
        replace (1 + (0 + (depth l - 1))) with (depth l) by lia. split; [done|].
        apply wp_bind, wp_take_guard, wp_run_app. eapply wp_mono; [by apply (wp_nested body)|].
        intros _ [f1 G1] [_ HG]. cbn [fst snd] in HG. subst G1. cbn [run_ops]. apply wp_bind.
        eapply wp_drop_guard; [by apply lookup_insert_eq|]. cbn [saved_flags]. rewrite delete_insert_id; [exact Hw|].
        apply Hfresh. by left.
Qed.

(** * Properties *)

(** C34: the guards bracket critical sections.  In any well-nested sequence of
    guards taken and dropped and of other code, run with fresh guards from any
    flags, every prefix runs; after it interrupts are on exactly when no guard
    is held and they were on at the start.  After the whole sequence the held
    guards are those of the start.  Two guards dropped in the order they were
    taken break this: interrupts come on while the second is held, and dropping
    it leaves them off. *)
Theorem irq_guards_nest os f G :
  nested os -> (forall n, Take n ∈ os -> G !! n = None) ->
  (forall pre post, os = pre ++ post -> exists s', run_ops pre (f, G) = Ok (tt, s') /\
     interrupts_on (fst s') = (depth pre =? 0) && interrupts_on f) /\
  (exists s', run_ops os (f, G) = Ok (tt, s') /\ interrupts_on (fst s') = interrupts_on f /\ snd s' = G) /\
  (forall a b, a <> b -> interrupts_on f = true -> exists s1 s2,
     run_ops [Take a; Take b; Drop_ a] (f, G) = Ok (tt, s1) /\ interrupts_on (fst s1) = true /\ is_Some (snd s1 !! b) /\
     run_op (Drop_ b) s1 = Ok (tt, s2) /\ interrupts_on (fst s2) = false).
Proof.
  intros Hos HG. split; [|split].
  - intros pre post E. destruct (wp_nested_prefix os Hos pre post f G HG E) as [_ Hw].
    apply wp_run in Hw as ([] & s' & ? & ?). by exists s'.
  - pose proof (wp_nested os Hos f G HG) as Hw. apply wp_run in Hw as ([] & s' & ? & ? & ?). by exists s'.
  - intros a b Hab Hon.
    assert (wp (run_ops [Take a; Take b; Drop_ a]) (f, G) (fun _ s1 => interrupts_on (fst s1) = true /\
      snd s1 !! b = Some (mkIrqControl (Z.clearbit f IF_BIT)))) as Hw.
    { cbn [run_ops]. apply wp_bind, wp_take_guard, wp_bind, wp_take_guard, wp_bind.
      eapply wp_drop_guard; [rewrite lookup_insert_ne by done; apply lookup_insert_eq|]. apply wp_ret. cbn [fst snd saved_flags].
      split; [done|]. rewrite lookup_delete_ne by done. apply lookup_insert_eq. }
    apply wp_run in Hw as ([] & [f1 G1] & Hrun & H1 & H2). cbn [fst snd] in *.
    assert (wp (run_op (Drop_ b)) (f1, G1) (fun _ s2 => interrupts_on (fst s2) = false)) as Hw
      by (eapply wp_drop_guard; [exact H2|]; apply cli_off).
    apply wp_run in Hw as ([] & s2 & Hrun2 & Hoff). exists (f1, G1), s2. split_and!; done.
Qed.

(** Two locks, one inside the other, taken with interrupts on. *)
Definition two_locks : list op := [Take 0; Work 2; Take 1; Work 6; Drop_ 1; Work 0; Drop_ 0; Work 2].

Lemma two_locks_nested : nested two_locks.
Proof.
  apply (nested_guard 0 [Work 2; Take 1; Work 6; Drop_ 1; Work 0] [Work 2]).
  - apply nested_work. apply (nested_guard 1 [Work 6] [Work 0]); [do 2 constructor|do 2 constructor|].
    intros H. apply list_elem_of_singleton in H. done.
  - do 2 constructor.
  - intros H. repeat (apply elem_of_cons in H as [H|H]; [done|]). by apply elem_of_nil in H.
Qed.

Lemma irq_guards_nest_witness :
  (exists s', run_ops (take 6 two_locks) (514, ∅) = Ok (tt, s') /\ interrupts_on (fst s') = false) /\
  (exists s', run_ops two_locks (514, ∅) = Ok (tt, s') /\ interrupts_on (fst s') = true /\ snd s' = ∅).
Proof.
  destruct (irq_guards_nest two_locks 514 ∅ two_locks_nested ltac:(done)) as (Hp & Ha & _). split; [|exact Ha].
  destruct (Hp (take 6 two_locks) (drop 6 two_locks) ltac:(done)) as (s' & H1 & H2). exists s'. split; [exact H1|].
  rewrite H2. reflexivity.
Defined.
