(* ===== verification/Interrupts.v ===== *)
(** * Interrupts

    src/src/interrupts: the vector numbers (vectors.rs), the counters
    (stats.rs), the registered handlers (dispatch.rs), the 8259 pair (pic.rs),
    the local APIC (apic.rs), the handlers themselves (handlers.rs), the
    descriptor table (exceptions.rs), and the interrupt stacks of gdt.rs.

    The state is the statics of those files and the history of what the kernel
    did to the outside: port and MMIO accesses, calls into the pic8259 and
    pc_keyboard crates, calls of registered function pointers, and the taking
    and releasing of the lock [PICS].  What a port reads as is a parameter, a
    function of that history.  The functions here run without interruption, so
    that the lock is free when they take it; [InterruptsSpec.Locking]
    interleaves their histories, where it may be held. *)

From S2P Require Import Prelude.

(** ** Vectors *)
Definition EXCEPTION_DIVIDE_ERROR : Z := 0x00.
Definition EXCEPTION_DEBUG : Z := 0x01.
Definition EXCEPTION_NMI : Z := 0x02.
Definition EXCEPTION_BREAKPOINT : Z := 0x03.
Definition EXCEPTION_OVERFLOW : Z := 0x04.
Definition EXCEPTION_BOUND_RANGE : Z := 0x05.
Definition EXCEPTION_INVALID_OPCODE : Z := 0x06.
Definition EXCEPTION_DEVICE_NOT_AVAIL : Z := 0x07.
Definition EXCEPTION_DOUBLE_FAULT : Z := 0x08.
Definition EXCEPTION_INVALID_TSS : Z := 0x0A.
Definition EXCEPTION_SEGMENT_NOT_PRESENT : Z := 0x0B.
Definition EXCEPTION_STACK_SEGMENT : Z := 0x0C.
Definition EXCEPTION_GENERAL_PROTECTION : Z := 0x0D.
Definition EXCEPTION_PAGE_FAULT : Z := 0x0E.
Definition EXCEPTION_X87_FP : Z := 0x10.
Definition EXCEPTION_ALIGNMENT_CHECK : Z := 0x11.
Definition EXCEPTION_MACHINE_CHECK : Z := 0x12.
Definition EXCEPTION_SIMD_FP : Z := 0x13.
Definition EXCEPTION_VIRTUALIZATION : Z := 0x14.
Definition PIC_IRQ_TIMER : Z := 0x20.
Definition PIC_IRQ_KEYBOARD : Z := 0x21.
Definition PIC_IRQ_SPURIOUS_MASTER : Z := 0x27.
Definition PIC_IRQ_RTC : Z := 0x28.
Definition PIC_IRQ_MOUSE : Z := 0x2C.
Definition PIC_IRQ_ATA_PRIMARY : Z := 0x2E.
Definition PIC_IRQ_ATA_SECONDARY : Z := 0x2F.
Definition APIC_SPURIOUS : Z := 0xFF.

Inductive InterruptVector : Type :=
| Timer | Keyboard | SpuriousMaster | Rtc | Mouse | AtaPrimary | AtaSecondary.

Definition as_u8 (v : InterruptVector) : Z :=
  match v with
  | Timer => PIC_IRQ_TIMER
  | Keyboard => PIC_IRQ_KEYBOARD
  | SpuriousMaster => PIC_IRQ_SPURIOUS_MASTER
  | Rtc => PIC_IRQ_RTC
  | Mouse => PIC_IRQ_MOUSE
  | AtaPrimary => PIC_IRQ_ATA_PRIMARY
  | AtaSecondary => PIC_IRQ_ATA_SECONDARY
  end.

Definition as_usize (v : InterruptVector) : Z := as_u8 v.

Definition is_spurious (v : InterruptVector) : bool :=
  match v with SpuriousMaster | AtaSecondary => true | _ => false end.

(** ** State *)
Inductive event : Type :=
| Out (port v : Z)
| In (port : Z)
| Mmio (addr v : Z)
| PicInitialize
| PicEoi (vector : Z)
| PicsLock
| PicsUnlock
| KeyByte (scancode : Z)
| Run (f : Z).

Record IState : Type := mkI {
  io : list event;           (* newest first *)
  COUNTERS : list Z;
  HANDLERS : list Z;         (* function pointers, 0 is null *)
  TICKS : Z;
  LAPIC : option Z;
  APIC_BASE_VADDR : Z;
  APIC_ENABLED : bool
}.

Definition with_io (tr : list event) (s : IState) : IState :=
  mkI tr (COUNTERS s) (HANDLERS s) (TICKS s) (LAPIC s) (APIC_BASE_VADDR s) (APIC_ENABLED s).
Definition with_counters (c : list Z) (s : IState) : IState :=
  mkI (io s) c (HANDLERS s) (TICKS s) (LAPIC s) (APIC_BASE_VADDR s) (APIC_ENABLED s).
Definition with_handlers (h : list Z) (s : IState) : IState :=
  mkI (io s) (COUNTERS s) h (TICKS s) (LAPIC s) (APIC_BASE_VADDR s) (APIC_ENABLED s).
Definition with_ticks (t : Z) (s : IState) : IState :=
  mkI (io s) (COUNTERS s) (HANDLERS s) t (LAPIC s) (APIC_BASE_VADDR s) (APIC_ENABLED s).

Definition emit (e : event) : M IState unit := modify (fun s => with_io (e :: io s) s).

(** The statics as the image holds them. *)
Definition boot_state : IState := mkI [] (replicate 256 0) (replicate 16 0) 0 None 0 false.

(** ** Counters *)
Module stats.

Definition record (vector : Z) : M IState unit :=
  let* s := get in
  let* c := aget (COUNTERS s) vector in
  let* l := aset (COUNTERS s) vector ((c + 1) mod W64) in
  modify (with_counters l).

Definition count (vector : Z) : M IState Z :=
  let* s := get in aget (COUNTERS s) vector.

Definition reset_all : M IState unit :=
  modify (fun s => with_counters (map (fun _ => 0) (COUNTERS s)) s).
End stats.

(** ** Registered handlers *)
Module dispatch.

(** [Ok(())] is [true]. *)
Definition register (irq handler : Z) : M IState bool :=
  let* s := get in
  let* p := aget (HANDLERS s) irq in
  if p =? 0
  then let* l := aset (HANDLERS s) irq handler in modify (with_handlers l) ;; ret true
  else ret false.

Definition unregister (irq : Z) : M IState unit :=
  let* s := get in
  let* l := aset (HANDLERS s) irq 0 in
  modify (with_handlers l).

Definition dispatch (irq : Z) : M IState unit :=
  let* s := get in
  let* ptr := aget (HANDLERS s) irq in
  if negb (ptr =? 0) then emit (Run ptr) else ret tt.
End dispatch.

(** ** Ports *)
Section devices.
(** What a byte port reads as, after a history of accesses. *)
Context (device : list event -> Z -> Z).

Definition outb (port v : Z) : M IState unit := emit (Out port v).
Definition inb (port : Z) : M IState Z :=
  let* s := get in
  emit (In port) ;; ret (device (io s) port).

(** [1 << k] on [u8]. *)
Definition ushl8 (k : Z) : M IState Z :=
  if (0 <=? k) && (k <? 8) then ret (2 ^ k) else panic.

(** ** The 8259 pair (pic.rs) *)
Definition PIC_1_OFFSET : Z := 0x20.
Definition PIC_2_OFFSET : Z := 0x28.

(** A guard that is a temporary is dropped at the end of its statement. *)
Definition pic_init : M IState unit :=
  emit PicsLock ;;
  emit PicInitialize ;;
  emit PicsUnlock ;;
  outb 0x21 0x00 ;;
  outb 0xA1 0xFF.

Definition end_of_interrupt (vector : Z) : M IState unit :=
  emit PicsLock ;;
  emit (PicEoi vector) ;;
  emit PicsUnlock.

(** [_pics] is held to the end of the function. *)
Definition mask_irq (irq : Z) : M IState unit :=
  emit PicsLock ;;
  let port := if irq <? 8 then 0x21 else 0xA1 in
  let shift := if irq <? 8 then irq else irq - 8 in
  let* current := inb port in
  let* bit := ushl8 shift in
  outb port (Z.lor current bit) ;;
  emit PicsUnlock.

Definition unmask_irq (irq : Z) : M IState unit :=
  let port := if irq <? 8 then 0x21 else 0xA1 in
  let shift := if irq <? 8 then irq else irq - 8 in
  let* current := inb port in
  let* bit := ushl8 shift in
  outb port (Z.land current (not8 bit)).

Definition read_imr : M IState Z :=
  let* master := inb 0x21 in
  let* slave := inb 0xA1 in
  ret (Z.lor master (Z.shiftl slave 8)).

Definition irq_in_service (irq : Z) : M IState bool :=
  let port_addr := if irq <? 8 then 0x20 else 0xA0 in
  let bit := if irq <? 8 then irq else irq - 8 in
  outb port_addr 0x0B ;;
  let* isr := inb port_addr in
  let* m := ushl8 bit in
  ret (negb (Z.land isr m =? 0)).

Definition eoi_if_not_spurious_master : M IState unit :=
  let* b := irq_in_service 7 in
  if b then end_of_interrupt 0x27 else ret tt.

Definition eoi_if_not_spurious_slave : M IState unit :=
  let* b := irq_in_service 15 in
  if b then end_of_interrupt 0x2F else end_of_interrupt 0x20.

(** ** The local APIC (apic.rs) *)

(** CPUID.1:EDX is an argument. *)
Definition apic_supported (edx : Z) : bool := negb (Z.land edx (2 ^ 9) =? 0).

Definition lapic_write (base offset v : Z) : M IState unit :=
  let* ptr := uadd base offset in
  emit (Mmio ptr v).

Definition lapic_init (base spurious_vector : Z) : M IState unit :=
  lapic_write base 0xF0 (Z.lor spurious_vector (2 ^ 8)).

Definition lapic_end_of_interrupt (base : Z) : M IState unit := lapic_write base 0xB0 0.

Definition send_ipi (base dest_apic_id vector : Z) : M IState unit :=
  lapic_write base 0x310 (Z.shiftl dest_apic_id 24) ;;
  lapic_write base 0x300 (Z.lor vector (2 ^ 14)).

Definition lapic_get : M IState (option Z) := gets LAPIC.

Definition init_lapic (vaddr : Z) : M IState unit :=
  let* l := gets LAPIC in
  match l with
  | Some _ => ret tt
  | None =>
      lapic_init vaddr 0xFF ;;
      modify (fun s => mkI (io s) (COUNTERS s) (HANDLERS s) (TICKS s) (Some vaddr) (APIC_BASE_VADDR s) (APIC_ENABLED s))
  end ;;
  modify (fun s => mkI (io s) (COUNTERS s) (HANDLERS s) (TICKS s) (LAPIC s) vaddr true).

Definition disable_pic : M IState unit :=
  outb 0xA1 0xFF ;;
  outb 0x21 0xFF.

(** ** Handlers (handlers.rs) *)

(** [timer::tick]. *)
Definition tick : M IState unit := modify (fun s => with_ticks ((TICKS s + 1) mod W64) s).

Definition divide_error_handler : M IState unit := stats.record EXCEPTION_DIVIDE_ERROR ;; panic.
Definition debug_handler : M IState unit := stats.record EXCEPTION_DEBUG.
Definition nmi_handler : M IState unit := stats.record EXCEPTION_NMI ;; panic.
Definition breakpoint_handler : M IState unit := stats.record EXCEPTION_BREAKPOINT.
Definition overflow_handler : M IState unit := stats.record EXCEPTION_OVERFLOW.
Definition bound_range_handler : M IState unit := stats.record EXCEPTION_BOUND_RANGE ;; panic.
Definition invalid_opcode_handler : M IState unit := stats.record EXCEPTION_INVALID_OPCODE ;; panic.
Definition device_not_available_handler : M IState unit := stats.record EXCEPTION_DEVICE_NOT_AVAIL ;; panic.
Definition double_fault_handler : M IState unit := stats.record EXCEPTION_DOUBLE_FAULT ;; panic.
Definition invalid_tss_handler : M IState unit := stats.record EXCEPTION_INVALID_TSS ;; panic.
Definition segment_not_present_handler : M IState unit := stats.record EXCEPTION_SEGMENT_NOT_PRESENT ;; panic.
Definition stack_segment_handler : M IState unit := stats.record EXCEPTION_STACK_SEGMENT ;; panic.
Definition general_protection_handler : M IState unit := stats.record EXCEPTION_GENERAL_PROTECTION ;; panic.
Definition page_fault_handler : M IState unit := stats.record EXCEPTION_PAGE_FAULT ;; panic.
Definition x87_fp_handler : M IState unit := stats.record EXCEPTION_X87_FP ;; panic.
Definition alignment_check_handler : M IState unit := stats.record EXCEPTION_ALIGNMENT_CHECK ;; panic.
Definition machine_check_handler : M IState unit := stats.record EXCEPTION_MACHINE_CHECK ;; panic.
Definition simd_fp_handler : M IState unit := stats.record EXCEPTION_SIMD_FP ;; panic.
Definition virtualization_handler : M IState unit := stats.record EXCEPTION_VIRTUALIZATION ;; panic.

Definition timer_handler : M IState unit :=
  stats.record PIC_IRQ_TIMER ;;
  tick ;;
  dispatch.dispatch 0 ;;
  end_of_interrupt PIC_IRQ_TIMER.

Definition apic_spurious_handler : M IState unit := stats.record APIC_SPURIOUS.

(** The decoded key is dropped by the source. *)
Definition keyboard_handler : M IState unit :=
  stats.record PIC_IRQ_KEYBOARD ;;
  let* scancode := inb 0x60 in
  emit (KeyByte scancode) ;;
  end_of_interrupt PIC_IRQ_KEYBOARD.

Definition spurious_master_handler : M IState unit :=
  stats.record PIC_IRQ_SPURIOUS_MASTER ;;
  eoi_if_not_spurious_master.

Definition rtc_handler : M IState unit :=
  stats.record PIC_IRQ_RTC ;;
  outb 0x70 0x0C ;;
  let* _ := inb 0x71 in
  dispatch.dispatch 8 ;;
  end_of_interrupt PIC_IRQ_RTC.

Definition mouse_handler : M IState unit :=
  stats.record PIC_IRQ_MOUSE ;;
  let* _ := inb 0x60 in
  dispatch.dispatch 12 ;;
  end_of_interrupt PIC_IRQ_MOUSE.

Definition ata_primary_handler : M IState unit :=
  stats.record PIC_IRQ_ATA_PRIMARY ;;
  dispatch.dispatch 14 ;;
  end_of_interrupt PIC_IRQ_ATA_PRIMARY.

Definition ata_secondary_handler : M IState unit :=
  stats.record PIC_IRQ_ATA_SECONDARY ;;
  eoi_if_not_spurious_slave.

(** ** The descriptor table (exceptions.rs, gdt.rs) *)
Definition DOUBLE_FAULT_IST_INDEX : Z := 0.
Definition NMI_IST_INDEX : Z := 1.
Definition MACHINE_CHECK_IST_INDEX : Z := 2.

Record gate : Type := mkGate {
  g_vector : Z;
  g_handler : M IState unit;
  g_ist : option Z
}.

(** The named fields of the table are the architecture's vector numbers. *)
Definition IDT : list gate := [
  mkGate 0 divide_error_handler None;
  mkGate 1 debug_handler None;
  mkGate 2 nmi_handler (Some NMI_IST_INDEX);
  mkGate 3 breakpoint_handler None;
  mkGate 4 overflow_handler None;
  mkGate 5 bound_range_handler None;
  mkGate 6 invalid_opcode_handler None;
  mkGate 7 device_not_available_handler None;
  mkGate 8 double_fault_handler (Some DOUBLE_FAULT_IST_INDEX);
  mkGate 10 invalid_tss_handler None;
  mkGate 11 segment_not_present_handler None;
  mkGate 12 stack_segment_handler None;
  mkGate 13 general_protection_handler None;
  mkGate 14 page_fault_handler None;
  mkGate 16 x87_fp_handler None;
  mkGate 17 alignment_check_handler None;
  mkGate 18 machine_check_handler (Some MACHINE_CHECK_IST_INDEX);
  mkGate 19 simd_fp_handler None;
  mkGate 20 virtualization_handler None;
  mkGate PIC_IRQ_TIMER timer_handler None;
  mkGate PIC_IRQ_KEYBOARD keyboard_handler None;
  mkGate PIC_IRQ_SPURIOUS_MASTER spurious_master_handler None;
  mkGate PIC_IRQ_RTC rtc_handler None;
  mkGate PIC_IRQ_MOUSE mouse_handler None;
  mkGate PIC_IRQ_ATA_PRIMARY ata_primary_handler None;
  mkGate PIC_IRQ_ATA_SECONDARY ata_secondary_handler None;
  mkGate APIC_SPURIOUS apic_spurious_handler None
].

(** What the processor finds at a vector: the installed gate. *)
Definition gate_at (v : Z) : option gate := list_find (fun g => g_vector g = v) IDT ≫= (fun p => Some p.2).

(** The handler for a vector, if the vector has a gate. *)
Definition handler_at (v : Z) : option (M IState unit) := g_handler <$> gate_at v.

(** [interrupts::init] after the table is loaded. *)
Definition interrupts_init : M IState unit := pic_init.

(** The interrupt stacks: the ends of three static arrays. *)
Definition STACK_SIZE : Z := 4096 * 5.
Definition TSS_stack_table (df nmi mc : Z) : list Z :=
  let t0 := replicate 7 0 in
  let t1 := <[Z.to_nat DOUBLE_FAULT_IST_INDEX := df + STACK_SIZE]> t0 in
  let t2 := <[Z.to_nat NMI_IST_INDEX := nmi + STACK_SIZE]> t1 in
  <[Z.to_nat MACHINE_CHECK_IST_INDEX := mc + STACK_SIZE]> t2.

(** ** Basic facts *)

Definition ok_state (s : IState) : Prop :=
  length (COUNTERS s) = 256%nat /\ length (HANDLERS s) = 16%nat /\ Forall (fun c => 0 <= c < W64) (COUNTERS s).

Lemma boot_ok : ok_state boot_state.
Proof. split_and!; [done|done|]. by apply Forall_replicate. Qed.

(** The counter of [v] goes up by one, the rest of the statics is kept. *)
Definition counted (v : Z) (s s' : IState) : Prop :=
  COUNTERS s' = alter (fun c => (c + 1) mod W64) (Z.to_nat v) (COUNTERS s) /\
  HANDLERS s' = HANDLERS s /\ LAPIC s' = LAPIC s.

Lemma wp_record v s (Q : unit -> IState -> Prop) :
  ok_state s -> 0 <= v < 256 ->
  Q tt (with_counters (alter (fun c => (c + 1) mod W64) (Z.to_nat v) (COUNTERS s)) s) ->
  wp (stats.record v) s Q.
Proof.
  intros (Hl & _) Hv HQ. unfold stats.record.
  destruct (lookup_lt_is_Some_2 (COUNTERS s) (Z.to_nat v) ltac:(lia)) as [c Hc].
  wp_steps. replace (alter (fun c => (c + 1) mod W64) (Z.to_nat v) (COUNTERS s))
    with (<[Z.to_nat v:=(c + 1) mod W64]> (COUNTERS s)) in HQ; [exact HQ|].
  apply list_eq. intros i. destruct (decide (i = Z.to_nat v)) as [->|].
  - rewrite list_lookup_alter_eq, Hc, list_lookup_insert_eq; [done|by eapply lookup_lt_Some].
  - by rewrite list_lookup_alter_ne, list_lookup_insert_ne.
Qed.
End devices.
