(* ===== verification/InterruptsSpec.v ===== *)
(** * Theorems about the interrupt handlers

    What every installed handler does (counters, calls, acknowledgements), the
    registration of handlers, the interrupt masks, and the one lock that the
    handlers share with the rest of the kernel. *)

From S2P Require Import Prelude Interrupts.

(** Acknowledgements and calls of registered functions in a piece of history. *)
Definition eois (l : list event) : list Z := omap (fun e => match e with PicEoi v => Some v | _ => None end) l.
Definition runs (l : list event) : list Z := omap (fun e => match e with Run f => Some f | _ => None end) l.

(** What happens without the controller's lock, and the acknowledgements of the
    vectors [vs] (newest first, like any history), each under the lock. *)
Definition unlocked (e : event) : Prop := e <> PicsLock /\ e <> PicsUnlock.
Definition acks (vs : list Z) : list event := concat (map (fun v => [PicsUnlock; PicEoi v; PicsLock]) vs).

(** The hardware vectors of the table. *)
Definition hardware : list Z :=
  [PIC_IRQ_TIMER; PIC_IRQ_KEYBOARD; PIC_IRQ_SPURIOUS_MASTER; PIC_IRQ_RTC; PIC_IRQ_MOUSE;
   PIC_IRQ_ATA_PRIMARY; PIC_IRQ_ATA_SECONDARY; APIC_SPURIOUS].

(** The lines whose registered function is called. *)
Definition dispatched : list Z := [0; 8; 12; 14].

Section handlers.
Context (device : list event -> Z -> Z).

(** The in-service bit of a line, as the device would report it now. *)
Definition in_service (irq : Z) (s : IState) : bool :=
  let port := if irq <? 8 then 0x20 else 0xA0 in
  Z.testbit (device (Out port 0x0B :: io s) port) (if irq <? 8 then irq else irq - 8).

Definition expected_eois (v : Z) (s : IState) : list Z :=
  if v =? APIC_SPURIOUS then []
  else if v =? PIC_IRQ_SPURIOUS_MASTER then (if in_service 7 s then [v] else [])
  else if v =? PIC_IRQ_ATA_SECONDARY then (if in_service 15 s then [v] else [PIC_1_OFFSET])
  else [v].

Definition expected_runs (v : Z) (s : IState) : list Z :=
  let irq := v - PIC_1_OFFSET in
  let f := default 0 (HANDLERS s !! Z.to_nat irq) in
  if bool_decide (irq ∈ dispatched) && negb (f =? 0) then [f] else [].

(** What delivering [v] did, in terms of the state before. *)
Definition delivered (v : Z) (s s' : IState) : Prop :=
  counted v s s' /\ TICKS s' = (if v =? PIC_IRQ_TIMER then (TICKS s + 1) mod W64 else TICKS s) /\
  exists l, io s' = acks (expected_eois v s) ++ l ++ io s /\ eois l = [] /\ Forall unlocked l /\ runs l = expected_runs v s.

Lemma wp_dispatch irq s (Q : unit -> IState -> Prop) :
  length (HANDLERS s) = 16%nat -> 0 <= irq < 16 ->
  (let f := default 0 (HANDLERS s !! Z.to_nat irq) in
   Q tt (if f =? 0 then s else with_io (Run f :: io s) s)) ->
  wp (dispatch.dispatch irq) s Q.
Proof.
  intros Hl Hi HQ. unfold dispatch.dispatch.
  destruct (lookup_lt_is_Some_2 (HANDLERS s) (Z.to_nat irq) ltac:(lia)) as [f Hf]. rewrite Hf in HQ. cbn in HQ.
  wp_steps. by destruct (f =? 0).
Qed.

Lemma land_pow2_bit x k : 0 <= k -> negb (Z.land x (2 ^ k) =? 0) = Z.testbit x k.
Proof.
  intros Hk. rewrite <- (Z.shiftl_1_l k). destruct (Z.testbit x k) eqn:E.
  - apply negb_true_iff, Z.eqb_neq. intros H0.
    assert (Z.testbit (Z.land x (Z.shiftl 1 k)) k = true) as Hb.
    { rewrite Z.land_spec, E, Z.shiftl_spec, Z.sub_diag by lia. done. }
    rewrite H0, Z.bits_0 in Hb. done.
  - apply negb_false_iff, Z.eqb_eq, Z.bits_inj'. intros i Hi. rewrite Z.land_spec, Z.bits_0, Z.shiftl_1_l.
    destruct (decide (i = k)) as [->|]; [by rewrite E|]. rewrite Z.pow2_bits_false by lia. apply andb_false_r.
Qed.

Lemma wp_in_service irq s (Q : bool -> IState -> Prop) :
  0 <= irq < 16 ->
  (let port := if irq <? 8 then 0x20 else 0xA0 in
   Q (in_service irq s) (with_io (In port :: Out port 0x0B :: io s) s)) ->
  wp (irq_in_service device irq) s Q.
Proof.
  intros Hi HQ. unfold irq_in_service, outb, inb, emit, ushl8, in_service in *. cbv zeta in *. wp_steps.
  destruct (Z.ltb_spec irq 8);
    (rewrite (proj2 (Z.leb_le 0 _)), (proj2 (Z.ltb_lt _ 8)) by lia); simpl; wp_steps; rewrite land_pow2_bit by lia; exact HQ.
Qed.

Ltac handler_steps :=
  repeat first [wp_step | progress unfold outb, inb, emit, tick, end_of_interrupt].

(** The first thing a handler does is count itself. *)
Lemma wp_recorded v s (c : M IState unit) (Q : unit -> IState -> Prop) :
  ok_state s -> 0 <= v < 256 ->
  wp c (with_counters (alter (fun c => (c + 1) mod W64) (Z.to_nat v) (COUNTERS s)) s) Q ->
  wp (stats.record v ;; c) s Q.
Proof. intros Hok Hv HQ. by apply wp_bind, wp_record. Qed.

(** The history of a handler before its acknowledgement. *)
Ltac history l ack :=
  split; [split_and!; reflexivity|split; [reflexivity|exists l; split; [ack|]]];
  split; [reflexivity|split; [repeat constructor; done|try reflexivity]].
Ltac spurious E := unfold expected_eois; cbn -[in_service]; rewrite E; reflexivity.

(** A call of the registered function [f], if there is one, after [l]. *)
Ltac dispatching l :=
  apply wp_dispatch; [done|done|]; cbv zeta; handler_steps;
  cbn [HANDLERS with_counters with_ticks with_io io];
  set (f := default 0 _); destruct (f =? 0) eqn:Ef;
  [history l ltac:(reflexivity)|history (Run f :: l) ltac:(reflexivity)];
  unfold expected_runs; change (default 0 _) with f; by rewrite Ef.

Lemma wp_hardware v s :
  ok_state s -> v ∈ hardware ->
  exists h, handler_at device v = Some h /\ wp h s (fun _ s' => delivered v s s').
Proof.
  intros Hok Hv. pose proof Hok as (_ & Hl & _).
  repeat (apply elem_of_cons in Hv as [->|Hv]); [..|by apply elem_of_nil in Hv];
    eexists; (split; [reflexivity|]); cbv beta delta [g_handler]; cbv iota.
  - unfold timer_handler. apply wp_recorded; [done|done|]. handler_steps.
    dispatching (@nil event).
  - unfold keyboard_handler. apply wp_recorded; [done|done|]. handler_steps.
    history [KeyByte (device (io s) 96); In 96] ltac:(reflexivity).
  - unfold spurious_master_handler, eoi_if_not_spurious_master. apply wp_recorded; [done|done|].
    apply wp_bind, wp_in_service; [done|]. cbv zeta. change (in_service 7 (with_counters _ s)) with (in_service 7 s).
    destruct (in_service 7 s) eqn:E; handler_steps; history [In 32; Out 32 11] ltac:(spurious E).
  - unfold rtc_handler. apply wp_recorded; [done|done|]. handler_steps.
    dispatching [In 113; Out 112 12].
  - unfold mouse_handler. apply wp_recorded; [done|done|]. handler_steps.
    dispatching [In 96].
  - unfold ata_primary_handler. apply wp_recorded; [done|done|]. handler_steps.
    dispatching (@nil event).
  - unfold ata_secondary_handler, eoi_if_not_spurious_slave. apply wp_recorded; [done|done|].
    apply wp_bind, wp_in_service; [done|]. cbv zeta. change (in_service 15 (with_counters _ s)) with (in_service 15 s).
    destruct (in_service 15 s) eqn:E; handler_steps; history [In 160; Out 160 11] ltac:(spurious E).
  - unfold apic_spurious_handler. apply wp_record; [done|done|]. history (@nil event) ltac:(reflexivity).
Qed.

(** C33: each hardware vector of the descriptor table has a handler; delivering
    it counts exactly that vector, advances the clock exactly for the timer,
    and ends, under the controller's lock, with the acknowledgement the
    controller expects: none for a spurious interrupt, the master's only for a
    spurious one of the slave.  Before that it takes no lock.  The function
    registered for the line is called once if the line is 0, 8, 12 or 14
    ([dispatched]); functions registered for any other line are never called,
    although [register] takes them, those of the keyboard (1), of the master's
    line 7 and of the slave's line 15 included. *)
Theorem irq_handlers_correct v s :
  ok_state s -> v ∈ hardware ->
  exists h s', handler_at device v = Some h /\ h s = Ok (tt, s') /\ delivered v s s'.
Proof.
  intros Hok Hv. destruct (wp_hardware v s Hok Hv) as (h & Hh & Hw).
  apply wp_run in Hw as ([] & s' & Hrun & Hd). by exists h, s'.
Qed.

Lemma record_panics v s : ok_state s -> 0 <= v < 256 -> (stats.record v ;; (panic : M IState unit)) s = Panic.
Proof. intros Hok Hv. by apply panic_bind, wp_record. Qed.

Lemma record_returns v s : ok_state s -> 0 <= v < 256 ->
  exists s', stats.record v s = Ok (tt, s') /\ counted v s s' /\ io s' = io s.
Proof.
  intros Hok Hv. assert (wp (stats.record v) s (fun _ s' => counted v s s' /\ io s' = io s)) as Hw by by apply wp_record.
  apply wp_run in Hw as ([] & s' & Hrun & Hs). by exists s'.
Qed.

(** Of the exceptions, exactly debug, breakpoint and overflow return, after
    counting themselves; the others that have a gate panic.  Vectors 9, 15 and
    21 to 31 have none.  The three exceptions with a stack of their own use
    different entries of the stack table, the ends of different arrays. *)
Theorem exception_handlers v s :
  ok_state s -> 0 <= v < 32 ->
  match handler_at device v with
  | Some h => if bool_decide (v ∈ [1; 3; 4]) then exists s', h s = Ok (tt, s') /\ counted v s s' /\ io s' = io s
              else h s = Panic
  | None => v = 9 \/ v = 15 \/ 21 <= v
  end /\
  forall df nmi mc, let stacks := TSS_stack_table df nmi mc in
    forall g, gate_at device v = Some g ->
    g_ist g ≫= (fun i => stacks !! Z.to_nat i) =
      if v =? 2 then Some (nmi + STACK_SIZE) else if v =? 8 then Some (df + STACK_SIZE)
      else if v =? 18 then Some (mc + STACK_SIZE) else None.
Proof.
  intros Hok Hv. apply (elem_of_seqZ 0 32) in Hv.
  let l := eval vm_compute in (seqZ 0 32) in change (v ∈ l) in Hv.
  repeat (apply elem_of_cons in Hv as [->|Hv]); [..|by apply elem_of_nil in Hv];
    (split; [|intros df nmi mc; cbv zeta; intros g [= <-]; reflexivity]);
    first [by apply record_panics|by apply record_returns|simpl; lia].
Qed.
End handlers.

(** ** Registration *)

(** The line [irq] of the table. *)
Definition slot (irq : Z) (s : IState) : Z := default 0 (HANDLERS s !! Z.to_nat irq).

Lemma run_dispatch irq s :
  length (HANDLERS s) = 16%nat -> 0 <= irq < 16 ->
  dispatch.dispatch irq s = Ok (tt, if slot irq s =? 0 then s else with_io (Run (slot irq s) :: io s) s).
Proof.
  intros Hl Hi. assert (wp (dispatch.dispatch irq) s (fun _ s' => s' = if slot irq s =? 0 then s else with_io (Run (slot irq s) :: io s) s)) as Hw
    by by apply wp_dispatch.
  by apply wp_run in Hw as ([] & s' & -> & ->).
Qed.

Lemma run_unregister irq s :
  length (HANDLERS s) = 16%nat -> 0 <= irq < 16 ->
  dispatch.unregister irq s = Ok (tt, with_handlers (<[Z.to_nat irq := 0]> (HANDLERS s)) s).
Proof.
  intros Hl Hi. unfold dispatch.unregister, bind, get, aset.
  by rewrite (proj2 (Z.leb_le 0 irq)), (proj2 (Z.ltb_lt irq _)) by lia.
Qed.

Lemma run_register irq f s :
  length (HANDLERS s) = 16%nat -> 0 <= irq < 16 ->
  dispatch.register irq f s =
    Ok (slot irq s =? 0, if slot irq s =? 0 then with_handlers (<[Z.to_nat irq := f]> (HANDLERS s)) s else s).
Proof.
  intros Hl Hi. destruct (lookup_lt_is_Some_2 (HANDLERS s) (Z.to_nat irq) ltac:(lia)) as [p Hp].
  unfold dispatch.register, slot, bind, get, aget, aset, expect, modify, ret. rewrite Hp. simpl.
  rewrite (proj2 (Z.leb_le 0 irq)), (proj2 (Z.ltb_lt irq _)) by lia. simpl. by destruct (p =? 0).
Qed.

Lemma slot_insert irq f s : length (HANDLERS s) = 16%nat -> 0 <= irq < 16 ->
  slot irq (with_handlers (<[Z.to_nat irq := f]> (HANDLERS s)) s) = f.
Proof. intros Hl Hi. unfold slot. cbn [HANDLERS with_handlers]. by rewrite list_lookup_insert_eq by lia. Qed.

(** C35: a line holds at most one function.  Registering on a free line makes
    [dispatch] of that line call the function exactly once; registering on a
    taken line is refused and changes nothing; after [unregister] nothing is
    called and the line can be registered again; other lines are untouched;
    a line number of 16 or more panics in all three operations. *)
Theorem dispatch_roundtrip irq f s :
  ok_state s -> 0 <= irq -> 0 < f ->
  (irq < 16 -> exists s1 s2 s3,
    dispatch.register irq f s = Ok (slot irq s =? 0, s1) /\
    slot irq s1 = (if slot irq s =? 0 then f else slot irq s) /\ (slot irq s <> 0 -> s1 = s) /\
    (forall j, 0 <= j < 16 -> j <> irq -> slot j s1 = slot j s) /\
    (slot irq s1 <> 0 -> dispatch.dispatch irq s1 = Ok (tt, with_io (Run (slot irq s1) :: io s1) s1)) /\
    dispatch.unregister irq s1 = Ok (tt, s2) /\ dispatch.dispatch irq s2 = Ok (tt, s2) /\
    dispatch.register irq f s2 = Ok (true, s3) /\ slot irq s3 = f) /\
  (16 <= irq -> dispatch.register irq f s = Panic /\ dispatch.unregister irq s = Panic /\ dispatch.dispatch irq s = Panic).
Proof.
  intros (_ & Hl & _) Hi Hf. split.
  - intros Hlt. assert (0 <= irq < 16) as Hr by lia. set (s1 := if slot irq s =? 0 then with_handlers (<[Z.to_nat irq := f]> (HANDLERS s)) s else s).
    assert (length (HANDLERS s1) = 16%nat) as Hl1.
    { unfold s1. destruct (_ =? 0); [|done]. cbn [HANDLERS with_handlers]. by rewrite length_insert. }
    set (s2 := with_handlers (<[Z.to_nat irq := 0]> (HANDLERS s1)) s1).
    assert (length (HANDLERS s2) = 16%nat) as Hl2 by (unfold s2; cbn [HANDLERS with_handlers]; by rewrite length_insert).
    assert (slot irq s2 = 0) as Hs2 by by apply slot_insert.
    exists s1, s2, (with_handlers (<[Z.to_nat irq := f]> (HANDLERS s2)) s2).
    rewrite !run_register, run_unregister, !run_dispatch, Hs2, slot_insert by done.
    split_and!; try done.
    + unfold s1. destruct (Z.eqb_spec (slot irq s) 0); [by apply slot_insert|done].
    + intros Hne. unfold s1. by rewrite (proj2 (Z.eqb_neq _ _)).
    + intros j Hj Hne. unfold s1. destruct (_ =? 0); [|done]. unfold slot. cbn [HANDLERS with_handlers].
      by rewrite list_lookup_insert_ne by lia.
    + intros Hne. by rewrite (proj2 (Z.eqb_neq _ 0)).
  - intros Hge. unfold dispatch.register, dispatch.unregister, dispatch.dispatch.
    assert (forall A (k : Z -> M IState A), bind (aget (HANDLERS s) irq) k s = Panic) as Hg
      by (intros; apply panic_here, panic_aget; lia).
    split_and!; unfold bind at 1, get; cbv beta iota; [apply Hg| |apply Hg].
    unfold aset. rewrite (proj2 (Z.ltb_ge irq _)) by lia. by rewrite andb_false_r.
Qed.

Lemma dispatch_roundtrip_witness :
  exists s1 s2, dispatch.register 3 77 boot_state = Ok (true, s1) /\ dispatch.dispatch 3 s1 = Ok (tt, s2) /\ io s2 = [Run 77].
Proof.
  destruct (dispatch_roundtrip 3 77 boot_state boot_ok ltac:(lia) ltac:(lia)) as [H _].
  destruct (H ltac:(lia)) as (s1 & s2 & s3 & Hr & Hsl & _ & _ & Hd & _). exists s1, (with_io (Run (slot 3 s1) :: io s1) s1).
  assert (slot 3 s1 = 77) as E by by rewrite Hsl. split; [exact Hr|]. split; [apply Hd; by rewrite E|].
  cbn [io with_io]. rewrite E. vm_compute in Hr. injection Hr as <-. done.
Defined.

(** ** Masks *)

(** The data port of a line's controller and the line's bit there. *)
Definition data_port (irq : Z) : Z := if irq <? 8 then 0x21 else 0xA1.
Definition line_bit (irq : Z) : Z := if irq <? 8 then irq else irq - 8.

Lemma line_bit_range irq : 0 <= irq < 16 -> 0 <= line_bit irq < 8.
Proof. unfold line_bit. destruct (Z.ltb_spec irq 8); lia. Qed.

Lemma run_ushl8 k (s : IState) : 0 <= k < 8 -> ushl8 k s = Ok (2 ^ k, s).
Proof. intros Hk. unfold ushl8. by rewrite (proj2 (Z.leb_le 0 k)), (proj2 (Z.ltb_lt k 8)) by lia. Qed.

Lemma run_mask_irq device irq s : 0 <= irq < 16 -> let p := data_port irq in
  mask_irq device irq s = Ok (tt, with_io (PicsUnlock :: Out p (Z.lor (device (PicsLock :: io s) p) (2 ^ line_bit irq))
    :: In p :: PicsLock :: io s) s).
Proof.
  intros Hi p. unfold mask_irq, inb, emit, outb. fold (data_port irq) (line_bit irq). fold p.
  unfold bind, get, modify, ret. cbn [io with_io]. by rewrite run_ushl8 by by apply line_bit_range.
Qed.

Lemma run_unmask_irq device irq s : 0 <= irq < 16 -> let p := data_port irq in
  unmask_irq device irq s = Ok (tt, with_io (Out p (Z.land (device (io s) p) (not8 (2 ^ line_bit irq))) :: In p :: io s) s).
Proof.
  intros Hi p. unfold unmask_irq, inb, emit, outb. fold (data_port irq) (line_bit irq). fold p.
  unfold bind, get, modify, ret. cbn [io with_io]. by rewrite run_ushl8 by by apply line_bit_range.
Qed.

(** The data ports of the 8259 pair: they read back the mask last written. *)
Definition imr_port (p : Z) : Prop := p = 0x21 \/ p = 0xA1.

Class ImrPorts (device : list event -> Z -> Z) : Prop := {
  imr_written tr p v : imr_port p -> 0 <= v < 256 -> device (Out p v :: tr) p = v;
  imr_kept tr e p : imr_port p -> (forall v, e <> Out p v) -> e <> PicInitialize -> device (e :: tr) p = device tr p;
  imr_byte tr p : imr_port p -> 0 <= device tr p < 256
}.

Section masks.
Context (device : list event -> Z -> Z) `{!ImrPorts device}.

(** The two mask registers as [read_imr] combines them. *)
Definition imr (s : IState) : Z := Z.lor (device (io s) 0x21) (Z.shiftl (device (io s) 0xA1) 8).

Lemma imr_low : imr_port 0x21.
Proof. by left. Qed.
Lemma imr_high : imr_port 0xA1.
Proof. by right. Qed.
Hint Resolve imr_low imr_high : core.

Lemma imr_bit s j : 0 <= j < 16 ->
  Z.testbit (imr s) j = if j <? 8 then Z.testbit (device (io s) 0x21) j else Z.testbit (device (io s) 0xA1) (j - 8).
Proof.
  intros Hj. unfold imr. rewrite Z.lor_spec, Z.shiftl_spec by lia. destruct (Z.ltb_spec j 8).
  - rewrite (Z.testbit_neg_r _ (j - 8)) by lia. by rewrite orb_false_r.
  - pose proof (imr_byte (io s) 0x21 imr_low). by rewrite (testbit_above _ 8 j) by lia.
Qed.

Lemma run_read_imr s : exists s', read_imr device s = Ok (imr s, s') /\ imr s' = imr s.
Proof.
  eexists. split.
  - unfold read_imr, inb, emit, bind, get, modify, ret. cbn [io with_io].
    rewrite (imr_kept (io s) (In 33) 0xA1) by (done || auto). reflexivity.
  - unfold imr. cbn [io with_io]. rewrite !imr_kept by (done || auto). done.
Qed.

(** The mask register of the line's chip is replaced by [f old]. *)
Definition remasked (irq : Z) (b : bool) (s s' : IState) : Prop :=
  forall j, 0 <= j < 16 -> Z.testbit (imr s') j = if j =? irq then b else Z.testbit (imr s) j.

Lemma byte_lor a k : 0 <= a < 256 -> 0 <= k < 8 -> 0 <= Z.lor a (2 ^ k) < 256.
Proof.
  intros Ha Hk. split; [apply Z.lor_nonneg; split; [lia|apply Z.pow_nonneg; lia]|].
  apply (Z.log2_lt_cancel _ 256). change (Z.log2 256) with 8.
  rewrite Z.log2_lor by (try apply Z.pow_nonneg; lia). rewrite Z.log2_pow2 by lia.
  apply Z.max_lub_lt; [|lia]. destruct (decide (a = 0)) as [->|]; [simpl; lia|]. apply Z.log2_lt_pow2; lia.
Qed.

Lemma byte_clear a b : 0 <= a < 256 -> 0 <= b -> 0 <= Z.land a (not8 b) < 256.
Proof.
  intros Ha Hb. assert (0 <= not8 b) by (unfold not8; apply Z.lxor_nonneg; lia).
  split; [apply Z.land_nonneg; lia|].
  destruct (decide (Z.land a (not8 b) = 0)) as [->|]; [lia|]. apply (Z.log2_lt_cancel _ 256). change (Z.log2 256) with 8.
  destruct (decide (a = 0)) as [->|]; [by rewrite Z.land_0_l|].
  pose proof (Z.log2_land a (not8 b) ltac:(lia) ltac:(lia)). pose proof (proj1 (Z.log2_lt_pow2 a 8 ltac:(lia)) ltac:(lia)). lia.
Qed.

Lemma bit_set a k j : 0 <= k -> 0 <= j -> Z.testbit (Z.lor a (2 ^ k)) j = if j =? k then true else Z.testbit a j.
Proof.
  intros Hk Hj. rewrite Z.lor_spec, Z.pow2_bits_eqb by lia. rewrite (Z.eqb_sym k j).
  destruct (j =? k); [apply orb_true_r|apply orb_false_r].
Qed.

Lemma bit_clear a k j : 0 <= k < 8 -> 0 <= j < 8 ->
  Z.testbit (Z.land a (not8 (2 ^ k))) j = if j =? k then false else Z.testbit a j.
Proof.
  intros Hk Hj. unfold not8. rewrite Z.land_spec, Z.lxor_spec, Z.pow2_bits_eqb by lia.
  change 255 with (Z.ones 8). rewrite Z.ones_spec_low, (Z.eqb_sym k j) by lia.
  destruct (j =? k); [apply andb_false_r|apply andb_true_r].
Qed.

Lemma imr_quiet e tr s : (forall p v, e <> Out p v) -> e <> PicInitialize -> imr (with_io (e :: tr) s) = imr (with_io tr s).
Proof. intros H1 H2. unfold imr. cbn [io with_io]. by rewrite !imr_kept by auto. Qed.

Lemma remask irq (b : bool) (f : Z -> Z) s :
  0 <= irq < 16 ->
  (forall a, 0 <= a < 256 -> 0 <= f a < 256) ->
  (forall a j, 0 <= j < 8 -> Z.testbit (f a) j = if j =? line_bit irq then b else Z.testbit a j) ->
  remasked irq b s (with_io (Out (data_port irq) (f (device (io s) (data_port irq))) :: In (data_port irq) :: io s) s).
Proof.
  intros Hi Hf Hbits j Hj. rewrite !imr_bit by done. unfold data_port, line_bit in *. cbn [io with_io].
  pose proof (imr_byte (io s) 0x21 imr_low). pose proof (imr_byte (io s) 0xA1 imr_high).
  destruct (Z.ltb_spec irq 8), (Z.ltb_spec j 8).
  - rewrite imr_written by auto. by apply Hbits; lia.
  - rewrite !imr_kept by (done || auto). by rewrite (proj2 (Z.eqb_neq j irq)) by lia.
  - rewrite !imr_kept by (done || auto). by rewrite (proj2 (Z.eqb_neq j irq)) by lia.
  - rewrite imr_written by auto. rewrite Hbits by lia.
    destruct (Z.eqb_spec j irq), (Z.eqb_spec (j - 8) (irq - 8)); (lia || done).
Qed.

(** [mask_irq] sets exactly the line's bit of the masks that [read_imr]
    reads and [unmask_irq] clears exactly it, for all sixteen lines; a line
    number of 16 or more panics. *)
Theorem irq_masks irq s :
  0 <= irq ->
  (irq < 16 ->
     (exists s1, mask_irq device irq s = Ok (tt, s1) /\ remasked irq true s s1) /\
     (exists s1, unmask_irq device irq s = Ok (tt, s1) /\ remasked irq false s s1) /\
     (exists s1, read_imr device s = Ok (imr s, s1) /\ imr s1 = imr s)) /\
  (16 <= irq -> mask_irq device irq s = Panic /\ unmask_irq device irq s = Panic).
Proof.
  intros Hi. split; intros Hr.
  - pose proof (line_bit_range irq ltac:(lia)) as Hk. pose proof (Z.pow_nonneg 2 (line_bit irq) ltac:(lia)) as Hp.
    split; [|split; [|apply run_read_imr]].
    + eexists. split; [apply run_mask_irq; lia|]. intros j Hj. rewrite imr_quiet by done.
      assert (imr s = imr (with_io (PicsLock :: io s) s)) as -> by by (rewrite imr_quiet; [destruct s|..]).
      apply (remask irq true (fun a => Z.lor a (2 ^ line_bit irq)) (with_io (PicsLock :: io s) s)); [lia| | |done].
      * intros a Ha. by apply byte_lor.
      * intros a i Hi'. by apply bit_set; lia.
    + eexists. split; [apply run_unmask_irq; lia|].
      apply (remask irq false (fun a => Z.land a (not8 (2 ^ line_bit irq)))); [lia| |].
      * intros a Ha. by apply byte_clear.
      * intros a j Hj. by apply bit_clear.
  - unfold mask_irq, unmask_irq. rewrite (proj2 (Z.ltb_ge irq 8)) by lia.
    assert (forall (k : Z -> M IState unit) s, bind (ushl8 (irq - 8)) k s = Panic) as Hg.
    { intros k s'. apply panic_here. unfold ushl8. rewrite (proj2 (Z.ltb_ge (irq - 8) 8)) by lia. by rewrite andb_false_r. }
    split; apply Hg.
Qed.

Lemma has_gate v (P Q R T : Prop) :
  ((P /\ gate_at device v <> None <-> Q) /\ (R /\ gate_at device v = None <-> T)) <->
  (let b := match gate_at device v with Some _ => true | None => false end in
   (P /\ b = true <-> Q) /\ (R /\ b = false <-> T)).
Proof. cbv zeta. destruct (gate_at device v); intuition congruence. Qed.

(** After [interrupts::init] the lines of the second controller are
    masked, among them four that have a handler (RTC, mouse, both ATA lines);
    all lines of the first are open, and five of those have no gate in the
    descriptor table, so that an interrupt on them faults. *)
Theorem init_masks s :
  exists s', interrupts_init s = Ok (tt, s') /\
  forall irq, 0 <= irq < 16 ->
    (Z.testbit (imr s') irq = true /\ gate_at device (PIC_1_OFFSET + irq) <> None <-> irq ∈ [8; 12; 14; 15]) /\
    (Z.testbit (imr s') irq = false /\ gate_at device (PIC_1_OFFSET + irq) = None <-> irq ∈ [2; 3; 4; 5; 6]).
Proof.
  eexists. split; [reflexivity|]. intros irq Hi.
  rewrite imr_bit by done. cbn [io with_io].
  rewrite (imr_kept _ (Out 161 255) 33), (imr_written _ 33), (imr_written _ 161) by (done || auto).
  rewrite <- (bool_decide_eq_true (irq ∈ [8; 12; 14; 15])), <- (bool_decide_eq_true (irq ∈ [2; 3; 4; 5; 6])).
  apply (elem_of_seqZ 0 16) in Hi. let l := eval vm_compute in (seqZ 0 16) in change (irq ∈ l) in Hi.
  repeat (apply elem_of_cons in Hi as [->|Hi]); [..|by apply elem_of_nil in Hi];
    rewrite has_gate; vm_compute; intuition congruence.
Qed.
End masks.

(** ** A concrete controller *)

(** Every port reads back the byte last written to it. *)
Fixpoint last_written (tr : list event) (p : Z) : Z :=
  match tr with
  | [] => 0
  | Out q v :: tr' => if (q =? p) && (0 <=? v) && (v <? 256) then v else last_written tr' p
  | _ :: tr' => last_written tr' p
  end.

#[export] Instance last_written_imr : ImrPorts last_written.
Proof.
  split.
  - intros tr p v _ Hv. simpl. by rewrite Z.eqb_refl, (proj2 (Z.leb_le 0 v)), (proj2 (Z.ltb_lt v 256)) by lia.
  - intros tr [q v| | | | | | | |] p _ Hne _; try done. simpl.
    destruct (Z.eqb_spec q p) as [->|]; [by destruct (Hne v)|done].
  - intros tr p _. induction tr as [|[q v| | | | | | | |] tr IH]; simpl; try lia.
    destruct (q =? p), (Z.leb_spec 0 v), (Z.ltb_spec v 256); simpl; lia.
Qed.

Lemma irq_handlers_correct_witness :
  exists s', timer_handler boot_state = Ok (tt, s') /\ TICKS s' = 1 /\ COUNTERS s' !! 32%nat = Some 1.
Proof.
  destruct (irq_handlers_correct last_written PIC_IRQ_TIMER boot_state boot_ok ltac:(unfold hardware; set_solver))
    as (h & s' & Hh & Hrun & (Hc & _) & Ht & _).
  change (Some timer_handler = Some h) in Hh. injection Hh as <-. exists s'. split; [exact Hrun|]. split; [by rewrite Ht|]. by rewrite Hc.
Defined.

Lemma exception_handlers_witness : divide_error_handler boot_state = Panic.
Proof. exact (proj1 (exception_handlers last_written 0 boot_state boot_ok ltac:(lia))). Defined.

Lemma irq_masks_witness :
  exists s1, mask_irq last_written 4 boot_state = Ok (tt, s1) /\ Z.testbit (imr last_written s1) 4 = true.
Proof.
  destruct (irq_masks last_written 4 boot_state ltac:(lia)) as [H _].
  destruct (H ltac:(lia)) as ((s1 & Hrun & Hm) & _). exists s1. split; [exact Hrun|].
  rewrite (Hm 4) by lia. done.
Defined.

Lemma init_masks_witness : exists s', interrupts_init boot_state = Ok (tt, s') /\ Z.testbit (imr last_written s') 4 = false.
Proof.
  destruct (init_masks last_written boot_state) as (s' & Hrun & H). exists s'. split; [exact Hrun|].
  apply (H 4 ltac:(lia)). set_solver.
Defined.

(** ** The lock of the controller

    Handlers run with interrupts disabled, but the code they interrupt may
    hold [PICS].  A thread is the list of what it still has to do: the history
    that a function has when nothing interrupts it, oldest first. *)
Module Locking.

Inductive action : Type :=
| Ev (e : event)
| Iret.

(** The history that [c] adds to [s]. *)
Definition history (c : M IState unit) (s : IState) : list event :=
  match c s with
  | Ok (_, s') => rev (take (length (io s') - length (io s)) (io s'))
  | _ => []
  end.
Definition thread (c : M IState unit) (s : IState) : list action := map Ev (history c s).

Record cpu : Type := mkCpu {
  held : bool;               (* the lock *)
  IF : bool;                 (* interrupts enabled *)
  main : list action;
  isr : option (list action) (* the handler that runs on top of [main] *)
}.

(** One action of a thread; a thread that finds the lock held spins, which is
    a step that changes nothing. *)
Definition act (l : bool) (p : list action) : option (bool * list action) :=
  match p with
  | [] => None
  | Ev PicsLock :: p' => if l then Some (l, p) else Some (true, p')
  | Ev PicsUnlock :: p' => Some (false, p')
  | _ :: p' => Some (l, p')
  end.

Section threads.
Context (device : list event -> Z -> Z).

(** A hardware interrupt runs its vector's handler, whatever the statics and
    the devices hold at that moment, and returns. *)
Inductive step : cpu -> cpu -> Prop :=
| step_main l i p l' p' : act l p = Some (l', p') -> step (mkCpu l i p None) (mkCpu l' i p' None)
| step_isr l p h l' h' : act l h = Some (l', h') -> step (mkCpu l false p (Some h)) (mkCpu l' false p (Some h'))
| step_return l p : step (mkCpu l false p (Some [])) (mkCpu l true p None)
| step_irq l p v h s : v ∈ hardware -> handler_at device v = Some h -> ok_state s ->
    step (mkCpu l true p None) (mkCpu l false p (Some (thread h s ++ [Iret]))).

Definition start (i : bool) (p : list action) : cpu := mkCpu false i p None.
Definition finished (c : cpu) : Prop := main c = [] /\ isr c = None.

(** A deadlock: nothing but spinning is possible. *)
Definition stuck_spinning (c : cpu) : Prop := forall c', rtc step c c' -> c' = c.

Lemma spin p h : stuck_spinning (mkCpu true false p (Some (Ev PicsLock :: h))).
Proof.
  intros c' H. remember (mkCpu true false p (Some (Ev PicsLock :: h))) as c eqn:E. induction H as [|c c1 c2 Hs _ IH]; [done|].
  subst c. inversion Hs as [| ? ? ? ? ? Ha| |]; subst. injection Ha as <- <-. by apply IH.
Qed.

Lemma thread_of c s l s' : c s = Ok (tt, s') -> io s' = l ++ io s -> thread c s = map Ev (rev l).
Proof.
  intros Hc Hl. unfold thread, history. rewrite Hc, Hl, length_app, Nat.add_sub. by rewrite take_app_length.
Qed.

(** A thread that ends when nobody else holds the lock; [l]: it holds it. *)
Inductive ends : bool -> list action -> Prop :=
| ends_nil : ends false []
| ends_quiet l e p : unlocked e -> ends l p -> ends l (Ev e :: p)
| ends_lock p : ends true p -> ends false (Ev PicsLock :: p)
| ends_unlock p : ends false p -> ends true (Ev PicsUnlock :: p)
| ends_iret l p : ends l p -> ends l (Iret :: p).

Lemma ends_act l p : ends l p -> p = [] /\ l = false \/ exists a p' l', p = a :: p' /\ act l p = Some (l', p') /\ ends l' p'.
Proof.
  intros [|l' e p' [H1 H2] Hp|p' Hp|p' Hp|l' p' Hp]; [by left|right..]; eexists _, _, _; (split; [done|split; [|exact Hp]]); try done.
  by destruct e.
Qed.

Lemma ends_app l q : Forall unlocked l -> ends false q -> ends false (map Ev l ++ q).
Proof. intros Hl Hq. induction Hl; [done|]. by constructor. Qed.

Lemma ends_acks vs q : ends false q -> ends false (map Ev (rev (acks vs)) ++ q).
Proof.
  intros Hq. unfold acks. revert q Hq. induction vs as [|v vs IH]; intros q Hq; [done|]. cbn [map concat].
  rewrite rev_app_distr, map_app, <- app_assoc. apply IH. cbn. by repeat constructor.
Qed.

(** Every handler does. *)
Lemma handler_ends v h s : v ∈ hardware -> handler_at device v = Some h -> ok_state s -> ends false (thread h s ++ [Iret]).
Proof.
  intros Hv Hh Hok. destruct (wp_hardware device v s Hok Hv) as (h' & Hh' & Hw). rewrite Hh in Hh'. injection Hh' as <-.
  apply wp_run in Hw as ([] & s' & Hrun & _ & _ & l & Hl & _ & Hq & _). rewrite app_assoc in Hl.
  rewrite (thread_of _ _ _ _ Hrun Hl), rev_app_distr, map_app, <- app_assoc. apply ends_app.
  - by apply Forall_rev.
  - apply ends_acks. repeat constructor.
Qed.

(** What a thread that takes no lock reaches. *)
Inductive lock_free : cpu -> Prop :=
| lf_main p : Forall unlocked p -> lock_free (mkCpu false true (map Ev p) None)
| lf_isr l p h : Forall unlocked p -> ends l h -> lock_free (mkCpu l false (map Ev p) (Some h)).

Lemma lock_free_step c c' : step c c' -> lock_free c -> lock_free c'.
Proof.
  intros Hs Hf. destruct Hf as [p Hp|l p h Hp He].
  - inversion Hs as [? ? ? l' p' Ha| | |? ? v h s]; subst; [|constructor; [done|by eapply handler_ends]].
    destruct Hp as [|e p [H1 H2] Hp]; [done|]. assert (act false (map Ev (e :: p)) = Some (false, map Ev p)) as E by (by destruct e).
    rewrite E in Ha. injection Ha as <- <-. by constructor.
  - inversion Hs as [|? ? ? l' h' Ha| |]; subst.
    + apply ends_act in He as [[-> ->]|(a & p' & l2 & -> & E & He)]; [done|]. rewrite E in Ha. injection Ha as <- <-. by constructor.
    + inversion He; subst. by constructor.
Qed.

Lemma lock_free_finish c : lock_free c -> exists c', rtc step c c' /\ finished c'.
Proof.
  assert (forall p, Forall unlocked p -> exists c', rtc step (mkCpu false true (map Ev p) None) c' /\ finished c') as Hm.
  { intros p Hp. induction Hp as [|e p [H1 H2] Hp (c' & Hc & Hf)]; [by exists (mkCpu false true [] None)|].
    exists c'. split; [|done]. eapply rtc_l; [|exact Hc]. apply step_main. by destruct e. }
  intros [p Hp|l p h Hp He]; [by apply Hm|]. destruct (Hm p Hp) as (c' & Hc & Hf). exists c'. split; [|done].
  revert l He. induction h as [|a h IH]; intros l He.
  - inversion He; subst. eapply rtc_l; [apply step_return|exact Hc].
  - apply ends_act in He as [[? _]|(a' & h' & l' & [= <- <-] & E & He)]; [done|]. eapply rtc_l; [by apply step_isr|by apply IH].
Qed.

(** With interrupts disabled only [main] moves, one action at a time. *)
Lemma disabled_step n l p c :
  nsteps step (S n) (mkCpu l false p None) c ->
  match act l p with Some (l', p') => nsteps step n (mkCpu l' false p' None) c | None => False end.
Proof. intros H. inversion H as [|? ? c1 ? Hs Hn]; subst. inversion Hs as [? ? ? ? ? Ha| | |]; subst. by rewrite Ha. Qed.

(** C36: [mask_irq] called with interrupts enabled can deadlock: if a handler
    starts between its taking and its releasing the lock, the handler's
    [end_of_interrupt] waits for the lock that the interrupted code holds,
    forever.  Called with interrupts disabled it ends after its four actions,
    and [unmask_irq], which takes no lock, can finish from every state it
    reaches, whatever handlers interrupt it. *)
Theorem mask_irq_deadlock irq s :
  0 <= irq < 16 ->
  let mask := thread (mask_irq device irq) s in
  let unmask := thread (unmask_irq device irq) s in
  (exists s1, mask_irq device irq s = Ok (tt, s1)) /\ (exists s2, unmask_irq device irq s = Ok (tt, s2)) /\
  (exists c, rtc step (start true mask) c /\ stuck_spinning c /\ ~ finished c) /\
  (forall n c, nsteps step n (start false mask) c -> (n <= 4)%nat /\ (n = 4%nat -> finished c)) /\
  (forall c, rtc step (start true unmask) c -> exists c', rtc step c c' /\ finished c').
Proof.
  intros Hi mask unmask. pose proof (run_mask_irq device irq s Hi) as Hm. pose proof (run_unmask_irq device irq s Hi) as Hu.
  cbv zeta in Hm, Hu. set (port := data_port irq) in *. set (a := Z.lor _ _) in Hm. set (b := Z.land _ _) in Hu.
  assert (mask = map Ev [PicsLock; In port; Out port a; PicsUnlock]) as Em
    by exact (thread_of _ _ [PicsUnlock; Out port a; In port; PicsLock] _ Hm eq_refl).
  assert (unmask = map Ev [In port; Out port b]) as Eu by exact (thread_of _ _ [Out port b; In port] _ Hu eq_refl).
  split; [by eexists|]. split; [by eexists|]. split; [|split].
  - rewrite Em. exists (mkCpu true false (map Ev [In port; Out port a; PicsUnlock]) (Some (thread timer_handler boot_state ++ [Iret]))).
    split; [|split; [apply spin|by intros []]].
    eapply rtc_l; [by apply (step_main false true)|]. apply rtc_once.
    apply (step_irq true _ PIC_IRQ_TIMER timer_handler boot_state); [unfold hardware; set_solver|done|apply boot_ok].
  - rewrite Em. intros n c Hn. do 4 (destruct n as [|n]; [split; [lia|done]|apply disabled_step in Hn]).
    destruct n; [split; [lia|intros _; by inversion Hn]|by apply disabled_step in Hn].
  - intros c Hc. apply lock_free_finish. assert (lock_free (start true unmask)) as H0.
    { rewrite Eu. apply (lf_main [In port; Out port b]). by repeat constructor. }
    revert H0. induction Hc as [|c1 c2 c3 Hs _ IH]; [done|]. intros H1. by eapply IH, lock_free_step.
Qed.
End threads.

Lemma mask_irq_deadlock_witness :
  exists c, rtc (step last_written) (start true (thread (mask_irq last_written 0) boot_state)) c /\ stuck_spinning last_written c.
Proof.
  destruct (mask_irq_deadlock last_written 0 boot_state ltac:(lia)) as (_ & _ & (c & Hc & Hs & _) & _).
  by exists c.
Defined.
End Locking.
