(* ===== verification/Gdt.v ===== *)
(** * Segments and the task state

    src/src/gdt.rs: a descriptor table with the kernel's code and data segments
    and a task state whose interrupt stack table ([TSS_stack_table] of
    [Interrupts]) gives three exceptions stacks of their own.  The x86_64 crate
    that encodes the descriptors is not part of this repository: appending a
    descriptor is the parameter [GdtCrate], and the addresses of the three
    static stacks are those of the linked image. *)

From S2P Require Import Prelude Interrupts.

Inductive Descriptor : Type :=
| kernel_code_segment
| kernel_data_segment
| tss_segment (interrupt_stack_table : list Z).

(** [GlobalDescriptorTable::append]: the table with the descriptor, and its
    selector. *)
Class GdtCrate := {
  gdt_append : list Descriptor -> Descriptor -> list Descriptor * Z
}.

(** Where the linker puts the stacks. *)
Class Image := {
  DOUBLE_FAULT_STACK : Z;
  NMI_STACK : Z;
  MACHINE_CHECK_STACK : Z
}.

Record Selectors : Type := mkSelectors {
  code_selector : Z;
  data_selector : Z;
  tss_selector : Z
}.

(** The loaded table and the segment registers. *)
Record Segments : Type := mkSegments {
  gdtr : list Descriptor;
  CS : Z;
  DS : Z;
  SS : Z;
  TR : Z
}.

Section gdt.
Context {G : GdtCrate} {I : Image}.

Definition TSS : list Z := TSS_stack_table DOUBLE_FAULT_STACK NMI_STACK MACHINE_CHECK_STACK.

Definition GDT : list Descriptor * Selectors :=
  let (gdt, code) := gdt_append [] kernel_code_segment in
  let (gdt, data) := gdt_append gdt kernel_data_segment in
  let (gdt, tss) := gdt_append gdt (tss_segment TSS) in
  (gdt, mkSelectors code data tss).

(** The null stack segment is selector 0. *)
Definition gdt_init : M (option Segments) unit :=
  put (Some (mkSegments (fst GDT) (code_selector (snd GDT)) (data_selector (snd GDT)) 0 (tss_selector (snd GDT)))).
End gdt.

(** The crate's encoding, for concrete runs: slot 0 is null, a system segment
    takes two slots, a selector is eight times the slot. *)
Definition slots (g : list Descriptor) : Z :=
  foldr (fun d n => n + match d with tss_segment _ => 2 | _ => 1 end) 1 g.
#[export] Instance gdt_x86_64 : GdtCrate := { gdt_append g d := (g ++ [d], 8 * slots g) }.

(** With that encoding the selectors are 8, 16 and 24. *)
Lemma gdt_selectors {I : Image} s : exists seg,
  gdt_init s = Ok (tt, Some seg) /\ CS seg = 8 /\ DS seg = 16 /\ SS seg = 0 /\ TR seg = 24 /\
  gdtr seg = [kernel_code_segment; kernel_data_segment; tss_segment TSS].
Proof. eexists. split; [reflexivity|]. done. Qed.
