(* ===== verification/Timer.v ===== *)
(** * The kernel clock

    src/src/timer.rs: the programming of PIT channel 0, the tick counter that
    the timer handler advances ([tick] of [Interrupts]) and the busy wait.  The
    wait polls a counter that only interrupts change, so it is run against a
    schedule: how many ticks arrive before each poll.  A schedule that ends
    before the wait does leaves it spinning ([OutOfFuel]). *)

From S2P Require Import Prelude Interrupts.

Definition PIT_BASE_HZ : Z := 1193182.
Definition TIMER_HZ : Z := 1000.
Definition PIT_DIVISOR : Z := (PIT_BASE_HZ / TIMER_HZ) mod 2 ^ 16.

Definition init : M IState unit :=
  outb 0x43 0x34 ;;
  outb 0x40 (PIT_DIVISOR mod 256) ;;
  outb 0x40 (Z.shiftr PIT_DIVISOR 8 mod 256).

Definition uptime_ms : M IState Z := gets TICKS.

(** [n] timer interrupts, as far as the clock is concerned. *)
Fixpoint ticks (n : nat) : M IState unit :=
  match n with
  | O => ret tt
  | S n' => tick ;; ticks n'
  end.

(** [while uptime_ms() < end { spin_loop() }]. *)
Fixpoint sleep_loop (sched : list nat) (end_ : Z) : M IState unit :=
  match sched with
  | [] => out_of_fuel
  | n :: sched' =>
      ticks n ;;
      let* now := uptime_ms in
      if now <? end_ then sleep_loop sched' end_ else ret tt
  end.

Definition sleep_ms (ms : Z) (sched : list nat) : M IState unit :=
  let* now := uptime_ms in
  sleep_loop sched (Z.min (now + ms) (W64 - 1)).

(** ** Theorems *)

Definition total (l : list nat) : Z := Z.of_nat (sum_list l).

Lemma total_cons n l : total (n :: l) = Z.of_nat n + total l.
Proof. unfold total. cbn. lia. Qed.
Lemma total_take_cons n l k : total (take (S k) (n :: l)) = Z.of_nat n + total (take k l).
Proof. apply total_cons. Qed.
Lemma total_nonneg l : 0 <= total l.
Proof. unfold total. lia. Qed.
Lemma total_take k l : total (take k l) <= total l.
Proof. unfold total. rewrite <- (take_drop k l) at 2. rewrite sum_list_with_app. lia. Qed.

Lemma with_ticks_same s : with_ticks (TICKS s) s = s.
Proof. by destruct s. Qed.

Lemma run_ticks n s : 0 <= TICKS s -> TICKS s + Z.of_nat n < W64 ->
  ticks n s = Ok (tt, with_ticks (TICKS s + Z.of_nat n) s).
Proof.
  revert s. induction n as [|n IH]; intros s Hs Hlt.
  - unfold ticks, ret. by rewrite Z.add_0_r, with_ticks_same.
  - cbn [ticks]. unfold bind, tick, modify. rewrite IH; cbn [TICKS with_ticks]; rewrite ?Z.mod_small by lia; [|lia..].
    do 2 f_equal. unfold with_ticks. cbn. f_equal. lia.
Qed.

Lemma sleep_loop_cons n sched e s : 0 <= TICKS s -> TICKS s + Z.of_nat n < W64 ->
  sleep_loop (n :: sched) e s =
    if TICKS s + Z.of_nat n <? e then sleep_loop sched e (with_ticks (TICKS s + Z.of_nat n) s)
    else Ok (tt, with_ticks (TICKS s + Z.of_nat n) s).
Proof.
  intros Hs Hn. cbn [sleep_loop]. unfold bind at 1. rewrite (run_ticks n s Hs Hn).
  unfold bind, uptime_ms, gets. cbn [TICKS with_ticks]. by destruct (_ <? e).
Qed.

(** The loop leaves at the first poll at which enough ticks have arrived. *)
Lemma run_sleep_loop sched s d :
  0 <= TICKS s -> TICKS s + total sched < W64 ->
  (forall k, (0 < k <= length sched)%nat -> total (take k sched) < d) /\ sleep_loop sched (TICKS s + d) s = OutOfFuel \/
  exists k, (0 < k <= length sched)%nat /\ d <= total (take k sched) /\
    (forall j, (0 < j < k)%nat -> total (take j sched) < d) /\
    sleep_loop sched (TICKS s + d) s = Ok (tt, with_ticks (TICKS s + total (take k sched)) s).
Proof.
  revert s d. induction sched as [|n sched IH]; intros s d Hs Hlt.
  - left. split; [|done]. intros k Hk. simpl in Hk. lia.
  - rewrite total_cons in Hlt. pose proof (total_nonneg sched).
    rewrite sleep_loop_cons by lia. destruct (Z.ltb_spec (TICKS s + Z.of_nat n) (TICKS s + d)) as [Hd|Hd].
    + replace (TICKS s + d) with (TICKS s + Z.of_nat n + (d - Z.of_nat n)) by lia.
      destruct (IH (with_ticks (TICKS s + Z.of_nat n) s) (d - Z.of_nat n)) as [[Hall Hrun]|(k & Hk & Hge & Hall & Hrun)];
        cbn [TICKS with_ticks] in *; [lia|lia|left|right].
      * split; [|exact Hrun]. intros [|[|k]] Hk; [lia|rewrite total_take_cons; change (total (take 0 sched)) with 0; lia|].
        specialize (Hall (S k) ltac:(simpl in Hk; lia)). rewrite total_take_cons. lia.
      * exists (S k). rewrite total_take_cons. split; [simpl; lia|]. split; [lia|]. split.
        -- intros [|[|j]] Hj; [lia|rewrite total_take_cons; change (total (take 0 sched)) with 0; lia|].
           specialize (Hall (S j) ltac:(lia)). rewrite total_take_cons. lia.
        -- rewrite Hrun, Z.add_assoc. done.
    + right. exists 1%nat. rewrite total_take_cons. change (total (take 0 sched)) with 0.
      split; [simpl; lia|]. split; [lia|]. split; [intros; lia|]. unfold ret. by rewrite Z.add_0_r.
Qed.

(** C37: [sleep_ms] returns if and only if enough ticks arrive while it polls:
    then it leaves at the first poll that sees [ms] ticks since the call, and
    otherwise, in particular with interrupts disabled, it spins however long
    it runs. *)
Theorem sleep_ms_returns ms sched s :
  0 <= ms -> 0 <= TICKS s -> TICKS s + ms < W64 -> TICKS s + total sched < W64 -> sched <> [] ->
  (ms <= total sched -> exists k, (0 < k <= length sched)%nat /\
     sleep_ms ms sched s = Ok (tt, with_ticks (TICKS s + total (take k sched)) s) /\
     ms <= total (take k sched) /\ forall j, (0 < j < k)%nat -> total (take j sched) < ms) /\
  (total sched < ms -> sleep_ms ms sched s = OutOfFuel) /\
  (0 < ms -> forall n, sleep_ms ms (replicate n 0%nat) s = OutOfFuel).
Proof.
  intros Hms Hs Hmax Hlt Hne.
  assert (forall l, sleep_ms ms l s = sleep_loop l (TICKS s + ms) s) as Eq.
  { intros l. unfold sleep_ms, uptime_ms, bind, gets. by rewrite Z.min_l by lia. }
  assert (forall l, TICKS s + total l < W64 -> total l < ms -> sleep_ms ms l s = OutOfFuel) as Hspin.
  { intros l Hl Hlow. rewrite Eq. destruct (run_sleep_loop l s ms Hs Hl) as [[_ Hrun]|(k & Hk & Hge & _)]; [done|exfalso].
    pose proof (total_take k l). lia. }
  split; [|split].
  - intros Hge. rewrite Eq. destruct (run_sleep_loop sched s ms Hs Hlt) as [[Hall _]|(k & Hk & Hk1 & Hk2 & Hrun)]; [|by eauto].
    exfalso. specialize (Hall (length sched)). rewrite take_ge in Hall by lia.
    destruct sched; [done|]. simpl length in Hall. specialize (Hall ltac:(lia)). lia.
  - intros Hlow. by apply Hspin.
  - intros Hpos n. assert (total (replicate n 0%nat) = 0) as E0.
    { induction n as [|n IH]; [done|]. cbn [replicate]. rewrite total_cons. lia. }
    apply Hspin; rewrite E0; lia.
Qed.

Lemma sleep_ms_returns_witness :
  sleep_ms 5 [2; 0; 4; 1]%nat boot_state = Ok (tt, with_ticks 6 boot_state) /\ sleep_ms 1 [0; 0]%nat boot_state = OutOfFuel.
Proof.
  split.
  - destruct (sleep_ms_returns 5 [2; 0; 4; 1]%nat boot_state) as [H _]; [done..|].
    destruct (H ltac:(done)) as (k & Hk & Hrun & Hge & Hmin). assert (k = 3%nat) as ->; [|exact Hrun].
    simpl in Hk. assert (k = 1 \/ k = 2 \/ k = 3 \/ k = 4)%nat as [->|[->|[->| ->]]] by lia; done.
  - destruct (sleep_ms_returns 1 [0]%nat boot_state) as (_ & _ & H); [done..|]. apply (H ltac:(lia) 2%nat).
Defined.

(** The number of ticks after [cycle] cycles of the oscillator. *)
Definition ticks_at (cycle : Z) : Z := cycle / PIT_DIVISOR.

(** [init] programs the reload value [PIT_DIVISOR], whose period is the
    nearest to a millisecond; but as the wait counts tick edges, a call of
    [sleep_ms] at any time [c] can return before [ms] milliseconds have
    passed. *)
Theorem sleep_ms_short s :
  (exists lo hi, init s = Ok (tt, with_io (Out 0x40 hi :: Out 0x40 lo :: Out 0x43 0x34 :: io s) s) /\
     0 <= lo < 256 /\ 0 <= hi < 256 /\ lo + 256 * hi = PIT_DIVISOR) /\
  (PIT_DIVISOR * TIMER_HZ <= PIT_BASE_HZ < (PIT_DIVISOR + 1) * TIMER_HZ) /\
  forall c ms, 0 <= c -> 0 < ms -> TICKS s = ticks_at c -> TICKS s + ms < W64 ->
    exists t, c < t /\ (t - c) * 1000 < ms * PIT_BASE_HZ /\
      sleep_ms ms [Z.to_nat (ticks_at t - ticks_at c)] s = Ok (tt, with_ticks (ticks_at t) s).
Proof.
  split; [exists (PIT_DIVISOR mod 256), (Z.shiftr PIT_DIVISOR 8 mod 256); by split|]. split; [by vm_compute|].
  intros c ms Hc Hms Ht Hmax. exists (PIT_DIVISOR * (ticks_at c + ms)).
  assert (ticks_at (PIT_DIVISOR * (ticks_at c + ms)) = ticks_at c + ms) as E.
  { unfold ticks_at at 1. rewrite Z.mul_comm. by apply Z.div_mul. }
  rewrite E. unfold ticks_at in *. change PIT_DIVISOR with 1193 in *. unfold PIT_BASE_HZ.
  pose proof (Z.div_mod c 1193 ltac:(lia)). pose proof (Z.mod_pos_bound c 1193 ltac:(lia)). pose proof (Z.div_pos c 1193 Hc ltac:(lia)).
  split; [nia|]. split; [nia|]. replace (c / 1193 + ms - c / 1193) with ms by lia.
  unfold sleep_ms, uptime_ms, bind, gets. rewrite Z.min_l, sleep_loop_cons, Z2Nat.id, Z.ltb_irrefl by lia. by rewrite Ht.
Qed.

Lemma sleep_ms_short_witness : exists t, 700 < t /\ (t - 700) * 1000 < 1 * PIT_BASE_HZ /\
  sleep_ms 1 [Z.to_nat (ticks_at t - ticks_at 700)] boot_state = Ok (tt, with_ticks (ticks_at t) boot_state).
Proof. destruct (sleep_ms_short boot_state) as (_ & _ & H). by apply (H 700 1). Defined.
