(* ===== verification/Vga.v ===== *)
(** * The VGA text writer

    src/src/writers/vga_buffer.rs: a 25 by 80 buffer of characters with their
    colours, written at the bottom row, which scrolls.  The buffer is the list
    of its rows.  [layout] is the reference: it wraps the text into rows
    without a screen; [vga_write_string] says that the screen shows the last
    25 of them. *)

From S2P Require Import Prelude.

Inductive Color : Type :=
| Black | Blue | Green | Cyan | Red | Magenta | Brown | LightGray
| DarkGray | LightBlue | LightGreen | LightCyan | LightRed | Pink | Yellow | White.

(** [color as u8]. *)
Definition color_u8 (c : Color) : Z :=
  match c with
  | Black => 0 | Blue => 1 | Green => 2 | Cyan => 3 | Red => 4 | Magenta => 5 | Brown => 6
  | LightGray => 7 | DarkGray => 8 | LightBlue => 9 | LightGreen => 10 | LightCyan => 11
  | LightRed => 12 | Pink => 13 | Yellow => 14 | White => 15
  end.

(** [ColorCode::new], in [u8]. *)
Definition ColorCode_new (foreground background : Color) : Z :=
  Z.lor (Z.shiftl (color_u8 background) 4 mod 256) (color_u8 foreground).

Record ScreenChar : Type := mkChar {
  ascii_character : Z;
  char_color : Z
}.

Definition BUFFER_HEIGHT : Z := 25.
Definition BUFFER_WIDTH : Z := 80.

Record Writer : Type := mkWriter {
  column_position : Z;
  color_code : Z;
  chars : list (list ScreenChar)
}.

Definition with_chars (b : list (list ScreenChar)) (w : Writer) : Writer := mkWriter (column_position w) (color_code w) b.
Definition with_column (c : Z) (w : Writer) : Writer := mkWriter c (color_code w) (chars w).

Definition read_char (row col : Z) : M Writer ScreenChar :=
  let* w := get in
  let* r := aget (chars w) row in
  aget r col.

Definition write_char (row col : Z) (c : ScreenChar) : M Writer unit :=
  let* w := get in
  let* r := aget (chars w) row in
  let* r' := aset r col c in
  let* b := aset (chars w) row r' in
  modify (with_chars b).

Definition clear_row (row : Z) : M Writer unit :=
  let* w := get in
  let blank := mkChar 32 (color_code w) in
  for_range 0 (Z.to_nat BUFFER_WIDTH) (fun col => write_char row col blank).

Definition new_line : M Writer unit :=
  for_range 1 (Z.to_nat (BUFFER_HEIGHT - 1)) (fun row =>
    for_range 0 (Z.to_nat BUFFER_WIDTH) (fun col =>
      let* character := read_char row col in
      write_char (row - 1) col character)) ;;
  clear_row (BUFFER_HEIGHT - 1) ;;
  modify (with_column 0).

Definition write_byte (byte : Z) : M Writer unit :=
  if byte =? 10 then new_line
  else
    let* w := get in
    (if BUFFER_WIDTH <=? column_position w then new_line else ret tt) ;;
    let row := BUFFER_HEIGHT - 1 in
    let* w' := get in
    write_char row (column_position w') (mkChar byte (color_code w')) ;;
    modify (with_column (column_position w' + 1)).

(** The bytes that are written as they are. *)
Definition printable (byte : Z) : bool := (32 <=? byte) && (byte <=? 126) || (byte =? 10).

Fixpoint write_string (s : list Z) : M Writer unit :=
  match s with
  | [] => ret tt
  | byte :: s' => write_byte (if printable byte then byte else 0xfe) ;; write_string s'
  end.

(** [fmt::Write] for the writer: it never fails. *)
Definition write_str (s : list Z) : M Writer unit := write_string s.

(** ** Statics *)

(** The direct map's offset, and the writer once it is used, with the address
    of its buffer. *)
Record Statics : Type := mkStatics {
  HHDM_OFFSET : Z;
  WRITER : option (Z * Writer)
}.

Definition vga_init (hhdm_offset : Z) : M Statics unit := modify (fun s => mkStatics hhdm_offset (WRITER s)).

(** The first use of the [lazy_static] fixes the address; the screen is what the
    memory there shows. *)
Definition writer_force (screen_at : Z -> list (list ScreenChar)) : M Statics unit :=
  let* s := get in
  match WRITER s with
  | Some _ => ret tt
  | None =>
      let* buffer := uadd (HHDM_OFFSET s) 0xb8000 in
      put (mkStatics (HHDM_OFFSET s) (Some (buffer, mkWriter 0 (ColorCode_new Yellow Black) (screen_at buffer))))
  end.

(** ** The reference *)

(** The rows a text completes, the row it is writing, and what that row held
    before. *)
Record page : Type := mkPage {
  rows_done : list (list ScreenChar);
  current : list ScreenChar;
  beneath : list ScreenChar
}.

(** The row being written, over what was there. *)
Definition shown (p : page) : list ScreenChar := current p ++ drop (length (current p)) (beneath p).
Definition blank_row (color : Z) : list ScreenChar := replicate 80 (mkChar 32 color).
Definition break (color : Z) (p : page) : page := mkPage (rows_done p ++ [shown p]) [] (blank_row color).

Definition layout_byte (color byte : Z) (p : page) : page :=
  if byte =? 10 then break color p
  else let p' := if (80 <=? length (current p))%nat then break color p else p in
       mkPage (rows_done p') (current p' ++ [mkChar byte color]) (beneath p').

Definition layout (color : Z) (s : list Z) (p : page) : page :=
  foldl (fun p byte => layout_byte color (if printable byte then byte else 0xfe) p) p s.

(** The last 25 rows. *)
Definition last_rows (l : list (list ScreenChar)) : list (list ScreenChar) := drop (length l - 25) l.

(** ** Proofs *)

Definition vga_ok (w : Writer) : Prop :=
  length (chars w) = 25%nat /\ Forall (fun r => length r = 80%nat) (chars w) /\ 0 <= column_position w <= 80.

Lemma wp_write_char row col c w r (Q : unit -> Writer -> Prop) :
  0 <= row -> chars w !! Z.to_nat row = Some r -> 0 <= col < Z.of_nat (length r) ->
  Q tt (with_chars (<[Z.to_nat row := <[Z.to_nat col := c]> r]> (chars w)) w) ->
  wp (write_char row col c) w Q.
Proof.
  intros Hr Hl Hc HQ. unfold write_char. wp_steps; [|done]. apply lookup_lt_Some in Hl. lia.
Qed.

Lemma wp_vga_clear_row row w r (Q : unit -> Writer -> Prop) :
  0 <= row -> chars w !! Z.to_nat row = Some r -> length r = 80%nat ->
  Q tt (with_chars (<[Z.to_nat row := blank_row (color_code w)]> (chars w)) w) ->
  wp (clear_row row) w Q.
Proof.
  intros Hr Hl Hlen HQ. unfold clear_row. wp_step. wp_step. set (blank := mkChar 32 (color_code w)).
  apply (wp_for_range (fun i s => s = with_chars (<[Z.to_nat row := replicate (Z.to_nat i) blank ++ drop (Z.to_nat i) r]> (chars w)) w)).
  - cbn. rewrite drop_0, list_insert_id by done. by destruct w.
  - intros i s Hi ->. change (Z.of_nat (Z.to_nat BUFFER_WIDTH)) with 80 in Hi.
    eapply wp_write_char; [done| | |]; cbn [chars with_chars].
    + rewrite list_lookup_insert_eq by (by eapply lookup_lt_Some). reflexivity.
    + rewrite length_app, length_replicate, length_drop. lia.
    + unfold with_chars. cbn. f_equal. rewrite list_insert_insert_eq. f_equal.
      replace (Z.to_nat (i + 1)) with (S (Z.to_nat i)) by lia.
      rewrite insert_app_r_alt by (rewrite length_replicate; lia). rewrite length_replicate, Nat.sub_diag.
      rewrite replicate_S_end, <- app_assoc. f_equal.
      destruct (lookup_lt_is_Some_2 r (Z.to_nat i) ltac:(lia)) as [x Hx]. by rewrite (drop_S _ _ _ Hx).
  - intros s ->. change (Z.to_nat (0 + _)) with 80%nat. rewrite drop_ge, app_nil_r by lia. exact HQ.
Qed.

(** Copying a row up, cell by cell. *)
Lemma wp_copy_row row w r0 r1 (Q : unit -> Writer -> Prop) :
  0 < row -> chars w !! Z.to_nat row = Some r1 -> chars w !! Z.to_nat (row - 1) = Some r0 ->
  length r0 = 80%nat -> length r1 = 80%nat ->
  Q tt (with_chars (<[Z.to_nat (row - 1) := r1]> (chars w)) w) ->
  wp (for_range 0 (Z.to_nat BUFFER_WIDTH) (fun col =>
        let* character := read_char row col in write_char (row - 1) col character)) w Q.
Proof.
  intros Hr H1 H0 L0 L1 HQ.
  apply (wp_for_range (fun i s => s = with_chars (<[Z.to_nat (row - 1) := take (Z.to_nat i) r1 ++ drop (Z.to_nat i) r0]> (chars w)) w)).
  - cbn. rewrite take_0, drop_0, list_insert_id by done. by destruct w.
  - intros i s Hi ->. change (Z.of_nat (Z.to_nat BUFFER_WIDTH)) with 80 in Hi.
    destruct (lookup_lt_is_Some_2 r1 (Z.to_nat i) ltac:(lia)) as [x Hx].
    destruct (lookup_lt_is_Some_2 r0 (Z.to_nat i) ltac:(lia)) as [y Hy].
    apply wp_bind. unfold read_char. apply wp_bind, wp_get, wp_bind. cbn [chars with_chars].
    apply (wp_aget _ _ r1); [lia|by rewrite list_lookup_insert_ne by lia|].
    apply (wp_aget _ _ x); [lia|done|].
    eapply wp_write_char; [lia| | |]; cbn [chars with_chars].
    + rewrite list_lookup_insert_eq by (by eapply lookup_lt_Some). reflexivity.
    + rewrite length_app, length_take, length_drop. lia.
    + unfold with_chars. cbn. f_equal. rewrite list_insert_insert_eq. f_equal.
      replace (Z.to_nat (i + 1)) with (S (Z.to_nat i)) by lia.
      rewrite insert_app_r_alt by (rewrite length_take; lia). rewrite length_take, Nat.min_l, Nat.sub_diag by lia.
      rewrite (take_S_r _ _ _ Hx), <- app_assoc, (drop_S _ _ _ Hy). done.
  - intros s ->. change (Z.to_nat (0 + _)) with 80%nat. rewrite drop_ge, app_nil_r, take_ge by lia. exact HQ.
Qed.

(** [new_line] drops the top row. *)
Lemma wp_new_line w (Q : unit -> Writer -> Prop) :
  vga_ok w -> Q tt (mkWriter 0 (color_code w) (drop 1 (chars w) ++ [blank_row (color_code w)])) -> wp new_line w Q.
Proof.
  intros (L & HF & _) HQ. unfold new_line. apply wp_bind.
  assert (forall i r, chars w !! i = Some r -> length r = 80%nat) as Hrow by (intros i r Hi; by eapply Forall_lookup_1 in HF).
  apply (wp_for_range (fun i s => s = with_chars (take (Z.to_nat i - 1) (drop 1 (chars w)) ++ drop (Z.to_nat i - 1) (chars w)) w)).
  - cbn. rewrite drop_0. by destruct w.
  - intros i s Hi ->. change (Z.of_nat (Z.to_nat (BUFFER_HEIGHT - 1))) with 24 in Hi.
    destruct (lookup_lt_is_Some_2 (chars w) (Z.to_nat i) ltac:(lia)) as [r1 H1].
    destruct (lookup_lt_is_Some_2 (chars w) (Z.to_nat i - 1) ltac:(lia)) as [r0 H0].
    assert (length (take (Z.to_nat i - 1) (drop 1 (chars w))) = (Z.to_nat i - 1)%nat) as Lt by (rewrite length_take, length_drop; lia).
    eapply wp_copy_row; [lia| | |by eapply Hrow|by eapply (Hrow _ r1)|]; cbn [chars with_chars].
    + rewrite lookup_app_r, lookup_drop by lia. rewrite <- H1. f_equal. lia.
    + rewrite lookup_app_r, lookup_drop by lia. rewrite <- H0. f_equal. lia.
    + unfold with_chars. cbn. f_equal. rewrite insert_app_r_alt by lia. rewrite Lt.
      replace (Z.to_nat (i - 1) - (Z.to_nat i - 1))%nat with 0%nat by lia.
      replace (Z.to_nat (i + 1) - 1)%nat with (S (Z.to_nat i - 1)) by lia.
      assert (drop 1 (chars w) !! (Z.to_nat i - 1)%nat = Some r1) as Hd by (rewrite lookup_drop, <- H1; f_equal; lia).
      rewrite (take_S_r _ _ _ Hd), <- app_assoc, (drop_S _ _ _ H0). done.
  - intros s ->. change (Z.to_nat (1 + _) - 1)%nat with 24%nat.
    destruct (lookup_lt_is_Some_2 (chars w) 24 ltac:(lia)) as [r0 H0].
    rewrite (drop_S _ _ _ H0), (drop_ge _ 25), take_ge by (rewrite ?length_drop; lia).
    apply wp_bind. eapply wp_vga_clear_row; [done| |by eapply Hrow|]; cbn [chars with_chars].
    + change (Z.to_nat (BUFFER_HEIGHT - 1)) with 24%nat. rewrite lookup_app_r by (rewrite length_drop; lia). by rewrite length_drop, L.
    + wp_step. unfold with_column. cbn [color_code chars with_chars]. change (Z.to_nat (BUFFER_HEIGHT - 1)) with 24%nat.
      rewrite insert_app_r_alt by (rewrite length_drop; lia). by rewrite length_drop, L.
Qed.

(** ** The screen shows the page *)

(** [above] are the rows that were on the screen before the text. *)
Definition shows (above : list (list ScreenChar)) (p : page) (w : Writer) : Prop :=
  chars w = last_rows (above ++ rows_done p ++ [shown p]) /\
  column_position w = Z.of_nat (length (current p)) /\ (length (current p) <= 80)%nat /\
  length (beneath p) = 80%nat /\ length above = 24%nat.

Lemma last_rows_snoc l r : (24 <= length l)%nat -> last_rows (l ++ [r]) = drop (length l - 24) l ++ [r].
Proof.
  intros Hl. unfold last_rows. rewrite length_app. cbn [length].
  replace (length l + 1 - 25)%nat with (length l - 24)%nat by lia.
  rewrite drop_app_le by lia. done.
Qed.

Lemma length_shown p : (length (current p) <= 80)%nat -> length (beneath p) = 80%nat -> length (shown p) = 80%nat.
Proof. intros Hc Hb. unfold shown. rewrite length_app, length_drop. lia. Qed.

Lemma shown_break c p : shown (break c p) = blank_row c.
Proof. done. Qed.

(** A line break scrolls. *)
Lemma shows_break above p w c (Q : unit -> Writer -> Prop) :
  vga_ok w -> shows above p w -> color_code w = c ->
  (forall w', vga_ok w' -> shows above (break c p) w' -> color_code w' = c -> Q tt w') -> wp new_line w Q.
Proof.
  intros Hok (Hch & Hcol & Hcur & Hb & Ha) <- HQ. apply wp_new_line; [done|]. pose proof Hok as (L & HF & _). apply HQ; [| |done].
  - split_and!; cbn [chars column_position]; [rewrite length_app, length_drop; simpl; lia| |lia|lia].
    apply Forall_app. split; [by apply Forall_drop|]. by repeat constructor.
  - split_and!; cbn [chars column_position]; try done; [|cbn; lia].
    rewrite Hch, shown_break. cbn [rows_done break]. rewrite !app_assoc. rewrite (last_rows_snoc (_ ++ [shown p])) by (rewrite !length_app; simpl; lia).
    unfold last_rows. rewrite drop_drop. do 2 f_equal. rewrite !length_app. simpl. lia.
Qed.

Lemma wp_vga_byte above p w byte c (Q : unit -> Writer -> Prop) :
  vga_ok w -> shows above p w -> color_code w = c ->
  (forall w', vga_ok w' -> shows above (layout_byte c byte p) w' -> color_code w' = c -> Q tt w') ->
  wp (write_byte byte) w Q.
Proof.
  intros Hok Hs Hc HQ. unfold write_byte, layout_byte in *. destruct (byte =? 10); [by eapply shows_break|].
  wp_step. wp_step. apply wp_bind.
  assert (forall p' w', vga_ok w' -> shows above p' w' -> color_code w' = c -> (length (current p') < 80)%nat ->
    p' = (if (80 <=? length (current p))%nat then break c p else p) ->
    wp (let* w'0 := get in write_char (BUFFER_HEIGHT - 1) (column_position w'0) (mkChar byte (color_code w'0)) ;;
        modify (with_column (column_position w'0 + 1))) w' Q) as Hput.
  { clear w Hok Hs Hc. intros p' w (L & HF & Hcol0) (Hch & Hcol & Hcur & Hb & Ha) Hc Hlt Ep. wp_step. wp_step. apply wp_bind.
    rewrite (app_assoc above), last_rows_snoc in Hch by (rewrite length_app; lia).
    set (top := drop _ _) in Hch. assert (length top = 24%nat) as Lt.
    { rewrite Hch, length_app in L. simpl in L. lia. }
    pose proof (length_shown p' Hcur Hb) as Ls.
    eapply (wp_write_char _ _ _ _ (shown p')); [done| |lia|].
    { rewrite Hch, lookup_app_r by (rewrite Lt; done). by rewrite Lt. }
    wp_step. unfold with_column. cbn [column_position color_code chars with_chars].
    change (Z.to_nat (BUFFER_HEIGHT - 1)) with 24%nat. rewrite Hch, insert_app_r_alt, Lt by lia. cbn.
    assert (<[Z.to_nat (column_position w):=mkChar byte (color_code w)]> (shown p') =
      shown (mkPage (rows_done p') (current p' ++ [mkChar byte c]) (beneath p'))) as Esh.
    { unfold shown. cbn [current beneath]. rewrite Hcol, Nat2Z.id, insert_app_r_alt, Nat.sub_diag by lia.
      destruct (lookup_lt_is_Some_2 (beneath p') (length (current p')) ltac:(lia)) as [y Hy].
      rewrite (drop_S _ _ _ Hy), length_app, <- app_assoc. cbn. by rewrite Hc, Nat.add_1_r. }
    rewrite Esh. cbv zeta in HQ. rewrite <- Ep in HQ. apply HQ; [| |done].
    - split_and!; cbn [chars column_position]; [rewrite length_app, Lt; done| |lia|lia].
      rewrite Hch in HF. apply Forall_app in HF as [HF _]. apply Forall_app. split; [done|]. constructor; [|done].
      apply length_shown; cbn; [rewrite length_app; simpl; lia|done].
    - split_and!; cbn [chars column_position current beneath rows_done]; [|rewrite length_app; simpl; lia..|done|done].
      rewrite app_assoc, last_rows_snoc by (rewrite length_app; lia). done. }
  pose proof Hs as (_ & Hcol & Hcur & _). destruct (Z.leb_spec BUFFER_WIDTH (column_position w)) as [Hge|Hlt].
  - eapply shows_break; [done..|]. intros w' Hok' Hs' Hc'. unfold BUFFER_WIDTH in Hge.
    apply (Hput (break c p)); [done..|cbn; lia|]. by rewrite (proj2 (Nat.leb_le 80 _)) by lia.
  - unfold BUFFER_WIDTH in Hlt. wp_step. apply (Hput p); [done..|lia|]. by rewrite (proj2 (Nat.leb_gt 80 _)) by lia.
Qed.

(** C38: writing a string to the VGA buffer, starting at column 0, never indexes
    out of it, and leaves on the screen exactly the last 25 rows of the 24 upper rows that were there
    followed by the text laid out in rows of 80: every byte outside printable
    ASCII as 0xfe, a break at each newline and at each full row, the rest of a
    broken row blank (the first row keeps what was beneath the text). *)
Theorem vga_write_string s w :
  vga_ok w -> column_position w = 0 ->
  exists w', write_string s w = Ok (tt, w') /\ vga_ok w' /\
    shows (take 24 (chars w)) (layout (color_code w) s (mkPage [] [] (default [] (chars w !! 24%nat)))) w'.
Proof.
  intros Hok H0. pose proof Hok as (L & HF & _).
  destruct (lookup_lt_is_Some_2 (chars w) 24 ltac:(lia)) as [r Hr]. rewrite Hr. change (default [] (Some r)) with r.
  assert (shows (take 24 (chars w)) (mkPage [] [] r) w) as Hs.
  { split_and!; cbn [rows_done current beneath]; [|done|simpl; lia|by eapply Forall_lookup_1 in HF|rewrite length_take; lia].
    unfold shown. cbn. rewrite drop_0, last_rows_snoc by (rewrite length_take; lia).
    rewrite length_take, L. cbn. rewrite drop_0, <- (take_S_r _ _ _ Hr), take_ge by lia. done. }
  remember (mkPage [] [] r) as p eqn:Ep. remember (color_code w) as c eqn:Ec. symmetry in Ec.
  set (above := take 24 (chars w)) in *. clearbody above. clear Ep H0 L HF Hr.
  revert w p Hok Hs Ec. induction s as [|byte s IH]; intros w p Hok Hs Ec; [by exists w|].
  assert (wp (write_byte (if printable byte then byte else 0xfe)) w (fun _ w' => vga_ok w' /\
    shows above (layout_byte c (if printable byte then byte else 0xfe) p) w' /\ color_code w' = c)) as Hw.
  { eapply wp_vga_byte; [done|exact Hs|done|]. by intros. }
  apply wp_run in Hw as ([] & w' & Hrun & Hok' & Hs' & Ec').
  destruct (IH w' _ Hok' Hs' Ec') as (w2 & Hrun2 & H2). exists w2. split; [|done].
  cbn [write_string]. unfold bind. by rewrite Hrun.
Qed.

(** The writer of the source, over a buffer of zeroes. *)
Definition vga0 : Writer := mkWriter 0 (ColorCode_new Yellow Black) (replicate 25 (replicate 80 (mkChar 0 0))).

Lemma vga_write_string_witness :
  exists w', write_string [72; 105; 10; 33] vga0 = Ok (tt, w') /\ column_position w' = 1 /\
    (chars w' !! 23%nat ≫= fun r => r !! 1%nat) = Some (mkChar 105 14).
Proof.
  destruct (vga_write_string [72; 105; 10; 33] vga0) as (w' & Hrun & _ & Hch & Hcol & _).
  { split; [done|]. split; [|done]. by apply Forall_replicate. }
  { done. }
  exists w'. split; [exact Hrun|]. rewrite Hcol, Hch. clear. split; vm_compute; reflexivity.
Defined.

(** The offset must be stored before the first use: afterwards [vga_init]
    does not move the buffer. *)
Lemma writer_pinned screen_at a w h h' :
  (vga_init h ;; writer_force screen_at) (mkStatics h' (Some (a, w))) = Ok (tt, mkStatics h (Some (a, w))).
Proof. done. Qed.

Lemma writer_first screen_at h h' : 0 <= h -> h + 0xb8000 < W64 ->
  exists w, (vga_init h ;; writer_force screen_at) (mkStatics h' None) = Ok (tt, mkStatics h (Some (h + 0xb8000, w))) /\
    chars w = screen_at (h + 0xb8000) /\ column_position w = 0.
Proof.
  intros H0 H1. exists (mkWriter 0 (ColorCode_new Yellow Black) (screen_at (h + 0xb8000))). split; [|by split].
  unfold vga_init, writer_force, modify, get, put, uadd, bind. cbn [WRITER HHDM_OFFSET].
  apply Z.ltb_lt in H1. by rewrite H1.
Qed.
