(* ===== verification/Framebuffer.v ===== *)
(** * The framebuffer console

    src/src/writers/framebuffer.rs: text on a 32-bit framebuffer, eight pixels
    to a column and sixteen to a row, that scrolls by copying.  Memory is kept
    byte by byte: a pixel is four little-endian bytes.  [terminal] is the
    specification, a grid of characters with a cursor; [fb_print] says that the
    pixels on the screen are the glyphs of its grid. *)

From S2P Require Import Prelude.

(** [FramebufferInfo] of src/src/limine_data.rs. *)
Record FramebufferInfo : Type := mkFbInfo {
  virt_addr : Z;
  phys_addr : Z;
  fb_width : Z;
  fb_height : Z;
  fb_pitch : Z;
  bits_per_pixel : Z;
  byte_size : Z;
  r_shift : Z;
  g_shift : Z;
  b_shift : Z
}.

(** One byte per row of eight pixels, the leftmost pixel in bit 0. *)
Definition FONT8X8 : list (list Z) := [
  [0x00; 0x00; 0x00; 0x00; 0x00; 0x00; 0x00; 0x00];
  [0x00; 0x00; 0x00; 0x00; 0x00; 0x00; 0x00; 0x00];
  [0x00; 0x00; 0x00; 0x00; 0x00; 0x00; 0x00; 0x00];
  [0x00; 0x00; 0x00; 0x00; 0x00; 0x00; 0x00; 0x00];
  [0x00; 0x00; 0x00; 0x00; 0x00; 0x00; 0x00; 0x00];
  [0x00; 0x00; 0x00; 0x00; 0x00; 0x00; 0x00; 0x00];
  [0x00; 0x00; 0x00; 0x00; 0x00; 0x00; 0x00; 0x00];
  [0x00; 0x00; 0x00; 0x00; 0x00; 0x00; 0x00; 0x00];
  [0x00; 0x00; 0x00; 0x00; 0x00; 0x00; 0x00; 0x00];
  [0x00; 0x00; 0x00; 0x00; 0x00; 0x00; 0x00; 0x00];
  [0x00; 0x00; 0x00; 0x00; 0x00; 0x00; 0x00; 0x00];
  [0x00; 0x00; 0x00; 0x00; 0x00; 0x00; 0x00; 0x00];
  [0x00; 0x00; 0x00; 0x00; 0x00; 0x00; 0x00; 0x00];
  [0x00; 0x00; 0x00; 0x00; 0x00; 0x00; 0x00; 0x00];
  [0x00; 0x00; 0x00; 0x00; 0x00; 0x00; 0x00; 0x00];
  [0x00; 0x00; 0x00; 0x00; 0x00; 0x00; 0x00; 0x00];
  [0x00; 0x00; 0x00; 0x00; 0x00; 0x00; 0x00; 0x00];
  [0x00; 0x00; 0x00; 0x00; 0x00; 0x00; 0x00; 0x00];
  [0x00; 0x00; 0x00; 0x00; 0x00; 0x00; 0x00; 0x00];
  [0x00; 0x00; 0x00; 0x00; 0x00; 0x00; 0x00; 0x00];
  [0x00; 0x00; 0x00; 0x00; 0x00; 0x00; 0x00; 0x00];
  [0x00; 0x00; 0x00; 0x00; 0x00; 0x00; 0x00; 0x00];
  [0x00; 0x00; 0x00; 0x00; 0x00; 0x00; 0x00; 0x00];
  [0x00; 0x00; 0x00; 0x00; 0x00; 0x00; 0x00; 0x00];
  [0x00; 0x00; 0x00; 0x00; 0x00; 0x00; 0x00; 0x00];
  [0x00; 0x00; 0x00; 0x00; 0x00; 0x00; 0x00; 0x00];
  [0x00; 0x00; 0x00; 0x00; 0x00; 0x00; 0x00; 0x00];
  [0x00; 0x00; 0x00; 0x00; 0x00; 0x00; 0x00; 0x00];
  [0x00; 0x00; 0x00; 0x00; 0x00; 0x00; 0x00; 0x00];
  [0x00; 0x00; 0x00; 0x00; 0x00; 0x00; 0x00; 0x00];
  [0x00; 0x00; 0x00; 0x00; 0x00; 0x00; 0x00; 0x00];
  [0x00; 0x00; 0x00; 0x00; 0x00; 0x00; 0x00; 0x00];
  [0x00; 0x00; 0x00; 0x00; 0x00; 0x00; 0x00; 0x00];
  [0x18; 0x3C; 0x3C; 0x18; 0x18; 0x00; 0x18; 0x00];
  [0x36; 0x36; 0x00; 0x00; 0x00; 0x00; 0x00; 0x00];
  [0x36; 0x36; 0x7F; 0x36; 0x7F; 0x36; 0x36; 0x00];
  [0x0C; 0x3E; 0x03; 0x1E; 0x30; 0x1F; 0x0C; 0x00];
  [0x00; 0x63; 0x33; 0x18; 0x0C; 0x66; 0x63; 0x00];
  [0x1C; 0x36; 0x1C; 0x6E; 0x3B; 0x33; 0x6E; 0x00];
  [0x06; 0x06; 0x03; 0x00; 0x00; 0x00; 0x00; 0x00];
  [0x18; 0x0C; 0x06; 0x06; 0x06; 0x0C; 0x18; 0x00];
  [0x06; 0x0C; 0x18; 0x18; 0x18; 0x0C; 0x06; 0x00];
  [0x00; 0x66; 0x3C; 0xFF; 0x3C; 0x66; 0x00; 0x00];
  [0x00; 0x0C; 0x0C; 0x3F; 0x0C; 0x0C; 0x00; 0x00];
  [0x00; 0x00; 0x00; 0x00; 0x00; 0x0C; 0x0C; 0x06];
  [0x00; 0x00; 0x00; 0x3F; 0x00; 0x00; 0x00; 0x00];
  [0x00; 0x00; 0x00; 0x00; 0x00; 0x0C; 0x0C; 0x00];
  [0x60; 0x30; 0x18; 0x0C; 0x06; 0x03; 0x01; 0x00];
  [0x3E; 0x63; 0x73; 0x7B; 0x6F; 0x67; 0x3E; 0x00];
  [0x0C; 0x0E; 0x0C; 0x0C; 0x0C; 0x0C; 0x3F; 0x00];
  [0x1E; 0x33; 0x30; 0x1C; 0x06; 0x33; 0x3F; 0x00];
  [0x1E; 0x33; 0x30; 0x1C; 0x30; 0x33; 0x1E; 0x00];
  [0x38; 0x3C; 0x36; 0x33; 0x7F; 0x30; 0x78; 0x00];
  [0x3F; 0x03; 0x1F; 0x30; 0x30; 0x33; 0x1E; 0x00];
  [0x1C; 0x06; 0x03; 0x1F; 0x33; 0x33; 0x1E; 0x00];
  [0x3F; 0x33; 0x30; 0x18; 0x0C; 0x0C; 0x0C; 0x00];
  [0x1E; 0x33; 0x33; 0x1E; 0x33; 0x33; 0x1E; 0x00];
  [0x1E; 0x33; 0x33; 0x3E; 0x30; 0x18; 0x0E; 0x00];
  [0x00; 0x0C; 0x0C; 0x00; 0x00; 0x0C; 0x0C; 0x00];
  [0x00; 0x0C; 0x0C; 0x00; 0x00; 0x0C; 0x0C; 0x06];
  [0x18; 0x0C; 0x06; 0x03; 0x06; 0x0C; 0x18; 0x00];
  [0x00; 0x00; 0x3F; 0x00; 0x00; 0x3F; 0x00; 0x00];
  [0x06; 0x0C; 0x18; 0x30; 0x18; 0x0C; 0x06; 0x00];
  [0x1E; 0x33; 0x30; 0x18; 0x0C; 0x00; 0x0C; 0x00];
  [0x3E; 0x63; 0x7B; 0x7B; 0x7B; 0x03; 0x1E; 0x00];
  [0x0C; 0x1E; 0x33; 0x33; 0x3F; 0x33; 0x33; 0x00];
  [0x3F; 0x66; 0x66; 0x3E; 0x66; 0x66; 0x3F; 0x00];
  [0x3C; 0x66; 0x03; 0x03; 0x03; 0x66; 0x3C; 0x00];
  [0x1F; 0x36; 0x66; 0x66; 0x66; 0x36; 0x1F; 0x00];
  [0x7F; 0x46; 0x16; 0x1E; 0x16; 0x46; 0x7F; 0x00];
  [0x7F; 0x46; 0x16; 0x1E; 0x16; 0x06; 0x0F; 0x00];
  [0x3C; 0x66; 0x03; 0x03; 0x73; 0x66; 0x7C; 0x00];
  [0x33; 0x33; 0x33; 0x3F; 0x33; 0x33; 0x33; 0x00];
  [0x1E; 0x0C; 0x0C; 0x0C; 0x0C; 0x0C; 0x1E; 0x00];
  [0x78; 0x30; 0x30; 0x30; 0x33; 0x33; 0x1E; 0x00];
  [0x67; 0x66; 0x36; 0x1E; 0x36; 0x66; 0x67; 0x00];
  [0x0F; 0x06; 0x06; 0x06; 0x46; 0x66; 0x7F; 0x00];
  [0x63; 0x77; 0x7F; 0x7F; 0x6B; 0x63; 0x63; 0x00];
  [0x63; 0x67; 0x6F; 0x7B; 0x73; 0x63; 0x63; 0x00];
  [0x1C; 0x36; 0x63; 0x63; 0x63; 0x36; 0x1C; 0x00];
  [0x3F; 0x66; 0x66; 0x3E; 0x06; 0x06; 0x0F; 0x00];
  [0x1E; 0x33; 0x33; 0x33; 0x3B; 0x1E; 0x38; 0x00];
  [0x3F; 0x66; 0x66; 0x3E; 0x36; 0x66; 0x67; 0x00];
  [0x1E; 0x33; 0x07; 0x0E; 0x38; 0x33; 0x1E; 0x00];
  [0x3F; 0x2D; 0x0C; 0x0C; 0x0C; 0x0C; 0x1E; 0x00];
  [0x33; 0x33; 0x33; 0x33; 0x33; 0x33; 0x3F; 0x00];
  [0x33; 0x33; 0x33; 0x33; 0x33; 0x1E; 0x0C; 0x00];
  [0x63; 0x63; 0x63; 0x6B; 0x7F; 0x77; 0x63; 0x00];
  [0x63; 0x63; 0x36; 0x1C; 0x1C; 0x36; 0x63; 0x00];
  [0x33; 0x33; 0x33; 0x1E; 0x0C; 0x0C; 0x1E; 0x00];
  [0x7F; 0x63; 0x31; 0x18; 0x4C; 0x66; 0x7F; 0x00];
  [0x1E; 0x06; 0x06; 0x06; 0x06; 0x06; 0x1E; 0x00];
  [0x03; 0x06; 0x0C; 0x18; 0x30; 0x60; 0x40; 0x00];
  [0x1E; 0x18; 0x18; 0x18; 0x18; 0x18; 0x1E; 0x00];
  [0x08; 0x1C; 0x36; 0x63; 0x00; 0x00; 0x00; 0x00];
  [0x00; 0x00; 0x00; 0x00; 0x00; 0x00; 0x00; 0xFF];
  [0x0C; 0x0C; 0x18; 0x00; 0x00; 0x00; 0x00; 0x00];
  [0x00; 0x00; 0x1E; 0x30; 0x3E; 0x33; 0x6E; 0x00];
  [0x07; 0x06; 0x06; 0x3E; 0x66; 0x66; 0x3B; 0x00];
  [0x00; 0x00; 0x1E; 0x33; 0x03; 0x33; 0x1E; 0x00];
  [0x38; 0x30; 0x30; 0x3E; 0x33; 0x33; 0x6E; 0x00];
  [0x00; 0x00; 0x1E; 0x33; 0x3F; 0x03; 0x1E; 0x00];
  [0x1C; 0x36; 0x06; 0x0F; 0x06; 0x06; 0x0F; 0x00];
  [0x00; 0x00; 0x6E; 0x33; 0x33; 0x3E; 0x30; 0x1F];
  [0x07; 0x06; 0x36; 0x6E; 0x66; 0x66; 0x67; 0x00];
  [0x0C; 0x00; 0x0E; 0x0C; 0x0C; 0x0C; 0x1E; 0x00];
  [0x30; 0x00; 0x30; 0x30; 0x30; 0x33; 0x33; 0x1E];
  [0x07; 0x06; 0x66; 0x36; 0x1E; 0x36; 0x67; 0x00];
  [0x0E; 0x0C; 0x0C; 0x0C; 0x0C; 0x0C; 0x1E; 0x00];
  [0x00; 0x00; 0x33; 0x7F; 0x7F; 0x6B; 0x63; 0x00];
  [0x00; 0x00; 0x1F; 0x33; 0x33; 0x33; 0x33; 0x00];
  [0x00; 0x00; 0x1E; 0x33; 0x33; 0x33; 0x1E; 0x00];
  [0x00; 0x00; 0x3B; 0x66; 0x66; 0x3E; 0x06; 0x0F];
  [0x00; 0x00; 0x6E; 0x33; 0x33; 0x3E; 0x30; 0x78];
  [0x00; 0x00; 0x3B; 0x6E; 0x66; 0x06; 0x0F; 0x00];
  [0x00; 0x00; 0x3E; 0x03; 0x1E; 0x30; 0x1F; 0x00];
  [0x08; 0x0C; 0x3E; 0x0C; 0x0C; 0x2C; 0x18; 0x00];
  [0x00; 0x00; 0x33; 0x33; 0x33; 0x33; 0x6E; 0x00];
  [0x00; 0x00; 0x33; 0x33; 0x33; 0x1E; 0x0C; 0x00];
  [0x00; 0x00; 0x63; 0x6B; 0x7F; 0x7F; 0x36; 0x00];
  [0x00; 0x00; 0x63; 0x36; 0x1C; 0x36; 0x63; 0x00];
  [0x00; 0x00; 0x33; 0x33; 0x33; 0x3E; 0x30; 0x1F];
  [0x00; 0x00; 0x3F; 0x19; 0x0C; 0x26; 0x3F; 0x00];
  [0x38; 0x0C; 0x0C; 0x07; 0x0C; 0x0C; 0x38; 0x00];
  [0x18; 0x18; 0x18; 0x00; 0x18; 0x18; 0x18; 0x00];
  [0x07; 0x0C; 0x0C; 0x38; 0x0C; 0x0C; 0x07; 0x00];
  [0x6E; 0x3B; 0x00; 0x00; 0x00; 0x00; 0x00; 0x00];
  [0x00; 0x00; 0x00; 0x00; 0x00; 0x00; 0x00; 0x00]
].

Definition CHAR_W : Z := 8.
Definition CHAR_H : Z := 16.

Record FbWriter : Type := mkFb {
  addr : Z;
  width : Z;
  height : Z;
  pitch : Z;
  bpp : Z;
  r_shl : Z;
  g_shl : Z;
  b_shl : Z;
  col : Z;
  row : Z;
  cols : Z;
  rows : Z
}.

Definition with_cursor (c r : Z) (w : FbWriter) : FbWriter :=
  mkFb (addr w) (width w) (height w) (pitch w) (bpp w) (r_shl w) (g_shl w) (b_shl w) c r (cols w) (rows w).

Definition umul32 {S} (a b : Z) : M S Z := if a * b <? W32 then ret (a * b) else panic.

Definition self : M (FbWriter * mem) FbWriter := gets fst.

Definition make_pixel (r g b : Z) : M (FbWriter * mem) Z :=
  let* w := self in
  let* r' := ushl32 r (r_shl w) in
  let* g' := ushl32 g (g_shl w) in
  let* b' := ushl32 b (b_shl w) in
  ret (Z.lor (Z.lor r' g') b').

(** A volatile 32-bit write. *)
Definition write32 {C} (a v : Z) : M (C * mem) unit :=
  store a (v mod 256) ;;
  store (a + 1) (v / 2 ^ 8 mod 256) ;;
  store (a + 2) (v / 2 ^ 16 mod 256) ;;
  store (a + 3) (v / 2 ^ 24 mod 256).

Definition put_pixel (x y color : Z) : M (FbWriter * mem) unit :=
  let* w := self in
  let* a := umul32 y (pitch w) in
  let* b := umul32 x (bpp w) in
  let* offset := uadd32 a b in
  let* p := uadd (addr w) offset in
  write32 p color.

Definition draw_char (c col row : Z) : M (FbWriter * mem) unit :=
  let* glyph := aget FONT8X8 (Z.land c 0x7F) in
  let* x0 := umul32 col CHAR_W in
  let* y0 := umul32 row CHAR_H in
  let* fg := make_pixel 255 255 0 in
  let* bg := make_pixel 0 0 0 in
  for_range 0 (length glyph) (fun gy =>
    let* byte := aget glyph gy in
    let* py := uadd32 y0 (gy * 2) in
    for_range 0 8 (fun gx =>
      let color := if negb (Z.land (Z.shiftr byte gx) 1 =? 0) then fg else bg in
      let* x := uadd32 x0 gx in
      put_pixel x py color ;;
      let* py1 := uadd32 py 1 in
      put_pixel x py1 color)).

(** [core::ptr::write_bytes] and [core::ptr::copy_nonoverlapping] of bytes. *)
Definition write_bytes {C} (dst v n : Z) : M (C * mem) unit :=
  for_range 0 (Z.to_nat n) (fun i => store (dst + i) v).
Definition copy_bytes {C} (src dst n : Z) : M (C * mem) unit :=
  for_range 0 (Z.to_nat n) (fun i => let* b := load (src + i) in store (dst + i) b).

Definition clear_row (row : Z) : M (FbWriter * mem) unit :=
  let* w := self in
  let* y0 := umul32 row CHAR_H in
  let* off := umul32 y0 (pitch w) in
  let* dst := uadd (addr w) off in
  let* n := umul32 CHAR_H (pitch w) in
  write_bytes dst 0 n.

Definition scroll_up : M (FbWriter * mem) unit :=
  let* w := self in
  for_range 1 (Z.to_nat (rows w - 1)) (fun row =>
    let* y := umul32 row CHAR_H in
    let* yo := umul32 y (pitch w) in
    let* src := uadd (addr w) yo in
    let* prev := usub row 1 in
    let* z := umul32 prev CHAR_H in
    let* zo := umul32 z (pitch w) in
    let* dst := uadd (addr w) zo in
    let* n := umul32 CHAR_H (pitch w) in
    copy_bytes src dst n) ;;
  let* last := usub (rows w) 1 in
  clear_row last.

(** [write_byte] of a newline. *)
Definition newline : M (FbWriter * mem) unit :=
  let* w := self in
  let* r := uadd32 (row w) 1 in
  upd (with_cursor 0 r) ;;
  if rows w <=? r then
    scroll_up ;;
    let* r' := usub (rows w) 1 in
    upd (with_cursor 0 r')
  else ret tt.

Definition write_byte (byte : Z) : M (FbWriter * mem) unit :=
  if byte =? 10 then newline
  else
    let* w := self in
    (if cols w <=? col w then newline else ret tt) ;;
    let* w' := self in
    draw_char byte (col w') (row w') ;;
    let* c := uadd32 (col w') 1 in
    upd (with_cursor c (row w')).

(** Printable ASCII and newlines are written, other bytes as question marks. *)
Definition sanitise (byte : Z) : Z :=
  if (0x20 <=? byte) && (byte <=? 0x7e) || (byte =? 10) then byte else 63.

Fixpoint write_str (s : list Z) : M (FbWriter * mem) unit :=
  match s with
  | [] => ret tt
  | b :: s' => write_byte (sanitise b) ;; write_str s'
  end.

(** The console behind its lock: [None] until it is initialised. *)
Definition init_from_info (info : FramebufferInfo) : M (option FbWriter * mem) unit :=
  if negb (bits_per_pixel info =? 32) then ret tt
  else
    let* n := umul32 (fb_height info) (fb_pitch info) in
    write_bytes (virt_addr info) 0 n ;;
    upd (fun _ => Some (mkFb (virt_addr info) (fb_width info) (fb_height info) (fb_pitch info)
      4 16 8 0 0 0 (fb_width info / CHAR_W) (fb_height info / CHAR_H))).

Definition _print (s : list Z) : M (option FbWriter * mem) unit :=
  fun st => match st with
  | (None, m) => Ok (tt, st)
  | (Some w, m) =>
      match write_str s (w, m) with
      | Ok (_, (w', m')) => Ok (tt, (Some w', m'))
      | Panic => Panic
      | OutOfFuel => OutOfFuel
      end
  end.

(** ** The specification: a grid of characters *)
Record terminal : Type := mkTerm {
  grid : Z -> Z -> Z;        (* row, column *)
  t_col : Z;
  t_row : Z
}.

Section terminals.
Context (columns lines : Z).

Definition t_newline (t : terminal) : terminal :=
  if lines <=? t_row t + 1
  then mkTerm (fun r c => if r <? lines - 1 then grid t (r + 1) c else 32) 0 (lines - 1)
  else mkTerm (grid t) 0 (t_row t + 1).

Definition t_byte (byte : Z) (t : terminal) : terminal :=
  if byte =? 10 then t_newline t
  else let t' := if columns <=? t_col t then t_newline t else t in
    mkTerm (fun r c => if (r =? t_row t') && (c =? t_col t') then byte else grid t' r c) (t_col t' + 1) (t_row t').

Definition t_print (s : list Z) (t : terminal) : terminal := foldl (fun t b => t_byte (sanitise b) t) t s.
Definition t_blank : terminal := mkTerm (fun _ _ => 32) 0 0.
End terminals.
