(* ===== verification/FramebufferSpec.v ===== *)
(** * The framebuffer console shows its terminal

    The pixels of a character cell are those of the glyph of the character the
    terminal has there; drawing and scrolling keep that, and write nothing
    outside the framebuffer. *)

From S2P Require Import Prelude Framebuffer.

(** A console whose geometry fits its memory. *)
Record geometry_ok (w : FbWriter) : Prop := {
  go_bpp : bpp w = 4;
  go_shl : r_shl w = 16 /\ g_shl w = 8 /\ b_shl w = 0;
  go_cols : cols w = width w / CHAR_W /\ 1 <= cols w;
  go_rows : rows w = height w / CHAR_H /\ 1 <= rows w;
  go_pitch : 4 * width w <= pitch w;
  go_size : height w * pitch w < W32;
  go_addr : 0 <= addr w /\ addr w + height w * pitch w <= W64
}.

Definition fg : Z := 0xFFFF00.
Definition glyph (c : Z) : list Z := default [] (FONT8X8 !! Z.to_nat (Z.land c 0x7F)).

(** The colour of pixel ([gx], [gy]) of a character's cell. *)
Definition cell_pixel (c gx gy : Z) : Z :=
  if Z.testbit (default 0 (glyph c !! Z.to_nat (gy / 2))) gx then fg else 0.

(** The address of byte [k] of a pixel. *)
Definition pix (w : FbWriter) (x y k : Z) : Z := addr w + y * pitch w + 4 * x + k.
Definition byte_of (v k : Z) : Z := v / 2 ^ (8 * k) mod 256.

(** The framebuffer shows a grid. *)
Definition shows (w : FbWriter) (m : mem) (g : Z -> Z -> Z) : Prop :=
  forall r c gx gy k, 0 <= r < rows w -> 0 <= c < cols w -> 0 <= gx < 8 -> 0 <= gy < 16 -> 0 <= k < 4 ->
    rd m (pix w (8 * c + gx) (16 * r + gy) k) = byte_of (cell_pixel (g r c) gx gy) k.

Definition in_fb (w : FbWriter) (x : Z) : Prop := addr w <= x < addr w + height w * pitch w.

(** ** Bounds *)
Section bounds.
Context (w : FbWriter) (G : geometry_ok w).

Lemma cols_width : 8 * cols w <= width w.
Proof. destruct (go_cols _ G) as [-> _]. unfold CHAR_W. pose proof (Z.mul_div_le (width w) 8). lia. Qed.
Lemma rows_height : 16 * rows w <= height w.
Proof. destruct (go_rows _ G) as [-> _]. unfold CHAR_H. pose proof (Z.mul_div_le (height w) 16). lia. Qed.

Lemma pitch_pos : 32 <= pitch w.
Proof. pose proof cols_width. pose proof (proj2 (go_cols _ G)). pose proof (go_pitch _ G). lia. Qed.

Lemma line_bound y : 0 <= y <= height w -> 0 <= y * pitch w <= height w * pitch w.
Proof. pose proof pitch_pos. nia. Qed.

Lemma pix_in x y k : 0 <= x < width w -> 0 <= y < height w -> 0 <= k < 4 -> in_fb w (pix w x y k).
Proof.
  intros Hx Hy Hk. pose proof (go_pitch _ G). pose proof pitch_pos. unfold in_fb, pix.
  assert ((y + 1) * pitch w <= height w * pitch w) by (apply Z.mul_le_mono_nonneg_r; lia).
  assert (0 <= y * pitch w) by (apply Z.mul_nonneg_nonneg; lia). lia.
Qed.

Lemma pix_inj x y k x' y' k' :
  0 <= x < width w -> 0 <= x' < width w -> 0 <= k < 4 -> 0 <= k' < 4 ->
  pix w x y k = pix w x' y' k' -> x = x' /\ y = y' /\ k = k'.
Proof.
  intros Hx Hx' Hk Hk' E. pose proof (go_pitch _ G). unfold pix in E.
  assert (y = y') as ->; [|lia].
  destruct (Z.lt_trichotomy y y') as [Hlt|[?|Hlt]]; [|done|].
  - assert ((y + 1) * pitch w <= y' * pitch w) by (apply Z.mul_le_mono_nonneg_r; lia). lia.
  - assert ((y' + 1) * pitch w <= y * pitch w) by (apply Z.mul_le_mono_nonneg_r; lia). lia.
Qed.
End bounds.

(** ** Painting pixels *)

(** [m'] is [m] with the pixels of [P] in the colours [f]. *)
Definition painted (w : FbWriter) (P : Z -> Z -> Prop) (f : Z -> Z -> Z) (m m' : mem) : Prop :=
  (forall x y k, P x y -> 0 <= k < 4 -> rd m' (pix w x y k) = byte_of (f x y) k) /\
  (forall a, (forall x y k, P x y -> 0 <= k < 4 -> a <> pix w x y k) -> rd m' a = rd m a).

Lemma painted_none w (P : Z -> Z -> Prop) f m : (forall x y, ~ P x y) -> painted w P f m m.
Proof. intros HP. split; [|done]. intros x y k Hxy. by destruct (HP x y). Qed.

Lemma painted_ext w (P P' : Z -> Z -> Prop) f m m' :
  (forall x y, P x y <-> P' x y) -> painted w P f m m' -> painted w P' f m m'.
Proof.
  intros HP [H1 H2]. split; [intros x y k Hxy; apply H1; by apply HP|].
  intros a Ha. apply H2. intros x y k Hxy. apply Ha. by apply HP.
Qed.

Lemma wp_write32 {C} a v (c : C) m (Q : unit -> C * mem -> Prop) :
  (forall m', (forall k, 0 <= k < 4 -> rd m' (a + k) = byte_of v k) ->
     (forall x, ~ (a <= x < a + 4) -> rd m' x = rd m x) -> Q tt (c, m')) ->
  wp (write32 a v) (c, m) Q.
Proof.
  intros HQ. unfold write32. wp_steps. apply HQ.
  - intros k Hk. unfold byte_of. assert (k = 0 \/ k = 1 \/ k = 2 \/ k = 3) as [->|[->|[->| ->]]] by lia; cells; rewrite ?Z.add_0_r; cells.
    all: by rewrite ?Z.div_1_r.
  - intros x Hx. by cells.
Qed.

Lemma wp_put_pixel w m m0 (P : Z -> Z -> Prop) f x y v (Q : unit -> FbWriter * mem -> Prop) :
  geometry_ok w -> 0 <= x < width w -> 0 <= y < height w -> painted w P f m0 m -> f x y = v ->
  (forall x y, P x y -> 0 <= x < width w) ->
  (forall m', painted w (fun x' y' => P x' y' \/ (x' = x /\ y' = y)) f m0 m' -> Q tt (w, m')) ->
  wp (put_pixel x y v) (w, m) Q.
Proof.
  intros G Hx Hy [H1 H2] Hf HP HQ. pose proof (pix_in w G x y 0 Hx Hy ltac:(lia)) as Hin. pose proof (pix_in w G x y 3 Hx Hy ltac:(lia)) as Hin3.
  pose proof (go_size _ G). pose proof (go_addr _ G). pose proof (pitch_pos w G). unfold in_fb, pix in Hin, Hin3.
  assert (0 <= y * pitch w) by (apply Z.mul_nonneg_nonneg; lia).
  unfold put_pixel, self, umul32. wp_steps. rewrite (go_bpp _ G).
  rewrite !(proj2 (Z.ltb_lt _ W32)) by lia. wp_steps. apply wp_write32. intros m' Hv Hs. apply HQ.
  assert (forall k, addr w + (y * pitch w + x * 4) + k = pix w x y k) as Ea by (intros; unfold pix; lia).
  split.
  - intros x' y' k Hxy Hk. destruct (decide (x' = x /\ y' = y)) as [[-> ->]|Hne].
    + rewrite <- Ea, Hv, Hf by done. done.
    + destruct Hxy as [Hxy|[]]; [|naive_solver]. rewrite Hs; [by apply H1|]. intros Hr. apply Hne.
      pose proof (HP _ _ Hxy). assert (exists j, 0 <= j < 4 /\ pix w x' y' k = pix w x y j) as (j & Hj & E).
      { exists (pix w x' y' k - (addr w + (y * pitch w + x * 4))). rewrite <- Ea. lia. }
      apply pix_inj in E; [|done..]. lia.
  - intros a Ha. rewrite Hs; [apply H2; naive_solver|]. intros Hr.
    apply (Ha x y (a - (addr w + (y * pitch w + x * 4)))); [by right|lia|]. rewrite <- Ea. lia.
Qed.

(** ** Drawing a character *)

Lemma wp_make_pixel w m r g b (Q : Z -> FbWriter * mem -> Prop) :
  geometry_ok w -> 0 <= r < 256 -> 0 <= g < 256 -> 0 <= b < 256 ->
  Q (Z.lor (Z.lor (r * 2 ^ 16) (g * 2 ^ 8)) b) (w, m) -> wp (make_pixel r g b) (w, m) Q.
Proof.
  intros G Hr Hg Hb HQ. destruct (go_shl _ G) as (E1 & E2 & E3). unfold make_pixel, self, ushl32.
  wp_steps. rewrite E1, E2, E3. cbn [andb Z.leb Z.ltb Z.compare Pos.compare Pos.compare_cont]. wp_steps.
  rewrite !Z.shiftl_mul_pow2 by lia. unfold W32. rewrite !Z.mod_small by lia. by rewrite Z.mul_1_r.
Qed.

Lemma font_rows c : 0 <= c -> exists gl, FONT8X8 !! Z.to_nat (Z.land c 0x7F) = Some gl /\ glyph c = gl /\ length gl = 8%nat.
Proof.
  intros Hc. assert (0 <= Z.land c 127 < 128) as Hr.
  { change 127 with (Z.ones 7). rewrite Z.land_ones by lia. apply Z.mod_pos_bound. lia. }
  destruct (lookup_lt_is_Some_2 FONT8X8 (Z.to_nat (Z.land c 127))) as [gl Hgl].
  { change (length FONT8X8) with 128%nat. lia. }
  exists gl. split; [done|]. split; [unfold glyph; by rewrite Hgl|].
  assert (Forall (fun g => length g = 8%nat) FONT8X8) as HF by (repeat constructor).
  by eapply Forall_lookup_1 in HF.
Qed.

Lemma bit_of_shift b gx : 0 <= gx -> negb (Z.land (Z.shiftr b gx) 1 =? 0) = Z.testbit b gx.
Proof.
  intros Hg. change 1 with (Z.ones 1). rewrite Z.land_ones by lia. change (2 ^ 1) with 2.
  rewrite <- Z.bit0_mod, Z.shiftr_spec, Z.add_0_l by lia. by destruct (Z.testbit b gx).
Qed.

(** The pixels of a cell. *)
Definition cell (c r : Z) (x y : Z) : Prop := 8 * c <= x < 8 * c + 8 /\ 16 * r <= y < 16 * r + 16.
Definition cell_color (b c r x y : Z) : Z := cell_pixel b (x - 8 * c) (y - 16 * r).

Lemma wp_draw_char w m b c r (Q : unit -> FbWriter * mem -> Prop) :
  geometry_ok w -> 0 <= b -> 0 <= c < cols w -> 0 <= r < rows w ->
  (forall m', painted w (cell c r) (cell_color b c r) m m' -> Q tt (w, m')) ->
  wp (draw_char b c r) (w, m) Q.
Proof.
  intros G Hb Hc Hr HQ. destruct (font_rows b Hb) as (gl & Hgl & Egl & Llen).
  pose proof (cols_width w G). pose proof (rows_height w G). pose proof (go_size _ G). pose proof (go_pitch _ G). pose proof (pitch_pos w G).
  assert (width w < W32 /\ height w < W32) as [] by nia.
  unfold draw_char, CHAR_W, CHAR_H, umul32. wp_step.
  apply (wp_aget _ _ gl); [by apply Z.land_nonneg; lia|done|].
  rewrite !(proj2 (Z.ltb_lt _ W32)) by lia. wp_steps.
  apply wp_make_pixel; [done|lia..|]. wp_step. apply wp_make_pixel; [done|lia..|].
  change (Z.lor (Z.lor (255 * 2 ^ 16) (255 * 2 ^ 8)) 0) with fg. change (Z.lor (Z.lor (0 * 2 ^ 16) (0 * 2 ^ 8)) 0) with 0.
  rewrite Llen.
  apply (wp_for_range (fun gy s => exists m', s = (w, m') /\
    painted w (fun x y => 8 * c <= x < 8 * c + 8 /\ 16 * r <= y < 16 * r + 2 * gy) (cell_color b c r) m m')).
  - exists m. split; [done|]. apply painted_none. lia.
  - intros gy s Hgy (m' & -> & Hp). destruct (lookup_lt_is_Some_2 gl (Z.to_nat gy) ltac:(lia)) as [byte Hbyte].
    wp_step. apply (wp_aget _ _ byte); [lia|done|]. wp_steps.
    apply (wp_for_range (fun gx s => exists m'', s = (w, m'') /\
      painted w (fun x y => 8 * c <= x < 8 * c + 8 /\ 16 * r <= y < 16 * r + 2 * gy \/
                            8 * c <= x < 8 * c + gx /\ 16 * r + 2 * gy <= y < 16 * r + 2 * gy + 2) (cell_color b c r) m m'')).
    + exists m'. split; [done|]. eapply painted_ext; [|exact Hp]. intros x y. cbn. lia.
    + clear m' Hp. intros gx s Hgx (m' & -> & Hp). change (Z.of_nat 8) with 8 in Hgx.
      assert (forall dy, 0 <= dy < 2 -> cell_color b c r (c * 8 + gx) (r * 16 + gy * 2 + dy) =
        (if negb (Z.land (Z.shiftr byte gx) 1 =? 0) then fg else 0)) as Ecol.
      { intros dy Hdy. unfold cell_color, cell_pixel. rewrite Egl, bit_of_shift by lia.
        replace (c * 8 + gx - 8 * c) with gx by lia. replace ((r * 16 + gy * 2 + dy - 16 * r) / 2) with gy.
        2: { replace (r * 16 + gy * 2 + dy - 16 * r) with (dy + gy * 2) by lia. rewrite Z.div_add, Z.div_small by lia. lia. }
        by rewrite Hbyte. }
      wp_steps. eapply wp_put_pixel; [done|lia|lia|exact Hp| |intros; cbn in *; lia|].
      { rewrite <- (Z.add_0_r (r * 16 + gy * 2)). apply Ecol. lia. }
      intros m1 Hp1. wp_steps. eapply wp_put_pixel; [done|lia|lia|exact Hp1|apply Ecol; lia|intros; cbn in *; lia|].
      intros m2 Hp2. exists m2. split; [done|]. eapply painted_ext; [|exact Hp2]. intros x y. cbn. lia.
    + intros s (m2 & -> & Hp2). exists m2. split; [done|]. eapply painted_ext; [|exact Hp2]. intros x y. cbn. lia.
  - intros s (m2 & -> & Hp2). apply HQ. eapply painted_ext; [|exact Hp2]. intros x y. unfold cell. cbn. lia.
Qed.

(** Drawing a character changes the grid at its cell. *)
Lemma shows_drawn w m m' g b c r :
  geometry_ok w -> 0 <= c < cols w -> 0 <= r < rows w -> shows w m g -> painted w (cell c r) (cell_color b c r) m m' ->
  shows w m' (fun r' c' => if (r' =? r) && (c' =? c) then b else g r' c').
Proof.
  intros G Hc Hr Hs [H1 H2] r' c' gx gy k Hr' Hc' Hx Hy Hk. pose proof (cols_width w G).
  destruct (Z.eqb_spec r' r) as [->|Hne], (Z.eqb_spec c' c) as [->|Hnc]; cbn [andb].
  - rewrite H1 by (unfold cell; lia). unfold cell_color. do 2 f_equal; lia.
  - rewrite H2; [by apply Hs|]. intros x y k' [] Hk' E. apply (pix_inj w G) in E; lia.
  - rewrite H2; [by apply Hs|]. intros x y k' [] Hk' E. apply (pix_inj w G) in E; lia.
  - rewrite H2; [by apply Hs|]. intros x y k' [] Hk' E. apply (pix_inj w G) in E; lia.
Qed.

(** ** Clearing and scrolling *)

Lemma wp_write_bytes {C} dst v n (c : C) m (Q : unit -> C * mem -> Prop) :
  0 <= n ->
  (forall m', (forall a, rd m' a = if (dst <=? a) && (a <? dst + n) then v else rd m a) -> Q tt (c, m')) ->
  wp (write_bytes dst v n) (c, m) Q.
Proof.
  intros Hn HQ. unfold write_bytes.
  apply (wp_for_range (fun i s => exists m', s = (c, m') /\
    forall a, rd m' a = if (dst <=? a) && (a <? dst + i) then v else rd m a)).
  - exists m. split; [done|]. intros a. destruct (Z.leb_spec dst a), (Z.ltb_spec a (dst + 0)); (lia || done).
  - intros i s Hi (m' & -> & Hm). wp_step. eexists. split; [done|]. intros a. rewrite rd_wr, Hm.
    case_decide; destruct (Z.leb_spec dst a), (Z.ltb_spec a (dst + i)), (Z.ltb_spec a (dst + (i + 1))); cbn; (lia || done).
  - intros s (m' & -> & Hm). apply HQ. rewrite Z.add_0_l, Z2Nat.id in Hm by done. done.
Qed.

Lemma wp_copy_bytes {C} src dst n (c : C) m (Q : unit -> C * mem -> Prop) :
  0 <= n -> dst + n <= src ->
  (forall m', (forall a, rd m' a = if (dst <=? a) && (a <? dst + n) then rd m (src + (a - dst)) else rd m a) -> Q tt (c, m')) ->
  wp (copy_bytes src dst n) (c, m) Q.
Proof.
  intros Hn Hd HQ. unfold copy_bytes.
  apply (wp_for_range (fun i s => exists m', s = (c, m') /\
    forall a, rd m' a = if (dst <=? a) && (a <? dst + i) then rd m (src + (a - dst)) else rd m a)).
  - exists m. split; [done|]. intros a. destruct (Z.leb_spec dst a), (Z.ltb_spec a (dst + 0)); (lia || done).
  - intros i s Hi (m' & -> & Hm). wp_steps. eexists. split; [done|]. intros a. rewrite rd_wr, !Hm.
    case_decide as E; [subst a|];
      repeat match goal with |- context [?x <=? ?y] => destruct (Z.leb_spec x y)
                           | |- context [?x <? ?y] => destruct (Z.ltb_spec x y) end; cbn; try lia; try done.
    f_equal. lia.
  - intros s (m' & -> & Hm). apply HQ. rewrite Z.add_0_l, Z2Nat.id in Hm by done. done.
Qed.

Lemma wp_clear_row w m r (Q : unit -> FbWriter * mem -> Prop) :
  geometry_ok w -> 0 <= r < rows w ->
  (forall m', (forall a, rd m' a = if (addr w + 16 * r * pitch w <=? a) && (a <? addr w + 16 * (r + 1) * pitch w) then 0 else rd m a) ->
     Q tt (w, m')) ->
  wp (clear_row r) (w, m) Q.
Proof.
  intros G Hr HQ. pose proof (rows_height w G). pose proof (go_size _ G). pose proof (go_addr _ G). pose proof (pitch_pos w G).
  pose proof (line_bound w G (16 * r) ltac:(lia)). pose proof (line_bound w G (16 * (r + 1)) ltac:(lia)).
  assert (height w < W32) by nia. unfold clear_row, self, umul32, CHAR_H. wp_steps.
  rewrite (proj2 (Z.ltb_lt (r * 16) W32)) by lia. wp_steps.
  rewrite (proj2 (Z.ltb_lt (r * 16 * pitch w) W32)) by lia. wp_steps.
  rewrite (proj2 (Z.ltb_lt (16 * pitch w) W32)) by lia. wp_steps.
  apply wp_write_bytes; [lia|]. intros m' Hm. apply HQ. intros a. rewrite Hm.
  by replace (addr w + r * 16 * pitch w) with (addr w + 16 * r * pitch w) by lia;
    replace (addr w + 16 * r * pitch w + 16 * pitch w) with (addr w + 16 * (r + 1) * pitch w) by lia.
Qed.

(** After [i] rows were copied up. *)
Definition scrolled (w : FbWriter) (i : Z) (m m' : mem) : Prop :=
  forall a, rd m' a = if (addr w <=? a) && (a <? addr w + 16 * i * pitch w) then rd m (a + 16 * pitch w) else rd m a.

Lemma wp_scroll_up w m (Q : unit -> FbWriter * mem -> Prop) :
  geometry_ok w ->
  (forall m' m'', scrolled w (rows w - 1) m m' ->
     (forall a, rd m'' a = if (addr w + 16 * (rows w - 1) * pitch w <=? a) && (a <? addr w + 16 * rows w * pitch w) then 0 else rd m' a) ->
     Q tt (w, m'')) ->
  wp scroll_up (w, m) Q.
Proof.
  intros G HQ. pose proof (rows_height w G). pose proof (go_size _ G). pose proof (go_addr _ G). pose proof (pitch_pos w G).
  pose proof (proj2 (go_rows _ G)). assert (height w < W32) by nia. unfold scroll_up. wp_step. unfold self at 1. wp_steps.
  apply (wp_for_range (fun i s => exists m', s = (w, m') /\ scrolled w (i - 1) m m')).
  - exists m. split; [done|]. intros a. destruct (Z.leb_spec (addr w) a), (Z.ltb_spec a (addr w + 16 * (1 - 1) * pitch w)); (lia || done).
  - intros r s Hr (m' & -> & Hm).
    pose proof (line_bound w G (16 * (r + 1)) ltac:(lia)). pose proof (line_bound w G (16 * r) ltac:(lia)).
    pose proof (line_bound w G (16 * (r - 1)) ltac:(lia)).
    unfold umul32, CHAR_H. rewrite (proj2 (Z.ltb_lt (r * 16) W32)) by lia. wp_steps.
    rewrite (proj2 (Z.ltb_lt (r * 16 * pitch w) W32)) by lia. wp_steps.
    rewrite (proj2 (Z.ltb_lt ((r - 1) * 16) W32)) by lia. wp_steps.
    rewrite (proj2 (Z.ltb_lt ((r - 1) * 16 * pitch w) W32)) by lia. wp_steps.
    rewrite (proj2 (Z.ltb_lt (16 * pitch w) W32)) by lia. wp_steps.
    apply wp_copy_bytes; [lia|lia|]. intros m'' Hm''. exists m''. split; [done|]. intros a. rewrite Hm'', !Hm.
    set (p := pitch w) in *. assert (16 * (r + 1 - 1) * p = 16 * (r - 1) * p + 16 * p) as E1 by lia.
    assert ((r - 1) * 16 * p = 16 * (r - 1) * p) as E2 by lia. assert (r * 16 * p = 16 * (r - 1) * p + 16 * p) as E3 by lia.
    rewrite E1, E2, E3. set (z := 16 * (r - 1) * p) in *.
    assert (0 <= z) by (unfold z; apply Z.mul_nonneg_nonneg; lia).
    repeat match goal with |- context [?x <=? ?y] => destruct (Z.leb_spec x y)
                         | |- context [?x <? ?y] => destruct (Z.ltb_spec x y) end; cbn; try lia; try done; f_equal; lia.
  - intros s (m' & -> & Hm). replace (1 + Z.of_nat (Z.to_nat (rows w - 1)) - 1) with (rows w - 1) in Hm by lia.
    wp_steps. apply wp_clear_row; [done|lia|]. intros m'' Hm''.
    replace (rows w - 1 + 1) with (rows w) in Hm'' by lia. by apply (HQ m').
Qed.

(** Scrolling moves the grid up by a row and blanks the last one. *)
Lemma shows_scrolled w m m' m'' g :
  geometry_ok w -> shows w m g -> scrolled w (rows w - 1) m m' ->
  (forall a, rd m'' a = if (addr w + 16 * (rows w - 1) * pitch w <=? a) && (a <? addr w + 16 * rows w * pitch w) then 0 else rd m' a) ->
  shows w m'' (fun r c => if r <? rows w - 1 then g (r + 1) c else 32).
Proof.
  intros G Hs Hm Hm' r c gx gy k Hr Hc Hx Hy Hk. pose proof (cols_width w G). pose proof (go_pitch _ G). pose proof (pitch_pos w G).
  unfold scrolled in Hm. set (p := pitch w) in *. rewrite Hm', Hm.
  assert (pix w (8 * c + gx) (16 * r + gy) k + 16 * p = pix w (8 * c + gx) (16 * (r + 1) + gy) k) as E by (unfold pix, p; lia).
  rewrite E. assert (0 <= 4 * (8 * c + gx) + k < p) as Hoff by lia. unfold pix at 1 2 3 4. fold p.
  set (o := 4 * (8 * c + gx) + k) in *.
  destruct (Z.ltb_spec r (rows w - 1)) as [Hlt|Hge].
  - assert ((16 * r + gy + 1) * p <= 16 * (rows w - 1) * p) by (apply Z.mul_le_mono_nonneg_r; lia).
    assert (0 <= (16 * r + gy) * p) by (apply Z.mul_nonneg_nonneg; lia).
    rewrite (proj2 (Z.leb_gt (addr w + 16 * (rows w - 1) * p) _)) by (unfold o in *; lia).
    rewrite (proj2 (Z.leb_le (addr w) _)), (proj2 (Z.ltb_lt _ (addr w + 16 * (rows w - 1) * p))) by (unfold o in *; lia).
    cbn. apply Hs; lia.
  - assert (r = rows w - 1) as -> by lia.
    assert ((16 * (rows w - 1) + gy + 1) * p <= 16 * rows w * p) by (apply Z.mul_le_mono_nonneg_r; lia).
    assert (16 * (rows w - 1) * p <= (16 * (rows w - 1) + gy) * p) by (apply Z.mul_le_mono_nonneg_r; lia).
    rewrite (proj2 (Z.leb_le (addr w + 16 * (rows w - 1) * p) _)), (proj2 (Z.ltb_lt _ (addr w + 16 * rows w * p))) by (unfold o in *; lia).
    cbn. unfold cell_pixel. assert (gy / 2 < 8) by (apply Z.div_lt_upper_bound; lia). pose proof (Z.div_pos gy 2 ltac:(lia) ltac:(lia)).
    assert (default 0 (glyph 32 !! Z.to_nat (gy / 2)) = 0) as ->.
    { change (glyph 32) with (replicate 8 0). rewrite lookup_replicate_2 by lia. done. }
    by rewrite Z.bits_0.
Qed.

(** ** The console and its terminal *)

Record displays (w : FbWriter) (m : mem) (t : terminal) : Prop := {
  di_geometry : geometry_ok w;
  di_shows : shows w m (grid t);
  di_col : col w = t_col t /\ 0 <= col w <= cols w;
  di_row : row w = t_row t /\ 0 <= row w < rows w
}.

(** [w'] is [w] with another cursor. *)
Definition same_screen (w w' : FbWriter) : Prop := w' = with_cursor (col w') (row w') w.

Lemma geometry_cursor w c r : geometry_ok w -> geometry_ok (with_cursor c r w).
Proof. intros []. by constructor. Qed.

Lemma changes_fb w (m m' : mem) : (forall a, ~ in_fb w a -> rd m' a = rd m a) -> changes (in_fb w) m m'.
Proof.
  intros H a Ha. destruct (decide (addr w <= a < addr w + height w * pitch w)) as [|Hn]; [done|]. by rewrite H in Ha.
Qed.

(** What one operation on the console promises. *)
Definition reached (w : FbWriter) (m : mem) (t : terminal) (s : FbWriter * mem) : Prop :=
  displays (fst s) (snd s) t /\ same_screen w (fst s) /\ changes (in_fb w) m (snd s).

Lemma reached_trans w m t1 t2 s1 s2 :
  reached w m t1 s1 -> reached (fst s1) (snd s1) t2 s2 -> reached w m t2 s2.
Proof.
  intros (_ & S1 & C1) (D2 & S2 & C2). split_and!; [done| |].
  - unfold same_screen in *. by rewrite S2, S1.
  - assert (forall a, in_fb (fst s1) a -> in_fb w a) as Hin by (unfold same_screen in S1; rewrite S1; done).
    eapply changes_trans; [exact C1|]. by eapply changes_weaken.
Qed.

Lemma wp_newline w m t :
  displays w m t -> wp newline (w, m) (fun _ s => reached w m (t_newline (rows w) t) s).
Proof.
  intros [G Hs [Ec Hc] [Er Hr]]. pose proof (rows_height w G). pose proof (go_size _ G). pose proof (pitch_pos w G).
  assert (height w < W32) by nia. unfold newline, self. wp_steps. unfold upd at 1. wp_steps. unfold t_newline. rewrite <- Er.
  destruct (Z.leb_spec (rows w) (row w + 1)) as [Hge|Hlt]; wp_steps.
  - pose proof (geometry_cursor w 0 (row w + 1) G) as G1. apply wp_scroll_up; [done|]. intros m1 m2 Hm1 Hm2.
    wp_steps; unfold upd; wp_steps. split_and!; cbn [fst snd]; [|done|].
    + constructor; [by apply geometry_cursor| |by split; [|cbn; lia]|by split; [|cbn; lia]].
      exact (shows_scrolled _ _ _ _ _ G1 Hs Hm1 Hm2).
    + apply changes_fb. intros a Ha. cbn [rows addr pitch with_cursor] in *. unfold scrolled in Hm1. cbn [rows addr pitch with_cursor] in Hm1.
      unfold in_fb in Ha. pose proof (line_bound w G (16 * rows w) ltac:(lia)). pose proof (line_bound w G (16 * (rows w - 1)) ltac:(lia)).
      assert (16 * (rows w - 1) * pitch w <= 16 * rows w * pitch w) by nia. rewrite Hm2, Hm1.
      repeat match goal with |- context [?x <=? ?y] => destruct (Z.leb_spec x y)
                           | |- context [?x <? ?y] => destruct (Z.ltb_spec x y) end; cbn; (lia || done).
  - split_and!; cbn [fst snd]; [|done|apply changes_refl].
    constructor; [by apply geometry_cursor|done|by split; [|cbn; lia]|by split; [|cbn; lia]].
Qed.

Lemma wp_write_byte w m t b :
  displays w m t -> 0 <= b -> wp (write_byte b) (w, m) (fun _ s => reached w m (t_byte (cols w) (rows w) b t) s).
Proof.
  intros D Hb. unfold write_byte, t_byte. destruct (b =? 10); [by apply wp_newline|].
  assert (forall w m t, displays w m t -> col w < cols w ->
    wp (let* w' := self in draw_char b (col w') (row w') ;; let* c := uadd32 (col w') 1 in upd (with_cursor c (row w'))) (w, m)
      (fun _ s => reached w m (mkTerm (fun r c => if (r =? t_row t) && (c =? t_col t) then b else grid t r c) (t_col t + 1) (t_row t)) s)) as Hput.
  { clear w m t D. intros w m t [G Hs [Ec Hc] [Er Hr]] Hlt. pose proof (cols_width w G). pose proof (go_size _ G).
    pose proof (go_pitch _ G). pose proof (rows_height w G). pose proof (pitch_pos w G). assert (width w < W32) by nia.
    unfold self. wp_steps. apply wp_draw_char; [done|done|lia|done|]. intros m' Hp. wp_steps. unfold upd. wp_steps.
    split_and!; cbn [fst snd]; [|done|].
    - rewrite <- Ec, <- Er. constructor; [by apply geometry_cursor| |by split; [|cbn; lia]|by split; [|cbn; lia]].
      apply (shows_drawn w m m' (grid t) b (col w) (row w)); [done|lia|done|done|done].
    - apply changes_fb. intros a Ha. apply (proj2 Hp). intros x y k [] Hk ->. apply Ha, pix_in; [done|lia..]. }
  unfold self at 1. wp_steps. rewrite <- (proj1 (di_col _ _ _ D)).
  destruct (Z.leb_spec (cols w) (col w)) as [Hge|Hlt].
  - eapply wp_mono; [by apply wp_newline|]. intros [] [w1 m1] R1. pose proof R1 as (D1 & S1 & _). cbn [fst snd] in *.
    eapply wp_mono; [apply Hput; [exact D1|]|].
    + rewrite (proj1 (di_col _ _ _ D1)). pose proof (proj2 (go_cols _ (di_geometry _ _ _ D1))). unfold t_newline. destruct (_ <=? _); cbn; lia.
    + intros [] s2 R2. exact (reached_trans w m _ _ (w1, m1) s2 R1 R2).
  - wp_step. by apply Hput.
Qed.

Lemma wp_write_str s w m t :
  displays w m t -> wp (write_str s) (w, m) (fun _ st => reached w m (t_print (cols w) (rows w) s t) st).
Proof.
  revert w m t. induction s as [|b s IH]; intros w m t D; cbn [write_str].
  - wp_step. split_and!; [done| |apply changes_refl]. unfold same_screen. by destruct w.
  - apply wp_bind. assert (0 <= sanitise b) as Hb.
    { unfold sanitise. destruct (_ || _) eqn:E; [|lia]. apply orb_true_iff in E as [E|E]; [apply andb_true_iff in E as [E _]|]; lia. }
    eapply wp_mono; [by apply wp_write_byte|]. intros [] [w1 m1] R1. pose proof R1 as (D1 & S1 & _). cbn [fst snd] in *.
    eapply wp_mono; [by apply IH|]. intros [] s2 R2. pose proof (reached_trans w m _ _ (w1, m1) s2 R1 R2) as R.
    unfold same_screen in S1. rewrite S1 in R. exact R.
Qed.

(** A framebuffer the console can use. *)
Record info_ok (i : FramebufferInfo) : Prop := {
  io_width : 8 <= fb_width i;
  io_height : 16 <= fb_height i;
  io_pitch : 4 * fb_width i <= fb_pitch i;
  io_size : fb_height i * fb_pitch i < W32;
  io_addr : 0 <= virt_addr i /\ virt_addr i + fb_height i * fb_pitch i <= W64
}.

(** The console that [init_from_info] sets up. *)
Definition fresh_console (i : FramebufferInfo) : FbWriter :=
  mkFb (virt_addr i) (fb_width i) (fb_height i) (fb_pitch i) 4 16 8 0 0 0 (fb_width i / CHAR_W) (fb_height i / CHAR_H).

(** A cleared framebuffer shows the blank terminal. *)
Lemma run_init_from_info i c m : info_ok i -> bits_per_pixel i = 32 ->
  exists m', init_from_info i (c, m) = Ok (tt, (Some (fresh_console i), m')) /\
    displays (fresh_console i) m' t_blank /\ changes (in_fb (fresh_console i)) m m'.
Proof.
  intros [Hw Hh Hp Hsz Ha] Hbits. set (w := fresh_console i).
  assert (1 <= fb_width i / 8) by (apply Z.div_le_lower_bound; lia). assert (1 <= fb_height i / 16) by (apply Z.div_le_lower_bound; lia).
  assert (geometry_ok w) as G by (by constructor).
  assert (0 <= fb_height i * fb_pitch i) by nia.
  assert (wp (init_from_info i) (c, m) (fun _ s => exists m', s = (Some w, m') /\
    forall a, rd m' a = if (virt_addr i <=? a) && (a <? virt_addr i + fb_height i * fb_pitch i) then 0 else rd m a)) as Hi.
  { unfold init_from_info, umul32. rewrite Hbits, (proj2 (Z.ltb_lt _ W32)) by done. cbn [negb Z.eqb Pos.eqb]. wp_steps.
    apply wp_write_bytes; [done|]. intros m' Hm. unfold upd. wp_steps. eauto. }
  apply wp_run in Hi as ([] & ? & Hrun & m1 & -> & Hm1). exists m1. split; [exact Hrun|]. split.
  - constructor; [done| |split; [done|cbn; unfold CHAR_W; lia]|split; [done|cbn; unfold CHAR_H; lia]]. intros r col gx gy k Hr Hc Hx Hy Hk. cbn [grid t_blank].
    pose proof (cols_width w G). pose proof (rows_height w G). pose proof (pix_in w G (8 * col + gx) (16 * r + gy) k ltac:(lia) ltac:(lia) Hk) as Hin.
    unfold in_fb in Hin. rewrite Hm1, (proj2 (Z.leb_le _ _)), (proj2 (Z.ltb_lt _ _)) by (cbn in Hin; lia). cbn.
    unfold cell_pixel. assert (gy / 2 < 8) by (apply Z.div_lt_upper_bound; lia). pose proof (Z.div_pos gy 2 ltac:(lia) ltac:(lia)).
    assert (default 0 (glyph 32 !! Z.to_nat (gy / 2)) = 0) as ->; [|by rewrite Z.bits_0].
    change (glyph 32) with (replicate 8 0). rewrite lookup_replicate_2 by lia. done.
  - apply changes_fb. intros x Hx. unfold in_fb in Hx. cbn in Hx. rewrite Hm1.
    destruct (Z.leb_spec (virt_addr i) x), (Z.ltb_spec x (virt_addr i + fb_height i * fb_pitch i)); cbn; (lia || done).
Qed.

(** Printing on a console that shows a terminal. *)
Lemma run_print s w m t : displays w m t ->
  exists w' m', _print s (Some w, m) = Ok (tt, (Some w', m')) /\ reached w m (t_print (cols w) (rows w) s t) (w', m').
Proof.
  intros D. pose proof (wp_write_str s w m t D) as Hw. apply wp_run in Hw as ([] & [w' m'] & Hrun & R).
  exists w', m'. split; [|done]. unfold _print. by rewrite Hrun.
Qed.

(** A console depends on the bytes of its framebuffer only. *)
Lemma displays_frame w m m' t : displays w m t -> (forall x, in_fb w x -> rd m' x = rd m x) -> displays w m' t.
Proof.
  intros [G Hs Hc Hr] Hm. split; [done| |done|done]. intros r c gx gy k H1 H2 H3 H4 H5. rewrite Hm; [by apply Hs|].
  pose proof (cols_width w G). pose proof (rows_height w G). apply pix_in; [done|lia|lia|done].
Qed.

(** C19: printing on a fresh console never panics, changes no byte outside the
    framebuffer, and leaves on the screen exactly the glyphs of the terminal's
    grid, with the cursor where the terminal has it, whatever the text
    (wrapping, newlines, scrolling, unprintable bytes); a framebuffer of
    another depth than 32 bits is left alone. *)
Theorem fb_print i s m :
  info_ok i ->
  if bits_per_pixel i =? 32
  then exists w m', (init_from_info i ;; _print s) (None, m) = Ok (tt, (Some w, m')) /\
         displays w m' (t_print (fb_width i / 8) (fb_height i / 16) s t_blank) /\
         (forall x, ~ (virt_addr i <= x < virt_addr i + fb_height i * fb_pitch i) -> rd m' x = rd m x)
  else (init_from_info i ;; _print s) (None, m) = Ok (tt, (None, m)).
Proof.
  intros Hok. destruct (Z.eqb_spec (bits_per_pixel i) 32) as [Hb|Hb].
  2: { unfold init_from_info. by rewrite (proj2 (Z.eqb_neq _ _) Hb). }
  destruct (run_init_from_info i None m Hok Hb) as (m1 & Hrun & D & Hc1).
  destruct (run_print s _ m1 t_blank D) as (w2 & m2 & Hrun2 & D2 & _ & Hc2).
  exists w2, m2. split; [unfold bind; by rewrite Hrun|]. split; [exact D2|].
  intros x Hx. cbn [snd] in Hc2. by rewrite (changes_eq _ _ _ x Hc2), (changes_eq _ _ _ x Hc1).
Qed.

(** A screen of two rows of three columns. *)
Definition fb0 : FramebufferInfo := mkFbInfo 4096 4096 24 32 96 32 3072 16 8 0.

Lemma fb_print_witness :
  exists w m', (init_from_info fb0 ;; _print [72; 10; 255]) (None, ∅) = Ok (tt, (Some w, m')) /\
    col w = 1 /\ row w = 1 /\ shows w m' (grid (t_print 3 2 [72; 10; 255] t_blank)).
Proof.
  destruct (fb_print fb0 [72; 10; 255] ∅) as (w & m' & Hrun & D & _); [by constructor|].
  exists w, m'. split; [exact Hrun|]. destruct D as [_ Hs [-> _] [-> _]]. by split_and!.
Defined.
