(* ===== verification/Limine.v ===== *)
(** * What the boot loader hands over

    src/src/limine_data.rs: the memory map and the other responses of the
    Limine boot protocol, copied into plain values ([harvest]), and the return
    of the reclaimable memory to the buddy allocator ([release]).

    The limine crate is not part of this repository: its responses are the
    argument [Responses], and its numbers for the kinds of memory the parameter
    [LimineTypes].  The alignment functions of the bitwise crate are the
    parameter [Align], with their documented results as [AlignLaws]; rounding up
    may overflow, and what it does then (panic or return) the laws leave open. *)

From S2P Require Import Prelude Buddy Framebuffer.

(** ** Parameters *)
Class LimineTypes := {
  MEMMAP_USABLE : Z;
  MEMMAP_BOOTLOADER_RECLAIMABLE : Z;
  MEMMAP_ACPI_RECLAIMABLE : Z;
  MEMMAP_ACPI_NVS : Z;
  MEMMAP_EXECUTABLE_AND_MODULES : Z;
  MEMMAP_FRAMEBUFFER : Z;
  MEMMAP_BAD_MEMORY : Z
}.

Class Align := {
  align_up : Z -> Z -> option Z;   (* [None]: the call panics *)
  align_down : Z -> Z -> Z
}.

Class AlignLaws (A : Align) : Prop := {
  align_down_law x : 0 <= x < W64 -> align_down x 4096 = x - x mod 4096;
  align_up_law x : 0 <= x -> x + 4095 < W64 -> align_up x 4096 = Some ((x + 4095) - (x + 4095) mod 4096)
}.

(** A framebuffer as the protocol describes it. *)
Record RawFramebuffer : Type := mkRawFb {
  raw_address : Z;
  raw_width : Z;
  raw_height : Z;
  raw_pitch : Z;
  raw_bpp : Z;
  red_mask_shift : Z;
  green_mask_shift : Z;
  blue_mask_shift : Z
}.

Record Entry : Type := mkEntry {
  e_base : Z;
  e_length : Z;
  e_type : Z
}.

(** The responses, and the two linker symbols. *)
Record Responses : Type := mkResponses {
  rs_hhdm : option Z;
  rs_kernel : option (Z * Z);               (* physical, virtual base *)
  rs_memmap : option (list Entry);
  rs_framebuffers : option (list RawFramebuffer);
  rs_rsdp : option Z;
  rs_bootloader : option (list Z * list Z); (* name, version *)
  kernel_start : Z;
  kernel_end : Z
}.

(** ** Data *)
Inductive MemoryRegionType : Type :=
| Usable
| BootloaderReclaimable
| AcpiReclaimable
| AcpiNvs
| ExecutableAndModules
| Framebuffer
| BadMemory
| Reserved.

#[export] Instance MemoryRegionType_eq_dec : EqDecision MemoryRegionType.
Proof. solve_decision. Defined.

Definition is_immediately_usable (t : MemoryRegionType) : bool := match t with Usable => true | _ => false end.
Definition is_reclaimable (t : MemoryRegionType) : bool :=
  match t with BootloaderReclaimable | AcpiReclaimable => true | _ => false end.

Record MemoryRegion : Type := mkRegion {
  r_base : Z;
  r_length : Z;
  region_type : MemoryRegionType
}.

Record BootloaderInfo : Type := mkBootloader {
  name : list Z;
  name_len : Z;
  version : list Z;
  version_len : Z
}.

(** [core::str::from_utf8] accepts the encodings of RFC 3629: shortest forms,
    no surrogates, nothing above U+10FFFF. *)
Definition cont (b : Z) : bool := (128 <=? b) && (b <=? 191).
Definition within (lo hi b : Z) : bool := (lo <=? b) && (b <=? hi).

(** Bounds on the second byte of a three-byte and of a four-byte encoding. *)
Definition second3 (b c : Z) : bool :=
  if b =? 224 then within 160 191 c else if b =? 237 then within 128 159 c else cont c.
Definition second4 (b c : Z) : bool :=
  if b =? 240 then within 144 191 c else if b =? 244 then within 128 143 c else cont c.

Fixpoint utf8_valid (s : list Z) : bool :=
  match s with
  | [] => true
  | b :: s1 =>
      if within 0 127 b then utf8_valid s1
      else match s1 with
      | [] => false
      | c :: s2 =>
          if within 194 223 b then cont c && utf8_valid s2
          else match s2 with
          | [] => false
          | d :: s3 =>
              if within 224 239 b then second3 b c && cont d && utf8_valid s3
              else match s3 with
              | [] => false
              | e :: s4 => within 240 244 b && second4 b c && cont d && cont e && utf8_valid s4
              end
          end
      end
  end.

(** ["<invalid>"]. *)
Definition invalid_name : list Z := [60; 105; 110; 118; 97; 108; 105; 100; 62].

(** The slice [[..len]] of an array of 64 bytes, read as text. *)
Definition text_of {S} (bytes : list Z) (len : Z) : M S (list Z) :=
  assert (len <=? 64) ;;
  let s := take (Z.to_nat len) bytes in
  ret (if utf8_valid s then s else invalid_name).

Definition name_str {S} (i : BootloaderInfo) : M S (list Z) := text_of (name i) (name_len i).
Definition version_str {S} (i : BootloaderInfo) : M S (list Z) := text_of (version i) (version_len i).

Definition MAX_REGIONS : Z := 512.

Record LimineData : Type := mkLimine {
  hhdm_offset : Z;
  kernel_phys_start : Z;
  kernel_phys_end : Z;
  kernel_virt_start : Z;
  kernel_virt_end : Z;
  region_array : list MemoryRegion;
  region_count : Z;
  framebuffer : option FramebufferInfo;
  rsdp_phys : option Z;
  bootloader_info : option BootloaderInfo
}.

Definition regions (d : LimineData) : list MemoryRegion := take (Z.to_nat (region_count d)) (region_array d).
Definition usable_regions (d : LimineData) : list MemoryRegion :=
  filter (fun r => is_immediately_usable (region_type r) = true) (regions d).
Definition reclaimable_regions (d : LimineData) : list MemoryRegion :=
  filter (fun r => is_reclaimable (region_type r) = true) (regions d).

Section limine.
Context {T : LimineTypes} {AL : Align}.

Definition region_end {S} (r : MemoryRegion) : M S Z := uadd (r_base r) (r_length r).
Definition aligned_base {S} (r : MemoryRegion) : M S Z := expect (align_up (r_base r) 4096).
Definition aligned_end {S} (r : MemoryRegion) : M S Z :=
  let* e := region_end r in ret (align_down e 4096).
Definition has_pages {S} (r : MemoryRegion) : M S bool :=
  let* e := aligned_end r in
  let* b := aligned_base r in ret (b <? e).

(** ** [harvest] *)
Definition classify (t : Z) : MemoryRegionType :=
  if t =? MEMMAP_USABLE then Usable
  else if t =? MEMMAP_BOOTLOADER_RECLAIMABLE then BootloaderReclaimable
  else if t =? MEMMAP_ACPI_RECLAIMABLE then AcpiReclaimable
  else if t =? MEMMAP_ACPI_NVS then AcpiNvs
  else if t =? MEMMAP_EXECUTABLE_AND_MODULES then ExecutableAndModules
  else if t =? MEMMAP_FRAMEBUFFER then Framebuffer
  else if t =? MEMMAP_BAD_MEMORY then BadMemory
  else Reserved.

Fixpoint harvest_regions {S} (entries : list Entry) (array : list MemoryRegion) (count : Z) : M S (list MemoryRegion * Z) :=
  match entries with
  | [] => ret (array, count)
  | e :: entries' =>
      if MAX_REGIONS <=? count then ret (array, count)
      else
        let* array' := aset array count (mkRegion (e_base e) (e_length e) (classify (e_type e))) in
        harvest_regions entries' array' (count + 1)
  end.

Definition harvest_framebuffer {S} (hhdm : Z) (fbs : option (list RawFramebuffer)) : M S (option FramebufferInfo) :=
  match fbs ≫= head with
  | None => ret None
  | Some fb =>
      let* phys := usub (raw_address fb) hhdm in
      let* size := umul (raw_height fb) (raw_pitch fb) in
      ret (Some (mkFbInfo (raw_address fb) phys (raw_width fb mod W32) (raw_height fb mod W32) (raw_pitch fb mod W32)
        (raw_bpp fb) size (red_mask_shift fb) (green_mask_shift fb) (blue_mask_shift fb)))
  end.

(** A string cut to 63 bytes in an array of 64. *)
Definition copy_name (s : list Z) : list Z * Z :=
  let n := Nat.min (length s) 63 in
  (take n s ++ replicate (64 - n) 0, Z.of_nat n).

Definition harvest_bootloader (b : option (list Z * list Z)) : option BootloaderInfo :=
  match b with
  | None => None
  | Some (nm, ver) =>
      let (a, n) := copy_name nm in
      let (v, k) := copy_name ver in
      Some (mkBootloader a n v k)
  end.

(** The state is [HARVESTED]. *)
Definition harvest (r : Responses) : M bool LimineData :=
  let* harvested := get in
  put true ;;
  assert (negb harvested) ;;
  let* hhdm := expect (rs_hhdm r) in
  let* kernel := expect (rs_kernel r) in
  let kernel_size := Z.max 0 (kernel_end r - kernel_start r) in
  let* virt_end := uadd (snd kernel) kernel_size in
  let* phys_end := uadd (fst kernel) kernel_size in
  let* phys_end := expect (align_up phys_end 4096) in
  let* entries := expect (rs_memmap r) in
  let* rc := harvest_regions entries (replicate (Z.to_nat MAX_REGIONS) (mkRegion 0 0 Reserved)) 0 in
  let* fb := harvest_framebuffer hhdm (rs_framebuffers r) in
  ret (mkLimine hhdm (fst kernel) phys_end (snd kernel) virt_end (fst rc) (snd rc) fb
    (option_map (fun a => Z.max 0 (a - hhdm)) (rs_rsdp r)) (harvest_bootloader (rs_bootloader r))).

(** ** [release] *)
Fixpoint release_loop (hhdm sp_phys_page : Z) (rs : list MemoryRegion) : M BState unit :=
  match rs with
  | [] => ret tt
  | r :: rs' =>
      let* base := aligned_base r in
      let* end_ := aligned_end r in
      (if end_ <=? base then ret tt
       else if base <? 0x100000 then ret tt
       else if (base <=? sp_phys_page) && (sp_phys_page <? end_) then ret tt
       else
         let page_count := (end_ - base) / 4096 in
         if page_count =? 0 then ret tt
         else let* v := uadd hhdm base in add_region v page_count) ;;
      release_loop hhdm sp_phys_page rs'
  end.

(** The stack pointer is an argument. *)
Definition release (current_sp : Z) (d : LimineData) : M BState unit :=
  let* sp := usub current_sp (hhdm_offset d) in
  release_loop (hhdm_offset d) (Z.land sp (not64 0xFFF)) (reclaimable_regions d).
End limine.

(** The numbers of the boot protocol, for concrete runs. *)
#[export] Instance limine_types : LimineTypes := {
  MEMMAP_USABLE := 0;
  MEMMAP_BOOTLOADER_RECLAIMABLE := 5;
  MEMMAP_ACPI_RECLAIMABLE := 2;
  MEMMAP_ACPI_NVS := 3;
  MEMMAP_EXECUTABLE_AND_MODULES := 6;
  MEMMAP_FRAMEBUFFER := 7;
  MEMMAP_BAD_MEMORY := 4
}.

(** The rounding of the bitwise crate. *)
#[export] Instance align_std : Align := {
  align_up x a := if x + a - 1 <? W64 then Some ((x + a - 1) - (x + a - 1) mod a) else None;
  align_down x a := x - x mod a
}.

#[export] Instance align_std_laws : AlignLaws align_std.
Proof.
  split; intros x ?; [done|]. intros Hx. unfold align_up, align_std. replace (x + 4096 - 1) with (x + 4095) by lia.
  by rewrite (proj2 (Z.ltb_lt _ _)).
Qed.
