(* ===== verification/LimineSpec.v ===== *)
(** * What [harvest] copies out of the boot loader

    src/src/limine_data.rs against the responses it reads: which responses make
    it panic, and what the copied values are otherwise, up to the texts that
    [name_str] and [version_str] show. *)

From S2P Require Import Prelude Framebuffer Limine.

Section harvest.
Context {T : LimineTypes} {AL : Align} {ALL : AlignLaws AL}.

(** ** The memory map *)

Definition region_of (e : Entry) : MemoryRegion := mkRegion (e_base e) (e_length e) (classify (e_type e)).

(** The loop fills the array from [count] on, with as many entries as fit. *)
Lemma wp_harvest_regions {S} (s : S) es : forall array count Q,
  0 <= count <= MAX_REGIONS -> length array = Z.to_nat MAX_REGIONS ->
  (forall array',
     let n := Z.min (Z.of_nat (length es)) (MAX_REGIONS - count) in
     length array' = Z.to_nat MAX_REGIONS ->
     take (Z.to_nat (count + n)) array' = take (Z.to_nat count) array ++ (region_of <$> take (Z.to_nat n) es) ->
     Q (array', count + n) s) ->
  wp (harvest_regions es array count) s Q.
Proof.
  induction es as [|e es IH]; intros array count Q Hc Hlen HQ; cbn [harvest_regions].
  { apply wp_ret. replace count with (count + Z.min (Z.of_nat (length (@nil Entry))) (MAX_REGIONS - count))
      at 1 by (simpl; lia). apply HQ; [done|]. simpl. rewrite Z.min_l by lia. by rewrite Z.add_0_r, app_nil_r. }
  destruct (Z.leb_spec MAX_REGIONS count).
  { apply wp_ret. replace (array, count) with (array, count + Z.min (Z.of_nat (length (e :: es))) (MAX_REGIONS - count))
      by (f_equal; simpl; lia). apply HQ; [done|].
    replace (Z.min _ _) with 0 by (simpl; lia). by rewrite Z.add_0_r, app_nil_r. }
  apply wp_bind, wp_aset; [lia|]. apply IH; [lia|by rewrite length_insert|].
  intros array' n Hlen' Htake. subst n. set (n := Z.min (Z.of_nat (length es)) (MAX_REGIONS - (count + 1))) in *.
  assert (Z.min (Z.of_nat (length (e :: es))) (MAX_REGIONS - count) = n + 1) as Hn
    by (cbn [length]; lia).
  replace (count + 1 + n) with (count + (n + 1)) in * by lia. rewrite <- Hn. apply HQ; [done|]. rewrite Hn, Htake.
  replace (Z.to_nat (count + 1)) with (Datatypes.S (Z.to_nat count)) by lia.
  replace (Z.to_nat (n + 1)) with (Datatypes.S (Z.to_nat n)) by lia.
  rewrite (take_S_r _ _ (region_of e)) by (apply list_lookup_insert_eq; lia).
  rewrite take_insert_ge by lia. cbn [take]. by rewrite fmap_cons, <- app_assoc.
Qed.

Lemma filter_regions (P : MemoryRegionType -> bool) (p : Entry -> Prop) `{!forall e, Decision (p e)} (es : list Entry) :
  (forall e, P (classify (e_type e)) = true <-> p e) ->
  filter (fun r => P (region_type r) = true) (region_of <$> es) = region_of <$> filter p es.
Proof.
  intros HP. induction es as [|e es IH]; [done|]. rewrite fmap_cons, !filter_cons, IH.
  destruct (decide (p e)) as [Hp|Hp], (decide (P (region_type (region_of e)) = true)) as [HPe|HPe]; cbn [region_of region_type] in HPe;
    rewrite HP in HPe; done.
Qed.

Lemma classify_usable t : is_immediately_usable (classify t) = true <-> t = MEMMAP_USABLE.
Proof. unfold classify. repeat case_match; rewrite ?Z.eqb_eq, ?Z.eqb_neq in *; naive_solver. Qed.
Definition reclaimable_type (t : Z) : Prop :=
  t <> MEMMAP_USABLE /\ (t = MEMMAP_BOOTLOADER_RECLAIMABLE \/ t = MEMMAP_ACPI_RECLAIMABLE).

Lemma classify_reclaimable t : is_reclaimable (classify t) = true <-> reclaimable_type t.
Proof.
  unfold classify, reclaimable_type. repeat case_match; rewrite ?Z.eqb_eq, ?Z.eqb_neq in *; naive_solver.
Qed.

#[export] Instance reclaimable_type_dec t : Decision (reclaimable_type t).
Proof. unfold reclaimable_type. apply _. Defined.

(** ** Texts *)

(** What a string of the boot loader reads as after its copy: its first 63
    bytes, when they are a text by themselves. *)
Definition shown (s : list Z) : list Z := if utf8_valid (take 63 s) then take 63 s else invalid_name.

Lemma copied_text {S} (st : S) (s : list Z) Q :
  Q (shown s) st -> wp (text_of (fst (copy_name s)) (snd (copy_name s))) st Q.
Proof.
  intros HQ. unfold copy_name, text_of. cbn [fst snd]. set (n := Nat.min (length s) 63).
  apply wp_bind, wp_assert; [apply Z.leb_le; lia|]. apply wp_ret.
  rewrite Nat2Z.id, take_app_le, take_take, Nat.min_id by (rewrite length_take; lia).
  assert (take n s = take 63 s) as ->; [|exact HQ].
  destruct (decide (length s <= 63)%nat); [rewrite !take_ge; lia || done|]. f_equal. lia.
Qed.

Lemma ascii_valid s : Forall (fun b => 0 <= b <= 127) s -> utf8_valid s = true.
Proof.
  induction 1 as [|b s Hb _ IH]; [done|]. cbn [utf8_valid]. unfold within.
  rewrite (proj2 (Z.leb_le _ _)), (proj2 (Z.leb_le _ _)) by lia. exact IH.
Qed.

(** ** The whole of [harvest] *)

Definition image_size (r : Responses) : Z := Z.max 0 (kernel_end r - kernel_start r).

Definition fb_ok (hhdm : Z) (fb : RawFramebuffer) : Prop :=
  hhdm <= raw_address fb /\ raw_height fb * raw_pitch fb < W64.

Definition fb_info (hhdm : Z) (fb : RawFramebuffer) : FramebufferInfo :=
  mkFbInfo (raw_address fb) (raw_address fb - hhdm) (raw_width fb mod W32) (raw_height fb mod W32)
    (raw_pitch fb mod W32) (raw_bpp fb) (raw_height fb * raw_pitch fb)
    (red_mask_shift fb) (green_mask_shift fb) (blue_mask_shift fb).

Definition first_fb (r : Responses) : option RawFramebuffer := rs_framebuffers r ≫= head.

(** The responses [harvest] accepts: the offset of the direct map, the kernel's
    address and the memory map are there, and no sum overflows. *)
Record harvestable (r : Responses) : Prop := mkHarvestable {
  hb_hhdm : is_Some (rs_hhdm r);
  hb_kernel : is_Some (rs_kernel r);
  hb_memmap : is_Some (rs_memmap r);
  hb_virt : forall p v, rs_kernel r = Some (p, v) -> v + image_size r < W64;
  hb_phys : forall p v, rs_kernel r = Some (p, v) -> p + image_size r < W64;
  hb_round : forall p v, rs_kernel r = Some (p, v) -> is_Some (align_up (p + image_size r) 4096);
  hb_fb : forall h fb, rs_hhdm r = Some h -> first_fb r = Some fb -> fb_ok h fb
}.

(** What the harvested data says of the responses. *)
Record harvested_from (r : Responses) (d : LimineData) : Prop := mkHarvestedFrom {
  hf_hhdm : rs_hhdm r = Some (hhdm_offset d);
  hf_kernel : rs_kernel r = Some (kernel_phys_start d, kernel_virt_start d);
  hf_virt_end : kernel_virt_end d = kernel_virt_start d + image_size r;
  hf_phys_end : 0 <= kernel_phys_start d -> kernel_phys_start d + image_size r + 4095 < W64 ->
    kernel_phys_end d mod 4096 = 0 /\
    kernel_phys_start d + image_size r <= kernel_phys_end d < kernel_phys_start d + image_size r + 4096;
  hf_regions : regions d = region_of <$> take 512 (default [] (rs_memmap r));
  hf_usable : usable_regions d =
    region_of <$> filter (fun e => e_type e = MEMMAP_USABLE) (take 512 (default [] (rs_memmap r)));
  hf_reclaimable : reclaimable_regions d =
    region_of <$> filter (fun e => reclaimable_type (e_type e)) (take 512 (default [] (rs_memmap r)));
  hf_fb : framebuffer d = fb_info (hhdm_offset d) <$> first_fb r;
  hf_rsdp : rsdp_phys d = (fun a => Z.max 0 (a - hhdm_offset d)) <$> rs_rsdp r;
  hf_names : match rs_bootloader r, bootloader_info d with
    | Some (nm, ver), Some i => forall S (st : S),
        name_str i st = Ok (shown nm, st) /\ version_str i st = Ok (shown ver, st)
    | None, None => True
    | _, _ => False
    end
}.

Lemma wp_harvest_framebuffer {S} (s : S) h fbs (Q : option FramebufferInfo -> S -> Prop) :
  (forall fb, fbs ≫= head = Some fb -> fb_ok h fb) ->
  Q (fb_info h <$> (fbs ≫= head)) s -> wp (harvest_framebuffer h fbs) s Q.
Proof.
  intros Hok HQ. unfold harvest_framebuffer. destruct (fbs ≫= head) as [fb|]; [|exact HQ].
  destruct (Hok fb eq_refl). wp_steps. exact HQ.
Qed.

Lemma harvest_names b :
  match b, harvest_bootloader b with
  | Some (nm, ver), Some i => forall S (st : S),
      name_str i st = Ok (shown nm, st) /\ version_str i st = Ok (shown ver, st)
  | None, None => True
  | _, _ => False
  end.
Proof.
  destruct b as [[nm ver]|]; [|done]. unfold harvest_bootloader.
  destruct (copy_name nm) as [a n] eqn:En, (copy_name ver) as [v k] eqn:Ev. intros S st.
  assert (forall x bytes len, copy_name x = (bytes, len) -> text_of bytes len st = Ok (shown x, st)) as Ht.
  { intros x bytes len Hx. pose proof (copied_text st x (fun a s => a = shown x /\ s = st) (conj eq_refl eq_refl)) as W.
    rewrite Hx in W. cbn [fst snd] in W. apply wp_run in W as (? & ? & -> & -> & ->). done. }
  split; [exact (Ht _ _ _ En)|exact (Ht _ _ _ Ev)].
Qed.

Lemma wp_harvest r : harvestable r -> wp (harvest r) false (fun d h => h = true /\ harvested_from r d).
Proof.
  intros [[h Hh] [[p v] Hk] [es Hm] Hvirt Hphys Hup Hfb]. destruct (Hup _ _ Hk) as [pe He]. unfold harvest. rewrite Hh, Hk, Hm.
  pose proof (Hvirt _ _ Hk). pose proof (Hphys _ _ Hk). unfold image_size in *.
  do 3 apply wp_bind. apply wp_assert; [done|].
  do 2 (apply wp_bind; eapply wp_expect; [reflexivity|]). cbn [fst snd]. do 2 wp_step.
  do 2 wp_step. apply wp_bind; eapply wp_expect; [exact He|]. apply wp_bind; eapply wp_expect; [reflexivity|]. apply wp_bind.
  apply wp_harvest_regions; [done|by rewrite length_replicate|].
  intros array n Hlen Htake. apply wp_bind, wp_harvest_framebuffer; [by intros; eapply Hfb|].
  wp_step. split; [done|].
  assert (take (Z.to_nat (0 + n)) array = region_of <$> take 512 es) as Hreg.
  { rewrite Htake. change (Z.to_nat 0) with 0%nat. rewrite take_0, app_nil_l. f_equal. subst n.
    destruct (decide (length es <= 512)%nat);
      [rewrite !take_ge by (unfold MAX_REGIONS; lia); done|f_equal; unfold MAX_REGIONS; lia]. }
  assert (forall P, filter (fun x => P (region_type x) = true) (take (Z.to_nat (0 + n)) array) = 
    filter (fun x => P (region_type x) = true) (region_of <$> take 512 es)) as Hfilter by (intros P; by rewrite Hreg).
  split; cbn [hhdm_offset kernel_phys_start kernel_phys_end kernel_virt_start kernel_virt_end region_array
    region_count framebuffer rsdp_phys bootloader_info]; rewrite ?Hm; try done.
  - intros Hp Hlt. unfold image_size in *. rewrite align_up_law in He by lia. injection He as <-.
    set (x := p + _ + 4095). pose proof (Z.mod_pos_bound x 4096 ltac:(lia)).
    split; [|subst x; lia].
    replace (x - x mod 4096) with (x / 4096 * 4096) by (pose proof (Z.div_mod x 4096); lia). apply Z.mod_mul. lia.
  - unfold usable_regions, regions. cbn [region_array region_count]. rewrite Hfilter.
    apply (filter_regions is_immediately_usable). intros e. apply classify_usable.
  - unfold reclaimable_regions, regions. cbn [region_array region_count]. rewrite Hfilter.
    apply (filter_regions is_reclaimable). intros e. apply classify_reclaimable.
  - pose proof (harvest_names (rs_bootloader r)) as Hn. by destruct (rs_bootloader r) as [[nm ver]|].
Qed.

(** ** Nothing else is accepted *)

Lemma expect_inv {S A} (o : option A) (s s' : S) a : expect o s = Ok (a, s') -> o = Some a /\ s' = s.
Proof. destruct o; [|done]. by intros [= -> ->]. Qed.
Lemma checked_inv {S} (b : bool) (x : Z) (s s' : S) a :
  (if b then ret x else panic) s = Ok (a, s') -> b = true /\ a = x /\ s' = s.
Proof. destruct b; [|done]. by intros [= -> ->]. Qed.
Lemma bind_inv {S A B} (c : M S A) (k : A -> M S B) (s s' : S) b :
  bind c k s = Ok (b, s') -> exists a s1, c s = Ok (a, s1) /\ k a s1 = Ok (b, s').
Proof. unfold bind. destruct (c s) as [[a s1]| |]; [|done..]. eauto. Qed.

Lemma harvest_framebuffer_inv {S} (s s' : S) h fbs o :
  harvest_framebuffer h fbs s = Ok (o, s') -> forall fb, fbs ≫= head = Some fb -> fb_ok h fb.
Proof.
  unfold harvest_framebuffer. intros Hrun fb Hfb. rewrite Hfb in Hrun.
  apply bind_inv in Hrun as (phys & s1 & (Hle%Z.leb_le & _)%checked_inv & Hrun).
  apply bind_inv in Hrun as (size & s2 & (Hlt%Z.ltb_lt & _)%checked_inv & _). by split.
Qed.

Lemma harvest_inv r h d h' : harvest r h = Ok (d, h') -> h = false /\ harvestable r.
Proof.
  unfold harvest. intros (? & ? & [= <- <-] & Hrun)%bind_inv.
  apply bind_inv in Hrun as (? & ? & [= <- <-] & Hrun).
  apply bind_inv in Hrun as (? & s1 & Ha & Hrun). destruct h; [done|]. split; [done|].
  apply bind_inv in Hrun as (hh & s2 & [Hh _]%expect_inv & Hrun).
  apply bind_inv in Hrun as ([p v] & s3 & [Hk _]%expect_inv & Hrun). cbn [fst snd] in Hrun.
  apply bind_inv in Hrun as (? & s4 & (Hv%Z.ltb_lt & _)%checked_inv & Hrun).
  apply bind_inv in Hrun as (? & s5 & (Hp%Z.ltb_lt & -> & _)%checked_inv & Hrun).
  apply bind_inv in Hrun as (e & s5' & [Hup _]%expect_inv & Hrun).
  apply bind_inv in Hrun as (es & s6 & [Hm _]%expect_inv & Hrun).
  apply bind_inv in Hrun as (rc & s7 & _ & Hrun).
  apply bind_inv in Hrun as (o & s8 & Hfb & _). pose proof (harvest_framebuffer_inv _ _ _ _ _ Hfb) as Hok.
  split; rewrite ?Hh, ?Hk, ?Hm; eauto; unfold image_size.
  - by intros ?? [= <- <-].
  - by intros ?? [= <- <-].
  - intros ?? [= <- <-]. by exists e.
  - intros ? fb [= <-]. apply Hok.
Qed.

(** No loop of [harvest] is bounded by fuel. *)
Lemma harvest_fuel r h : harvest r h <> OutOfFuel.
Proof.
  assert (forall S (s : S) es array count, harvest_regions es array count s <> OutOfFuel) as Hreg.
  { intros S s es. revert s. induction es as [|e es IH]; intros s array count; cbn [harvest_regions]; [done|].
    unfold bind, aset. by repeat case_match. }
  unfold harvest, harvest_framebuffer, bind, get, put, assert, expect, ret, uadd, umul, usub, panic.
  repeat (case_match; simplify_eq/=; try done); exfalso; by eapply Hreg.
Qed.
End harvest.

(** ** A concrete boot loader *)

(** A name of 64 bytes whose 63rd is the first half of a two-byte character. *)
Definition long_name : list Z := replicate 62 97 ++ [195; 169].

Definition loader1 : Responses := mkResponses (Some 0xffff800000000000) (Some (0x100000, 0xffffffff80000000))
  (Some [mkEntry 0 4096 1; mkEntry 4096 8192 0; mkEntry 12288 4096 5])
  (Some [mkRawFb 0xffff8000fd000000 800 600 3200 32 16 8 0; mkRawFb 0 1 1 4 32 16 8 0])
  (Some 0xffff8000000f0000) (Some (long_name, [57; 46; 50])) 0xffffffff80000000 0xffffffff80012345.

(** * Properties *)

(** C20: [harvest] copies the boot loader's data faithfully and refuses
    incomplete data.  A second call panics, and so does a first call whose
    responses lack the direct map's offset, the kernel's address or the memory
    map, or overflow a sum, or when rounding the image's end up panics; every
    other call returns.  Then the regions are the
    first 512 entries of the map, each with its kind, so the usable and
    reclaimable ones are exactly the entries of those kinds among them; the
    kernel's end is the image's end rounded up to a page; the framebuffer is
    the first of the list, at its physical address; and the loader's name and
    version read back as their first 63 bytes, or as "<invalid>" when the cut
    leaves no valid text. *)
Theorem harvest_correct {T : LimineTypes} {AL : Align} {ALL : AlignLaws AL} r h :
  match harvest r h with
  | Ok (d, h') => h = false /\ h' = true /\ harvestable r /\ harvested_from r d
  | Panic => h = true \/ ~ harvestable r
  | OutOfFuel => False
  end.
Proof.
  destruct (harvest r h) as [[d h']| |] eqn:E; [| |by apply harvest_fuel in E].
  - pose proof (harvest_inv _ _ _ _ E) as [-> Hr]. pose proof (wp_harvest r Hr) as W.
    unfold wp in W. rewrite E in W. destruct W as [-> ?]. done.
  - destruct h; [by left|right]. intros Hr. pose proof (wp_harvest r Hr) as W. unfold wp in W. by rewrite E in W.
Qed.

Definition loader1_data : LimineData := default (mkLimine 0 0 0 0 0 [] 0 None None None) (result (harvest loader1) false).

Lemma harvest_correct_witness :
  harvested_from loader1 loader1_data /\
  usable_regions loader1_data = [mkRegion 4096 8192 Usable] /\
  option_map (fun i => result (name_str i) tt) (bootloader_info loader1_data) = Some (Some invalid_name) /\
  harvest loader1 true = Panic.
Proof.
  pose proof (harvest_correct loader1 false) as H.
  rewrite (run_ok (harvest loader1) false loader1_data) in H by (by vm_compute).
  split; [apply H|]. split_and!; by vm_compute.
Defined.
