(* ===== verification/Pmm.v ===== *)
(** * The bitmap page allocator

    src/src/dead_code/pmm.rs: one bit per page of the first 64 GiB, set when
    the page is in use.  The bitmap stands for the set of its free pages:
    [init] and [reclaim_bootloader_memory] add the whole pages of memory-map
    entries to it, [alloc_page] takes the lowest one out and [free_page] puts
    one back, and [TOTAL_FREE_PAGES] counts them.

    The entries are those of the limine crate, as in [Limine]; the kinds of
    memory are its parameter [LimineTypes]. *)

From S2P Require Import Prelude Limine.

(** ** Data *)

Definition MAX_PAGES : Z := 64 * 1024 * 1024 * 1024 / 4096.
Definition BITMAP_SIZE : Z := MAX_PAGES / 8.

(** The statics.  [BITMAP] is an array of [BITMAP_SIZE] bytes: a byte nobody
    wrote has its initial value. *)
Record Pmm : Type := mkPmm {
  BITMAP : gmap Z Z;
  HHDM_OFFSET : Z;
  TOTAL_FREE_PAGES : Z
}.

Definition Pmm_new : Pmm := mkPmm ∅ 0 0.

Definition byte_at (s : Pmm) (i : Z) : Z := default 0xFF (BITMAP s !! i).

Definition bitmap_get (i : Z) : M Pmm Z :=
  assert ((0 <=? i) && (i <? BITMAP_SIZE)) ;; gets (fun s => byte_at s i).
Definition bitmap_set (i v : Z) : M Pmm unit :=
  assert ((0 <=? i) && (i <? BITMAP_SIZE)) ;;
  modify (fun s => mkPmm (<[i := v]> (BITMAP s)) (HHDM_OFFSET s) (TOTAL_FREE_PAGES s)).

Definition set_total (n : Z) : M Pmm unit := modify (fun s => mkPmm (BITMAP s) (HHDM_OFFSET s) n).

(** ** Operations *)

Definition page_index (phys_addr : Z) : Z := phys_addr / 4096.

Definition mark_free (page : Z) : M Pmm unit :=
  let* b := bitmap_get (page / 8) in
  bitmap_set (page / 8) (Z.land b (not8 (Z.shiftl 1 (page mod 8)))).

Definition mark_used (page : Z) : M Pmm unit :=
  let* b := bitmap_get (page / 8) in
  bitmap_set (page / 8) (Z.lor b (Z.shiftl 1 (page mod 8))).

Definition is_free (page : Z) : M Pmm bool :=
  let* b := bitmap_get (page / 8) in
  ret (Z.land b (Z.shiftl 1 (page mod 8)) =? 0).

Definition pmm_align_up {S} (addr align : Z) : M S Z :=
  let* a := uadd addr align in
  let* a := usub a 1 in
  let* mask := usub align 1 in
  ret (Z.land a (not64 mask)).

Definition pmm_align_down {S} (addr align : Z) : M S Z :=
  let* mask := usub align 1 in ret (Z.land addr (not64 mask)).

(** [for page in start_page..end_page] of [init], with the local count. *)
Fixpoint init_pages (kernel_phys_start kernel_phys_end page : Z) (n : nat) (free_pages : Z) : M Pmm Z :=
  match n with
  | O => ret free_pages
  | S n' =>
      let* phys := umul page 4096 in
      if (kernel_phys_start <=? phys) && (phys <? kernel_phys_end)
      then init_pages kernel_phys_start kernel_phys_end (page + 1) n' free_pages
      else
        mark_free page ;;
        let* free_pages := uadd free_pages 1 in
        init_pages kernel_phys_start kernel_phys_end (page + 1) n' free_pages
  end.

Fixpoint reclaim_pages (page : Z) (n : nat) (reclaimed : Z) : M Pmm Z :=
  match n with
  | O => ret reclaimed
  | S n' =>
      mark_free page ;;
      let* reclaimed := uadd reclaimed 1 in
      reclaim_pages (page + 1) n' reclaimed
  end.

(** The entries of one kind, each handed to [pages] by its first page and its
    number of pages. *)
Fixpoint scan_entries (type : Z) (pages : Z -> nat -> Z -> M Pmm Z) (entries : list Entry) (count : Z) : M Pmm Z :=
  match entries with
  | [] => ret count
  | e :: entries' =>
      let* count' :=
        (if negb (e_type e =? type) then ret count
         else
           let* base := pmm_align_up (e_base e) 4096 in
           let* top := uadd (e_base e) (e_length e) in
           let* end_ := pmm_align_down top 4096 in
           if end_ <=? base then ret count
           else if MAX_PAGES <? page_index end_ then ret count
           else pages (page_index base) (Z.to_nat (page_index end_ - page_index base)) count) in
      scan_entries type pages entries' count'
  end.

Section pmm.
Context {T : LimineTypes}.

Definition init (entries : list Entry) (kernel_phys_start kernel_phys_end hhdm_offset : Z) : M Pmm unit :=
  modify (fun s => mkPmm (BITMAP s) hhdm_offset (TOTAL_FREE_PAGES s)) ;;
  let* free_pages := scan_entries MEMMAP_USABLE (init_pages kernel_phys_start kernel_phys_end) entries 0 in
  set_total free_pages.

Definition reclaim_bootloader_memory (entries : list Entry) : M Pmm unit :=
  let* reclaimed := scan_entries MEMMAP_BOOTLOADER_RECLAIMABLE reclaim_pages entries 0 in
  let* total := gets TOTAL_FREE_PAGES in
  let* total := uadd total reclaimed in
  set_total total.
End pmm.

(** The body of the loop of [alloc_page] from page [i] on. *)
Fixpoint alloc_scan (i : Z) (n : nat) : M Pmm (option Z) :=
  match n with
  | O => ret None
  | S n' =>
      let* free := is_free i in
      if free then
        mark_used i ;;
        let* total := gets TOTAL_FREE_PAGES in
        (if 0 <? total then set_total (total - 1) else ret tt) ;;
        let* phys := umul i 4096 in
        ret (Some phys)
      else alloc_scan (i + 1) n'
  end.

Definition alloc_page : M Pmm (option Z) := alloc_scan 0 (Z.to_nat MAX_PAGES).

Definition free_page (phys_addr : Z) : M Pmm unit :=
  mark_free (page_index phys_addr) ;;
  let* total := gets TOTAL_FREE_PAGES in
  let* total := uadd total 1 in
  set_total total.

Definition phys_to_virt (phys : Z) : M Pmm Z := let* off := gets HHDM_OFFSET in uadd phys off.

Definition free_pages : M Pmm Z := gets TOTAL_FREE_PAGES.

(** ** The bitmap as a set of pages *)

Definition bit_clear (s : Pmm) (p : Z) : Prop := Z.testbit (byte_at s (p / 8)) (p mod 8) = false.

(** The free pages of [s] are [F]. *)
Record rep (s : Pmm) (F : gset Z) : Prop := mkRep {
  rep_byte : forall i, 0 <= byte_at s i < 2 ^ 8;
  rep_free : forall p, p ∈ F <-> 0 <= p < MAX_PAGES /\ bit_clear s p
}.

Definition same_rest (s s' : Pmm) : Prop :=
  HHDM_OFFSET s' = HHDM_OFFSET s /\ TOTAL_FREE_PAGES s' = TOTAL_FREE_PAGES s.

Lemma rep_new : rep Pmm_new ∅.
Proof.
  split; [intros i; by vm_compute|]. intros p. split; [set_solver|]. intros [_ Hc]. exfalso.
  unfold bit_clear, byte_at, Pmm_new in Hc. cbn [BITMAP] in Hc. rewrite lookup_empty in Hc. cbn [default from_option] in Hc.
  change 255 with (Z.ones 8) in Hc. pose proof (Z.mod_pos_bound p 8 ltac:(lia)). by rewrite Z.ones_spec_low in Hc by lia.
Qed.

Lemma page_byte p : 0 <= p < MAX_PAGES -> 0 <= p / 8 < BITMAP_SIZE /\ 0 <= p mod 8 < 8 /\ p = 8 * (p / 8) + p mod 8.
Proof.
  assert (MAX_PAGES = 16777216) as -> by done. assert (BITMAP_SIZE = 2097152) as -> by done. intros Hp.
  pose proof (Z.div_mod p 8 ltac:(lia)). pose proof (Z.mod_pos_bound p 8 ltac:(lia)). lia.
Qed.

Lemma byte_at_write s i v j t : byte_at (mkPmm (<[i := v]> (BITMAP s)) (HHDM_OFFSET s) t) j = if decide (i = j) then v else byte_at s j.
Proof. unfold byte_at. cbn [BITMAP]. case_decide; subst; [by rewrite lookup_insert_eq|by rewrite lookup_insert_ne]. Qed.

(** One bit of a byte, set or cleared. *)
Lemma byte_bit b k (used : bool) : 0 <= b < 2 ^ 8 -> 0 <= k < 8 ->
  let b' := if used then Z.lor b (Z.shiftl 1 k) else Z.land b (not8 (Z.shiftl 1 k)) in
  0 <= b' < 2 ^ 8 /\ forall j, 0 <= j < 8 -> Z.testbit b' j = if decide (j = k) then used else Z.testbit b j.
Proof.
  intros Hb Hk b'. assert (forall j, 0 <= j -> Z.testbit b' j = if decide (j = k) then used else Z.testbit b j) as Hbit.
  { intros j Hj. unfold b'. rewrite Z.shiftl_1_l. destruct used.
    - rewrite Z.lor_spec, Z.pow2_bits_eqb by lia.
      destruct (Z.eqb_spec k j), (decide (j = k)); try lia; by rewrite ?orb_true_r, ?orb_false_r.
    - unfold not8. rewrite Z.land_spec, Z.lxor_spec, Z.pow2_bits_eqb by lia. change 255 with (Z.ones 8).
      destruct (Z_lt_le_dec j 8).
      + rewrite Z.ones_spec_low by lia.
        destruct (Z.eqb_spec k j), (decide (j = k)); try lia; by rewrite ?andb_false_r, ?andb_true_r.
      + rewrite (testbit_above b 8 j) by lia. by destruct (decide (j = k)); [lia|]. }
  split; [|intros j Hj; apply Hbit; lia].
  assert (0 <= b') as Hn. { unfold b'. rewrite Z.shiftl_1_l. destruct used; [apply Z.lor_nonneg; split; [lia|apply Z.pow_nonneg; lia]|apply Z.land_nonneg; lia]. }
  split; [done|]. apply bits_range; [lia| |done]. intros j Hj. rewrite Hbit by lia.
  rewrite decide_False by lia. by apply (testbit_above b 8).
Qed.

(** The pages after one bit changed. *)
Lemma rep_mark s F p (used : bool) : rep s F -> 0 <= p < MAX_PAGES ->
  let b := byte_at s (p / 8) in
  let b' := if used then Z.lor b (Z.shiftl 1 (p mod 8)) else Z.land b (not8 (Z.shiftl 1 (p mod 8))) in
  forall t, rep (mkPmm (<[p / 8 := b']> (BITMAP s)) (HHDM_OFFSET s) t) (if used then F ∖ {[p]} else {[p]} ∪ F).
Proof.
  intros [Hb HF] Hp b b' t. destruct (page_byte p Hp) as (_ & Hk & Ep).
  destruct (byte_bit b (p mod 8) used (Hb _) Hk) as [Hr Hbit]. fold b' in Hr, Hbit. split.
  - intros i. rewrite byte_at_write. case_decide; [done|apply Hb].
  - intros q. assert (q ∈ (if used then F ∖ {[p]} else {[p]} ∪ F) <-> if decide (q = p) then used = false else q ∈ F) as ->.
    { destruct used; destruct (decide (q = p)); set_solver. }
    unfold bit_clear. rewrite byte_at_write. destruct (decide (q = p)) as [->|Hne].
    + rewrite decide_True, Hbit, decide_True by (done || lia). tauto.
    + rewrite HF. destruct (decide (p / 8 = q / 8)) as [E|]; [|done].
      split; intros [Hq Hc]; (split; [done|]); revert Hc; unfold bit_clear; destruct (page_byte q Hq) as (_ & Hkq & Eq);
        rewrite Hbit, decide_False by lia; unfold b; by rewrite E.
Qed.

Ltac in_bitmap Hp := apply wp_assert; [by rewrite (proj2 (Z.leb_le 0 _)), (proj2 (Z.ltb_lt _ BITMAP_SIZE)) by (destruct (page_byte _ Hp); lia)|].

Lemma wp_mark_free s F p (Q : unit -> Pmm -> Prop) : rep s F -> 0 <= p < MAX_PAGES ->
  (forall s', rep s' ({[p]} ∪ F) -> same_rest s s' -> Q tt s') -> wp (mark_free p) s Q.
Proof.
  intros R Hp HQ. unfold mark_free, bitmap_get, bitmap_set. do 2 apply wp_bind. in_bitmap Hp. wp_step. apply wp_bind. in_bitmap Hp.
  wp_step. apply HQ; [by apply (rep_mark s F p false)|done].
Qed.

Lemma wp_mark_used s F p (Q : unit -> Pmm -> Prop) : rep s F -> 0 <= p < MAX_PAGES ->
  (forall s', rep s' (F ∖ {[p]}) -> same_rest s s' -> Q tt s') -> wp (mark_used p) s Q.
Proof.
  intros R Hp HQ. unfold mark_used, bitmap_get, bitmap_set. do 2 apply wp_bind. in_bitmap Hp. wp_step. apply wp_bind. in_bitmap Hp.
  wp_step. apply HQ; [by apply (rep_mark s F p true)|done].
Qed.

Lemma clear_test b k : 0 <= k -> (Z.land b (2 ^ k) =? 0) = negb (Z.testbit b k).
Proof.
  intros Hk. assert (Z.land b (2 ^ k) = if Z.testbit b k then 2 ^ k else 0) as ->.
  { apply Z.bits_inj'; intros j Hj. rewrite Z.land_spec, Z.pow2_bits_eqb by done. destruct (Z.eqb_spec k j) as [<-|Hne].
    - rewrite andb_true_r. destruct (Z.testbit b k) eqn:E; [by rewrite Z.pow2_bits_true|by rewrite Z.bits_0].
    - rewrite andb_false_r. destruct (Z.testbit b k); [by rewrite Z.pow2_bits_false|by rewrite Z.bits_0]. }
  pose proof (Z.pow_pos_nonneg 2 k ltac:(lia) Hk). destruct (Z.testbit b k); [|done]. by apply Z.eqb_neq; lia.
Qed.

Lemma wp_page_is_free s F p (Q : bool -> Pmm -> Prop) : rep s F -> 0 <= p < MAX_PAGES ->
  Q (bool_decide (p ∈ F)) s -> wp (is_free p) s Q.
Proof.
  intros [Hb HF] Hp HQ. unfold is_free, bitmap_get. do 2 apply wp_bind. in_bitmap Hp. wp_steps.
  destruct (page_byte p Hp) as (_ & Hk & _). rewrite Z.shiftl_1_l, clear_test by lia.
  replace (negb (Z.testbit (byte_at s (p / 8)) (p mod 8))) with (bool_decide (p ∈ F)); [done|].
  case_bool_decide as Hin; [apply HF in Hin as [_ ->]; done|].
  destruct (Z.testbit _ _) eqn:E; [done|]. destruct Hin. by apply HF.
Qed.

(** ** Entries *)

(** The pages from [page] on, except the kernel's. *)
Definition run_pages (ks ke page : Z) (n : nat) : gset Z :=
  list_to_set (filter (fun p => ~ (ks <= p * 4096 < ke)) (seqZ page (Z.of_nat n))).

Lemma elem_run_pages ks ke page n p :
  p ∈ run_pages ks ke page n <-> page <= p < page + Z.of_nat n /\ ~ (ks <= p * 4096 < ke).
Proof. unfold run_pages. rewrite elem_of_list_to_set, list_elem_of_filter, elem_of_seqZ. tauto. Qed.

(** Marking the pages of an entry adds those not excluded and counts them. *)
Definition marks (ks ke : Z) (pages : Z -> nat -> Z -> M Pmm Z) : Prop := forall page n count s F,
  rep s F -> 0 <= page -> page + Z.of_nat n <= MAX_PAGES -> 0 <= count -> count + Z.of_nat n <= W32 ->
  (forall p, p ∈ run_pages ks ke page n -> p ∉ F) ->
  wp (pages page n count) s (fun count' s' => rep s' (run_pages ks ke page n ∪ F) /\ same_rest s s' /\
    count' = count + Z.of_nat (size (run_pages ks ke page n))).

Lemma run_pages_S ks ke page n : run_pages ks ke page (S n) =
  if decide (ks <= page * 4096 < ke) then run_pages ks ke (page + 1) n else {[page]} ∪ run_pages ks ke (page + 1) n.
Proof.
  apply set_eq. intros p. case_decide; rewrite ?elem_of_union, ?elem_of_singleton, !elem_run_pages; lia.
Qed.

Lemma init_marks ks ke : marks ks ke (init_pages ks ke).
Proof.
  intros page n. revert page. induction n as [|n IH]; intros page count s F R Hp Hn Hc Hb Hnew; cbn [init_pages].
  - wp_step. replace (run_pages ks ke page 0) with (∅ : gset Z) by done. rewrite union_empty_l_L, size_empty.
    split; [done|]. split; [done|lia].
  - assert (MAX_PAGES = 16777216) as EM by done. unfold W32 in Hb. rewrite run_pages_S in *.
    wp_steps; [unfold W64; lia|]. destruct (decide (ks <= page * 4096 < ke)) as [[H1 H2]|Hk].
    + rewrite (proj2 (Z.leb_le _ _) H1), (proj2 (Z.ltb_lt _ _) H2). cbn [andb].
      apply IH; try done; try lia. unfold W32. lia.
    + replace (_ && _) with false. 2: { symmetry. apply andb_false_iff. rewrite Z.leb_gt, Z.ltb_ge. lia. }
      assert (page ∉ run_pages ks ke (page + 1) n) as Hfresh by (rewrite elem_run_pages; lia).
      wp_step. eapply wp_mark_free; [done|lia|]. intros s1 R1 [Hh1 Ht1]. wp_step. apply wp_uadd; [unfold W64; lia|].
      eapply wp_mono; [apply (IH (page + 1) (count + 1) s1 ({[page]} ∪ F)); try done; try lia|].
      * unfold W32. lia.
      * intros p Hin. specialize (Hnew p). set_solver.
      * intros c' s' (R' & [Hh Ht] & ->). rewrite size_union, size_singleton by set_solver. split; [|split; [by split; congruence|lia]].
        by replace ({[page]} ∪ run_pages ks ke (page + 1) n ∪ F) with (run_pages ks ke (page + 1) n ∪ ({[page]} ∪ F)) by set_solver.
Qed.

(** [reclaim_bootloader_memory] excludes nothing. *)
Lemma run_reclaim_pages page n : forall count s, 0 <= page -> page + Z.of_nat n <= MAX_PAGES ->
  reclaim_pages page n count s = init_pages 0 0 page n count s.
Proof.
  revert page. induction n as [|n IH]; intros page count s Hp Hn; [done|]. cbn [reclaim_pages init_pages].
  assert (MAX_PAGES = 16777216) as EM by done. unfold bind at 3, umul. rewrite (proj2 (Z.ltb_lt _ W64)) by (unfold W64; lia).
  cbn [ret]. rewrite (proj2 (Z.ltb_ge (page * 4096) 0)) by lia. rewrite andb_false_r.
  unfold bind. destruct (mark_free page s) as [[[] s1]| |]; [|done|done].
  destruct (uadd count 1 s1) as [[c s2]| |]; [|done|done]. apply IH; lia.
Qed.

Lemma reclaim_marks : marks 0 0 reclaim_pages.
Proof.
  intros page n count s F R Hp Hn Hc Hb Hnew. unfold wp. rewrite run_reclaim_pages by done. by apply init_marks.
Qed.

(** An entry whose end, rounded up, is representable. *)
Definition entry_fits (e : Entry) : Prop := 0 <= e_base e /\ 0 <= e_length e /\ e_base e + e_length e + 4096 < W64.

Definition entry_base (e : Entry) : Z := (e_base e + 4095) / 4096.
Definition entry_end (e : Entry) : Z := (e_base e + e_length e) / 4096.

(** The pages an entry of kind [type] gives: none when it ends beyond the
    bitmap. *)
Definition entry_pages (type ks ke : Z) (e : Entry) : gset Z :=
  if (e_type e =? type) && (entry_end e <=? MAX_PAGES)
  then run_pages ks ke (entry_base e) (Z.to_nat (entry_end e - entry_base e)) else ∅.

Lemma elem_entry_pages type ks ke e p : p ∈ entry_pages type ks ke e <->
  e_type e = type /\ e_base e <= p * 4096 /\ p * 4096 + 4096 <= e_base e + e_length e /\
  e_base e + e_length e < (MAX_PAGES + 1) * 4096 /\ ~ (ks <= p * 4096 < ke).
Proof.
  unfold entry_pages, entry_base, entry_end.
  pose proof (Z.div_mod (e_base e + 4095) 4096 ltac:(lia)). pose proof (Z.mod_pos_bound (e_base e + 4095) 4096 ltac:(lia)).
  pose proof (Z.div_mod (e_base e + e_length e) 4096 ltac:(lia)). pose proof (Z.mod_pos_bound (e_base e + e_length e) 4096 ltac:(lia)).
  destruct (Z.eqb_spec (e_type e) type), (Z.leb_spec ((e_base e + e_length e) / 4096) MAX_PAGES); cbn [andb];
    rewrite ?elem_run_pages, ?elem_of_empty; lia.
Qed.

(** What the rounding functions compute. *)
Lemma wp_align_up {S} x (s : S) (Q : Z -> S -> Prop) : 0 <= x -> x + 4096 < W64 ->
  Q ((x + 4095) / 4096 * 4096) s -> wp (pmm_align_up x 4096) s Q.
Proof.
  intros H0 Hx HQ. unfold pmm_align_up. wp_steps. change (4096 - 1) with (2 ^ 12 - 1). rewrite land_not64_mask by lia.
  change (2 ^ 12) with 4096. pose proof (Z.div_mod (x + 4095) 4096 ltac:(lia)).
  replace (x + 4096 - 1) with (x + 4095) by lia. by replace (_ - _ mod 4096) with ((x + 4095) / 4096 * 4096) by lia.
Qed.

Lemma wp_align_down {S} x (s : S) (Q : Z -> S -> Prop) : 0 <= x < W64 ->
  Q (x / 4096 * 4096) s -> wp (pmm_align_down x 4096) s Q.
Proof.
  intros Hx HQ. unfold pmm_align_down. wp_steps. change (4096 - 1) with (2 ^ 12 - 1). rewrite land_not64_mask by lia.
  change (2 ^ 12) with 4096. pose proof (Z.div_mod x 4096 ltac:(lia)). by replace (x - x mod 4096) with (x / 4096 * 4096) by lia.
Qed.

Lemma rep_size s F : rep s F -> Z.of_nat (size F) <= MAX_PAGES.
Proof.
  intros [_ HF]. assert (F ⊆ list_to_set (seqZ 0 MAX_PAGES)) as Hs.
  { intros p Hp. apply HF in Hp as [Hp _]. apply elem_of_list_to_set, elem_of_seqZ. lia. }
  apply subseteq_size in Hs. rewrite size_list_to_set in Hs by apply NoDup_seqZ. rewrite length_seqZ in Hs.
  assert (0 <= MAX_PAGES) by done. lia.
Qed.

(** The pages of all entries of a kind. *)
Definition map_pages (type ks ke : Z) (entries : list Entry) : gset Z := ⋃ (entry_pages type ks ke <$> entries).

Definition entries_ok (type ks ke : Z) (entries : list Entry) : Prop :=
  Forall entry_fits entries /\ ForallOrdPairs (fun e e' => entry_pages type ks ke e ## entry_pages type ks ke e') entries.

Lemma wp_one_entry type ks ke pages e count s F (Q : Z -> Pmm -> Prop) : marks ks ke pages ->
  rep s F -> entry_fits e -> entry_pages type ks ke e ## F -> 0 <= count <= MAX_PAGES ->
  (forall s', rep s' (entry_pages type ks ke e ∪ F) -> same_rest s s' -> Q (count + Z.of_nat (size (entry_pages type ks ke e))) s') ->
  wp (if negb (e_type e =? type) then ret count
      else
        let* base := pmm_align_up (e_base e) 4096 in
        let* top := uadd (e_base e) (e_length e) in
        let* end_ := pmm_align_down top 4096 in
        if end_ <=? base then ret count
        else if MAX_PAGES <? page_index end_ then ret count
        else pages (page_index base) (Z.to_nat (page_index end_ - page_index base)) count) s Q.
Proof.
  intros Hm R (H1 & H2 & H3) Hd Hc HQ.
  assert (entry_pages type ks ke e = ∅ -> Q count s) as Hnone.
  { intros E. rewrite E, size_empty, Z.add_0_r, union_empty_l_L in HQ. by apply HQ. }
  unfold entry_pages in *. fold (entry_base e) in *. destruct (Z.eqb_spec (e_type e) type); cbn [negb andb] in *; [|wp_step; by apply Hnone].
  apply wp_bind, wp_align_up; [done|lia|]. wp_step. apply wp_uadd; [lia|]. apply wp_bind, wp_align_down; [lia|].
  fold (entry_base e). fold (entry_end e). unfold page_index. rewrite !Z.div_mul by done.
  destruct (Z.leb_spec (entry_end e) MAX_PAGES) as [He|He].
  2: { rewrite (proj2 (Z.ltb_lt _ _) He). destruct (_ <=? _); wp_step; by apply Hnone. }
  rewrite (proj2 (Z.ltb_ge MAX_PAGES _) He). assert (0 <= entry_base e) as Hb by (apply Z.div_pos; lia).
  destruct (Z.leb_spec (entry_end e * 4096) (entry_base e * 4096)) as [Hle|Hlt].
  - wp_step. apply Hnone. rewrite Z2Nat.nonpos by lia. done.
  - assert (MAX_PAGES = 16777216) as EM by done. eapply wp_mono; [apply (Hm _ _ count s F); try done; try lia|].
    + unfold W32. lia.
    + intros c s' (R' & Hs & ->). by apply HQ.
Qed.

Lemma wp_scan_entries type ks ke pages entries : marks ks ke pages -> forall count s F,
  rep s F -> entries_ok type ks ke entries -> map_pages type ks ke entries ## F -> 0 <= count <= Z.of_nat (size F) ->
  wp (scan_entries type pages entries count) s (fun count' s' => rep s' (map_pages type ks ke entries ∪ F) /\ same_rest s s' /\
    count' = count + Z.of_nat (size (map_pages type ks ke entries))).
Proof.
  intros Hm. induction entries as [|e entries IH]; intros count s F R [HF HO] Hd Hc; cbn [scan_entries].
  - wp_step. unfold map_pages. cbn [fmap list_fmap union_list foldr]. rewrite size_empty, union_empty_l_L.
    split; [done|]. split; [done|lia].
  - apply Forall_cons in HF as [He HF]. inversion HO as [|? ? Hhd Htl]; subst.
    unfold map_pages in *. rewrite fmap_cons in *. cbn [union_list foldr] in *. fold (map_pages type ks ke entries) in *.
    set (P := entry_pages type ks ke e) in *. set (Q := map_pages type ks ke entries) in *.
    assert (P ## Q) as HPQ.
    { intros p Hp (X & HX & Hx)%elem_of_union_list. apply list_elem_of_fmap in HX as (e' & -> & He').
      rewrite Forall_forall in Hhd. by apply (Hhd e' He' p). }
    pose proof (rep_size _ _ R). wp_step. eapply wp_one_entry; try done; [set_solver|lia|]. intros s1 R1 S1.
    eapply wp_mono; [apply (IH _ s1 (P ∪ F)); try done; [set_solver|rewrite size_union by set_solver; fold P; lia]|].
    intros c s' (R' & S' & ->). rewrite size_union by done. split; [|split; [destruct S1, S'; split; congruence|fold P; fold Q; lia]].
    by replace (P ∪ Q ∪ F) with (Q ∪ (P ∪ F)) by set_solver.
Qed.

(** ** Allocation *)

Lemma wp_alloc_scan n : forall i s F, rep s F -> 0 <= i -> i + Z.of_nat n = MAX_PAGES -> (forall p, p ∈ F -> i <= p) ->
  wp (alloc_scan i n) s (fun r s' =>
    match r with
    | None => F = ∅ /\ s' = s
    | Some phys => exists p, phys = p * 4096 /\ p ∈ F /\ (forall q, q ∈ F -> p <= q) /\ rep s' (F ∖ {[p]}) /\
        HHDM_OFFSET s' = HHDM_OFFSET s /\ TOTAL_FREE_PAGES s' = if 0 <? TOTAL_FREE_PAGES s then TOTAL_FREE_PAGES s - 1 else TOTAL_FREE_PAGES s
    end).
Proof.
  assert (MAX_PAGES = 16777216) as EM by done.
  induction n as [|n IH]; intros i s F R Hi Hn Hlow; cbn [alloc_scan].
  - wp_step. split; [|done]. apply set_eq. intros p. split; [|set_solver]. intros Hp.
    pose proof (Hlow p Hp). apply (rep_free _ _ R) in Hp as [Hp _]. lia.
  - wp_step. eapply wp_page_is_free; [done|lia|]. case_bool_decide as Hin.
    + wp_step. eapply wp_mark_used; [done|lia|]. intros s1 R1 [Hh Ht]. do 2 wp_step. unfold set_total.
      destruct (0 <? TOTAL_FREE_PAGES s1) eqn:E; wp_steps; try (unfold W64; lia);
        (exists i; split_and!; [done|done|done| |done|by rewrite <- Ht, E]); [|done].
      destruct R1 as [Hb1 HF1]. by split.
    + apply IH; [done|lia|lia|]. intros p Hp. pose proof (Hlow p Hp). assert (p <> i) by (by intros ->). lia.
Qed.

(** ** The allocator under its contract *)

Section contract.
Context {T : LimineTypes}.

(** The machine and the pages its clients hold. *)
Inductive event : Type :=
| EAlloc (p : Z)
| ENone
| EFree (p : Z)
| EReclaim (entries : list Entry).

Definition reclaimed (entries : list Entry) : gset Z := map_pages MEMMAP_BOOTLOADER_RECLAIMABLE 0 0 entries.

(** A client frees only pages it holds; entries are reclaimed at most once. *)
Inductive pmm_step : event -> Pmm * gset Z -> Pmm * gset Z -> Prop :=
| step_alloc s A phys s' :
    alloc_page s = Ok (Some phys, s') -> pmm_step (EAlloc (phys / 4096)) (s, A) (s', {[phys / 4096]} ∪ A)
| step_none s A s' :
    alloc_page s = Ok (None, s') -> pmm_step ENone (s, A) (s', A)
| step_free s A phys s' :
    phys / 4096 ∈ A -> free_page phys s = Ok (tt, s') -> pmm_step (EFree (phys / 4096)) (s, A) (s', A ∖ {[phys / 4096]})
| step_reclaim s A entries s' :
    entries_ok MEMMAP_BOOTLOADER_RECLAIMABLE 0 0 entries ->
    (forall p, p ∈ reclaimed entries -> p ∉ A /\ Z.testbit (byte_at s (p / 8)) (p mod 8) = true) ->
    reclaim_bootloader_memory entries s = Ok (tt, s') -> pmm_step (EReclaim entries) (s, A) (s', A).

(** A set of free pages, the lowest of which is handed out. *)
Inductive pool_step : event -> gset Z * gset Z -> gset Z * gset Z -> Prop :=
| pool_alloc F A p : p ∈ F -> (forall q, q ∈ F -> p <= q) -> pool_step (EAlloc p) (F, A) (F ∖ {[p]}, {[p]} ∪ A)
| pool_none A : pool_step ENone (∅, A) (∅, A)
| pool_free F A p : p ∈ A -> pool_step (EFree p) (F, A) ({[p]} ∪ F, A ∖ {[p]})
| pool_reclaim F A entries : pool_step (EReclaim entries) (F, A) (reclaimed entries ∪ F, A).

(** The machine [s] with the pages [A] held stands for the free pages [F]. *)
Record pmm_ok (s : Pmm) (F A : gset Z) : Prop := mkOk {
  ok_rep : rep s F;
  ok_held : F ## A;
  ok_range : forall p, p ∈ A -> 0 <= p < MAX_PAGES;
  ok_total : TOTAL_FREE_PAGES s = Z.of_nat (size F)
}.

Lemma rep_total s s' F : rep s F -> BITMAP s' = BITMAP s -> rep s' F.
Proof. destruct s, s'. intros [Hb HF]. cbn [BITMAP]. intros ->. by split. Qed.

Lemma size_remove (F : gset Z) p : p ∈ F -> Z.of_nat (size F) = 1 + Z.of_nat (size (F ∖ {[p]})).
Proof.
  intros Hp. rewrite size_difference, size_singleton by set_solver.
  assert (size F <> 0%nat); [|lia]. intros E%size_empty_inv. set_solver.
Qed.

Lemma alloc_page_ok s F A : pmm_ok s F A ->
  wp alloc_page s (fun r s' =>
    match r with
    | None => F = ∅ /\ s' = s
    | Some phys => exists p, phys = p * 4096 /\ p ∈ F /\ (forall q, q ∈ F -> p <= q) /\ pmm_ok s' (F ∖ {[p]}) ({[p]} ∪ A)
    end).
Proof.
  intros [R Hd HA Ht]. eapply wp_mono; [apply (wp_alloc_scan _ 0 s F R); [done| |]|].
  - by rewrite Z2Nat.id.
  - intros p Hp. apply (rep_free _ _ R) in Hp as [? _]. lia.
  - intros [phys|] s'; [|done]. intros (p & -> & Hp & Hmin & R' & _ & Ht'). exists p. split_and!; try done. split; [done|set_solver| |].
    + intros q [->%elem_of_singleton|Hq]%elem_of_union; [by apply (rep_free _ _ R) in Hp as [? _]|by apply HA].
    + pose proof (size_remove F p Hp) as Hs. rewrite Ht', Ht, Hs. rewrite (proj2 (Z.ltb_lt 0 _)) by lia. lia.
Qed.

#[local] Opaque alloc_page.

Lemma free_page_ok s F A phys : pmm_ok s F A -> phys / 4096 ∈ A ->
  wp (free_page phys) s (fun _ s' => pmm_ok s' ({[phys / 4096]} ∪ F) (A ∖ {[phys / 4096]})).
Proof.
  intros [R Hd HA Ht] Hp. unfold free_page, page_index, set_total. wp_step. eapply wp_mark_free; [done|by apply HA|].
  intros s1 R1 [_ Ht1]. assert (MAX_PAGES = 16777216) as EM by done. pose proof (rep_size _ _ R).
  do 3 wp_step. apply wp_uadd; [rewrite Ht1, Ht; unfold W64; lia|]. wp_steps. split; [by eapply rep_total|set_solver|set_solver|].
  cbn [TOTAL_FREE_PAGES]. rewrite size_union, size_singleton by set_solver. rewrite Ht1, Ht. lia.
Qed.

Lemma reclaim_ok s F A entries : pmm_ok s F A -> entries_ok MEMMAP_BOOTLOADER_RECLAIMABLE 0 0 entries ->
  reclaimed entries ## F -> reclaimed entries ## A ->
  wp (reclaim_bootloader_memory entries) s (fun _ s' => pmm_ok s' (reclaimed entries ∪ F) A).
Proof.
  intros [R Hd HA Ht] He H1 H2. unfold reclaim_bootloader_memory, set_total. wp_step.
  eapply wp_mono; [apply (wp_scan_entries _ 0 0 _ _ reclaim_marks 0 s F R He H1); lia|]. intros c s1 (R1 & [_ Ht1] & ->).
  fold (reclaimed entries) in *. pose proof (rep_size _ _ R1) as Hs. rewrite size_union in Hs by done.
  assert (MAX_PAGES = 16777216) as EM by done. do 3 wp_step. apply wp_uadd; [rewrite Ht1, Ht; unfold W64; lia|]. wp_steps.
  split; [by eapply rep_total|set_solver|done|]. cbn [TOTAL_FREE_PAGES]. rewrite size_union by done. rewrite Ht1, Ht. lia.
Qed.

Lemma pmm_step_refines e s A s' A' F : pmm_ok s F A -> pmm_step e (s, A) (s', A') ->
  exists F', pmm_ok s' F' A' /\ pool_step e (F, A) (F', A').
Proof.
  intros I Hs. inversion Hs as [? ? phys ? Hrun|? ? ? Hrun|? ? phys ? Hp Hrun|? ? entries ? He Hnew Hrun]; subst.
  - use_run (alloc_page_ok s F A I) Hrun. destruct Hpost as (p & -> & Hp & Hmin & I'). rewrite Z.div_mul by done.
    exists (F ∖ {[p]}). split; [done|by constructor].
  - use_run (alloc_page_ok s F A' I) Hrun. destruct Hpost as [-> ->]. exists ∅. split; [done|constructor].
  - use_run (free_page_ok s F A phys I Hp) Hrun. eexists. split; [exact Hpost|by constructor].
  - assert (reclaimed entries ## F) as HF.
    { intros p Hp HpF. apply (rep_free _ _ (ok_rep _ _ _ I)) in HpF as [_ Hc]. unfold bit_clear in Hc. destruct (Hnew p Hp). congruence. }
    use_run (reclaim_ok s F A' entries I He HF ltac:(intros p Hp; by apply Hnew)) Hrun. eexists. split; [exact Hpost|constructor].
Qed.

(** The states reached from [init] on a memory map. *)
Definition pmm_reach (entries : list Entry) (ks ke hhdm : Z) (s : Pmm) (A : gset Z) : Prop :=
  exists s0, init entries ks ke hhdm Pmm_new = Ok (tt, s0) /\ rtc (fun x y => exists e, pmm_step e x y) (s0, ∅) (s, A).

Lemma init_ok entries ks ke hhdm : entries_ok MEMMAP_USABLE ks ke entries ->
  wp (init entries ks ke hhdm) Pmm_new (fun _ s => pmm_ok s (map_pages MEMMAP_USABLE ks ke entries) ∅ /\ HHDM_OFFSET s = hhdm).
Proof.
  intros He. unfold init, set_total. do 3 wp_step.
  eapply wp_mono; [apply (wp_scan_entries _ ks ke _ _ (init_marks ks ke) 0 (mkPmm ∅ hhdm 0) ∅ (rep_total Pmm_new (mkPmm ∅ hhdm 0) _ rep_new eq_refl) He); [set_solver|done]|].
  intros c s (R & [Hh _] & ->). rewrite union_empty_r_L in R. wp_step. split; [|done]. split; [by eapply rep_total|set_solver|set_solver|done].
Qed.

(** C22: [init] on any memory map whose usable entries do not overlap returns;
    the free pages are then exactly the whole pages of usable entries that end
    within the first 64 GiB, without those whose first byte is in the kernel
    image (the page in which an unaligned image starts is freed), and
    [TOTAL_FREE_PAGES] is their number. *)
Theorem pmm_init_correct entries ks ke hhdm : entries_ok MEMMAP_USABLE ks ke entries ->
  exists s F, init entries ks ke hhdm Pmm_new = Ok (tt, s) /\ rep s F /\ HHDM_OFFSET s = hhdm /\
    TOTAL_FREE_PAGES s = Z.of_nat (size F) /\
    forall p, p ∈ F <-> ~ (ks <= p * 4096 < ke) /\ exists e, e ∈ entries /\ e_type e = MEMMAP_USABLE /\
      e_base e <= p * 4096 /\ p * 4096 + 4096 <= e_base e + e_length e /\ e_base e + e_length e < (MAX_PAGES + 1) * 4096.
Proof.
  intros He. pose proof (init_ok entries ks ke hhdm He) as Hw. apply wp_run in Hw as ([] & s & Hrun & [R _ _ Ht] & Hh).
  exists s, (map_pages MEMMAP_USABLE ks ke entries). split_and!; try done. intros p. unfold map_pages. rewrite elem_of_union_list.
  setoid_rewrite list_elem_of_fmap. split.
  - intros (X & (e & -> & Hin) & (? & ? & ? & ? & ?)%elem_entry_pages). split; [done|]. by exists e.
  - intros [Hk (e & Hin & ? & ? & ? & ?)]. eexists. split; [by exists e|]. by apply elem_entry_pages.
Qed.

(** C21: from [init] on, every call that respects the contract (a client frees
    pages it holds, no entry is reclaimed twice) is a step of a pool of pages
    that hands out its lowest free page and fails only when it is empty; free
    and held pages are apart, and [TOTAL_FREE_PAGES] is the number of free
    pages.  [alloc_page] returns in every state. *)
Theorem pmm_refines_pool entries ks ke hhdm s A :
  entries_ok MEMMAP_USABLE ks ke entries -> pmm_reach entries ks ke hhdm s A ->
  exists F, rep s F /\ F ## A /\ TOTAL_FREE_PAGES s = Z.of_nat (size F) /\ is_Some (result alloc_page s) /\
    forall e s' A', pmm_step e (s, A) (s', A') -> exists F', rep s' F' /\ pool_step e (F, A) (F', A').
Proof.
  intros He (s0 & Hrun & Hs). pose proof (init_ok entries ks ke hhdm He) as Hw. use_run Hw Hrun. destruct Hpost as [I0 _].
  assert (exists F, pmm_ok s F A) as [F I].
  { revert Hs I0. generalize (map_pages MEMMAP_USABLE ks ke entries). generalize (∅ : gset Z) as A0. intros A0 F0 Hs I0.
    remember (s0, A0) as x eqn:Ex. remember (s, A) as y eqn:Ey. clear Hrun. revert s0 A0 F0 Ex I0.
    induction Hs as [|x [s1 A1] z (e & Hxy) _ IH]; intros s0 A0 F0 -> I0; [injection Ey as -> ->; by exists F0|].
    destruct (pmm_step_refines _ _ _ _ _ _ I0 Hxy) as (F1 & I1 & _). by eapply IH. }
  exists F. destruct I as [R Hd HA Ht] eqn:EI. split_and!; try done.
  - destruct (wp_result _ _ _ (alloc_page_ok s F A I)) as (r & -> & _). done.
  - intros e s' A' Hst. destruct (pmm_step_refines _ _ _ _ _ _ I Hst) as (F' & I' & Hp). exists F'. split; [apply I'|done].
Qed.
End contract.

(** ** A concrete run *)

(** Two usable entries, the kernel in the first, and a reserved one. *)
Definition pm_entries : list Entry := [mkEntry 4096 16384 0; mkEntry 40960 4096 1; mkEntry 65536 10000 0].
Definition pm1 : Pmm := final (init pm_entries 8192 12288 0) Pmm_new.

Lemma pm_entries_ok : entries_ok MEMMAP_USABLE 8192 12288 pm_entries.
Proof.
  split; [repeat constructor; by vm_compute|]. repeat constructor; intros p; rewrite !elem_entry_pages; cbn [e_type e_base e_length];
    change MEMMAP_USABLE with 0; lia.
Qed.

Lemma pm1_run : init pm_entries 8192 12288 0 Pmm_new = Ok (tt, pm1).
Proof. apply run_ok. by vm_compute. Qed.

Lemma pmm_init_correct_witness : TOTAL_FREE_PAGES pm1 = 5 /\ exists F, rep pm1 F /\ 3 ∈ F /\ 2 ∉ F /\ size F = 5%nat.
Proof.
  destruct (pmm_init_correct pm_entries 8192 12288 0 pm_entries_ok) as (s & F & Hrun & R & _ & Ht & HF).
  destruct (run_inj _ _ _ _ _ _ pm1_run Hrun) as [_ <-].
  assert (TOTAL_FREE_PAGES pm1 = 5) as Et by by vm_compute. split; [done|]. exists F. split_and!; [done| | |lia].
  - apply HF. split; [lia|]. exists (mkEntry 4096 16384 0). split; [by left|]. by vm_compute.
  - intros [H _]%HF. lia.
Defined.

Lemma pmm_refines_pool_witness : exists F, rep pm1 F /\ TOTAL_FREE_PAGES pm1 = Z.of_nat (size F) /\ is_Some (result alloc_page pm1).
Proof.
  destruct (pmm_refines_pool pm_entries 8192 12288 0 pm1 ∅ pm_entries_ok) as (F & R & _ & Ht & Hr & _).
  - exists pm1. split; [exact pm1_run|constructor].
  - exists F. split; [exact R|]. split; [exact Ht|exact Hr].
Defined.
