(* ===== verification/Boot.v ===== *)
(** * Bringing the kernel up

    src/src/memory/{heap,stack,vmm}.rs, src/src/post_stack_state.rs,
    src/src/process.rs and the sequence of src/src/main.rs, over the state of
    all components.  Of the process table there is the slab cache of its
    processes: the seastar crate that implements the rest, and the layout of a
    [Process], is not part of this repository.  Stack contents are not
    modelled. *)

From stdpp Require Import strings.
From S2P Require Import Prelude Pages Slab Serial Buddy BuddySpec Tlsf Paging Interrupts Gdt Timer Framebuffer Limine.

(** Size and alignment of seastar's [Process]. *)
Class ProcessType := {
  size_of_Process : Z;
  align_of_Process : Z
}.

Section boot.
Context {T : LimineTypes} {AL : Align} {B : Bitwise} {G : GdtCrate} {I : Image} {PT : ProcessType}.

(** [{:?}] of a region's type. *)
Definition debug_type (t : MemoryRegionType) : list Z :=
  match t with
  | Usable => text "Usable"
  | BootloaderReclaimable => text "BootloaderReclaimable"
  | AcpiReclaimable => text "AcpiReclaimable"
  | AcpiNvs => text "AcpiNvs"
  | ExecutableAndModules => text "ExecutableAndModules"
  | Limine.Framebuffer => text "Framebuffer"
  | BadMemory => text "BadMemory"
  | Reserved => text "Reserved"
  end.
Definition region_line (r : MemoryRegion) : list Z :=
  hex (r_base r) ++ text "+" ++ hex (r_length r) ++ text " " ++ debug_type (region_type r).

(** ** heap.rs *)

(** The heap's statics and the memory; the buddy allocator is called with
    [page_call]. *)
Abbreviation HState := (TlsfInner * BuddyAllocator * mem)%type.

Definition heap_call {A} (f : M (TlsfInner * mem) A) : M HState A := fun s =>
  match f (fst (fst s), snd s) with
  | Ok (a, s') => Ok (a, ((fst s', snd (fst s)), snd s'))
  | Panic => Panic
  | OutOfFuel => OutOfFuel
  end.

(** [Iterator::min] of [hhdm_offset + r.aligned_base()]. *)
Fixpoint min_virt {S} (hhdm : Z) (rs : list MemoryRegion) : M S (option Z) :=
  match rs with
  | [] => ret None
  | r :: rs' =>
      let* b := aligned_base r in
      let* v := uadd hhdm b in
      let* rest := min_virt hhdm rs' in
      ret (Some (match rest with Some w => Z.min v w | None => v end))
  end.

Definition add_part (hhdm start end_ : Z) : M BState unit :=
  let page_count := (end_ - start) / 4096 in
  if 0 <? page_count then let* v := uadd hhdm start in add_region v page_count else ret tt.

(** One usable region without the kernel's own pages. *)
Definition use_region (kernel_phys_start kernel_phys_end hhdm : Z) (r : MemoryRegion) : M BState unit :=
  let* base := aligned_base r in
  let* end_ := aligned_end r in
  if end_ <=? base then ret tt
  else
    (if base <? kernel_phys_start then add_part hhdm base (Z.min end_ kernel_phys_start) else ret tt) ;;
    (if kernel_phys_end <? end_ then add_part hhdm (Z.max base kernel_phys_end) end_ else ret tt).

Fixpoint add_usable (kernel_phys_start kernel_phys_end hhdm : Z) (rs : list MemoryRegion) : M BState unit :=
  match rs with
  | [] => ret tt
  | r :: rs' =>
      (if negb (bool_decide (region_type r = Usable)) then ret tt
       else use_region kernel_phys_start kernel_phys_end hhdm r) ;;
      add_usable kernel_phys_start kernel_phys_end hhdm rs'
  end.

(** [init] without its log ([memory_heap_init] below prints it). *)
Definition heap_init (rs : list MemoryRegion) (kernel_phys_start kernel_phys_end hhdm : Z) : M HState unit :=
  let kernel_phys_start := align_down kernel_phys_start 4096 in
  let* kernel_phys_end := expect (align_up kernel_phys_end 4096) in
  let* lo := min_virt hhdm (filter (fun r => is_immediately_usable (region_type r) = true) rs) in
  let* lo := expect lo in
  page_call (set_base lo) ;;
  page_call (add_usable kernel_phys_start kernel_phys_end hhdm rs) ;;
  let* p := page_call (alloc_pages 10) in
  let* p := expect p in
  heap_call (init_from_ptr p (Z.shiftl 4096 10)).

(** ** stack.rs *)
Record KernelStack : Type := mkStack {
  top : Z;
  guard_virt : Z
}.

(** [usize::next_power_of_two]. *)
Definition next_power_of_two {S} (x : Z) : M S Z :=
  let p := if x <=? 1 then 1 else 2 ^ (Z.log2 (x - 1) + 1) in
  if p <? W64 then ret p else panic.

Definition alloc_kernel_stack (hhdm min_pages : Z) : M (Cpu * BuddyAllocator * mem) KernelStack :=
  let* a := uadd min_pages 1 in
  let* p := next_power_of_two a in
  let total_order := trailing_zeros p in
  let* total_pages := ushl 1 total_order in
  let* r := page_call (alloc_pages total_order) in
  let* base_virt := expect r in
  unmap hhdm base_virt ;;
  let* size := umul total_pages 0x1000 in
  let* stack_top := uadd base_virt size in
  ret (mkStack stack_top base_virt).

(** ** post_stack_state.rs *)
Record PostStackState : Type := mkPost {
  post_rsdp_phys : option Z;
  boot_stack_region : option (Z * Z)
}.

Record PostCell : Type := mkCell {
  STORED : bool;
  TAKEN : bool;
  CELL : option PostStackState
}.

Definition post_store (st : PostStackState) : M PostCell unit :=
  let* c := get in
  put (mkCell true (TAKEN c) (CELL c)) ;;
  assert (negb (STORED c)) ;;
  let* c := get in
  put (mkCell (STORED c) (TAKEN c) (Some st)).

Definition post_take : M PostCell PostStackState :=
  let* c := get in
  assert (STORED c) ;;
  put (mkCell (STORED c) true (CELL c)) ;;
  assert (negb (TAKEN c)) ;;
  let* c := get in
  put (mkCell (STORED c) (TAKEN c) None) ;;
  expect (CELL c).

(** ** main.rs *)
Record Kernel : Type := mkKernel {
  k_cpu : Cpu;
  k_buddy : BuddyAllocator;
  k_heap : TlsfInner;
  k_mem : mem;
  k_irq : IState;
  k_console : option FbWriter;
  k_harvested : bool;
  k_vmm : option Z;            (* the walker's direct-map offset *)
  k_processes : option SlabCacheInner;   (* the process table's cache *)
  k_post : PostCell;
  k_sp : Z;
  k_IF : bool;
  k_serial : Serial;
  k_gdt : option Segments
}.

(** Running a component's operation on its part of the state. *)
Definition zoom {X A} (view : Kernel -> X) (set : X -> Kernel -> Kernel) (f : M X A) : M Kernel A := fun k =>
  match f (view k) with
  | Ok (a, x) => Ok (a, set x k)
  | Panic => Panic
  | OutOfFuel => OutOfFuel
  end.

Definition on_heap {A} : M HState A -> M Kernel A :=
  zoom (fun k => ((k_heap k, k_buddy k), k_mem k))
    (fun s k => mkKernel (k_cpu k) (snd (fst s)) (fst (fst s)) (snd s) (k_irq k) (k_console k) (k_harvested k) (k_vmm k)
       (k_processes k) (k_post k) (k_sp k) (k_IF k) (k_serial k) (k_gdt k)).
Definition on_buddy {A} : M BState A -> M Kernel A :=
  zoom (fun k => (k_buddy k, k_mem k))
    (fun s k => mkKernel (k_cpu k) (fst s) (k_heap k) (snd s) (k_irq k) (k_console k) (k_harvested k) (k_vmm k)
       (k_processes k) (k_post k) (k_sp k) (k_IF k) (k_serial k) (k_gdt k)).
Definition on_pages {A} : M (Cpu * BuddyAllocator * mem) A -> M Kernel A :=
  zoom (fun k => ((k_cpu k, k_buddy k), k_mem k))
    (fun s k => mkKernel (fst (fst s)) (snd (fst s)) (k_heap k) (snd s) (k_irq k) (k_console k) (k_harvested k) (k_vmm k)
       (k_processes k) (k_post k) (k_sp k) (k_IF k) (k_serial k) (k_gdt k)).
Definition on_irq {A} : M IState A -> M Kernel A :=
  zoom k_irq
    (fun s k => mkKernel (k_cpu k) (k_buddy k) (k_heap k) (k_mem k) s (k_console k) (k_harvested k) (k_vmm k)
       (k_processes k) (k_post k) (k_sp k) (k_IF k) (k_serial k) (k_gdt k)).
Definition on_console {A} : M (option FbWriter * mem) A -> M Kernel A :=
  zoom (fun k => (k_console k, k_mem k))
    (fun s k => mkKernel (k_cpu k) (k_buddy k) (k_heap k) (snd s) (k_irq k) (fst s) (k_harvested k) (k_vmm k)
       (k_processes k) (k_post k) (k_sp k) (k_IF k) (k_serial k) (k_gdt k)).
Definition on_harvested {A} : M bool A -> M Kernel A :=
  zoom k_harvested
    (fun s k => mkKernel (k_cpu k) (k_buddy k) (k_heap k) (k_mem k) (k_irq k) (k_console k) s (k_vmm k)
       (k_processes k) (k_post k) (k_sp k) (k_IF k) (k_serial k) (k_gdt k)).
Definition on_post {A} : M PostCell A -> M Kernel A :=
  zoom k_post
    (fun s k => mkKernel (k_cpu k) (k_buddy k) (k_heap k) (k_mem k) (k_irq k) (k_console k) (k_harvested k) (k_vmm k)
       (k_processes k) s (k_sp k) (k_IF k) (k_serial k) (k_gdt k)).

Definition on_port {A} : M Serial A -> M Kernel A :=
  zoom k_serial
    (fun s k => mkKernel (k_cpu k) (k_buddy k) (k_heap k) (k_mem k) (k_irq k) (k_console k) (k_harvested k) (k_vmm k)
       (k_processes k) (k_post k) (k_sp k) (k_IF k) s (k_gdt k)).
Definition on_segments {A} : M (option Segments) A -> M Kernel A :=
  zoom k_gdt
    (fun s k => mkKernel (k_cpu k) (k_buddy k) (k_heap k) (k_mem k) (k_irq k) (k_console k) (k_harvested k) (k_vmm k)
       (k_processes k) (k_post k) (k_sp k) (k_IF k) (k_serial k) s).

Definition log (t : list Z) : M Kernel unit := on_port (serial_println t).

(** heap.rs with its log: pass 2 names every region before it registers it. *)
Fixpoint log_usable (kernel_phys_start kernel_phys_end hhdm : Z) (rs : list MemoryRegion) : M Kernel unit :=
  match rs with
  | [] => ret tt
  | r :: rs' =>
      (if negb (bool_decide (region_type r = Usable)) then log (text "[memmap] skipping " ++ region_line r)
       else
         log (text "[memmap] using " ++ region_line r) ;;
         on_buddy (use_region kernel_phys_start kernel_phys_end hhdm r)) ;;
      log_usable kernel_phys_start kernel_phys_end hhdm rs'
  end.

Definition memory_heap_init (rs : list MemoryRegion) (kernel_phys_start kernel_phys_end hhdm : Z) : M Kernel unit :=
  let kernel_phys_start := align_down kernel_phys_start 4096 in
  let* kernel_phys_end := expect (align_up kernel_phys_end 4096) in
  let* lo := min_virt hhdm (filter (fun r => is_immediately_usable (region_type r) = true) rs) in
  let* lo := expect lo in
  on_buddy (set_base lo) ;;
  log_usable kernel_phys_start kernel_phys_end hhdm rs ;;
  let* p := on_buddy (alloc_pages 10) in
  let* p := expect p in
  on_heap (heap_call (init_from_ptr p (Z.shiftl 4096 10))).

(** vmm.rs: [Once::call_once] runs the initialiser the first time only. *)
Definition vmm_init (hhdm : Z) : M Kernel unit :=
  let* k := get in
  match k_vmm k with
  | Some _ => ret tt
  | None =>
      on_pages init_pat ;;
      modify (fun k => mkKernel (k_cpu k) (k_buddy k) (k_heap k) (k_mem k) (k_irq k) (k_console k) (k_harvested k)
        (Some hhdm) (k_processes k) (k_post k) (k_sp k) (k_IF k) (k_serial k) (k_gdt k))
  end.

Definition vmm_get : M Kernel Z := let* k := get in expect (k_vmm k).

(** process.rs: the table is its allocator, a slab cache of order 0; here too
    only the first call initialises. *)
Definition process_init : M Kernel unit :=
  let* k := get in
  match k_processes k with
  | Some _ => ret tt
  | None =>
      let* c := expect (SlabCacheInner_new size_of_Process align_of_Process 0) in
      modify (fun k => mkKernel (k_cpu k) (k_buddy k) (k_heap k) (k_mem k) (k_irq k) (k_console k) (k_harvested k)
        (k_vmm k) (Some c) (k_post k) (k_sp k) (k_IF k) (k_serial k) (k_gdt k))
  end.

Definition process_get : M Kernel SlabCacheInner := let* k := get in expect (k_processes k).

(** The cache's operations, on the table that [get] returns. *)
Definition on_processes {A} (f : M (SlabCacheInner * BuddyAllocator * mem) A) : M Kernel A :=
  let* c := process_get in
  zoom (fun k => ((c, k_buddy k), k_mem k))
    (fun s k => mkKernel (k_cpu k) (snd (fst s)) (k_heap k) (snd s) (k_irq k) (k_console k) (k_harvested k) (k_vmm k)
       (Some (fst (fst s))) (k_post k) (k_sp k) (k_IF k) (k_serial k) (k_gdt k)) f.

Definition SlabBacked_alloc : M Kernel (option Z) :=
  on_processes (Slab.alloc size_of_Process align_of_Process).
Definition SlabBacked_dealloc (ptr : Z) : M Kernel unit :=
  on_processes (Slab.dealloc size_of_Process align_of_Process ptr).

(** A result that must be [Ok]. *)
Definition expect_ok {S E A} (r : E + A) : M S A := match r with inr a => ret a | inl _ => panic end.

(** The region of the boot stack: the first reclaimable region above 1 MiB
    that holds the page of the stack pointer. *)
Fixpoint find_boot_stack {S} (hhdm sp_phys : Z) (rs : list MemoryRegion) : M S (option (Z * Z)) :=
  match rs with
  | [] => ret None
  | r :: rs' =>
      let* base := aligned_base r in
      let* end_ := aligned_end r in
      if (0x100000 <=? base) && (base <? end_) && (base <=? sp_phys) && (sp_phys <? end_)
      then
        let pages := (end_ - base) / 4096 in
        if 0 <? pages then let* v := uadd hhdm base in ret (Some (v, pages)) else ret None
      else find_boot_stack hhdm sp_phys rs'
  end.

(** [boot.regions().iter().map(|r| r.end()).max().unwrap_or(0)]. *)
Fixpoint max_end {S} (rs : list MemoryRegion) : M S Z :=
  match rs with
  | [] => ret 0
  | r :: rs' => let* e := region_end r in let* rest := max_end rs' in ret (Z.max e rest)
  end.

Definition LAPIC_PHYS : Z := 0xFEE00000.
Definition LAPIC_SIZE : Z := 0x1000.

(** [print!] and [println!] of vga_buffer.rs write on the framebuffer. *)
Definition print (t : list Z) : M Kernel unit := on_console (_print t).
Definition println (t : list Z) : M Kernel unit := print (t ++ [10]).

Definition log_bootloader (b : option BootloaderInfo) : M Kernel unit :=
  match b with
  | Some bl =>
      let* nm := name_str bl in
      let* ver := version_str bl in
      log (text "[kernel] bootloader: " ++ nm ++ text " " ++ ver)
  | None => ret tt
  end.

Fixpoint log_memmap (rs : list MemoryRegion) : M Kernel unit :=
  match rs with
  | [] => ret tt
  | r :: rs' => log (text "[memmap] " ++ region_line r) ;; log_memmap rs'
  end.

(** [kernel_main] up to the switch of the stack: the boot stack is still in
    use.  What the processor answers to CPUID, and the stack pointers read here
    and in [release], are arguments. *)
Definition kernel_main_setup (r : Responses) (edx current_sp release_sp : Z) : M Kernel KernelStack :=
  log (text "[kernel] booting...") ;;
  let* boot := on_harvested (harvest r) in
  log (text "[kernel] hhdm=" ++ hex (hhdm_offset boot)) ;;
  log (text "[kernel] phys=" ++ hex (kernel_phys_start boot) ++ text ".." ++ hex (kernel_phys_end boot)) ;;
  log_bootloader (bootloader_info boot) ;;
  log_memmap (regions boot) ;;
  on_segments gdt_init ;;
  log (text "[kernel] gdt ok") ;;
  on_irq interrupts_init ;;
  log (text "[kernel] idt ok") ;;
  on_irq Timer.init ;;
  log (text "[kernel] timer ok") ;;
  memory_heap_init (regions boot) (kernel_phys_start boot) (kernel_phys_end boot) (hhdm_offset boot) ;;
  log (text "[kernel] heap ok") ;;
  process_init ;;
  log (text "[kernel] process table ok") ;;
  vmm_init (hhdm_offset boot) ;;
  log (text "[kernel] vmm ok") ;;
  (if apic_supported edx then
     let* lapic_virt := uadd (hhdm_offset boot) LAPIC_PHYS in
     let* hhdm := vmm_get in
     let* m := on_pages (map_mmio hhdm lapic_virt LAPIC_PHYS LAPIC_SIZE MMIO_UC) in
     expect_ok m ;;
     on_irq (init_lapic lapic_virt) ;;
     log (text "[kernel] lapic ok")
   else ret tt) ;;
  match framebuffer boot with
  | Some fb =>
      log (text "[kernel] fb: virt=" ++ hex (virt_addr fb) ++ text " phys=" ++ hex (phys_addr fb) ++
        text " size=" ++ hex (byte_size fb)) ;;
      let* hhdm := vmm_get in
      let* m := on_pages (map_mmio hhdm (virt_addr fb) (phys_addr fb) (byte_size fb) MMIO_WC) in
      expect_ok m ;;
      log (text "[kernel] fb mapped") ;;
      on_console (init_from_info fb) ;;
      log (text "[kernel] fb init ok")
  | None => ret tt
  end ;;
  let* sp := usub current_sp (hhdm_offset boot) in
  let* stack_region := find_boot_stack (hhdm_offset boot) (Z.land sp (not64 0xFFF)) (reclaimable_regions boot) in
  let* hhdm := vmm_get in
  let* kstack := on_pages (alloc_kernel_stack hhdm 8) in
  log (text "[kernel] stack: top=" ++ hex (top kstack) ++ text " guard=" ++ hex (guard_virt kstack)) ;;
  let* phys_mem_size := max_end (regions boot) in
  on_pages (Pml4.install_kernel_pml4 (hhdm_offset boot) (kernel_virt_start boot) (kernel_virt_end boot)
    (kernel_phys_start boot) phys_mem_size) ;;
  log (text "[kernel] pml4 ok") ;;
  on_buddy (release release_sp boot) ;;
  log (text "[kernel] boot pages released (boot stack region deferred)") ;;
  on_post (post_store (mkPost (rsdp_phys boot) stack_region)) ;;
  ret kstack.

(** stack.rs: [call] pushes the return address. *)
Definition switch_stack {A} (new_sp : Z) (entry : M Kernel A) : M Kernel A :=
  modify (fun k => mkKernel (k_cpu k) (k_buddy k) (k_heap k) (k_mem k) (k_irq k) (k_console k) (k_harvested k)
    (k_vmm k) (k_processes k) (k_post k) (new_sp - 8) (k_IF k) (k_serial k) (k_gdt k)) ;;
  entry.

(** The rest, on the kernel's own stack, up to the final halt. *)
Definition kernel_main_continue : M Kernel unit :=
  let* st := on_post post_take in
  match boot_stack_region st with
  | Some (virt_base, page_count) =>
      on_buddy (add_region virt_base page_count) ;;
      log (text "[kernel] boot stack pages released: base=" ++ hex virt_base ++ text " pages=" ++ dec page_count)
  | None => ret tt
  end ;;
  println (text "my-kernel booting...") ;;
  println (text "heap: ok  vmm: ok") ;;
  modify (fun k => mkKernel (k_cpu k) (k_buddy k) (k_heap k) (k_mem k) (k_irq k) (k_console k) (k_harvested k)
    (k_vmm k) (k_processes k) (k_post k) (k_sp k) true (k_serial k) (k_gdt k)) ;;
  println (text "interrupts: enabled") ;;
  match post_rsdp_phys st with
  | Some addr => log (text "[kernel] rsdp: phys=" ++ hex addr)
  | None => ret tt
  end ;;
  println (text "kernel ready.") ;;
  log (text "[kernel] halted.").

Definition kernel_main (r : Responses) (edx current_sp release_sp : Z) : M Kernel unit :=
  let* kstack := kernel_main_setup r edx current_sp release_sp in
  switch_stack (top kstack) kernel_main_continue.

(** The statics before [kernel_main]. *)
Definition at_entry (c : Cpu) (m : mem) (sp : Z) : Kernel :=
  mkKernel c BuddyAllocator_new TlsfInner_new m boot_state None false None None (mkCell false false None) sp false SERIAL1 None.
End boot.
