(* ===== verification/BootSpec.v ===== *)
(** * What booting does to memory

    [heap_init] and [release] against the buddy allocator's contract: the pages
    they register are exactly the usable and the reclaimable ones.  Then what
    the kernel's page tables keep of the mappings made before them, and a run
    of the whole boot sequence on a concrete machine. *)

From stdpp Require Import relations strings.
From S2P Require Import Prelude Pages Buddy BuddySpec Tlsf Paging PageTree PagingSpec PagingProps.
From S2P Require Import Interrupts Framebuffer Limine Boot.

(** ** Registering a list of regions *)

(** Regions by their first byte and their number of pages. *)
Fixpoint register_list (l : list (Z * Z)) : M BState unit :=
  match l with
  | [] => ret tt
  | x :: l' => add_region (fst x) (snd x) ;; register_list l'
  end.

Lemma register_option o s :
  register_list (option_list o) s = match o with Some (v, n) => add_region v n | None => ret tt end s.
Proof.
  destruct o as [[v n]|]; [|done]. change (register_list _ s) with ((add_region v n ;; ret tt) s). unfold bind.
  by destruct (add_region v n s) as [[[] s1]| |].
Qed.

Definition page_sum (l : list (Z * Z)) : Z := foldr (fun x n => snd x + n) 0 l.

(** Two regions without a common page, in bytes. *)
Definition apart (x y : Z * Z) : Prop := fst x + snd x * 4096 <= fst y \/ fst y + snd y * 4096 <= fst x.

(** Regions that [add_region] accepts over an allocator with the given base,
    page count and regions (in pages from the base). *)
Record registrable (a total : Z) (rs : list (Z * Z)) (l : list (Z * Z)) : Prop := mkRegistrable {
  ra_part : Forall (fun x => a <= fst x /\ (fst x - a) mod 4096 = 0 /\ 0 < snd x /\
    (fst x - a) / 4096 + snd x <= CAPACITY /\ fst x + snd x * 4096 <= W64) l;
  ra_total : (total + page_sum l) * 4096 < W64;
  ra_apart : ForallOrdPairs apart l;
  ra_new : Forall (fun x => Forall (fun r => apart x (a + fst r * 4096, snd r)) rs) l
}.

(** The region in pages from the base. *)
Definition in_pages (a : Z) (x : Z * Z) : Z * Z := ((fst x - a) / 4096, snd x).

Lemma registrable_head a t rs x l : registrable a t rs (x :: l) ->
  registrable a (t + snd x) (in_pages a x :: rs) l.
Proof.
  intros [Hp Ht Ha Hn]. apply Forall_cons in Hp as [(H1 & H2 & _) Hp]. apply Forall_cons in Hn as [Hx Hn].
  inversion Ha as [|? ? Hxl Hl]; subst. split; [done| |done|].
  - cbn [page_sum foldr] in Ht. fold (page_sum l) in Ht. lia.
  - apply Forall_forall. intros y Hy. rewrite Forall_forall in Hxl, Hn. constructor; [|by apply Hn].
    unfold in_pages. cbn [fst snd]. pose proof (Z.div_mod (fst x - a) 4096 ltac:(lia)).
    replace (a + (fst x - a) / 4096 * 4096) with (fst x) by lia.
    destruct (Hxl y Hy) as [?|?]; unfold apart; cbn [fst snd]; lia.
Qed.

Lemma registrable_contract s x l :
  registrable (base (sy_b s)) (total_pages (sy_b s)) (sy_regions s) (x :: l) -> 0 <= page_sum l ->
  region_contract s (fst (in_pages (base (sy_b s)) x)) (snd x) /\
  fst x = page_addr (base (sy_b s)) (fst (in_pages (base (sy_b s)) x)).
Proof.
  intros [Hp Ht _ Hn] Hs. apply Forall_cons in Hp as [(H1 & H2 & H3 & H4 & H5) _]. apply Forall_cons in Hn as [Hx _].
  unfold in_pages, page_addr, region_contract, Buddy.PAGE_SIZE. cbn [fst snd]. set (a := base (sy_b s)) in *.
  pose proof (Z.div_mod (fst x - a) 4096 ltac:(lia)). pose proof (Z.div_pos (fst x - a) 4096 ltac:(lia) ltac:(lia)).
  cbn [page_sum foldr] in Ht. fold (page_sum l) in Ht. split_and!; try lia.
  intros p Hpr (r & Hr & Hin). rewrite Forall_forall in Hx. destruct (Hx r Hr) as [Hd|Hd]; cbn [fst snd] in Hd; nia.
Qed.

Lemma page_sum_nonneg l : Forall (fun x => 0 < snd x) l -> 0 <= page_sum l.
Proof. intros H. induction H as [|x l Hx _ IH]; unfold page_sum in *; cbn [foldr]; lia. Qed.

(** The addresses of the pages of some regions. *)
Definition pages_of (a : Z) (rs : list (Z * Z)) (x : Z) : Prop := in_regions rs (page_of a x).

(** One region is a step of the allocator under its contract. *)
Lemma register_step s off n :
  sys_reach s -> region_contract s off n ->
  exists b' m', add_region (page_addr (base (sy_b s)) off) n (sy_b s, sy_m s) = Ok (tt, (b', m')) /\
    sys_reach (mkSys b' m' ((off, n) :: sy_regions s) (sy_held s)) /\
    base b' = base (sy_b s) /\ total_pages b' = total_pages (sy_b s) + n /\ alloc_count (stats b') = alloc_count (stats (sy_b s)) /\
    writes_only (pages_of (base (sy_b s)) ((off, n) :: sy_regions s)) (sy_m s) m' /\
    pages_kept (set_map (byte_block (base (sy_b s))) (sy_held s)) (sy_m s) m' /\
    (unmerged s -> unmerged (mkSys b' m' ((off, n) :: sy_regions s) (sy_held s))).
Proof.
  intros Hr Hc. destruct (reach_inv s Hr) as [F I]. pose proof (region_contract_ok s F off n I Hc) as Hok.
  pose proof (wp_add_region _ _ _ _ off n (si_owned _ _ I) Hok) as Hw.
  apply wp_run in Hw as ([] & [b' m'] & Hrun & F' & R). exists b', m'. split; [exact Hrun|]. split.
  - destruct Hr as (s0 & H0 & Hs). exists s0. split; [done|]. eapply rtc_r; [exact Hs|]. exists (ERegion off n). by constructor.
  - destruct R as [O' Hcov Hb Ht (_ & Ha & _) Hw Hbl _]. cbn [fst snd] in *. split_and!; try done.
    3: { intros U F2 bl R2 Hf2. cbn [sy_b sy_m sy_regions] in *. apply in_one_cons. cbn [fst snd].
         pose proof (rep_free_unique _ _ _ _ _ (ow_rep _ _ _ _ O') R2 Hf2) as Hf. destruct (Hbl bl Hf) as [Hf0|?]; [right|by left]. by apply (U F bl (ow_rep _ _ _ _ (si_owned _ _ I))). }
    2: { rewrite <- Hb. eapply free_writes_kept; [exact O'|done|by rewrite Hb]. }
    eapply writes_only_weaken; [|exact Hw].
    intros x Hx. apply in_regions_cons. cbn [fst snd]. apply Hcov in Hx as [Hx|Hx]; [right|by left].
    by apply (si_cover _ _ I) in Hx as [Hx _].
Qed.

(** All of them, in order. *)
Lemma register_all l : forall s,
  sys_reach s -> registrable (base (sy_b s)) (total_pages (sy_b s)) (sy_regions s) l ->
  exists b' m', register_list l (sy_b s, sy_m s) = Ok (tt, (b', m')) /\
    sys_reach (mkSys b' m' (rev (List.map (in_pages (base (sy_b s))) l) ++ sy_regions s) (sy_held s)) /\
    base b' = base (sy_b s) /\ alloc_count (stats b') = alloc_count (stats (sy_b s)) /\
    writes_only (pages_of (base (sy_b s)) (rev (List.map (in_pages (base (sy_b s))) l) ++ sy_regions s)) (sy_m s) m' /\
    total_pages b' = total_pages (sy_b s) + page_sum l /\
    pages_kept (set_map (byte_block (base (sy_b s))) (sy_held s)) (sy_m s) m' /\
    (unmerged s -> unmerged (mkSys b' m' (rev (List.map (in_pages (base (sy_b s))) l) ++ sy_regions s) (sy_held s))).
Proof.
  induction l as [|x l IH]; intros s Hs Hr.
  - exists (sy_b s), (sy_m s). split; [done|]. split; [by destruct s|]. split_and!; try done. unfold page_sum. simpl. lia.
  - assert (0 <= page_sum l) as Hsum.
    { apply page_sum_nonneg. destruct Hr as [Hp _ _ _]. apply Forall_cons in Hp as [_ Hp]. eapply Forall_impl; [exact Hp|]. by intros y (_ & _ & ? & _). }
    destruct (registrable_contract s x l Hr Hsum) as [Hc Ex].
    destruct (register_step s _ _ Hs Hc) as (b1 & m1 & Hrun & Hs1 & Hb1 & Ht1 & Ha1 & Hw1 & Hk1 & Hu1).
    destruct (IH (mkSys b1 m1 (in_pages (base (sy_b s)) x :: sy_regions s) (sy_held s))) as (b2 & m2 & Hrun2 & Hs2 & Hb2 & Ha2 & Hw2 & Ht2 & Hk2 & Hu2);
      cbn [sy_b sy_m sy_regions sy_held] in *; [exact Hs1|rewrite Hb1, Ht1; by apply registrable_head|].
    rewrite Hb1 in Hs2, Hw2, Hu2. cbn [List.map rev]. rewrite <- app_assoc.
    exists b2, m2. split; [cbn [register_list]; unfold bind; by rewrite Ex, Hrun|]. split; [exact Hs2|].
    rewrite Hb1 in Hk2. split; [by rewrite Hb2|]. split; [by rewrite Ha2|]. split_and!; [|rewrite Ht2, Ht1; unfold page_sum; simpl; lia|intros bl y Hbl Hy; rewrite (Hk2 bl y Hbl Hy); by apply (Hk1 bl)|by intros U; apply Hu2, Hu1].
    eapply writes_only_trans; [|exact Hw2].
    eapply writes_only_weaken; [|exact Hw1]. intros y (r & Hin & Hy). exists r. split; [by apply elem_of_app; right|done].
Qed.

(** ** What [heap_init] registers *)

Section heap.
Context {T : LimineTypes} {AL : Align} {LAWS : AlignLaws AL}.

(** A region of physical memory that the direct map at [hhdm] reaches. *)
Definition fits (hhdm : Z) (r : MemoryRegion) : Prop :=
  0 <= r_base r /\ 0 <= r_length r /\ hhdm + (r_base r + r_length r) + 4096 <= W64.

(** A bound rounded up to a page. *)
Definition page_up (x : Z) : Z := (x + 4095) - (x + 4095) mod 4096.

(** The whole pages of a region. *)
Definition page_base (r : MemoryRegion) : Z := r_base r + 4095 - (r_base r + 4095) mod 4096.
Definition page_end (r : MemoryRegion) : Z := r_base r + r_length r - (r_base r + r_length r) mod 4096.

(** A physical page inside a region. *)
Definition page_in (r : MemoryRegion) (x : Z) : Prop := r_base r <= x /\ x + 4096 <= r_base r + r_length r.

Lemma page_in_bounds r x : x mod 4096 = 0 -> page_in r x <-> page_base r <= x < page_end r.
Proof.
  intros Hx. unfold page_in, page_base, page_end.
  pose proof (Z.div_mod x 4096 ltac:(lia)).
  pose proof (Z.div_mod (r_base r + 4095) 4096 ltac:(lia)). pose proof (Z.mod_pos_bound (r_base r + 4095) 4096 ltac:(lia)).
  pose proof (Z.div_mod (r_base r + r_length r) 4096 ltac:(lia)). pose proof (Z.mod_pos_bound (r_base r + r_length r) 4096 ltac:(lia)).
  lia.
Qed.

Lemma run_aligned {S} hhdm r (s : S) : 0 <= hhdm -> fits hhdm r ->
  aligned_base r s = Ok (page_base r, s) /\ aligned_end r s = Ok (page_end r, s) /\
  0 <= page_base r /\ page_base r < r_base r + 4096 /\ page_end r <= r_base r + r_length r.
Proof.
  intros Hh (H1 & H2 & H3). unfold aligned_base, page_base, page_end.
  pose proof (Z.mod_pos_bound (r_base r + 4095) 4096 ltac:(lia)). pose proof (Z.mod_pos_bound (r_base r + r_length r) 4096 ltac:(lia)).
  pose proof (Z.mod_le (r_base r + 4095) 4096 ltac:(lia) ltac:(lia)).
  split; [by rewrite align_up_law by lia|]. split; [|lia].
  unfold aligned_end, region_end, bind, uadd. rewrite (proj2 (Z.ltb_lt _ W64)) by lia. unfold ret.
  by rewrite align_down_law by lia.
Qed.

(** The pages of one region outside the kernel, as regions to register. *)
Definition part (hhdm start end_ : Z) : list (Z * Z) :=
  if 0 <? (end_ - start) / 4096 then [(hhdm + start, (end_ - start) / 4096)] else [].

Definition usable_part (ks ke hhdm : Z) (r : MemoryRegion) : list (Z * Z) :=
  if negb (bool_decide (region_type r = Usable)) then []
  else if page_end r <=? page_base r then []
  else (if page_base r <? ks then part hhdm (page_base r) (Z.min (page_end r) ks) else []) ++
       (if ke <? page_end r then part hhdm (Z.max (page_base r) ke) (page_end r) else []).

Definition usable_parts (ks ke hhdm : Z) (rs : list MemoryRegion) : list (Z * Z) :=
  concat (List.map (usable_part ks ke hhdm) rs).

Lemma register_list_app l1 l2 s : register_list (l1 ++ l2) s = (register_list l1 ;; register_list l2) s.
Proof.
  revert s. induction l1 as [|x l1 IH]; intros s; [done|]. cbn [register_list app]. unfold bind at 1 2 3.
  destruct (add_region _ _ s) as [[[] s1]| |]; [apply IH|done|done].
Qed.

Lemma run_add_part hhdm start end_ s : hhdm + start < W64 -> add_part hhdm start end_ s = register_list (part hhdm start end_) s.
Proof.
  intros Hs. unfold add_part, part. destruct (0 <? _); [|done]. cbn [register_list fst snd].
  unfold bind at 1, uadd. rewrite (proj2 (Z.ltb_lt _ W64)) by done. unfold ret, bind.
  by destruct (add_region _ _ s) as [[[] s1]| |].
Qed.

Lemma run_use_region ks ke hhdm r s : 0 <= hhdm -> fits hhdm r -> region_type r = Usable ->
  use_region ks ke hhdm r s = register_list (usable_part ks ke hhdm r) s.
Proof.
  intros Hh Hr Hu. unfold usable_part, use_region. rewrite bool_decide_true by done. cbn [negb].
  destruct (run_aligned hhdm r s Hh Hr) as (Eb & He & H0 & H1 & H2). unfold bind at 1. rewrite Eb. unfold bind at 1. rewrite He.
  destruct (Z.leb_spec (page_end r) (page_base r)) as [|Hlt]; [done|]. destruct Hr as (? & ? & ?).
  rewrite register_list_app. unfold bind.
  replace ((if page_base r <? ks then add_part hhdm (page_base r) (Z.min (page_end r) ks) else ret tt) s)
    with (register_list (if page_base r <? ks then part hhdm (page_base r) (Z.min (page_end r) ks) else []) s)
    by (destruct (page_base r <? ks); [by rewrite run_add_part by lia|done]).
  destruct (register_list _ s) as [[[] s1]| |]; [|done|done].
  destruct (Z.ltb_spec ke (page_end r)); [|done]. by rewrite run_add_part by lia.
Qed.

Lemma run_add_usable ks ke hhdm rs : 0 <= hhdm -> Forall (fits hhdm) rs ->
  forall s, add_usable ks ke hhdm rs s = register_list (usable_parts ks ke hhdm rs) s.
Proof.
  intros Hh HF. induction HF as [|r rs Hr _ IH]; intros s; [done|].
  cbn [add_usable usable_parts List.map concat]. fold (usable_parts ks ke hhdm rs). rewrite register_list_app.
  unfold bind. enough ((if negb (bool_decide (region_type r = Usable)) then ret tt else use_region ks ke hhdm r) s =
    register_list (usable_part ks ke hhdm r) s) as ->.
  { destruct (register_list _ s) as [[[] s1]| |]; [apply IH|done|done]. }
  unfold usable_part. destruct (bool_decide_reflect (region_type r = Usable)) as [Hu|Hu]; [|done]. cbn [negb].
  rewrite run_use_region by done. unfold usable_part. by rewrite bool_decide_true.
Qed.

(** The pages of the parts are the usable pages outside the kernel. *)
Definition usable_page (rs : list MemoryRegion) (ks ke x : Z) : Prop :=
  (exists r, r ∈ rs /\ region_type r = Usable /\ page_in r x) /\ ~ (ks <= x < ke).

Lemma part_page hhdm start end_ v n : (v, n) ∈ part hhdm start end_ -> start mod 4096 = 0 -> end_ mod 4096 = 0 ->
  v = hhdm + start /\ n * 4096 = end_ - start.
Proof.
  unfold part. destruct (0 <? _); [|by intros ?%elem_of_nil]. intros E%list_elem_of_singleton Hs He. injection E as -> ->.
  split; [done|]. pose proof (Z.div_mod start 4096 ltac:(lia)). pose proof (Z.div_mod end_ 4096 ltac:(lia)).
  replace (end_ - start) with ((end_ / 4096 - start / 4096) * 4096) by lia. by rewrite Z.div_mul.
Qed.

Lemma part_nonempty hhdm start end_ : start mod 4096 = 0 -> end_ mod 4096 = 0 -> start < end_ ->
  (hhdm + start, (end_ - start) / 4096) ∈ part hhdm start end_.
Proof.
  intros Hs He Hlt. unfold part. pose proof (Z.div_mod start 4096 ltac:(lia)). pose proof (Z.div_mod end_ 4096 ltac:(lia)).
  assert (0 < (end_ - start) / 4096) as Hp.
  { replace (end_ - start) with ((end_ / 4096 - start / 4096) * 4096) by lia. rewrite Z.div_mul by lia. lia. }
  rewrite (proj2 (Z.ltb_lt _ _)) by done. by apply list_elem_of_singleton.
Qed.

Lemma page_aligned r : page_base r mod 4096 = 0 /\ page_end r mod 4096 = 0.
Proof. unfold page_base, page_end. split; rewrite Zminus_mod, Zmod_mod, Z.sub_diag; done. Qed.

(** A page-aligned physical address is in a registered part exactly when its
    page is usable. *)
Lemma usable_parts_pages ks ke hhdm rs x :
  ks mod 4096 = 0 -> ke mod 4096 = 0 -> ks <= ke -> x mod 4096 = 0 ->
  (exists v n, (v, n) ∈ usable_parts ks ke hhdm rs /\ v <= hhdm + x < v + n * 4096) <-> usable_page rs ks ke x.
Proof.
  intros Hks Hke Hle Hx. unfold usable_parts. split.
  - intros (v & n & Hin & Hr). apply list_elem_of_In, in_concat in Hin as (l & Hl & Hv).
    apply in_map_iff in Hl as (r & <- & Hrs). apply list_elem_of_In in Hv, Hrs. revert Hv.
    destruct (page_aligned r) as [Hab Hae]. unfold usable_part.
    destruct (bool_decide_reflect (region_type r = Usable)) as [Hu|]; [|by intros ?%elem_of_nil]. cbn [negb].
    destruct (Z.leb_spec (page_end r) (page_base r)); [by intros ?%elem_of_nil|].
    assert (forall y, page_base r <= y < page_end r -> y = x -> exists r, r ∈ rs /\ region_type r = Usable /\ page_in r x) as Hex.
    { intros y Hy ->. exists r. split_and!; [done|done|by apply page_in_bounds]. }
    intros [Hv|Hv]%elem_of_app.
    + destruct (Z.ltb_spec (page_base r) ks); [|by apply elem_of_nil in Hv].
      apply part_page in Hv as [-> Hn]; [|done|destruct (Z.min_spec (page_end r) ks) as [[_ ->]|[_ ->]]; done].
      split; [apply (Hex x); lia|lia].
    + destruct (Z.ltb_spec ke (page_end r)); [|by apply elem_of_nil in Hv].
      apply part_page in Hv as [-> Hn]; [|destruct (Z.max_spec (page_base r) ke) as [[_ ->]|[_ ->]]; done|done].
      split; [apply (Hex x); lia|lia].
  - intros [(r & Hrs & Hu & Hin) Hk]. apply page_in_bounds in Hin; [|done]. destruct (page_aligned r) as [Hab Hae].
    assert (forall v n, (v, n) ∈ usable_part ks ke hhdm r -> (v, n) ∈ concat (List.map (usable_part ks ke hhdm) rs)) as Hc.
    { intros v n Hv. apply list_elem_of_In, in_concat. exists (usable_part ks ke hhdm r).
      split; [apply in_map_iff; exists r; split; [done|by apply list_elem_of_In]|by apply list_elem_of_In]. }
    unfold usable_part in Hc. rewrite bool_decide_eq_true_2 in Hc by done. cbn [negb] in Hc.
    rewrite (proj2 (Z.leb_gt (page_end r) _)) in Hc by lia.
    assert (forall s e, s mod 4096 = 0 -> e mod 4096 = 0 -> s <= x < e -> (hhdm + s, (e - s) / 4096) ∈ part hhdm s e /\
      hhdm + s <= hhdm + x < hhdm + s + (e - s) / 4096 * 4096) as Hp.
    { intros s e Hs He Hr. pose proof (part_nonempty hhdm s e Hs He ltac:(lia)) as Hne. split; [done|].
      apply part_page in Hne as [_ ->]; [lia|done|done]. }
    destruct (Z.lt_ge_cases x ks) as [Hlt|Hge].
    + destruct (Hp (page_base r) (Z.min (page_end r) ks)) as [Hi Hr]; [done|destruct (Z.min_spec (page_end r) ks) as [[_ ->]|[_ ->]]; done|lia|].
      eexists _, _. split; [apply Hc, elem_of_app; left|exact Hr]. by rewrite (proj2 (Z.ltb_lt _ _)) by lia.
    + destruct (Hp (Z.max (page_base r) ke) (page_end r)) as [Hi Hr]; [destruct (Z.max_spec (page_base r) ke) as [[_ ->]|[_ ->]]; done|done|lia|].
      eexists _, _. split; [apply Hc, elem_of_app; right|exact Hr]. by rewrite (proj2 (Z.ltb_lt ke _)) by lia.
Qed.

(** Membership in the regions of the allocator, in addresses. *)
Lemma in_regions_pages a l p :
  Forall (fun x => a <= fst x /\ (fst x - a) mod 4096 = 0) l ->
  in_regions (List.map (in_pages a) l) p <-> exists v n, (v, n) ∈ l /\ v <= a + p * 4096 < v + n * 4096.
Proof.
  intros HF. rewrite Forall_forall in HF. unfold in_regions. split.
  - intros (r & Hr & Hp). apply list_elem_of_In, in_map_iff in Hr as ([v n] & <- & Hin). apply list_elem_of_In in Hin.
    exists v, n. split; [done|]. destruct (HF _ Hin) as [_ Hm]. unfold in_pages in Hp. cbn [fst snd] in *.
    pose proof (Z.div_mod (v - a) 4096 ltac:(lia)). lia.
  - intros (v & n & Hin & Hp). exists (in_pages a (v, n)). split; [by apply list_elem_of_In, in_map, list_elem_of_In|].
    destruct (HF _ Hin) as [_ Hm]. unfold in_pages. cbn [fst snd] in *. pose proof (Z.div_mod (v - a) 4096 ltac:(lia)). lia.
Qed.

Lemma in_regions_rev l p : in_regions (rev l) p <-> in_regions l p.
Proof. unfold in_regions. by setoid_rewrite list_elem_of_In; setoid_rewrite <- in_rev. Qed.

(** ** [heap_init] *)

(** The lowest usable page: the base that [heap_init] computes. *)
Fixpoint lowest (hhdm : Z) (rs : list MemoryRegion) : option Z :=
  match rs with
  | [] => None
  | r :: rs' => Some (match lowest hhdm rs' with Some w => Z.min (hhdm + page_base r) w | None => hhdm + page_base r end)
  end.

Lemma run_min_virt {S} hhdm rs (s : S) : 0 <= hhdm -> Forall (fits hhdm) rs -> min_virt hhdm rs s = Ok (lowest hhdm rs, s).
Proof.
  intros Hh HF. induction HF as [|r rs Hr _ IH]; [done|]. cbn [min_virt lowest].
  destruct (run_aligned hhdm r s Hh Hr) as (Eb & _ & H0 & H1 & _). destruct Hr as (? & ? & ?).
  unfold bind at 1. rewrite Eb. unfold bind at 1, uadd. rewrite (proj2 (Z.ltb_lt _ W64)) by lia. unfold ret at 1, bind. by rewrite IH.
Qed.

Lemma lowest_in hhdm rs lo : lowest hhdm rs = Some lo -> exists r, r ∈ rs /\ lo = hhdm + page_base r.
Proof.
  revert lo. induction rs as [|r rs IH]; intros lo; [done|]. cbn [lowest]. intros [= <-].
  destruct (lowest hhdm rs) as [w|]; [|exists r; split; [by left|done]].
  destruct (Z.min_spec (hhdm + page_base r) w) as [[_ ->]|[_ ->]]; [exists r; split; [by left|done]|].
  destruct (IH w eq_refl) as (r' & Hr' & ->). exists r'. split; [by right|done].
Qed.

(** A memory map and a kernel image that [heap_init] can work with. *)
Record boot_map_ok (rs : list MemoryRegion) (kps kpe hhdm lo : Z) : Prop := mkBootMap {
  bm_hhdm : 0 <= hhdm /\ hhdm mod 4096 = 0;
  bm_kernel : 0 <= kps <= kpe /\ kpe + 4095 < W64;
  bm_fits : Forall (fits hhdm) rs;
  bm_lowest : lowest hhdm (filter (fun r => is_immediately_usable (region_type r) = true) rs) = Some lo;
  bm_positive : 0 < lo;
  bm_parts : registrable lo 0 [] (usable_parts (align_down kps 4096) (page_up kpe) hhdm rs)
}.

Lemma kernel_bounds kps kpe : 0 <= kps <= kpe -> kpe + 4095 < W64 ->
  align_down kps 4096 mod 4096 = 0 /\ page_up kpe mod 4096 = 0 /\ align_down kps 4096 <= page_up kpe.
Proof.
  intros Hk Hw. unfold page_up. rewrite align_down_law by lia.
  pose proof (Z.mod_pos_bound (kpe + 4095) 4096 ltac:(lia)). pose proof (Z.mod_pos_bound kps 4096 ltac:(lia)).
  split_and!; [by rewrite Zminus_mod, Zmod_mod, Z.sub_diag|by rewrite Zminus_mod, Zmod_mod, Z.sub_diag|lia].
Qed.

Lemma lo_aligned rs kps kpe hhdm lo : boot_map_ok rs kps kpe hhdm lo -> lo mod 4096 = 0.
Proof.
  intros [[_ Hha] _ _ Hlo _ _]. apply lowest_in in Hlo as (r & _ & ->).
  rewrite Z.add_mod, Hha, (proj1 (page_aligned r)) by lia. done.
Qed.

(** The allocator once its base is set and the usable pages are registered. *)
Lemma usable_registered rs kps kpe hhdm lo m :
  boot_map_ok rs kps kpe hhdm lo ->
  let ks := align_down kps 4096 in let ke := page_up kpe in
  exists s, sys_reach s /\ base (sy_b s) = lo /\ sy_held s = ∅ /\ alloc_count (stats (sy_b s)) = 0 /\
    (set_base lo ;; add_usable ks ke hhdm rs) (BuddyAllocator_new, m) = Ok (tt, (sy_b s, sy_m s)) /\
    (forall p, in_regions (sy_regions s) p <-> usable_page rs ks ke (lo + p * 4096 - hhdm)) /\
    writes_only (pages_of lo (sy_regions s)) m (sy_m s) /\
    sy_regions s = rev (List.map (in_pages lo) (usable_parts ks ke hhdm rs)) /\ unmerged s.
Proof.
  intros [[Hh Hha] [Hk Hkw] HF Hlo Hpos Hparts] ks ke. destruct (kernel_bounds kps kpe Hk Hkw) as (Hks & Hke & Hle).
  assert (lo mod Buddy.PAGE_SIZE = 0) as Hal.
  { apply lowest_in in Hlo as (r & _ & ->). unfold Buddy.PAGE_SIZE. rewrite Z.add_mod, Hha, (proj1 (page_aligned r)) by lia. done. }
  pose proof (wp_set_base lo m Hpos Hal) as Hw. apply wp_run in Hw as ([] & [b0 m0] & Hrun & Em & Eb & O0 & _).
  cbn [fst snd] in Em, Eb. subst b0 m0.
  assert (sys_reach (mkSys (with_base lo BuddyAllocator_new) m [] ∅)) as Hr0.
  { exists (mkSys (with_base lo BuddyAllocator_new) m [] ∅). split; [by eapply init_base|done]. }
  destruct (register_all _ _ Hr0 Hparts) as (b1 & m1 & Hrun1 & Hr1 & Hb1 & Ha1 & Hw1 & Ht1 & _ & Hu1). cbn [sy_b sy_m sy_regions sy_held base with_base] in *.
  eexists. split; [exact Hr1|]. cbn [sy_b sy_m sy_regions sy_held]. split_and!; [done|done|by rewrite Ha1| | |exact Hw1|by rewrite app_nil_r|].
  3: { apply Hu1. intros F bl R Hf. exfalso.
       pose proof (rep_free_unique _ _ _ _ _ (ow_rep _ _ _ _ O0) R Hf) as Hf0. by apply elem_of_nil in Hf0. }
  - unfold bind. rewrite Hrun. rewrite run_add_usable by done. exact Hrun1.
  - intros p. rewrite app_nil_r, in_regions_rev, in_regions_pages.
    + rewrite <- (usable_parts_pages ks ke hhdm rs (lo + p * 4096 - hhdm) Hks Hke Hle).
      * by replace (hhdm + (lo + p * 4096 - hhdm)) with (lo + p * 4096) by lia.
      * unfold Buddy.PAGE_SIZE in Hal. pose proof (Z.div_mod lo 4096 ltac:(lia)). pose proof (Z.div_mod hhdm 4096 ltac:(lia)).
        replace (lo + p * 4096 - hhdm) with ((lo / 4096 + p - hhdm / 4096) * 4096) by lia. by apply Z.mod_mul.
    + destruct Hparts as [Hp _ _ _]. eapply Forall_impl; [exact Hp|]. by intros x (? & ? & _).
Qed.

(** Writing inside a held block keeps the contract. *)
Lemma reach_write s m' bl :
  sys_reach s -> bl ∈ sy_held s -> changes (in_block (byte_block (base (sy_b s)) bl)) (sy_m s) m' ->
  sys_reach (mkSys (sy_b s) m' (sy_regions s) (sy_held s)).
Proof.
  intros (s0 & H0 & Hs) Hbl Hc. exists s0. split; [done|]. eapply rtc_r; [exact Hs|]. exists EWrite.
  apply step_write. intros x [_ Hx]. eapply changes_eq; [exact Hc|]. intros Hin. apply in_byte_block in Hin. by eapply Hx.
Qed.

(** [heap_init] once the pages are registered. *)
Lemma heap_init_after rs kps kpe hhdm lo m s :
  boot_map_ok rs kps kpe hhdm lo ->
  (set_base lo ;; add_usable (align_down kps 4096) (page_up kpe) hhdm rs) (BuddyAllocator_new, m) = Ok (tt, (sy_b s, sy_m s)) ->
  heap_init rs kps kpe hhdm ((TlsfInner_new, BuddyAllocator_new), m) =
    (let* p := page_call (alloc_pages 10) in let* p := expect p in
     heap_call (init_from_ptr p (Z.shiftl 4096 10))) ((TlsfInner_new, sy_b s), sy_m s).
Proof.
  intros [[Hh _] [Hk Hkw] HF Hlo _ _] Hrun. unfold heap_init. rewrite align_up_law by lia. fold (page_up kpe).
  unfold bind at 1, expect at 1, ret at 1. unfold bind at 1.
  rewrite run_min_virt; [|done|by apply Forall_forall; intros r [_ Hin]%list_elem_of_filter; rewrite Forall_forall in HF; apply HF].
  rewrite Hlo. unfold bind in Hrun. unfold bind at 1, expect at 1, ret at 1. unfold bind at 1 2, page_call at 1 2. cbn [fst snd].
  destruct (set_base lo (BuddyAllocator_new, m)) as [[[] [b0 m0]]| |]; [|done|done]. cbn [fst snd]. by rewrite Hrun.
Qed.

(** The last step of [heap_init]: the 4 MiB block of the TLSF heap. *)
Definition heap_block : M (TlsfInner * BuddyAllocator * mem) unit :=
  let* p := page_call (alloc_pages 10) in
  let* p := expect p in
  heap_call (init_from_ptr p (Z.shiftl 4096 10)).

(** The state it leaves: the block is held and holds the heap. *)
Definition heap_ready (lo : Z) (m : mem) (rs : list (Z * Z)) (p : Z) (t : TlsfInner) (b : BuddyAllocator) (m' : mem) : Prop :=
  let ptr := page_addr lo p in
  sys_reach (mkSys b m' rs {[(10, p)]}) /\ base b = lo /\ alloc_count (stats b) = 1 /\ writes_only (pages_of lo rs) m m' /\
  tlsf t m' ptr (ptr + (4194304 - HEADER)) (pool_hdrs ptr 4194304) (<[cls (4194304 - 2 * HEADER) := [ptr]]> no_blocks).

Lemma run_heap_block s :
  sys_reach s -> sy_held s = ∅ -> 0 < base (sy_b s) -> base (sy_b s) mod 4096 = 0 -> alloc_count (stats (sy_b s)) = 0 ->
  unmerged s ->
  (exists p t b' m', heap_block ((TlsfInner_new, sy_b s), sy_m s) = Ok (tt, ((t, b'), m')) /\
     (1024 | p) /\ in_one (sy_regions s) (10, p) /\ heap_ready (base (sy_b s)) (sy_m s) (sy_regions s) p t b' m') \/
  (heap_block ((TlsfInner_new, sy_b s), sy_m s) = Panic /\ forall p, (1024 | p) -> ~ in_one (sy_regions s) (10, p)).
Proof.
  intros Hr Hheld Hpos Hmod Hac Hun. destruct (reach_inv s Hr) as [F I]. pose proof (si_owned _ _ I) as O.
  assert (alloc_count (stats (sy_b s)) + 1 < W64) as Hac1 by by rewrite Hac.
  pose proof (wp_alloc_pages _ _ _ _ 10 O ltac:(by unfold BUDDY_MAX_ORDER) Hac1) as Hal.
  apply wp_run in Hal as (r & [b1 m1] & Hrun1 & Hpost). unfold heap_block, bind, page_call. cbn [fst snd]. rewrite Hrun1.
  destruct r as [ptr|]; [left|right; split; [done|]].
  2: { destruct (step_fail_inv s F 10 b1 m1 I ltac:(by unfold BUDDY_MAX_ORDER) Hac1 Hrun1) as [_ Hnil].
       intros p Hal Hone. apply (fail_no_run s F 10 p I ltac:(by unfold BUDDY_MAX_ORDER) Hnil); [|done]. split; [done|].
       intros x Hx. split; [by apply (in_one_page _ (10, p))|]. cbn [po_held pool_of]. rewrite Hheld. by intros bl ?%elem_of_empty. }
  destruct (step_alloc_inv s F 10 ptr b1 m1 I ltac:(by unfold BUDDY_MAX_ORDER) Hac1 Hrun1) as (Eptr & Hbok & Hfree & _).
  destruct Hpost as (p0 & F0 & E0 & Hal & k & Hk & Hkp). pose proof (al_base _ _ _ _ _ _ _ _ Hal) as Hb1. cbn [fst] in Hb1.
  set (p := page_of (base (sy_b s)) ptr) in *. cbn [snd] in Eptr. set (lo := base (sy_b s)) in *.
  assert (sys_reach (mkSys b1 m1 (sy_regions s) {[(10, p)]})) as Hr1.
  { destruct Hr as (s0 & H0 & Hs). exists s0. split; [done|]. eapply rtc_r; [exact Hs|]. exists (EAlloc 10 p).
    rewrite <- (union_empty_r_L {[(10, p)]}), <- Hheld. by constructor. }
  assert (p0 = p) as -> by (unfold p; by rewrite E0, page_of_addr).
  assert ((1024 | p) /\ in_one (sy_regions s) (10, p)) as Hone.
  { destruct Hbok as (_ & _ & H10 & _). split; [exact H10|].
    destruct (Hun F (k, p) (ow_rep _ _ _ _ O) Hkp) as (x & Hx & H1 & H2). exists x. cbn [fst snd] in *. split; [done|].
    pose proof (Z.pow_le_mono_r 2 10 k ltac:(lia) ltac:(lia)). lia. }
  destruct Hbok as (_ & Hp0 & _ & Hend & _). cbn [fst snd] in Hp0, Hend.
  pose proof (Z.div_mod lo 4096 ltac:(lia)). unfold page_addr, Buddy.PAGE_SIZE in *. change (2 ^ 10) with 1024 in Hend.
  assert (wp (init_from_ptr ptr (Z.shiftl 4096 10)) (TlsfInner_new, m1) (fun _ s' =>
    tlsf (fst s') (snd s') ptr (ptr + (4194304 - HEADER)) (pool_hdrs ptr 4194304)
      (<[cls (4194304 - 2 * HEADER) := [ptr]]> no_blocks) /\ changes (fun x => ptr <= x < ptr + 4194304) m1 (snd s'))) as Hpool.
  { apply wp_add_pool; [lia|exists (lo / 4096 * 512 + p * 512); lia|by exists 524288|by unfold HEADER, BLOCK_MIN|].
    change (Z.shiftl 4096 10) with 4194304. lia. }
  apply wp_run in Hpool as ([] & [t m2] & Hrun2 & Htlsf & Hch). cbn [fst snd] in Htlsf, Hch.
  assert (forall x, in_block (byte_block lo (10, p)) x <-> ptr <= x < ptr + 4194304) as Hblk.
  { intros x. unfold in_block, byte_block, block_size, page_addr, Buddy.PAGE_SIZE. cbn [fst snd]. rewrite <- Eptr.
    by change (2 ^ 10 * 4096) with 4194304. }
  exists p, t, b1, m2. cbn [expect ret]. unfold heap_call. cbn [fst snd]. rewrite Hrun2. split; [done|].
  split; [apply Hone|]. split; [apply Hone|].
  split; [|split; [exact Hb1|split; [pose proof (proj2 (al_count _ _ _ _ _ _ _ _ Hal)) as Hc1; cbn [fst] in Hc1; by rewrite Hc1, Hac|split; [|unfold page_addr, Buddy.PAGE_SIZE; rewrite <- Eptr; exact Htlsf]]]].
  - apply (reach_write (mkSys b1 m1 (sy_regions s) {[(10, p)]}) m2 (10, p) Hr1); [cbn; set_solver|].
    cbn [sy_b sy_m]. eapply changes_weaken; [|exact Hch]. intros x Hx. rewrite Hb1. by apply Hblk.
  - eapply writes_only_trans; [eapply writes_only_weaken; [|exact (al_writes _ _ _ _ _ _ _ _ Hal)]|].
    + intros x Hx. by apply (si_cover _ _ I) in Hx as [Hx _].
    + intros x Hx. eapply changes_eq; [exact Hch|]. intros Hin. apply Hx. apply Hblk, in_byte_block in Hin.
      by apply Hfree in Hin as [Hin _].
Qed.

(** C16: on a memory map whose usable parts outside the kernel image do not
    overlap and lie within the [CAPACITY] of 131200 pages (512.5 MiB) above the
    lowest page of usable memory ([boot_map_ok]; beyond it [add_region] can
    panic), [heap_init] registers with the buddy allocator exactly the whole
    pages of usable regions outside the kernel image (rounded out to pages).  It
    returns with a 4 MiB block held by the TLSF heap, which is consistent and
    one free block, having written to registered pages only, if some part has
    1024 pages inside that start at a multiple of 1024 from the base; if none
    has, it panics. *)
Theorem heap_init_pages rs kps kpe hhdm lo m :
  boot_map_ok rs kps kpe hhdm lo ->
  exists s, sys_reach s /\ base (sy_b s) = lo /\
    (forall p, in_regions (sy_regions s) p <->
       usable_page rs (align_down kps 4096) (page_up kpe) (lo + p * 4096 - hhdm)) /\
    sy_regions s = rev (List.map (in_pages lo) (usable_parts (align_down kps 4096) (page_up kpe) hhdm rs)) /\
    ((exists p t b' m', heap_init rs kps kpe hhdm ((TlsfInner_new, BuddyAllocator_new), m) = Ok (tt, ((t, b'), m')) /\
        (1024 | p) /\ in_one (sy_regions s) (10, p) /\ heap_ready lo m (sy_regions s) p t b' m') \/
     (heap_init rs kps kpe hhdm ((TlsfInner_new, BuddyAllocator_new), m) = Panic /\
      sy_held s = ∅ /\ forall p, (1024 | p) -> ~ in_one (sy_regions s) (10, p))).
Proof.
  intros Hok. destruct (usable_registered rs kps kpe hhdm lo m Hok) as (s & Hr & Hb & Hheld & Hac & Hrun & Hpages & Hwr & Hrs & Hun).
  pose proof (heap_init_after rs kps kpe hhdm lo m s Hok Hrun) as Einit. fold heap_block in Einit.
  exists s. rewrite Einit. split; [done|]. split; [done|]. split; [done|]. split; [done|].
  destruct (run_heap_block s Hr Hheld) as [(p & t & b' & m' & Hblk & Hp & Hone & Hreach & Hb' & Hac' & Hw & Ht)|[Hblk Hno]];
    [rewrite Hb; exact (bm_positive _ _ _ _ _ Hok)|rewrite Hb; by eapply lo_aligned|done|done|left|by right].
  rewrite Hb in *. exists p, t, b', m'. split; [done|]. split; [done|]. split; [done|]. split_and!; [done|done|done| |done].
  eapply writes_only_trans; [exact Hwr|exact Hw].
Qed.

(** ** [release] and the boot stack *)

Definition holds (r : MemoryRegion) (x : Z) : Prop := page_base r <= x < page_end r.

Definition reclaim_part (hhdm sp : Z) (r : MemoryRegion) : list (Z * Z) :=
  if page_end r <=? page_base r then []
  else if page_base r <? 0x100000 then []
  else if (page_base r <=? sp) && (sp <? page_end r) then []
  else part hhdm (page_base r) (page_end r).

Definition reclaim_parts (hhdm sp : Z) (rs : list MemoryRegion) : list (Z * Z) :=
  concat (List.map (reclaim_part hhdm sp) rs).

(** The regions that hold the stack. *)
Definition stack_part (hhdm sp : Z) (r : MemoryRegion) : list (Z * Z) :=
  if (0x100000 <=? page_base r) && (page_base r <? page_end r) && (page_base r <=? sp) && (sp <? page_end r)
  then part hhdm (page_base r) (page_end r) else [].

Fixpoint stack_region (hhdm sp : Z) (rs : list MemoryRegion) : option (Z * Z) :=
  match rs with
  | [] => None
  | r :: rs' => match stack_part hhdm sp r with x :: _ => Some x | [] => stack_region hhdm sp rs' end
  end.

Lemma part_whole hhdm r : page_base r < page_end r ->
  0 < (page_end r - page_base r) / 4096 /\ part hhdm (page_base r) (page_end r) = [(hhdm + page_base r, (page_end r - page_base r) / 4096)].
Proof.
  intros Hlt. destruct (page_aligned r) as [Hb He]. unfold part.
  pose proof (Z.div_mod (page_base r) 4096 ltac:(lia)). pose proof (Z.div_mod (page_end r) 4096 ltac:(lia)).
  assert (0 < (page_end r - page_base r) / 4096) as Hp.
  { replace (page_end r - page_base r) with ((page_end r / 4096 - page_base r / 4096) * 4096) by lia. rewrite Z.div_mul by lia. lia. }
  by rewrite (proj2 (Z.ltb_lt _ _)) by done.
Qed.

Lemma run_release_loop hhdm sp rs : 0 <= hhdm -> Forall (fits hhdm) rs ->
  forall s, release_loop hhdm sp rs s = register_list (reclaim_parts hhdm sp rs) s.
Proof.
  intros Hh HF. induction HF as [|r rs Hr _ IH]; intros s; [done|].
  cbn [release_loop reclaim_parts List.map concat]. fold (reclaim_parts hhdm sp rs). rewrite register_list_app.
  destruct (run_aligned hhdm r s Hh Hr) as (Eb & He & H0 & H1 & H2). destruct Hr as (? & ? & ?).
  unfold bind at 1. rewrite Eb. unfold bind at 1. rewrite He. unfold bind at 1 3.
  match goal with |- match ?X with _ => _ end = _ => enough (X = register_list (reclaim_part hhdm sp r) s) as -> end.
  { destruct (register_list _ s) as [[[] s1]| |]; [apply IH|done|done]. }
  unfold reclaim_part. destruct (Z.leb_spec (page_end r) (page_base r)) as [|Hlt]; [done|].
  destruct (page_base r <? 0x100000); [done|]. destruct (_ && _); [done|].
  destruct (part_whole hhdm r Hlt) as [Hp ->]. rewrite (proj2 (Z.eqb_neq _ 0)) by lia. cbn [register_list fst snd].
  unfold bind at 1, uadd. rewrite (proj2 (Z.ltb_lt _ W64)) by lia. unfold ret, bind. by destruct (add_region _ _ s) as [[[] s1]| |].
Qed.

Lemma run_find_boot_stack {S} hhdm sp rs (s : S) : 0 <= hhdm -> Forall (fits hhdm) rs ->
  find_boot_stack hhdm sp rs s = Ok (stack_region hhdm sp rs, s).
Proof.
  intros Hh HF. induction HF as [|r rs Hr _ IH]; [done|]. cbn [find_boot_stack stack_region].
  destruct (run_aligned hhdm r s Hh Hr) as (Eb & He & H0 & H1 & H2). destruct Hr as (? & ? & ?).
  unfold bind at 1. rewrite Eb. unfold bind at 1. rewrite He. unfold stack_part.
  destruct ((0x100000 <=? page_base r) && (page_base r <? page_end r)) eqn:E; [|exact IH].
  apply andb_true_iff in E as [_ Hlt%Z.ltb_lt]. cbn [andb]. destruct ((_ <=? sp) && (sp <? _)); [|exact IH]. destruct (part_whole hhdm r Hlt) as [Hp ->].
  rewrite (proj2 (Z.ltb_lt 0 _)) by done. unfold bind, uadd. by rewrite (proj2 (Z.ltb_lt _ W64)) by lia.
Qed.

(** A reclaimable page above 1 MiB, in a region that holds the stack or not. *)
Definition reclaimable_page (rs : list MemoryRegion) (x : Z) : Prop :=
  exists r, r ∈ rs /\ 0x100000 <= page_base r /\ page_in r x.
Definition released_page (rs : list MemoryRegion) (sp x : Z) : Prop :=
  exists r, r ∈ rs /\ 0x100000 <= page_base r /\ page_in r x /\ ~ holds r sp.

Definition covers (l : list (Z * Z)) (a : Z) : Prop := exists v n, (v, n) ∈ l /\ v <= a < v + n * 4096.

Lemma covers_concat (f : MemoryRegion -> list (Z * Z)) rs a :
  covers (concat (List.map f rs)) a <-> exists r, r ∈ rs /\ covers (f r) a.
Proof.
  unfold covers. split.
  - intros (v & n & Hin & Hr). apply list_elem_of_In, in_concat in Hin as (l & Hl & Hv).
    apply in_map_iff in Hl as (r & <- & Hrs). exists r. split; [by apply list_elem_of_In|].
    exists v, n. split; [by apply list_elem_of_In|done].
  - intros (r & Hrs & v & n & Hv & Hr). exists v, n. split; [|done]. apply list_elem_of_In, in_concat. exists (f r).
    split; [apply in_map_iff; exists r; split; [done|by apply list_elem_of_In]|by apply list_elem_of_In].
Qed.

Lemma covers_app l1 l2 a : covers (l1 ++ l2) a <-> covers l1 a \/ covers l2 a.
Proof. unfold covers. setoid_rewrite elem_of_app. naive_solver. Qed.

Lemma covers_whole hhdm r x : page_base r < page_end r -> x mod 4096 = 0 ->
  covers (part hhdm (page_base r) (page_end r)) (hhdm + x) <-> page_in r x.
Proof.
  intros Hlt Hx. rewrite page_in_bounds by done. destruct (page_aligned r) as [Hb He]. split.
  - intros (v & n & Hin & Hr). apply part_page in Hin as [-> Hn]; [lia|done|done].
  - intros Hr. pose proof (part_nonempty hhdm _ _ Hb He Hlt) as Hin. pose proof Hin as Hp. apply part_page in Hp as [_ Hn]; [|done|done].
    eexists _, _. split; [exact Hin|]. rewrite Hn. lia.
Qed.

Lemma covers_nil a : ~ covers [] a.
Proof. by intros (v & n & ?%elem_of_nil & _). Qed.

Lemma reclaim_parts_pages hhdm sp rs x : x mod 4096 = 0 ->
  covers (reclaim_parts hhdm sp rs) (hhdm + x) <-> released_page rs sp x.
Proof.
  intros Hx. unfold reclaim_parts, released_page. rewrite covers_concat.
  enough (forall r, covers (reclaim_part hhdm sp r) (hhdm + x) <-> 0x100000 <= page_base r /\ page_in r x /\ ~ holds r sp) as Hr.
  { by setoid_rewrite Hr. }
  intros r. unfold reclaim_part. pose proof (page_in_bounds r x Hx) as Hb. unfold holds.
  destruct (Z.leb_spec (page_end r) (page_base r)); [split; [by intros ?%covers_nil|intros (? & Hin & Hn); apply Hb in Hin; lia]|].
  destruct (Z.ltb_spec (page_base r) 0x100000); [split; [by intros ?%covers_nil|intros (? & Hin & Hn); apply Hb in Hin; lia]|].
  destruct (Z.leb_spec (page_base r) sp), (Z.ltb_spec sp (page_end r)); cbn [andb];
    try (rewrite covers_whole by done; intuition lia). split; [by intros ?%covers_nil|intros (? & Hin & Hn); apply Hb in Hin; lia].
Qed.

Lemma stack_region_pages hhdm sp rs x : x mod 4096 = 0 ->
  (forall r r', r ∈ rs -> r' ∈ rs -> holds r sp -> holds r' sp -> r = r') ->
  covers (option_list (stack_region hhdm sp rs)) (hhdm + x) <->
    exists r, r ∈ rs /\ 0x100000 <= page_base r /\ page_in r x /\ holds r sp.
Proof.
  intros Hx. induction rs as [|r rs IH]; intros Hone.
  - split; [by intros ?%covers_nil|]. by intros (r & ?%elem_of_nil & _).
  - cbn [stack_region]. unfold stack_part.
    destruct ((0x100000 <=? page_base r) && (page_base r <? page_end r) && (page_base r <=? sp) && (sp <? page_end r)) eqn:E.
    + apply andb_true_iff in E as [[[E1%Z.leb_le E2%Z.ltb_lt]%andb_true_iff E3%Z.leb_le]%andb_true_iff E4%Z.ltb_lt].
      pose proof (covers_whole hhdm r x E2 Hx) as Hw. destruct (part_whole hhdm r E2) as [_ Ep]. rewrite Ep in Hw |- *.
      cbn [option_list]. rewrite Hw. split.
      * intros Hin. exists r. split_and!; [by left|lia|done|by split].
      * intros (r' & Hr' & H1 & Hin & Hh). rewrite (Hone r r'); [done|by left|done|by split|done].
    + rewrite IH by (intros r1 r2 ? ?; apply Hone; by right). split.
      * intros (r' & Hr' & Hrest). exists r'. split; [by right|done].
      * intros (r' & [->|Hr']%elem_of_cons & H1 & Hin & Hh); [exfalso|by exists r'].
        destruct Hh. apply page_in_bounds in Hin; [|done].
        rewrite (proj2 (Z.leb_le _ _)), (proj2 (Z.ltb_lt _ _)), (proj2 (Z.leb_le _ _)), (proj2 (Z.ltb_lt _ _)) in E by lia. done.
Qed.

(** The allocator, the harvested data and the boot stack when [release] is
    called. *)
Record reclaim_ok (s : sys) (d : LimineData) (current_sp : Z) : Prop := mkReclaim {
  rc_hhdm : 0 <= hhdm_offset d <= current_sp /\ hhdm_offset d mod 4096 = 0 /\ current_sp < W64;
  rc_base : base (sy_b s) mod 4096 = 0;
  rc_fits : Forall (fits (hhdm_offset d)) (reclaimable_regions d);
  rc_one : forall r r' sp, r ∈ reclaimable_regions d -> r' ∈ reclaimable_regions d -> holds r sp -> holds r' sp -> r = r';
  rc_parts : let sp := Z.land (current_sp - hhdm_offset d) (not64 0xFFF) in
    registrable (base (sy_b s)) (total_pages (sy_b s)) (sy_regions s)
      (reclaim_parts (hhdm_offset d) sp (reclaimable_regions d) ++ option_list (stack_region (hhdm_offset d) sp (reclaimable_regions d)))
}.

Lemma registrable_app a t rs l1 l2 : registrable a t rs (l1 ++ l2) -> registrable a t rs l1.
Proof.
  intros [Hp Ht Ha Hn]. apply Forall_app in Hp as [Hp Hp2], Hn as [Hn _]. split; [done| | |done].
  - assert (page_sum (l1 ++ l2) = page_sum l1 + page_sum l2) as E.
    { clear. induction l1 as [|x l IH]; unfold page_sum in *; cbn [foldr app]; lia. }
    assert (0 <= page_sum l2); [|lia]. apply page_sum_nonneg. eapply Forall_impl; [exact Hp2|]. by intros y (_ & _ & ? & _).
  - clear -Ha. induction l1 as [|x l1 IH]; [constructor|]. inversion Ha as [|? ? H1 H2]; subst.
    constructor; [by apply Forall_app in H1 as [? _]|by apply IH].
Qed.

(** The regions after a list was registered, in addresses. *)
Lemma registered_pages s l p : Forall (fun x => base (sy_b s) <= fst x /\ (fst x - base (sy_b s)) mod 4096 = 0) l ->
  in_regions (rev (List.map (in_pages (base (sy_b s))) l) ++ sy_regions s) p <->
  in_regions (sy_regions s) p \/ covers l (base (sy_b s) + p * 4096).
Proof.
  intros HF. unfold covers. rewrite <- (in_regions_pages _ _ _ HF), <- (in_regions_rev (List.map _ _)).
  unfold in_regions. setoid_rewrite elem_of_app. naive_solver.
Qed.

(** A reclaimable region above 1 MiB whose pages start below the lowest usable
    page, which is the allocator's base: once the regions in front of it in the
    map are registered, [add_region] panics on its address. *)
Theorem release_below_base_panics s d current_sp rs1 r rs2 :
  let hhdm := hhdm_offset d in let sp := Z.land (current_sp - hhdm) (not64 0xFFF) in
  sys_reach s -> 0 <= hhdm <= current_sp -> Forall (fits hhdm) (reclaimable_regions d) ->
  reclaimable_regions d = rs1 ++ r :: rs2 ->
  registrable (base (sy_b s)) (total_pages (sy_b s)) (sy_regions s) (reclaim_parts hhdm sp rs1) ->
  0x100000 <= page_base r < page_end r -> ~ holds r sp -> hhdm + page_base r < base (sy_b s) ->
  release current_sp d (sy_b s, sy_m s) = Panic.
Proof.
  intros hhdm sp Hr Hh HF Ers Hparts Hpb Hsp Hlow.
  unfold release, bind, usub. fold hhdm. rewrite (proj2 (Z.leb_le hhdm current_sp)) by lia. cbn [ret]. fold sp.
  rewrite run_release_loop by (done || lia). rewrite Ers. unfold reclaim_parts. rewrite map_app, concat_app. cbn [List.map concat].
  fold (reclaim_parts hhdm sp rs1). rewrite register_list_app.
  destruct (register_all _ s Hr Hparts) as (b1 & m1 & Hrun1 & _ & Hb1 & _). unfold bind at 1. rewrite Hrun1.
  rewrite register_list_app. apply panic_here. unfold reclaim_part. rewrite (proj2 (Z.leb_gt _ _)), (proj2 (Z.ltb_ge _ _)) by lia.
  assert ((page_base r <=? sp) && (sp <? page_end r) = false) as ->.
  { apply andb_false_iff. unfold holds in Hsp. destruct (Z.leb_spec (page_base r) sp), (Z.ltb_spec sp (page_end r)); tauto || lia. }
  destruct (part_whole hhdm r (proj2 Hpb)) as [_ ->]. cbn [register_list]. apply panic_here. unfold add_region, bind, gets, assert. cbn [fst snd].
  destruct (base b1 =? 0); [done|]. cbn [negb]. rewrite Hb1, (proj2 (Z.leb_gt _ _)) by done. done.
Qed.

(** C17: [release] registers exactly the whole reclaimable pages above 1 MiB
    outside the region that holds the stack it runs on, whose page and size
    [find_boot_stack] has noted; registering that region after the switch of
    the stack completes the reclaimable pages above 1 MiB.  Both leave the
    allocator in a state of its contract with the same held blocks.  This is
    for a machine ([reclaim_ok]) whose reclaimable regions above 1 MiB overlap
    neither each other nor what is registered already, start at or above the
    allocator's base, and lie within its capacity of 131200 pages; below the
    base [release] panics ([release_below_base_panics]). *)
Theorem release_reclaims s d current_sp :
  sys_reach s -> reclaim_ok s d current_sp ->
  let hhdm := hhdm_offset d in let sp := Z.land (current_sp - hhdm) (not64 0xFFF) in
  let phys p := base (sy_b s) + p * 4096 - hhdm in
  exists stack s1 s2,
    find_boot_stack hhdm sp (reclaimable_regions d) tt = Ok (stack, tt) /\
    release current_sp d (sy_b s, sy_m s) = Ok (tt, (sy_b s1, sy_m s1)) /\ sys_reach s1 /\ sy_held s1 = sy_held s /\
    (forall p, in_regions (sy_regions s1) p <-> in_regions (sy_regions s) p \/ released_page (reclaimable_regions d) sp (phys p)) /\
    writes_only (pages_of (base (sy_b s)) (sy_regions s1)) (sy_m s) (sy_m s1) /\
    match stack with Some (v, n) => add_region v n | None => ret tt end (sy_b s1, sy_m s1) = Ok (tt, (sy_b s2, sy_m s2)) /\
    sys_reach s2 /\ sy_held s2 = sy_held s /\
    (forall p, in_regions (sy_regions s2) p <-> in_regions (sy_regions s) p \/ reclaimable_page (reclaimable_regions d) (phys p)).
Proof.
  intros Hr [(Hh & Hha & Hspw) Hba HF Hone Hparts] hhdm sp phys. fold hhdm in Hparts, Hh, Hha, HF. fold sp in Hparts.
  set (rs := reclaimable_regions d) in *. set (l1 := reclaim_parts hhdm sp rs) in *. set (st := stack_region hhdm sp rs) in *.
  set (a := base (sy_b s)) in *.
  assert (Forall (fun x => a <= fst x /\ (fst x - a) mod 4096 = 0) (l1 ++ option_list st)) as Hal.
  { destruct Hparts as [Hp _ _ _]. eapply Forall_impl; [exact Hp|]. by intros x (? & ? & _). }
  assert (forall p, phys p mod 4096 = 0) as Hphys.
  { intros p. unfold phys. pose proof (Z.div_mod a 4096 ltac:(lia)). pose proof (Z.div_mod hhdm 4096 ltac:(lia)).
    replace (a + p * 4096 - hhdm) with ((a / 4096 + p - hhdm / 4096) * 4096) by lia. by apply Z.mod_mul. }
  assert (forall p, a + p * 4096 = hhdm + phys p) as Ephys by (intros; unfold phys; lia).
  destruct (register_all l1 s Hr (registrable_app _ _ _ _ _ Hparts)) as (b1 & m1 & Hrun1 & Hr1 & _ & _ & Hw1 & _).
  destruct (register_all _ s Hr Hparts) as (b2 & m2 & Hrun2 & Hr2 & _). fold a in Hr1, Hr2.
  exists st, (mkSys b1 m1 (rev (List.map (in_pages a) l1) ++ sy_regions s) (sy_held s)),
    (mkSys b2 m2 (rev (List.map (in_pages a) (l1 ++ option_list st)) ++ sy_regions s) (sy_held s)).
  cbn [sy_b sy_m sy_held sy_regions]. split_and!; try done.
  - apply run_find_boot_stack; [lia|done].
  - unfold release, bind, usub. fold hhdm. rewrite (proj2 (Z.leb_le hhdm current_sp)) by lia. cbn [ret]. fold sp.
    rewrite run_release_loop by (done || lia). exact Hrun1.
  - intros p. apply Forall_app in Hal as [Hal _]. unfold a. rewrite registered_pages by exact Hal.
    by rewrite <- (reclaim_parts_pages hhdm sp rs (phys p) (Hphys p)), <- Ephys.
  - rewrite register_list_app in Hrun2. unfold bind in Hrun2. fold l1 st in Hrun2.
    by rewrite Hrun1, register_option in Hrun2.
  - intros p. unfold a. rewrite registered_pages by exact Hal. fold a.
    rewrite covers_app, Ephys. unfold l1, st. rewrite (reclaim_parts_pages hhdm sp rs _ (Hphys p)).
    rewrite (stack_region_pages hhdm sp rs _ (Hphys p)) by (intros; by eapply (Hone r r' sp)).
    unfold released_page, reclaimable_page. split.
    + intros [?|[(r & ? & ? & ? & _)|(r & ? & ? & ? & _)]]; eauto.
    + intros [?|(r & ? & ? & ?)]; [by left|right]. destruct (decide (page_base r <= sp < page_end r)); [right|left]; eauto.
Qed.
End heap.

(** ** A concrete machine *)

Definition MiB : Z := 1048576.
Definition hh : Z := 0xffff800000000000.

(** 17 MiB of usable memory, the kernel's image above it, and reclaimable
    regions below 1 MiB, under the boot stack and above it. *)
Definition map1 : list MemoryRegion := [
  mkRegion 4096 8192 BootloaderReclaimable;
  mkRegion MiB (17 * MiB) Usable;
  mkRegion (18 * MiB) 65536 ExecutableAndModules;
  mkRegion (20 * MiB) MiB BootloaderReclaimable;
  mkRegion (24 * MiB) 65536 AcpiReclaimable].

Lemma map1_ok : boot_map_ok map1 (18 * MiB) (18 * MiB + 65536) hh (hh + MiB).
Proof.
  split; [by vm_compute|by vm_compute| |by vm_compute|by vm_compute|].
  - repeat constructor; by vm_compute.
  - match goal with |- registrable _ _ _ ?l => let l' := eval vm_compute in l in change l with l' end.
    split; repeat constructor; by vm_compute.
Qed.

Lemma heap_init_pages_witness : exists s, sys_reach s /\ (in_regions (sy_regions s) 7) /\ ~ in_regions (sy_regions s) 4352.
Proof.
  destruct (heap_init_pages map1 (18 * MiB) (18 * MiB + 65536) hh (hh + MiB) ∅ map1_ok) as (s & Hr & _ & Hp & _).
  exists s. split; [exact Hr|]. split.
  - apply Hp. split; [exists (mkRegion MiB (17 * MiB) Usable)|]; [|intros [Hle _]; vm_compute in Hle; by apply Hle].
    split; [by right; left|]. split; [done|by vm_compute].
  - intros H%Hp. destruct H as [_ H]. apply H. by vm_compute.
Defined.

(** The data harvested for [map1], with the boot stack in its fourth region. *)
Definition data1 : LimineData :=
  mkLimine hh (18 * MiB) (18 * MiB + 65536) 0xffffffff80000000 0xffffffff80010000 map1 5 None None None.
Definition sp1 : Z := hh + 20 * MiB + 65536.
Definition sys_empty : sys := mkSys (with_base (hh + MiB) BuddyAllocator_new) ∅ [] ∅.

Lemma sys_empty_reach : sys_reach sys_empty.
Proof. exists sys_empty. split; [|constructor]. apply (init_base (hh + MiB) _ ∅ ∅); [done|reflexivity]. Qed.

Lemma data1_ok : reclaim_ok sys_empty data1 sp1.
Proof.
  split; [by vm_compute|done| | |].
  - repeat constructor; by vm_compute.
  - assert (reclaimable_regions data1 = [mkRegion 4096 8192 BootloaderReclaimable;
      mkRegion (20 * MiB) MiB BootloaderReclaimable; mkRegion (24 * MiB) 65536 AcpiReclaimable]) as -> by done.
    intros r r' sp Hr Hr'. unfold holds.
    repeat (apply elem_of_cons in Hr as [->|Hr]); try (by apply elem_of_nil in Hr);
      repeat (apply elem_of_cons in Hr' as [->|Hr']); try (by apply elem_of_nil in Hr'); try done;
      unfold page_base, page_end, MiB; cbn [r_base r_length]; intros H1 H2; exfalso; clear -H1 H2;
      repeat match type of H1 with context [?x mod 4096] => let y := eval vm_compute in (x mod 4096) in change (x mod 4096) with y in H1 end;
      repeat match type of H2 with context [?x mod 4096] => let y := eval vm_compute in (x mod 4096) in change (x mod 4096) with y in H2 end; lia.
  - cbv zeta. match goal with |- registrable _ _ _ ?l => let l' := eval vm_compute in l in change l with l' end.
    split; repeat constructor; by vm_compute.
Qed.

Lemma release_reclaims_witness : exists s1,
  release sp1 data1 (sy_b sys_empty, sy_m sys_empty) = Ok (tt, (sy_b s1, sy_m s1)) /\ in_regions (sy_regions s1) 5888.
Proof.
  destruct (release_reclaims sys_empty data1 sp1 sys_empty_reach data1_ok)
    as (stack & s1 & s2 & _ & Hrun & _ & _ & Hp & _).
  exists s1. split; [exact Hrun|]. apply Hp. right. exists (mkRegion (24 * MiB) 65536 AcpiReclaimable).
  split; [by right; right; left|]. split; [by vm_compute|]. split; [by vm_compute|]. intros [H _]. vm_compute in H. by apply H.
Defined.
