(* ===== verification/LimineOld.v ===== *)
(** * The stale copy of the boot data

    src/src/writers/limine_data.rs is an earlier version of
    src/src/limine_data.rs that was left in the tree; src/src/writers/mod.rs
    does not name it, so nothing calls it.  It is modelled to say what the
    current version changed: [harvest] copies C strings byte by byte and knows
    fewer kinds of memory, and [release] has neither the guard for the page of
    the stack pointer nor the one for the first MiB. *)

From S2P Require Import Prelude Pages Buddy BuddySpec Limine LimineSpec Boot BootSpec.

(** Its numbers for the kinds of memory are those of an earlier limine crate. *)
Class StaleTypes := {
  OLD_USABLE : Z;
  OLD_BOOTLOADER_RECLAIMABLE : Z;
  OLD_ACPI_RECLAIMABLE : Z;
  OLD_KERNEL_AND_MODULES : Z;
  OLD_FRAMEBUFFER : Z;
  OLD_BAD_MEMORY : Z
}.

Module stale.

(** ** Data *)
Inductive MemoryRegionType : Type :=
| Usable
| BootloaderReclaimable
| AcpiReclaimable
| KernelAndModules
| Framebuffer
| BadMemory
| Reserved.

Definition is_immediately_usable (t : MemoryRegionType) : bool := match t with Usable => true | _ => false end.
Definition is_reclaimable (t : MemoryRegionType) : bool :=
  match t with BootloaderReclaimable | AcpiReclaimable => true | _ => false end.

Record MemoryRegion : Type := mkRegion {
  base : Z;
  len : Z;
  region_type : MemoryRegionType
}.

Record FramebufferInfo : Type := mkFbInfo {
  virt_addr : Z;
  phys_addr : Z;
  width : Z;
  height : Z;
  pitch : Z;
  bits_per_pixel : Z;
  byte_size : Z
}.

Record LimineData : Type := mkLimine {
  hhdm_offset : Z;
  kernel_phys_start : Z;
  kernel_phys_end : Z;
  kernel_virt_start : Z;
  kernel_virt_end : Z;
  region_array : list MemoryRegion;
  region_count : Z;
  framebuffer : option FramebufferInfo;
  rsdp_phys : option Z;
  bootloader_info : option BootloaderInfo
}.

Definition regions (d : LimineData) : list MemoryRegion := take (Z.to_nat (region_count d)) (region_array d).
Definition usable_regions (d : LimineData) : list MemoryRegion :=
  filter (fun r => is_immediately_usable (region_type r) = true) (regions d).
Definition reclaimable_regions (d : LimineData) : list MemoryRegion :=
  filter (fun r => is_reclaimable (region_type r) = true) (regions d).

Section limine.
Context {T : StaleTypes} {AL : Align}.

Definition region_end {S} (r : MemoryRegion) : M S Z := uadd (base r) (len r).
Definition aligned_base {S} (r : MemoryRegion) : M S Z := expect (align_up (base r) 4096).
Definition aligned_end {S} (r : MemoryRegion) : M S Z := let* e := region_end r in ret (align_down e 4096).
Definition has_pages {S} (r : MemoryRegion) : M S bool := 
  let* e := aligned_end r in
  let* b := aligned_base r in ret (b <? e).

(** ** [harvest] *)
Definition classify (t : Z) : MemoryRegionType :=
  if t =? OLD_USABLE then Usable
  else if t =? OLD_BOOTLOADER_RECLAIMABLE then BootloaderReclaimable
  else if t =? OLD_ACPI_RECLAIMABLE then AcpiReclaimable
  else if t =? OLD_KERNEL_AND_MODULES then KernelAndModules
  else if t =? OLD_FRAMEBUFFER then Framebuffer
  else if t =? OLD_BAD_MEMORY then BadMemory
  else Reserved.

Fixpoint harvest_regions {S} (entries : list Entry) (array : list MemoryRegion) (count : Z) : M S (list MemoryRegion * Z) :=
  match entries with
  | [] => ret (array, count)
  | e :: entries' =>
      if MAX_REGIONS <=? count then ret (array, count)
      else
        let* array' := aset array count (mkRegion (e_base e) (e_length e) (classify (e_type e))) in
        harvest_regions entries' array' (count + 1)
  end.

Definition harvest_framebuffer {S} (hhdm : Z) (fbs : option (list RawFramebuffer)) : M S (option FramebufferInfo) :=
  match fbs ≫= head with
  | None => ret None
  | Some fb =>
      let* phys := usub (raw_address fb) hhdm in
      let* size := umul (raw_height fb) (raw_pitch fb) in
      ret (Some (mkFbInfo (raw_address fb) phys (raw_width fb) (raw_height fb) (raw_pitch fb) (raw_bpp fb) size))
  end.

(** [copy_cstr]: the bytes at [ptr] up to a zero, at most 63 of them. *)
Fixpoint copy_loop (fuel : nat) (ptr : nat -> Z) (dst : list Z) (n : nat) : list Z * nat :=
  match fuel with
  | O => (dst, n)
  | S fuel =>
      let b := ptr n in
      if b =? 0 then (dst, n) else copy_loop fuel ptr (<[n := b]> dst) (S n)
  end.
Definition copy_cstr (ptr : nat -> Z) : list Z * Z :=
  let (dst, n) := copy_loop 63 ptr (replicate 64 0) 0 in (dst, Z.of_nat n).

Definition harvest_bootloader (b : option ((nat -> Z) * (nat -> Z))) : option BootloaderInfo :=
  match b with
  | None => None
  | Some (nm, ver) =>
      let (a, n) := copy_cstr nm in
      let (v, k) := copy_cstr ver in
      Some (mkBootloader a n v k)
  end.

(** The responses are those of the current version but for the two C strings. *)
Definition harvest (r : Responses) (names : option ((nat -> Z) * (nat -> Z))) : M bool LimineData :=
  let* harvested := get in
  put true ;;
  assert (negb harvested) ;;
  let* hhdm := expect (rs_hhdm r) in
  let* kernel := expect (rs_kernel r) in
  let kernel_size := Z.max 0 (kernel_end r - kernel_start r) in
  let* virt_end := uadd (snd kernel) kernel_size in
  let* phys_end := uadd (fst kernel) kernel_size in
  let* phys_end := expect (align_up phys_end 4096) in
  let* entries := expect (rs_memmap r) in
  let* rc := harvest_regions entries (replicate (Z.to_nat MAX_REGIONS) (mkRegion 0 0 Reserved)) 0 in
  let* fb := harvest_framebuffer hhdm (rs_framebuffers r) in
  ret (mkLimine hhdm (fst kernel) phys_end (snd kernel) virt_end (fst rc) (snd rc) fb
    (option_map (fun a => Z.max 0 (a - hhdm)) (rs_rsdp r)) (harvest_bootloader names)).

(** ** [release] *)
Fixpoint release_loop (hhdm : Z) (rs : list MemoryRegion) : M BState unit :=
  match rs with
  | [] => ret tt
  | r :: rs' =>
      let* base := aligned_base r in
      let* end_ := aligned_end r in
      (if end_ <=? base then ret tt
       else
         let* virt_base := uadd hhdm base in
         let* b := gets (fun s => Buddy.base (fst s)) in
         if virt_base <? b then ret tt
         else add_region virt_base ((end_ - base) / 4096)) ;;
      release_loop hhdm rs'
  end.

Definition release (d : LimineData) : M BState unit := release_loop (hhdm_offset d) (reclaimable_regions d).
End limine.

(** ** Against the current version *)

(** A kind of memory as the current version names it. *)
Definition current_type (t : MemoryRegionType) : Limine.MemoryRegionType :=
  match t with
  | Usable => Limine.Usable
  | BootloaderReclaimable => Limine.BootloaderReclaimable
  | AcpiReclaimable => Limine.AcpiReclaimable
  | KernelAndModules => Limine.ExecutableAndModules
  | Framebuffer => Limine.Framebuffer
  | BadMemory => Limine.BadMemory
  | Reserved => Limine.Reserved
  end.
Definition current_region (r : MemoryRegion) : Limine.MemoryRegion := Limine.mkRegion (base r) (len r) (current_type (region_type r)).

Lemma current_usable t : Limine.is_immediately_usable (current_type t) = is_immediately_usable t.
Proof. by destruct t. Qed.
Lemma current_reclaimable t : Limine.is_reclaimable (current_type t) = is_reclaimable t.
Proof. by destruct t. Qed.

(** The loop copies what [copy_name] of the current version does. *)
Lemma run_copy_loop s fuel : forall done rest pad, s = done ++ rest -> Forall (fun b => b <> 0) rest -> (fuel <= length pad)%nat ->
  copy_loop fuel (fun i => nth i s 0) (done ++ pad) (length done) =
    (done ++ take fuel rest ++ drop (Nat.min fuel (length rest)) pad, (length done + Nat.min fuel (length rest))%nat).
Proof.
  induction fuel as [|fuel IH]; intros done rest pad -> Hr Hp.
  - cbn. by rewrite drop_0, Nat.add_0_r.
  - cbn [copy_loop]. destruct rest as [|b rest].
    { rewrite nth_overflow by (rewrite length_app; simpl; lia). cbn. by rewrite drop_0, Nat.add_0_r. }
    apply Forall_cons in Hr as [Hb Hr]. rewrite app_nth2 by lia. rewrite Nat.sub_diag. cbn [nth]. rewrite (proj2 (Z.eqb_neq b 0)) by done.
    destruct pad as [|p pad]; [simpl in Hp; lia|]. rewrite insert_app_r_alt by lia. rewrite Nat.sub_diag.
    change (done ++ <[0%nat := b]> (p :: pad)) with (done ++ [b] ++ pad). rewrite app_assoc.
    replace (S (length done)) with (length (done ++ [b])) by (rewrite length_app; simpl; lia).
    rewrite (IH (done ++ [b]) rest pad); [|by rewrite <- app_assoc|done|simpl in Hp; lia].
    rewrite <- !app_assoc. cbn [take drop length app Nat.min]. f_equal. rewrite length_app. simpl. lia.
Qed.

Lemma copy_cstr_name s : Forall (fun b => b <> 0) s -> copy_cstr (fun i => nth i s 0) = copy_name s.
Proof.
  intros Hs. unfold copy_cstr, copy_name. pose proof (run_copy_loop s 63 [] s (replicate 64 0) eq_refl Hs ltac:(rewrite length_replicate; lia)) as E.
  cbn [app length Nat.add] in E. rewrite E. rewrite Nat.min_comm. f_equal. f_equal; [|by rewrite drop_replicate].
  destruct (decide (length s <= 63)%nat); [rewrite !take_ge; lia || done|]. f_equal. lia.
Qed.

(** Registering with the copy: the whole reclaimable regions at or above the
    allocator's base. *)
Section release_old.
Context {T : StaleTypes} {AL : Align} {LAWS : AlignLaws AL}.

Definition reclaim_part (hhdm a : Z) (r : Limine.MemoryRegion) : list (Z * Z) :=
  if page_end r <=? page_base r then []
  else if hhdm + page_base r <? a then []
  else part hhdm (page_base r) (page_end r).
Definition reclaim_parts (hhdm a : Z) (rs : list Limine.MemoryRegion) : list (Z * Z) :=
  concat (List.map (reclaim_part hhdm a) rs).

Lemma run_stale_release_loop hhdm rs : 0 <= hhdm -> Forall (fits hhdm) (List.map current_region rs) -> forall s, sys_reach s ->
  let l := reclaim_parts hhdm (Buddy.base (sy_b s)) (List.map current_region rs) in
  registrable (Buddy.base (sy_b s)) (total_pages (sy_b s)) (sy_regions s) l ->
  release_loop hhdm rs (sy_b s, sy_m s) = register_list l (sy_b s, sy_m s).
Proof.
  intros Hh HF. induction rs as [|r rs IH]; intros s Hs; [done|].
  cbn [List.map] in HF. apply Forall_cons in HF as [Hr HF]. specialize (IH HF). cbv zeta in *. set (a := Buddy.base (sy_b s)).
  cbn [release_loop List.map]. unfold reclaim_parts. cbn [List.map concat]. fold (reclaim_parts hhdm a (List.map current_region rs)).
  destruct (run_aligned hhdm (current_region r) (sy_b s, sy_m s) Hh Hr) as (Eb & He & H0 & H1 & H2). destruct Hr as (? & ? & ?).
  change (aligned_base r) with (Limine.aligned_base (S := BState) (current_region r)).
  change (aligned_end r) with (Limine.aligned_end (S := BState) (current_region r)). intros Hreg.
  unfold bind at 1. unfold bind at 1. rewrite Eb. unfold bind at 1. rewrite He. unfold reclaim_part in *.
  destruct (Z.leb_spec (page_end (current_region r)) (page_base (current_region r))) as [|Hlt]; [by apply IH|].
  unfold bind at 1, uadd. rewrite (proj2 (Z.ltb_lt _ W64)) by lia. cbn [ret]. unfold bind at 1, gets. cbn [fst]. fold a.
  destruct (hhdm + page_base (current_region r) <? a); [by apply IH|].
  destruct (part_whole hhdm (current_region r) Hlt) as [Hp Ep]. rewrite Ep in Hreg |- *. cbn [app] in Hreg |- *.
  assert (0 <= page_sum (reclaim_parts hhdm a (List.map current_region rs))) as Hsum.
  { apply page_sum_nonneg. destruct Hreg as [Hpt _ _ _]. apply Forall_cons in Hpt as [_ Hpt]. eapply Forall_impl; [exact Hpt|]. by intros y (_ & _ & ? & _). }
  destruct (registrable_contract s _ _ Hreg Hsum) as [Hc Ex].
  destruct (register_step s _ _ Hs Hc) as (b1 & m1 & Hrun & Hs1 & Hb1 & Ht1 & _). fold a in Ex, Hrun, Hs1, Hb1. rewrite <- Ex in Hrun. cbn [fst snd] in Hrun.
  cbn [register_list]. unfold bind. cbn [fst snd]. rewrite Hrun. specialize (IH _ Hs1). cbn [sy_b sy_m sy_regions] in IH. rewrite Hb1, Ht1 in IH. cbn [snd] in IH. apply IH.
  by apply registrable_head in Hreg.
Qed.

(** The earlier [release] hands the running stack to the allocator: on a
    memory map with a reclaimable region, above the allocator's base, that holds
    the page of the stack pointer, it returns with that page free for the next
    allocation, where the current [release] leaves the whole region out. *)
Theorem stale_release_frees_stack s (d : LimineData) (r : MemoryRegion) current_sp :
  let hhdm := hhdm_offset d in
  let rs := List.map current_region (reclaimable_regions d) in
  let sp := Z.land (current_sp - hhdm) (not64 0xFFF) in
  sys_reach s -> 0 <= hhdm -> Forall (fits hhdm) rs ->
  registrable (Buddy.base (sy_b s)) (total_pages (sy_b s)) (sy_regions s) (reclaim_parts hhdm (Buddy.base (sy_b s)) rs) ->
  (Buddy.base (sy_b s) - hhdm) mod 4096 = 0 -> sp mod 4096 = 0 ->
  r ∈ reclaimable_regions d -> holds (current_region r) sp -> Buddy.base (sy_b s) <= hhdm + page_base (current_region r) ->
  (exists s', release d (sy_b s, sy_m s) = Ok (tt, (sy_b s', sy_m s')) /\ sys_reach s' /\ sy_held s' = sy_held s /\
     pool_free (sy_regions s') (sy_held s') (page_of (Buddy.base (sy_b s)) (hhdm + sp))) /\
  Limine.release_loop hhdm sp [current_region r] (sy_b s, sy_m s) = Ok (tt, (sy_b s, sy_m s)).
Proof.
  intros hhdm rs sp Hs Hh HF Hreg Ha Hsp Hin Hold Hbase. set (a := Buddy.base (sy_b s)) in *.
  assert (current_region r ∈ rs) as Hin' by (apply list_elem_of_In, in_map, list_elem_of_In, Hin).
  assert (page_base (current_region r) < page_end (current_region r)) as Hlt by (unfold holds in Hold; lia). split.
  - destruct (register_all _ s Hs Hreg) as (b' & m' & Hrun & Hs' & _). fold a in Hs'.
    exists (mkSys b' m' (rev (List.map (in_pages a) (reclaim_parts hhdm a rs)) ++ sy_regions s) (sy_held s)). cbn [sy_b sy_m sy_held sy_regions].
    split; [unfold release; fold hhdm; by rewrite (run_stale_release_loop hhdm _ Hh HF s Hs Hreg)|]. split; [done|]. split; [done|].
    pose proof (Z.div_mod (hhdm + sp - a) 4096 ltac:(lia)) as Hdm.
    assert ((hhdm + sp - a) mod 4096 = 0) as Hm.
    { apply Z.mod_divide in Ha as [x Hx]; [|lia]. apply Z.mod_divide in Hsp as [y Hy]; [|lia]. apply Z.mod_divide; [lia|]. exists (y - x). lia. }
    assert (a + page_of a (hhdm + sp) * 4096 = hhdm + sp) as Ep by (unfold page_of, PAGE_SIZE; lia).
    assert (exists n, (hhdm + page_base (current_region r), n) ∈ reclaim_parts hhdm a rs /\
      hhdm + page_base (current_region r) <= hhdm + sp < hhdm + page_base (current_region r) + n * 4096) as (n & Hn & Hr).
    { destruct (part_whole hhdm (current_region r) Hlt) as [Hp Epart]. exists ((page_end (current_region r) - page_base (current_region r)) / 4096). split.
      - unfold reclaim_parts. apply list_elem_of_In, in_concat. exists (reclaim_part hhdm a (current_region r)).
        split; [apply in_map, list_elem_of_In, Hin'|]. unfold reclaim_part. rewrite (proj2 (Z.leb_gt _ _)), (proj2 (Z.ltb_ge _ _)), Epart by lia. by left.
      - unfold holds in Hold. destruct (page_aligned (current_region r)) as [Hb He].
        pose proof (Z.div_mod (page_end (current_region r) - page_base (current_region r)) 4096 ltac:(lia)) as Hd.
        rewrite Zminus_mod, He, Hb in Hd. change ((0 - 0) mod 4096) with 0 in Hd. lia. }
    split.
    + unfold a. rewrite registered_pages; [right; fold a; rewrite Ep; by eexists _, n|]. destruct Hreg as [Hp _ _ _]. eapply Forall_impl; [exact Hp|]. by intros x (? & ? & _).
    + intros bl Hbl Hbp. destruct (reach_inv s Hs) as [F I]. pose proof (si_held _ _ I bl _ Hbl Hbp) as ([off k] & Hg & Hgr). cbn [fst snd] in Hgr.
      destruct Hreg as [_ _ _ Hnew]. rewrite Forall_forall in Hnew. specialize (Hnew _ Hn). rewrite Forall_forall in Hnew.
      destruct (Hnew _ Hg) as [Hd|Hd]; unfold a in *; cbn [fst snd] in Hd; nia.
  - cbn [Limine.release_loop]. assert (fits hhdm (current_region r)) as Hfit by (rewrite Forall_forall in HF; by apply HF).
    destruct (run_aligned hhdm (current_region r) (sy_b s, sy_m s) Hh Hfit) as (Eb & He & _). unfold bind. rewrite Eb, He.
    rewrite (proj2 (Z.leb_gt _ _)) by lia. destruct (_ <? 0x100000); [done|]. unfold holds in Hold.
    by rewrite (proj2 (Z.leb_le _ _)), (proj2 (Z.ltb_lt _ _)) by lia.
Qed.
End release_old.

(** The machine of [BootSpec], as the earlier version sees it. *)
Definition stack_block : MemoryRegion := mkRegion (20 * MiB) MiB BootloaderReclaimable.
Definition data2 : LimineData :=
  mkLimine hh (18 * MiB) (18 * MiB + 65536) 0 0
    [mkRegion 4096 8192 BootloaderReclaimable; mkRegion MiB (17 * MiB) Usable; mkRegion (18 * MiB) 65536 KernelAndModules;
     stack_block; mkRegion (24 * MiB) 65536 AcpiReclaimable] 5 None None None.

Lemma data2_reclaimable : reclaimable_regions data2 =
  [mkRegion 4096 8192 BootloaderReclaimable; stack_block; mkRegion (24 * MiB) 65536 AcpiReclaimable].
Proof. by vm_compute. Qed.

Lemma data2_parts : reclaim_parts hh (hh + MiB) (List.map current_region (reclaimable_regions data2)) =
  [(hh + 20 * MiB, 256); (hh + 24 * MiB, 16)].
Proof. by vm_compute. Qed.

Lemma stale_release_frees_stack_witness :
  exists s', release data2 (sy_b sys_empty, sy_m sys_empty) = Ok (tt, (sy_b s', sy_m s')) /\
    pool_free (sy_regions s') (sy_held s') 4880.
Proof.
  assert (Buddy.base (sy_b sys_empty) = hh + MiB) as Eb by done.
  destruct (stale_release_frees_stack sys_empty data2 stack_block (hh + 20 * MiB + 65536)) as [(s' & Hrun & _ & _ & Hf) _].
  - exact sys_empty_reach.
  - by vm_compute.
  - repeat constructor; by vm_compute.
  - rewrite Eb. change (hhdm_offset data2) with hh. rewrite data2_parts. split; repeat constructor; by vm_compute.
  - by vm_compute.
  - by vm_compute.
  - rewrite data2_reclaimable. right. by left.
  - split; by vm_compute.
  - by vm_compute.
  - exists s'. split; [exact Hrun|]. rewrite Eb in Hf. change (hhdm_offset data2) with hh in Hf.
    assert (page_of (hh + MiB) (hh + Z.land (hh + 20 * MiB + 65536 - hh) (not64 0xFFF)) = 4880) as E by by vm_compute.
    rewrite E in Hf. exact Hf.
Defined.
End stale.
