(* ===== verification/BootPaging.v ===== *)
(** * Page tables while booting

    [kernel_main] maps pages through the boot loader's tables, which lie in
    memory the buddy allocator does not manage.  [buddy_over] is the buddy
    allocator next to such foreign blocks, as the frame source that the theorems
    of [PagingSpec] ask for; with it they hold for the boot loader's tables.
    Then the kernel stack (src/src/memory/stack.rs), and what the kernel's own
    tables keep of the mappings made before them. *)

From S2P Require Import Prelude Pages Buddy BuddySpec Paging PageTree PagingSpec PagingProps Limine Boot BootSpec.

(** ** The buddy allocator next to foreign blocks *)

Section over.
Context (a : Z) (rs : list (Z * Z)) (lo hi : Z) (X : gset (Z * Z)).

(** The blocks of [X] lie in the window, apart from each other and from the
    regions [rs] (in pages from [a]) that the allocator manages. *)
Record foreign : Prop := mkForeign {
  fo_base : a mod 4096 = 0;
  fo_bounds : lo <= a /\ a + CAPACITY * 4096 <= hi;
  fo_window : forall bl, bl ∈ X -> lo <= snd bl /\ snd bl + block_size (fst bl) <= hi;
  fo_disj : forall b1 b2, b1 ∈ X -> b2 ∈ X -> b1 <> b2 -> block_disj b1 b2;
  fo_free : forall bl x, bl ∈ X -> in_block bl x -> ~ in_regions rs (page_of a x)
}.

Definition over_inv (b : BuddyAllocator) (m : mem) (A : gset (Z * Z)) : Prop :=
  base b = a /\ foreign /\ exists held, sys_reach (mkSys b m rs held) /\ A = set_map (byte_block a) held ∪ X.

(** Held blocks lie in the regions, so apart from [X]. *)
Lemma held_foreign b m held bl bl' :
  base b = a -> foreign -> sys_reach (mkSys b m rs held) -> bl ∈ held -> bl' ∈ X -> block_disj (byte_block a bl) bl'.
Proof.
  intros Hb FO [F I]%reach_inv Hbl Hbl' x Hx%in_byte_block Hx'. apply (fo_free FO bl' x Hbl' Hx').
  exact (si_held _ _ I _ _ Hbl Hx).
Qed.

Lemma over_alloc b m A order :
  over_inv b m A -> alloc_count (stats b) + 1 < W64 -> 0 <= order < 17 ->
  wp (alloc_pages order) (b, m) (fun r s' =>
    match r with
    | None => s' = (b, m) /\ (order = 0 -> free_bytes (stats b) / 4096 <= 0)
    | Some ptr =>
        over_inv (fst s') (snd s') ({[(order, ptr)]} ∪ A) /\
        0 < ptr /\ ptr + block_size order <= W64 /\ ptr mod 4096 = 0 /\
        (forall bl, bl ∈ A -> block_disj (order, ptr) bl) /\ pages_kept A m (snd s') /\
        alloc_count (stats (fst s')) = alloc_count (stats b) + 1 /\
        free_bytes (stats (fst s')) / 4096 = free_bytes (stats b) / 4096 - 2 ^ order
    end).
Proof.
  intros (Hba & FO & held & Hr & ->) Hc Ho. destruct (reach_inv _ Hr) as [F I]. pose proof (si_owned _ _ I) as O. cbn [sy_b sy_m sy_held] in O.
  assert (buddy_inv b m (set_map (byte_block a) held)) as Hb by (exists F, held; rewrite Hba; split_and!; [done|done|apply FO]).
  pose proof (wp_and _ _ _ _ (buddy_alloc_spec b m _ order Hb Hc Ho) (wp_alloc_pages b m F held order O Ho Hc)) as Hw.
  apply wp_run in Hw as (r & [b' m'] & Hrun & H1 & H2). apply wp_run. exists r, (b', m'). split; [done|].
  destruct r as [ptr|]; cbn [fst snd] in *; [|exact H1].
  destruct H1 as (_ & Hp0 & Hend & Hpal & Hdisj & Hkept & [_ Hcnt] & Hb' & Hfr). destruct H2 as (p & F' & _ & Hall & _).
  destruct (step_alloc_inv _ F order ptr b' m' I Ho Hc Hrun) as (Eptr & _). cbn [sy_b snd] in Eptr. rewrite Hba in Eptr.
  assert (sys_reach (mkSys b' m' rs ({[(order, page_of a ptr)]} ∪ held))) as Hr'.
  { destruct Hr as (s0 & H0 & Hs). exists s0. split; [done|]. eapply rtc_r; [exact Hs|]. rewrite <- Hba. eexists.
    by apply (step_alloc (mkSys b m rs held)). }
  assert ((order, ptr) = byte_block a (order, page_of a ptr)) as Ebl by (unfold byte_block; cbn [fst snd]; by rewrite <- Eptr).
  split_and!; try done.
  - split; [by rewrite Hb'|]. split; [done|]. eexists. split; [exact Hr'|].
    by rewrite set_map_union_L, set_map_singleton_L, <- Ebl, union_assoc_L.
  - intros bl [H|H]%elem_of_union; [by apply Hdisj|]. rewrite Ebl. eapply held_foreign; [by rewrite <- Hba|done|exact Hr'|set_solver|done].
  - intros bl x [H|H]%elem_of_union Hx; [by apply (Hkept bl)|]. apply (al_writes _ _ _ _ _ _ _ _ Hall).
    unfold in_free. rewrite Hba. intros [Hreg _]%(si_cover _ _ I). by apply (fo_free FO bl x).
Qed.

#[program] Definition buddy_over : FrameSource BuddyAllocator := {|
  pa_alloc := alloc_pages;
  pa_inv := over_inv;
  pa_can_alloc n b := alloc_count (stats b) + Z.of_nat n < W64;
  pa_lo _ := lo;
  pa_hi _ := hi;
  pa_frames b := free_bytes (stats b) / 4096
|}.
Next Obligation. intros n b H. cbv beta in *. lia. Qed.
Next Obligation.
  intros b m A order ptr (Hba & FO & held & Hr & ->) [([k p] & [= -> ->] & Hin)%elem_of_map|Hin]%elem_of_union; [|exact (fo_window FO _ Hin)].
  destruct (reach_inv _ Hr) as [F I]. destruct (ow_ok _ _ _ _ (si_owned _ _ I) _ Hin) as (_ & Hp & _ & _ & Hcap). destruct (fo_bounds FO).
  simpl in *. unfold page_addr, block_size, Buddy.PAGE_SIZE in *. lia.
Qed.
Next Obligation.
  intros b m A b1 b2 (Hba & FO & held & Hr & ->) H1%elem_of_union H2%elem_of_union Hne.
  destruct (reach_inv _ Hr) as [F I]. pose proof (si_owned _ _ I) as O. cbn [sy_b sy_m sy_held] in O.
  destruct H1 as [(x1 & -> & H1)%elem_of_map|H1], H2 as [(x2 & -> & H2)%elem_of_map|H2].
  - destruct (ow_ok _ _ _ _ O _ H1) as (? & _), (ow_ok _ _ _ _ O _ H2) as (? & _).
    apply byte_disj; [lia|lia|]. apply (ow_disj _ _ _ _ O); [done|done|]. by intros ->.
  - by eapply held_foreign.
  - intros x Hx1 Hx2. by eapply (held_foreign b m held x2 b1).
  - by apply (fo_disj FO).
Qed.
Next Obligation.
  intros b m A order n HI Hr Ho. cbv beta in Hr. eapply wp_mono; [apply over_alloc; [done|lia|done]|].
  intros [ptr|] s' Hs; [|done]. destruct Hs as (? & ? & ? & ? & ? & ? & -> & ->). split_and!; try done; lia.
Qed.
Next Obligation.
  intros b m m' A (Hba & FO & held & Hr & ->) Hm. split; [done|]. split; [done|]. exists held. split; [|done].
  destruct Hr as (s0 & H0 & Hs). exists s0. split; [done|]. eapply rtc_r; [exact Hs|]. exists EWrite.
  apply (step_write (mkSys b m rs held)). cbn [sy_b sy_m sy_regions sy_held]. rewrite Hba. intros x [Hreg Hno].
  destruct (decide (rd m' x = rd m x)) as [|Hne]; [done|exfalso].
  destruct (Hm x Hne) as (bl & [(bl0 & -> & Hbl)%elem_of_map|Hbl]%elem_of_union & Hin); [|by apply (fo_free FO bl x)].
  apply in_byte_block in Hin. by apply (Hno bl0).
Qed.

(** A tree whose tables are in [X], seen from the allocator. *)
Lemma pt_over {B : Bitwise} hhdm root m T s :
  tree hhdm root m T -> (forall p t, T !! p = Some t -> (0, t + hhdm) ∈ X) -> foreign ->
  sys_reach s -> base (sy_b s) = a -> sy_regions s = rs -> pages_kept X m (sy_m s) ->
  hhdm <= lo -> hi <= hhdm + 2 ^ 52 -> hi <= W64 ->
  pt_inv (PA := buddy_over) hhdm root (sy_b s) (sy_m s) T (set_map (byte_block a) (sy_held s) ∪ X) /\
  forall v, walk hhdm 4 (sy_m s) root v = walk hhdm 4 m root v.
Proof.
  intros IT HX FO Hr Hb Hrs Hk Hlo Hhi Hw. destruct (tree_kept hhdm root m (sy_m s) T IT) as [IT' W].
  { intros p t i Ht Hi. eapply Hk; [by eapply HX|by apply table_cell]. }
  split; [|done]. split; [done| |intros p t Ht; apply elem_of_union_r; by eapply HX|done|by split].
  split; [done|]. split; [done|]. exists (sy_held s). split; [|done]. rewrite <- Hrs. by destruct s.
Qed.
End over.

(** ** The kernel stack *)

(** The order that [alloc_kernel_stack] asks for. *)
Definition stack_order (min_pages : Z) : Z := if min_pages <=? 0 then 0 else Z.log2 min_pages + 1.

Lemma trailing_zeros_pow k : 0 <= k -> trailing_zeros (2 ^ k) = k.
Proof.
  intros Hk. assert (0 < 2 ^ k) as Hp by (by apply Z.pow_pos_nonneg).
  pose proof (trailing_zeros_nonneg (2 ^ k)) as Hn. apply Z.le_antisymm.
  - pose proof (trailing_zeros_divide (2 ^ k) Hp) as Hd. apply Z.divide_pos_le in Hd; [|done].
    by apply (Z.pow_le_mono_r_iff 2) in Hd.
  - by apply trailing_zeros_max.
Qed.

Lemma stack_order_spec n : 0 <= n < 2 ^ 16 ->
  0 <= stack_order n < 17 /\ n < 2 ^ stack_order n /\ (stack_order n = 0 \/ 2 ^ (stack_order n - 1) <= n).
Proof.
  intros Hn. unfold stack_order. destruct (Z.leb_spec n 0); [split; [lia|]; split; [lia|by left]|].
  pose proof (Z.log2_spec n ltac:(lia)) as [H1 H2]. pose proof (Z.log2_nonneg n).
  assert (Z.log2 n < 16) by (apply Z.log2_lt_pow2; lia).
  split; [lia|]. replace (Z.log2 n + 1 - 1) with (Z.log2 n) by lia. split; [done|by right].
Qed.

Lemma run_stack_order {S} n (s : S) : 0 <= n < 2 ^ 16 ->
  next_power_of_two (n + 1) s = Ok (2 ^ stack_order n, s).
Proof.
  intros Hn. pose proof (stack_order_spec n Hn) as (Ho & _). unfold next_power_of_two.
  assert ((if n + 1 <=? 1 then 1 else 2 ^ (Z.log2 (n + 1 - 1) + 1)) = 2 ^ stack_order n) as ->.
  { unfold stack_order. replace (n + 1 - 1) with n by lia.
    destruct (Z.leb_spec n 0), (Z.leb_spec (n + 1) 1); done || lia. }
  assert (2 ^ stack_order n <= 2 ^ 16) by (apply Z.pow_le_mono_r; lia).
  unfold W64. by rewrite (proj2 (Z.ltb_lt _ _)) by lia.
Qed.

Section stack.
Context {B : Bitwise} {BL : BitwiseLaws B} (hhdm a : Z) (rs : list (Z * Z)) (lo hi : Z) (X : gset (Z * Z)).
Context (hhdm_ok : 0 <= hhdm /\ hhdm mod 4096 = 0) (hi_ok : hi < W64).

Notation paging_ok := (paging_ok (PA := buddy_over a rs lo hi X) hhdm).
Notation pt_inv := (pt_inv (PA := buddy_over a rs lo hi X) hhdm).
Notation translates := (translates hhdm).

(** The state of the walker and the allocator after the stack is set up. *)
Record stack_post (root : Z) (s : Cpu * BuddyAllocator * mem) (T : gmap (list Z) Z) (A : gset (Z * Z)) (order : Z)
    (k : KernelStack) (s' : Cpu * BuddyAllocator * mem) : Prop := mkStackPost {
  sp_top : top k = guard_virt k + 2 ^ order * 4096;
  sp_ok : paging_ok root s' T ({[(order, guard_virt k)]} ∪ A);
  sp_fresh : forall bl, bl ∈ A -> block_disj (order, guard_virt k) bl;
  sp_others : others_kept hhdm A T (snd s) (snd s');
  sp_walk : forall v, 0 <= v -> translates s' v =
    if decide (page_no v = page_no (guard_virt k) /\ is_Some (T !! vpath (guard_virt k) 3)) then None else translates s v;
  sp_count : alloc_count (stats (snd (fst s'))) = alloc_count (stats (snd (fst s))) + 1;
  sp_frames : free_bytes (stats (snd (fst s'))) / 4096 = free_bytes (stats (snd (fst s))) / 4096 - 2 ^ order
}.

(** The stack once its block is allocated. *)
Definition stack_tail (order : Z) (r : option Z) : M (Cpu * BuddyAllocator * mem) KernelStack :=
  let* base_virt := expect r in
  unmap hhdm base_virt ;;
  let* size := umul (2 ^ order) 0x1000 in
  let* stack_top := uadd base_virt size in
  ret (mkStack stack_top base_virt).

Lemma run_alloc_stack c b m n r b' m' :
  0 <= n < 2 ^ 16 -> alloc_pages (stack_order n) (b, m) = Ok (r, (b', m')) ->
  alloc_kernel_stack hhdm n ((c, b), m) = stack_tail (stack_order n) r ((c, b'), m').
Proof.
  intros Hn Hrun. pose proof (stack_order_spec n Hn) as (Ho & _).
  assert (2 ^ stack_order n <= 2 ^ 16) as Hpow by (apply Z.pow_le_mono_r; lia).
  pose proof (Z.pow_pos_nonneg 2 (stack_order n) ltac:(lia) ltac:(lia)) as Hpos.
  unfold alloc_kernel_stack, bind at 1, uadd at 1. rewrite (proj2 (Z.ltb_lt (n + 1) W64)) by (unfold W64; lia).
  cbn [ret]. unfold bind at 1. rewrite run_stack_order, trailing_zeros_pow by (done || lia).
  unfold bind at 1, ushl. rewrite (proj2 (Z.leb_le 0 _)), (proj2 (Z.ltb_lt _ 64)) by lia. cbn [andb ret].
  rewrite Z.shiftl_1_l, Z.mod_small by (unfold W64; lia).
  unfold bind at 1, page_call. cbn [fst snd]. by rewrite Hrun.
Qed.

(** Setting up a stack panics exactly when the allocator has no block for it;
    otherwise the block is held, its first page is unmapped if a leaf table
    maps it, and nothing else changes. *)
Lemma wp_alloc_kernel_stack root c b m T A n :
  pt_inv root b m T A -> active_root c = root -> 0 <= n < 2 ^ 16 -> alloc_count (stats b) + 1 < W64 ->
  (exists s1, alloc_pages (stack_order n) (b, m) = Ok (None, s1) /\ alloc_kernel_stack hhdm n ((c, b), m) = Panic) \/
  exists k s', alloc_kernel_stack hhdm n ((c, b), m) = Ok (k, s') /\ stack_post root ((c, b), m) T A (stack_order n) k s'.
Proof.
  intros I Hc Hn Hcnt. pose proof (stack_order_spec n Hn) as (Ho & _).
  pose proof (over_alloc a rs lo hi X b m A (stack_order n) (pt_pages _ _ _ _ _ _ I) Hcnt Ho) as Hw.
  apply wp_run in Hw as (r & [b1 m1] & Hrun & Hpost).
  rewrite (run_alloc_stack c b m n r b1 m1 Hn Hrun). destruct r as [g|]; [right|left; eauto]. cbn [fst snd] in Hpost.
  destruct Hpost as (Ipa & Hg0 & Hend & Hga & Hdisj & Hkept & Hcnt1 & Hfr1).
  destruct (pt_alloc (PA := buddy_over a rs lo hi X) hhdm root b m T A b1 m1 (stack_order n, g) I Ipa Hkept eq_refl eq_refl) as [I1 W1].
  destruct (pa_window (FrameSource := buddy_over a rs lo hi X) _ _ _ (stack_order n) g Ipa ltac:(set_solver)) as [_ Hwin]. change (g + block_size (stack_order n) <= hi) in Hwin.
  unfold block_size in *. pose proof (Z.pow_pos_nonneg 2 (stack_order n) ltac:(lia) ltac:(lia)) as Hpos.
  assert (others_kept hhdm A T m m1) as Ho1 by (intros bl x Hbl _ Hx; by apply (Hkept bl)).
  assert (wp (stack_tail (stack_order n) (Some g)) ((c, b1), m1) (fun k s' =>
    stack_post root ((c, b), m) T A (stack_order n) k s')) as Hw.
  { unfold stack_tail. wp_step. eapply wp_expect; [done|]. wp_step.
    eapply wp_mono; [apply (wp_unmap hhdm root c b1 m1 T _ g I1 Hc); unfold W64 in *; lia|].
    intros [] [[c2 b2] m2] Hu. cbn [fst snd] in Hu. wp_steps; unfold W64 in *; try lia.
    destruct Hu as [[Hn3 [= -> -> ->]]|(Hs & -> & -> & I2 & O2 & W2)]; split; cbn [top guard_virt fst snd]; try done.
    - intros v Hv. unfold PagingProps.translates, translation. cbn [fst snd]. rewrite Hc, W1.
      rewrite decide_False; [done|]. rewrite Hn3. by intros [_ [? ?]].
    - intros bl x Hbl Hnt Hx. rewrite (O2 bl x); [by apply (Ho1 bl)|set_solver|done|done].
    - intros v Hv. unfold PagingProps.translates, translation. cbn [fst snd]. change (active_root (mkCpu _ _ _)) with (active_root c).
      rewrite Hc, W2, W1 by done. destruct (decide (page_no v = page_no g)); [by rewrite decide_True|].
      rewrite decide_False by naive_solver. done. }
  apply wp_run in Hw as (k & s' & Hr & Hp). by exists k, s'.
Qed.

(** ** From the boot loader's tables to the kernel's *)

Lemma page_no_offset v off : v mod 4096 = 0 -> 0 <= off < 4096 -> page_no (v + off) = page_no v /\ (v + off) mod 4096 = off.
Proof.
  intros Hv Ho. pose proof (Z.div_mod v 4096 ltac:(lia)). unfold page_no.
  assert (v + off = off + v / 4096 * 4096) as E by lia. split.
  - f_equal. rewrite E, Z.div_add, Z.div_small by lia. lia.
  - rewrite E, Z.mod_add by lia. by apply Z.mod_small.
Qed.

Lemma install_ok_any kvs kve kps mem_size b A A' :
  install_ok (PA := buddy_over a rs lo hi X) hhdm kvs kve kps mem_size b A ->
  install_ok (PA := buddy_over a rs lo hi X) hhdm kvs kve kps mem_size b A'.
Proof. intros []. by split. Qed.

(** C18: the steps of [kernel_main] that change page tables, in their order:
    the local APIC is mapped uncached, the stack's guard page is unmapped, and
    then the kernel's own tables are installed.  These hold neither change.  The
    guard page translates to memory again, so that a stack overflow goes
    unnoticed.  The APIC's window, whose registers [init_lapic] has handed out,
    is mapped afterwards only by the direct map: not at all when the direct
    map, [mem_size] rounded up to 2 MiB, ends below the APIC, and otherwise by a
    direct-map page.  The boot loader's tables have no huge page at the window
    ([small]; in one, [map_mmio] would map nothing to begin with). *)
Theorem boot_mappings_dropped root s T A n kvs kve kps mem_size s1 k s2 :
  let lapic := hhdm + LAPIC_PHYS in
  paging_ok root s T A -> lapic + 4096 <= W64 -> small hhdm root (snd s) lapic ->
  alloc_count (stats (snd (fst s))) + 3 < W64 -> alloc_count (stats (snd (fst s1))) + 1 < W64 -> 0 <= n < 2 ^ 16 ->
  map_mmio (PA := buddy_over a rs lo hi X) hhdm lapic LAPIC_PHYS LAPIC_SIZE MMIO_UC s = Ok (inr tt, s1) ->
  alloc_kernel_stack hhdm n s1 = Ok (k, s2) ->
  install_ok (PA := buddy_over a rs lo hi X) hhdm kvs kve kps mem_size (snd (fst s2)) ∅ ->
  exists s3, Pml4.install_kernel_pml4 (PA := buddy_over a rs lo hi X) hhdm kvs kve kps mem_size s2 = Ok (tt, s3) /\
    (is_Some (T !! vpath (guard_virt k) 3) -> translates s2 (guard_virt k) = None) /\
    (guard_virt k < hhdm + mem_size -> translates s3 (guard_virt k) = Some (guard_virt k - hhdm)) /\
    forall off, 0 <= off < 4096 -> translates s1 (lapic + off) = Some (LAPIC_PHYS + off) /\
      (page_count (kve - kvs) PAGE_SIZE <= page_off kvs lapic -> translates s3 (lapic + off) =
         if decide (page_count mem_size HUGE_2M * HUGE_2M <= LAPIC_PHYS) then None else Some (LAPIC_PHYS + off)).
Proof.
  intros lapic Hok Hend Hsm Hc1 Hc2 Hn Hmap Hst HI.
  assert (lapic mod 4096 = 0) as Hla by (unfold lapic; rewrite Z.add_mod, (proj2 hhdm_ok) by lia; done).
  assert (flags_ok MMIO_UC) as Hfl.
  { unfold MMIO_UC. rewrite writable_bit, write_through_bit, cache_disable_bit, no_execute_bit. repeat apply flags_lor; apply flag_bit; lia. }
  destruct (map_mmio_run (PA := buddy_over a rs lo hi X) hhdm hhdm_ok root s T A lapic LAPIC_PHYS LAPIC_SIZE MMIO_UC 0 Hok)
    as (r & s1' & k1 & T1 & A1 & Hrun1 & Hok1 & _ & Hr & Ev1 & W1); try done; try (unfold lapic, LAPIC_PHYS; lia).
  { intros j Hj. change (page_count LAPIC_SIZE PAGE_SIZE) with 1 in Hj. replace j with 0 by lia. by rewrite Z.add_0_r. }
  destruct (run_inj _ _ _ _ _ _ Hmap Hrun1) as [<- <-]. destruct Hr as [(_ & -> & _)|[? _]]; [|done].
  change (page_count LAPIC_SIZE PAGE_SIZE) with 1 in W1. destruct s1 as [[c1 b1] m1]. cbn [fst snd] in *.
  destruct (wp_alloc_kernel_stack root c1 b1 m1 T1 A1 n) as [(? & _ & Hp)|(k' & s2' & Hst' & [_ Hok2 _ _ W2 _ _])];
    [apply Hok1|apply Hok1|done|done|congruence|]. destruct (run_inj _ _ _ _ _ _ Hst Hst') as [<- <-].
  apply (install_ok_any _ _ _ _ _ _ ({[(stack_order n, guard_virt k)]} ∪ A1)) in HI.
  destruct (install_run (PA := buddy_over a rs lo hi X) hhdm hhdm_ok s2 _ kvs kve kps mem_size (pt_pages _ _ _ _ _ _ (proj1 Hok2)) HI)
    as (s3 & root3 & T3 & A3 & Hrun3 & Hok3 & _ & W3).
  pose proof (pa_window _ _ _ (stack_order n) (guard_virt k) (pt_pages _ _ _ _ _ _ (proj1 Hok2)) ltac:(set_solver)) as [Hg _].
  pose proof (in_window _ _ _ _ _ _ _ HI) as [Hlow _].
  exists s3. split; [exact Hrun3|]. unfold PagingProps.translates at 2 3 4. rewrite (proj2 Hok3), (proj2 Hok1).
  split; [|split].
  - intros [t Ht]. rewrite W2 by (cbn in *; lia). rewrite decide_True; [done|]. split; [done|].
    exists t. by apply (ev_tables _ _ _ _ _ _ _ _ _ _ Ev1).
  - intros Hm. replace (guard_virt k) with (hhdm + (guard_virt k - hhdm)) at 1 by lia.
    eapply (installed_direct (PA := buddy_over a rs lo hi X)); [done|exact HI|exact W3|cbn in *; lia].
  - intros off Hoff. destruct (page_no_offset lapic off Hla Hoff) as [Epg Emod].
    assert (0 <= lapic) as Hl0 by (unfold lapic, LAPIC_PHYS; lia). split.
    + unfold translation. rewrite W1 by lia. assert (page_off lapic (lapic + off) = 0) as ->.
      { unfold page_off. by rewrite Epg, Z.sub_diag. }
      rewrite decide_True by lia. unfold PAGE_SIZE. rewrite Emod. done.
    + intros Himg. destruct HI as [Ha (_ & Hm1 & _) _ _ _ _ _ _].
      unfold translation. rewrite W3 by lia. rewrite decide_False.
      2: { unfold page_off in *. rewrite Epg. lia. }
      destruct (big_off_in hhdm (LAPIC_PHYS + off) 2040 (proj1 hhdm_ok) Ha) as [Eb _]; [unfold LAPIC_PHYS, HUGE_2M; lia|lia|].
      replace (lapic + off) with (hhdm + (LAPIC_PHYS + off)) by (unfold lapic; lia).
      assert ((LAPIC_PHYS + off) / HUGE_2M = 2039 /\ (hhdm + (LAPIC_PHYS + off)) mod HUGE_2M = off) as [Eq Er].
      { pose proof (Z.div_mod hhdm HUGE_2M ltac:(done)). unfold LAPIC_PHYS, HUGE_2M in *. split.
        - symmetry. apply (Z.div_unique _ _ _ off); lia.
        - symmetry. apply (Z.mod_unique _ _ (hhdm / 2097152 + 2039)); lia. }
      rewrite Eb, Eq. clear -Er. destruct (decide (_ < _)), (decide (_ <= _)); [| |done|]; rewrite ?Er; unfold LAPIC_PHYS, HUGE_2M in *; [lia|f_equal; lia|lia].
Qed.
End stack.

(** ** A concrete run *)

(** The tables of [PagingProps] stand for the boot loader's: an allocator is
    seeded at 1 GiB, and the boot steps run through them. *)
Definition seed_base : Z := 1073741824.
Definition seeded : BState := final (register_list [(seed_base, 2048)]) (with_base seed_base BuddyAllocator_new, snd pg1).
Definition bt0 : Cpu * BuddyAllocator * mem := ((fst (fst pg1), fst seeded), snd seeded).
Definition bt1 : Cpu * BuddyAllocator * mem := final (map_mmio 0 LAPIC_PHYS LAPIC_PHYS LAPIC_SIZE MMIO_UC) bt0.
Definition bt2 : Cpu * BuddyAllocator * mem := final (alloc_kernel_stack 0 8) bt1.
Definition stack2 : KernelStack := default (mkStack 0 0) (result (alloc_kernel_stack 0 8) bt1).

Lemma seeded_run : register_list [(seed_base, 2048)] (with_base seed_base BuddyAllocator_new, snd pg1) = Ok (tt, seeded).
Proof. unfold seeded. apply (run_ok _ _ tt). by vm_compute. Qed.
Lemma bt1_run : map_mmio 0 LAPIC_PHYS LAPIC_PHYS LAPIC_SIZE MMIO_UC bt0 = Ok (inr tt, bt1).
Proof. unfold bt1. apply (run_ok (map_mmio 0 LAPIC_PHYS LAPIC_PHYS LAPIC_SIZE MMIO_UC) bt0 (inr tt)). by vm_compute. Qed.
Lemma bt2_run : alloc_kernel_stack 0 8 bt1 = Ok (stack2, bt2).
Proof.
  assert (match result (alloc_kernel_stack 0 8) bt1 with Some _ => true | None => false end = true) as H by by vm_compute.
  unfold bt2, stack2. revert H. generalize bt1. intros s H. destruct (result _ s) eqn:E; [|done]. by apply run_ok.
Qed.

Lemma bt2_guard : guard_virt stack2 < 0 + 1082130432.
Proof. by vm_compute. Qed.
Lemma bt_counts : alloc_count (stats (snd (fst bt0))) + 3 < W64 /\ alloc_count (stats (snd (fst bt1))) + 1 < W64.
Proof. by vm_compute. Qed.

Lemma bt2_install X : install_ok (PA := buddy_over seed_base [(0, 2048)] 1048576 2147483648 X) 0 2147483648 2147487744 4194304 1082130432 (snd (fst bt2)) ∅.
Proof.
  assert (page_count 1082130432 HUGE_2M = 516) as E1 by by vm_compute.
  assert (page_count (2147487744 - 2147483648) PAGE_SIZE = 1) as E2 by by vm_compute.
  split; rewrite ?E1, ?E2; unfold HUGE_2M, W64.
  - done.
  - split_and!; (lia || by vm_compute).
  - split_and!; (lia || by vm_compute).
  - split_and!; (lia || by vm_compute).
  - intros j Hj. assert (j = 0) as -> by lia. by vm_compute.
  - split_and!; by vm_compute.
  - by vm_compute.
  - by vm_compute.
Qed.

Lemma pg1_window : 1048576 <= pa_lo (snd (fst pg1)) /\ pa_hi (snd (fst pg1)) <= seed_base.
Proof. by vm_compute. Qed.

Lemma seed_foreign X : (forall bl, bl ∈ X -> 1048576 <= snd bl /\ snd bl + block_size (fst bl) <= seed_base) ->
  (forall b1 b2, b1 ∈ X -> b2 ∈ X -> b1 <> b2 -> block_disj b1 b2) -> foreign seed_base [(0, 2048)] 1048576 2147483648 X.
Proof.
  intros HX Hd. split; [done|by vm_compute| |done|].
  - intros bl Hbl. destruct (HX bl Hbl). unfold seed_base in *. lia.
  - intros bl x Hbl Hx (r & ->%list_elem_of_singleton & Hr). destruct (HX bl Hbl) as [_ He]. unfold in_block in Hx. cbn [fst snd] in Hr.
    unfold page_of, Buddy.PAGE_SIZE in Hr. pose proof (Z.div_mod (x - seed_base) 4096 ltac:(lia)).
    pose proof (Z.mod_pos_bound (x - seed_base) 4096 ltac:(lia)). lia.
Qed.

(** The seeded allocator is in a state of its contract. *)
Lemma seeded_reach m : exists b m', register_list [(seed_base, 2048)] (with_base seed_base BuddyAllocator_new, m) = Ok (tt, (b, m')) /\
  sys_reach (mkSys b m' [(0, 2048)] ∅) /\ base b = seed_base /\ writes_only (pages_of seed_base [(0, 2048)]) m m'.
Proof.
  assert (sys_reach (mkSys (with_base seed_base BuddyAllocator_new) m [] ∅)) as Hr.
  { eexists. split; [|constructor]. apply (init_base seed_base _ m m); [done|reflexivity]. }
  destruct (register_all [(seed_base, 2048)] _ Hr) as (b & m' & Hrun & Hr' & Hb & _ & Hw & _); [split; repeat constructor; by vm_compute|].
  by exists b, m'.
Qed.

#[local] Opaque pg1 seeded bt1 bt2.

(** The tables seen from the seeded allocator. *)
Lemma bt0_ok : exists root T X,
  paging_ok (PA := buddy_over seed_base [(0, 2048)] 1048576 2147483648 X) 0 root bt0 T (set_map (byte_block seed_base) (∅ : gset (Z * Z)) ∪ X) /\
  small 0 root (snd bt0) LAPIC_PHYS.
Proof.
  destruct pg1_ok as (root & T & A & [[I1 I2 I3 I4 I5] Hr] & Hs). destruct pg1_window as [Hw1 Hw2].
  destruct (seeded_reach (snd pg1)) as (b & m' & Hrun & Hreach & Hb & Hw). destruct (run_inj _ _ _ _ _ _ seeded_run Hrun) as [_ E].
  assert (foreign seed_base [(0, 2048)] 1048576 2147483648 A) as FO.
  { apply seed_foreign; [|intros b1 b2; apply (pa_disj _ _ _ _ _ I2)]. intros [k q] Hbl. destruct (pa_window _ _ _ k q I2 Hbl) as [H1 H2].
    cbn [fst snd]. split; [by eapply Z.le_trans|by eapply Z.le_trans]. }
  destruct (pt_over _ _ _ _ A 0 root (snd pg1) T (mkSys b m' [(0, 2048)] ∅) I1 I3 FO Hreach Hb eq_refl) as [I W];
    [intros bl x Hbl Hx; apply Hw; exact (fo_free _ _ _ _ _ FO bl x Hbl Hx)|done|done|done|].
  exists root, T, A. assert (bt0 = ((fst (fst pg1), b), m')) as -> by (unfold bt0; by rewrite E). split; [by split|].
  intros sz f Hf. cbn [snd] in Hf. rewrite W in Hf. eapply (Hs LAPIC_PHYS); [by vm_compute..|exact Hf].
Qed.

Lemma boot_mappings_dropped_witness : exists s3,
  alloc_kernel_stack 0 8 bt1 = Ok (stack2, bt2) /\
  Pml4.install_kernel_pml4 0 2147483648 2147487744 4194304 1082130432 bt2 = Ok (tt, s3) /\
  translates 0 bt1 0xFEE00020 = Some 0xFEE00020 /\ translates 0 s3 0xFEE00020 = None /\
  translates 0 s3 (guard_virt stack2) = Some (guard_virt stack2 - 0).
Proof.
  destruct bt0_ok as (root & T & X & Hok & Hs). destruct bt_counts as [Hc0 Hc1].
  destruct (boot_mappings_dropped 0 seed_base [(0, 2048)] 1048576 2147483648 X hhdm0 ltac:(by vm_compute) root bt0 T _ 8 2147483648 2147487744 4194304 1082130432
    bt1 stack2 bt2 Hok ltac:(by vm_compute) Hs Hc0 Hc1 ltac:(lia) bt1_run bt2_run (bt2_install X))
    as (s3 & Hrun & _ & Hg & Hl).
  exists s3. split; [exact bt2_run|]. split; [exact Hrun|]. destruct (Hl 0x20 ltac:(lia)) as [Hl1 Hl3].
  split; [exact Hl1|]. split; [|exact (Hg bt2_guard)]. specialize (Hl3 ltac:(by vm_compute)). by rewrite decide_True in Hl3 by by vm_compute.
Defined.
