(* ===== verification/BootLog.v ===== *)
(** * What the boot sequence logs

    The lines that src/src/main.rs and src/src/memory/heap.rs print on the
    serial port, as a function of the harvested data, and the runs of the steps
    that do little else.  The log does not disturb what the steps compute:
    [memory_heap_init] is [heap_init] with the lines of the memory map. *)

From stdpp Require Import strings.
From S2P Require Import Prelude Pages Serial Gdt Buddy BuddySpec Tlsf Paging Interrupts Timer Framebuffer Limine LimineSpec.
From S2P Require Import Slab Boot BootSpec.

(** The initialised, unlocked port after the lines [ls]. *)
Definition lines (ls : list (list Z)) : list Z := concat (List.map (fun l => l ++ [10]) ls).
Definition port (ls : list (list Z)) : Serial := mkSerial (Some SERIAL_BASE) false (lines ls).

Lemma lines_app l1 l2 : lines (l1 ++ l2) = lines l1 ++ lines l2.
Proof. unfold lines. by rewrite List.map_app, concat_app. Qed.

Lemma run_println t ls : serial_println t (port ls) = Ok (tt, port (ls ++ [t])).
Proof.
  rewrite run_serial_println by done. unfold port, after. cbn [opened sent default]. rewrite lines_app.
  do 3 f_equal. unfold lines. cbn [List.map concat]. by rewrite app_nil_r.
Qed.

Section boot_log.
Context {LT : LimineTypes} {AL : Align} {LAWS : AlignLaws AL}.

(** ** The lines *)
Definition bootloader_line (r : Responses) : list (list Z) :=
  match rs_bootloader r with
  | Some (nm, ver) => [text "[kernel] bootloader: " ++ shown nm ++ text " " ++ shown ver]
  | None => []
  end.

Definition heap_line (r : MemoryRegion) : list Z :=
  (if bool_decide (region_type r = Usable) then text "[memmap] using " else text "[memmap] skipping ") ++ region_line r.

Definition setup_log (r : Responses) (edx : Z) (d : LimineData) (ks : KernelStack) : list (list Z) :=
  [text "[kernel] booting..."; text "[kernel] hhdm=" ++ hex (hhdm_offset d);
   text "[kernel] phys=" ++ hex (kernel_phys_start d) ++ text ".." ++ hex (kernel_phys_end d)] ++
  bootloader_line r ++
  List.map (fun r => text "[memmap] " ++ region_line r) (regions d) ++
  [text "[kernel] gdt ok"; text "[kernel] idt ok"; text "[kernel] timer ok"] ++
  List.map heap_line (regions d) ++
  [text "[kernel] heap ok"; text "[kernel] process table ok"; text "[kernel] vmm ok"] ++
  (if apic_supported edx then [text "[kernel] lapic ok"] else []) ++
  match framebuffer d with
  | Some fb => [text "[kernel] fb: virt=" ++ hex (virt_addr fb) ++ text " phys=" ++ hex (phys_addr fb) ++
      text " size=" ++ hex (byte_size fb); text "[kernel] fb mapped"; text "[kernel] fb init ok"]
  | None => []
  end ++
  [text "[kernel] stack: top=" ++ hex (top ks) ++ text " guard=" ++ hex (guard_virt ks);
   text "[kernel] pml4 ok"; text "[kernel] boot pages released (boot stack region deferred)"].

Definition continue_log (d : LimineData) (stack_region : option (Z * Z)) : list (list Z) :=
  match stack_region with
  | Some (v, n) => [text "[kernel] boot stack pages released: base=" ++ hex v ++ text " pages=" ++ dec n]
  | None => []
  end ++
  match rsdp_phys d with Some a => [text "[kernel] rsdp: phys=" ++ hex a] | None => [] end ++
  [text "[kernel] halted."].

(** ** Runs *)

(** [k] with an allocator, a heap and memory, and the lines [ls] logged. *)
Definition with_alloc (k : Kernel) (b : BuddyAllocator) (t : TlsfInner) (m : mem) (ls : list (list Z)) : Kernel :=
  mkKernel (k_cpu k) b t m (k_irq k) (k_console k) (k_harvested k) (k_vmm k) (k_processes k) (k_post k) (k_sp k) (k_IF k)
    (port ls) (k_gdt k).

Definition with_log (k : Kernel) (ls : list (list Z)) : Kernel := with_alloc k (k_buddy k) (k_heap k) (k_mem k) ls.

Lemma run_log t k ls : log t (with_log k ls) = Ok (tt, with_log k (ls ++ [t])).
Proof. unfold log, on_port, zoom, with_log, with_alloc. cbn [k_serial]. by rewrite run_println. Qed.

Lemma run_log_alloc t k b h m ls : log t (with_alloc k b h m ls) = Ok (tt, with_alloc k b h m (ls ++ [t])).
Proof. unfold log, on_port, zoom, with_alloc. cbn [k_serial]. by rewrite run_println. Qed.

Lemma run_log_memmap k rs : forall ls,
  log_memmap rs (with_log k ls) = Ok (tt, with_log k (ls ++ List.map (fun r => text "[memmap] " ++ region_line r) rs)).
Proof.
  induction rs as [|r rs IH]; intros ls; cbn [log_memmap List.map]; [by rewrite app_nil_r|].
  unfold bind. rewrite run_log, IH. by rewrite <- app_assoc.
Qed.

Lemma run_log_bootloader k ls r d : harvested_from r d ->
  log_bootloader (bootloader_info d) (with_log k ls) = Ok (tt, with_log k (ls ++ bootloader_line r)).
Proof.
  intros H. pose proof (hf_names _ _ H) as Hn. unfold bootloader_line.
  destruct (rs_bootloader r) as [[nm ver]|], (bootloader_info d) as [i|]; try done; cbn [log_bootloader]; [|by rewrite app_nil_r].
  unfold bind. rewrite (proj1 (Hn _ _)), (proj2 (Hn _ _)). apply run_log.
Qed.

Lemma run_log_usable k ks ke hhdm h rs : forall b m ls b' m',
  add_usable ks ke hhdm rs (b, m) = Ok (tt, (b', m')) ->
  log_usable ks ke hhdm rs (with_alloc k b h m ls) = Ok (tt, with_alloc k b' h m' (ls ++ List.map heap_line rs)).
Proof.
  induction rs as [|r rs IH]; intros b m ls b' m'; cbn [add_usable log_usable List.map]; [intros [= <- <-]; by rewrite app_nil_r|].
  unfold bind at 1 2, heap_line at 1. destruct (bool_decide (region_type r = Usable)); cbn [negb].
  - destruct (use_region ks ke hhdm r (b, m)) as [[[] [b1 m1]]| |] eqn:E; [|done|done]. intros Hrun%(IH _ _ (ls ++ [text "[memmap] using " ++ region_line r])).
    unfold bind. rewrite run_log_alloc. unfold on_buddy, zoom. cbn [k_buddy k_mem with_alloc]. rewrite E. rewrite <- app_assoc in Hrun. exact Hrun.
  - cbn [ret]. intros Hrun%(IH _ _ (ls ++ [text "[memmap] skipping " ++ region_line r])). rewrite run_log_alloc. by rewrite <- app_assoc in Hrun.
Qed.

Lemma run_memory_heap_init k rs kps kpe hhdm t b m ls t' b' m' : 0 <= hhdm -> Forall (fits hhdm) rs ->
  heap_init rs kps kpe hhdm ((t, b), m) = Ok (tt, ((t', b'), m')) ->
  memory_heap_init rs kps kpe hhdm (with_alloc k b t m ls) = Ok (tt, with_alloc k b' t' m' (ls ++ List.map heap_line rs)).
Proof.
  intros Hh HF. set (usable := filter (fun r => is_immediately_usable (region_type r) = true) rs).
  assert (Forall (fits hhdm) usable) as HF'.
  { rewrite Forall_forall in *. intros r [_ Hr]%list_elem_of_filter. by apply HF. }
  unfold heap_init, memory_heap_init, bind, on_buddy, on_heap, zoom, page_call, heap_call. cbn [fst snd]. fold usable.
  destruct (align_up kpe 4096) as [kpe'|]; [|done]. cbn [expect ret].
  rewrite !run_min_virt by done. destruct (lowest hhdm usable) as [lo|]; [|done]. unfold expect. cbn [ret].
  cbn [with_alloc k_buddy k_mem fst snd]. destruct (set_base lo (b, m)) as [[[] [b1 m1]]| |]; [|done|done]. cbn [fst snd].
  destruct (add_usable _ _ hhdm rs (b1, m1)) as [[[] [b2 m2]]| |] eqn:E; [|done|done]. cbn [fst snd].
  match goal with |- context [log_usable ?a ?e ?o ?l ?s] => change (log_usable a e o l s) with (log_usable a e o l (with_alloc k b1 t m1 ls)) end.
  rewrite (run_log_usable k _ _ _ t _ _ _ ls _ _ E). cbn [with_alloc k_buddy k_mem k_heap].
  destruct (alloc_pages 10 (b2, m2)) as [[[p|] [b3 m3]]| |]; [|done..]. cbn [fst snd ret k_buddy k_mem k_heap].
  destruct (init_from_ptr p _ (t, m3)) as [[[] [t4 m4]]| |]; [|done|done]. by intros [= <- <- <-].
Qed.
End boot_log.
