(* ===== verification/BootMain.v ===== *)
(** * The boot sequence from entry to the final halt

    [kernel_main] of src/src/main.rs, with its two halves [kernel_main_setup] and
    [kernel_main_continue], over the state of all components: on a machine with
    enough memory it returns, and the allocator, the heap, the page tables, the
    process table, the segments, the console, the log and the saved boot data
    are then what the components' theorems need. *)

From stdpp Require Import relations strings.
From S2P Require Import Prelude Pages Slab Serial Gdt Buddy BuddySpec Tlsf Paging PageTree PagingSpec PagingProps.
From S2P Require Import Interrupts Timer Framebuffer FramebufferSpec Limine LimineSpec Boot BootSpec BootPaging BootLog.

(** ** Counting pages *)

(** Every registered page is free or held. *)
Lemma reach_total s : sys_reach s -> total_pages (sy_b s) = page_sum (sy_regions s).
Proof.
  intros (s0 & H0 & Hs). assert (total_pages (sy_b s0) = page_sum (sy_regions s0)) as E0.
  { destruct H0 as [a b m m' Ha Hrun]. cbn [sy_b sy_regions]. assert (a mod Buddy.PAGE_SIZE = 0) as Hal.
    { revert Hrun. unfold set_base, bind, gets, assert. simpl. by destruct (Z.eqb_spec (a mod Buddy.PAGE_SIZE) 0). }
    use_run (wp_set_base a m Ha Hal) Hrun. by destruct Hpost as (_ & -> & _). }
  pose proof (init_inv _ H0) as [F0 I0]. clear H0. revert F0 I0 E0. induction Hs as [s|s1 s2 s3 (e & Hs) _ IH]; intros F0 I0 E0; [done|].
  destruct (step_inv _ _ _ _ I0 Hs) as [F2 I2]. apply (IH F2 I2). clear IH I2.
  pose proof (si_owned _ _ I0) as O. destruct Hs as [s off n b' m' Hc Hrun|s order ptr b' m' Ho Hct Hrun
    |s order b' m' Ho Hct Hrun|s order p b' m' Hin Hct Hrun|s m' Hm]; cbn [sy_b sy_regions].
  - pose proof (region_contract_ok _ _ _ _ I0 Hc) as Hok. use_run (wp_add_region _ _ _ _ off n O Hok) Hrun.
    destruct Hpost as [F' R]. rewrite (rd_total _ _ _ _ _ _ _ _ _ R), E0. unfold page_sum. cbn [foldr]. cbn. lia.
  - use_run (wp_alloc_pages _ _ _ _ _ O Ho Hct) Hrun. destruct Hpost as (p & F' & -> & [_ _ _ _ _ Ht _ _ _] & _). by rewrite Ht.
  - by destruct (step_fail_inv _ _ _ _ _ I0 Ho Hct Hrun) as [[= -> ->] _].
  - use_run (wp_dealloc_pages _ _ _ _ _ _ O Hin Hct) Hrun. destruct Hpost as [F' [_ _ _ Ht _ _]]. by rewrite Ht.
  - done.
Qed.

Lemma reach_frames s : sys_reach s ->
  free_bytes (stats (sy_b s)) / 4096 = page_sum (sy_regions s) - block_pages (sy_held s).
Proof.
  intros Hs. pose proof (reach_total s Hs). destruct (reach_inv s Hs) as [F I]. pose proof (si_owned _ _ I) as O.
  rewrite (ow_free _ _ _ _ O). unfold Buddy.PAGE_SIZE. rewrite Z.div_mul by done. pose proof (ow_total _ _ _ _ O). lia.
Qed.

(** The held pages, one by one. *)
Definition held_pages (A : gset block) : gset Z :=
  ⋃ ((fun bl : block => list_to_set (seqZ (snd bl) (2 ^ fst bl))) <$> elements A).

Lemma elem_held_pages A p : p ∈ held_pages A <-> exists bl, bl ∈ A /\ bpage bl p.
Proof.
  unfold held_pages. rewrite elem_of_union_list. setoid_rewrite list_elem_of_fmap. split.
  - intros (X & (bl & -> & Hbl%elem_of_elements) & Hp). rewrite elem_of_list_to_set, elem_of_seqZ in Hp. by exists bl.
  - intros (bl & Hbl & Hp). eexists. split; [exists bl; split; [done|by apply elem_of_elements]|]. by rewrite elem_of_list_to_set, elem_of_seqZ.
Qed.

Lemma size_held_pages A : (forall bl, bl ∈ A -> 0 <= fst bl) -> Z.of_nat (size (held_pages A)) <= block_pages A.
Proof.
  intros HA. unfold held_pages, block_pages. assert (forall bl, bl ∈ elements A -> 0 <= fst bl) as Hl by (intros bl; rewrite elem_of_elements; apply HA).
  revert Hl. generalize (elements A). intros l. induction l as [|bl l IH]; intros Hl; [done|].
  rewrite !fmap_cons. cbn [union_list foldr zsum]. fold (zsum ((fun bl : block => 2 ^ fst bl) <$> l)).
  match goal with |- context [size (?X ∪ ?Y)] => pose proof (size_union_alt X Y); assert (size (Y ∖ X) <= size Y)%nat by (apply subseteq_size; set_solver) end.
  pose proof (Hl bl ltac:(by left)) as Hbl. pose proof (Z.pow_nonneg 2 (fst bl) ltac:(lia)).
  specialize (IH ltac:(intros; apply Hl; by right)).
  rewrite (size_list_to_set (seqZ (snd bl) (2 ^ fst bl))) in * by apply NoDup_seqZ. rewrite length_seqZ in *. lia.
Qed.

(** Among more aligned runs than held pages, one is not touched. *)
Lemma pigeonhole k q n : 0 <= k -> forall P : gset Z, (size P < n)%nat ->
  exists i, 0 <= i < Z.of_nat n /\ forall x, (q + i) * 2 ^ k <= x < (q + i + 1) * 2 ^ k -> x ∉ P.
Proof.
  intros Hk. induction n as [|n IH]; intros P HP; [lia|].
  set (hit := filter (fun x => (q + Z.of_nat n) * 2 ^ k <= x < (q + Z.of_nat n + 1) * 2 ^ k) P).
  destruct (set_choose_or_empty hit) as [[x Hx]|He].
  - apply elem_of_filter in Hx as [Hr HxP]. destruct (IH (P ∖ {[x]})) as (i & Hi & Hno).
    { assert (size P <> 0%nat) by (intros E%size_empty_inv; set_solver). rewrite size_difference, size_singleton by set_solver. lia. }
    exists i. split; [lia|]. intros y Hy Hin. apply (Hno y Hy). apply elem_of_difference. split; [done|].
    intros ->%elem_of_singleton. pose proof (Z.pow_pos_nonneg 2 k ltac:(lia) Hk). nia.
  - exists (Z.of_nat n). split; [lia|]. intros y Hy Hin. assert (y ∈ hit) by (by apply elem_of_filter). set_solver.
Qed.

(** A region with room left has an aligned free run inside. *)
Lemma run_exists s k off n : sys_reach s -> 0 <= k -> (off, n) ∈ sy_regions s ->
  2 ^ k * (block_pages (sy_held s) + 2) <= n ->
  exists p, po_run (pool_of s) k p /\ in_one (sy_regions s) (k, p).
Proof.
  intros Hs Hk Hr Hn. destruct (reach_inv s Hs) as [F I]. pose proof (si_owned _ _ I) as O.
  pose proof (size_held_pages (sy_held s)) as Hsz. pose proof (block_pages_nonneg (sy_held s)) as Hbp.
  assert (forall bl, bl ∈ sy_held s -> 0 <= fst bl) as Hpos by (intros bl Hbl; destruct (ow_ok _ _ _ _ O _ Hbl) as (? & _); lia).
  specialize (Hsz Hpos). pose proof (Z.pow_pos_nonneg 2 k ltac:(lia) Hk) as H2.
  set (q := (off + 2 ^ k - 1) / 2 ^ k). pose proof (Z.div_mod (off + 2 ^ k - 1) (2 ^ k) ltac:(lia)) as Eq. fold q in Eq.
  pose proof (Z.mod_pos_bound (off + 2 ^ k - 1) (2 ^ k) H2) as Hm.
  destruct (pigeonhole k q (S (Z.to_nat (block_pages (sy_held s)))) Hk (held_pages (sy_held s))) as (i & Hi & Hno); [lia|].
  exists ((q + i) * 2 ^ k). split.
  2: { exists (off, n). split; [done|]. cbn [fst snd]. nia. }
  split; [by exists (q + i)|]. intros x Hx. unfold bpage in Hx. cbn [fst snd] in Hx. split.
  - exists (off, n). split; [done|]. cbn [fst snd]. nia.
  - intros bl Hbl Hp. apply (Hno x); [lia|]. apply elem_held_pages. by exists bl.
Qed.

(** ** Memory that the boot steps leave alone *)

Section steps.
Context {B : Bitwise} {BL : BitwiseLaws B} (hhdm a : Z) (rs : list (Z * Z)) (lo hi : Z) (X : gset (Z * Z)).
Context (hhdm_ok : 0 <= hhdm /\ hhdm mod 4096 = 0) (hi_ok : hi < W64).

Notation paging_ok := (paging_ok (PA := buddy_over a rs lo hi X) hhdm).
Notation evolved := (evolved (PA := buddy_over a rs lo hi X) hhdm).
Abbreviation PState := (Cpu * BuddyAllocator * mem)%type.

(** A block of [A] that is not a table of [T]. *)
Definition protected (T : gmap (list Z) Z) (A : gset (Z * Z)) (bl : Z * Z) : Prop :=
  bl ∈ A /\ forall p t, T !! p = Some t -> bl <> (0, t + hhdm).

(** Protected blocks stay protected and keep their bytes. *)
Definition keeps (T : gmap (list Z) Z) (A : gset (Z * Z)) (m : mem) (T' : gmap (list Z) Z) (A' : gset (Z * Z)) (m' : mem) : Prop :=
  forall bl, protected T A bl -> protected T' A' bl /\ forall x, in_block bl x -> rd m' x = rd m x.

Lemma keeps_trans T1 A1 m1 T2 A2 m2 T3 A3 m3 :
  keeps T1 A1 m1 T2 A2 m2 -> keeps T2 A2 m2 T3 A3 m3 -> keeps T1 A1 m1 T3 A3 m3.
Proof.
  intros H1 H2 bl Hbl. destruct (H1 bl Hbl) as [Hp E1]. destruct (H2 bl Hp) as [Hp' E2]. split; [done|].
  intros x Hx. by rewrite E2, E1.
Qed.

Lemma evolved_keeps root b m T A b' m' T' A' : evolved root b m T A b' m' T' A' -> keeps T A m T' A' m'.
Proof.
  intros [_ _ Hh Hn Ho] bl [Hbl Hnt]. split; [|intros x Hx; by apply (Ho bl)]. split; [by apply Hh|].
  intros p t Ht ->. destruct (Hn p t Ht Hbl) as [q Hq]. by apply (Hnt q t).
Qed.

Lemma stack_keeps root s T A order k s' :
  stack_post hhdm a rs lo hi X root s T A order k s' -> keeps T A (snd s) T ({[(order, guard_virt k)]} ∪ A) (snd s').
Proof.
  intros P bl [Hbl Hnt]. split; [split; [set_solver|done]|]. intros x Hx. by apply (sp_others _ _ _ _ _ _ _ _ _ _ _ _ _ P bl).
Qed.

Lemma protected_none T A bl : protected T A bl -> protected ∅ A bl.
Proof. intros [Hbl _]. split; [done|]. by intros p t Ht%lookup_empty_Some. Qed.

(** ** The allocating steps, with their costs *)

Definition frames (b : BuddyAllocator) : Z := free_bytes (stats b) / 4096.

Record window_ok (vs ps size : Z) : Prop := mkWindow {
  wi_virt : 0 <= vs /\ vs mod 4096 = 0;
  wi_phys : 0 <= ps /\ ps mod 4096 = 0;
  wi_size : 0 <= size /\ size + 4096 < W64 /\ page_count size PAGE_SIZE <= 2 ^ 36;
  wi_end : vs + page_count size PAGE_SIZE * 4096 <= W64 /\ ps + page_count size PAGE_SIZE * 4096 <= 2 ^ 52
}.

(** Every page of the window is mapped by a leaf table or not at all. *)
Definition window_small (root : Z) (m : mem) (vs size : Z) : Prop :=
  forall j, 0 <= j < page_count size PAGE_SIZE -> small hhdm root m (vs + j * 4096).

Lemma boot_mmio root s T A vs ps size prot :
  let n := page_count size PAGE_SIZE in
  paging_ok root s T A -> window_ok vs ps size -> flags_ok prot -> window_small root (snd s) vs size ->
  alloc_count (stats (snd (fst s))) + 3 * n < W64 -> mmio_tables vs n <= frames (snd (fst s)) ->
  exists s' T' A', map_mmio hhdm vs ps size prot s = Ok (inr tt, s') /\ paging_ok root s' T' A' /\
    keeps T A (snd s) T' A' (snd s') /\ alloc_count (stats (snd (fst s'))) <= alloc_count (stats (snd (fst s))) + 3 * n /\
    frames (snd (fst s)) - mmio_tables vs n <= frames (snd (fst s')) /\
    range_walk hhdm root vs ps (snd s) (snd s') 0 n.
Proof.
  intros n Hok [[H1 H2] [H3 H4] (H5 & H6 & H7) [H8 H9]] Hfl Hs Hc Hf.
  pose proof (page_count_nonneg size PAGE_SIZE ltac:(done) H5) as Hn. fold n in Hn, H7, H8, H9.
  set (b := Z.to_nat (W64 - 1 - alloc_count (stats (snd (fst s))) - 3 * n)).
  assert (Z.of_nat b = W64 - 1 - alloc_count (stats (snd (fst s))) - 3 * n) as Eb by (apply Z2Nat.id; lia).
  destruct (map_mmio_run (PA := buddy_over a rs lo hi X) hhdm hhdm_ok root s T A vs ps size prot b Hok)
    as (r & s' & k & T' & A' & Hrun & Hok' & Hk & Hr & Ev & W); try done.
  { change (alloc_count (stats (snd (fst s))) + Z.of_nat (Z.to_nat n * 3 + b) < W64). lia. }
  destruct Hr as [(-> & -> & Hb & Hf')|(_ & _ & _ & Hlt)]; [|exfalso; clear -Hf Hlt; fold n in Hlt; change (pa_frames (snd (fst s))) with (frames (snd (fst s))) in Hlt; lia].
  exists s', T', A'. split; [done|]. split; [done|]. split; [by eapply evolved_keeps|].
  change (alloc_count (stats (snd (fst s'))) + Z.of_nat b < W64) in Hb. split; [lia|]. split; [exact Hf'|exact W].
Qed.

(** An aligned run is there when a region has room for it next to all that is
    held. *)
Lemma boot_stack root s T A n off np :
  paging_ok root s T A -> 0 <= n < 2 ^ 16 -> alloc_count (stats (snd (fst s))) + 1 < W64 ->
  (off, np) ∈ rs -> 2 ^ stack_order n * (page_sum rs - frames (snd (fst s)) + 2) <= np ->
  exists k s', alloc_kernel_stack hhdm n s = Ok (k, s') /\ stack_post hhdm a rs lo hi X root s T A (stack_order n) k s'.
Proof.
  destruct s as [[c b] m]. intros [I Hc] Hn Hcnt Hreg Hnp. cbn [fst snd] in *. pose proof (stack_order_spec n Hn) as (Ho & _).
  destruct (wp_alloc_kernel_stack hhdm a rs lo hi X hhdm_ok hi_ok root c b m T A n I Hc Hn Hcnt) as [([b1 m1] & Hno & _)|H]; [exfalso|exact H].
  destruct (pt_pages _ _ _ _ _ _ I) as (Hb & _ & held & Hr & _). destruct (reach_inv _ Hr) as [F SI].
  destruct (run_exists _ (stack_order n) off np Hr ltac:(lia) Hreg) as (p & Hp & Hone).
  { cbn [sy_held]. unfold frames in Hnp. pose proof (reach_frames _ Hr) as Hf. cbn [sy_b sy_regions sy_held] in Hf. lia. }
  destruct (step_fail_inv _ F (stack_order n) b1 m1 SI Ho Hcnt Hno) as [_ Hnil]. by apply (fail_no_run _ F (stack_order n) p SI Ho Hnil Hp).
Qed.
End steps.

(** ** The machine at the kernel's entry *)

Section machine.
Context {LT : LimineTypes} {AL : Align} {LAWS : AlignLaws AL} {B : Bitwise} {BL : BitwiseLaws B}
  {GC : GdtCrate} {IMG : Image} {PT : ProcessType}.

Definition usable_list (d : LimineData) : list (Z * Z) :=
  usable_parts (align_down (kernel_phys_start d) 4096) (page_up (kernel_phys_end d)) (hhdm_offset d) (regions d).
(** The allocator's regions once they are registered. *)
Definition usable_regs (d : LimineData) (lo : Z) : list (Z * Z) := rev (List.map (in_pages lo) (usable_list d)).

Definition stack_page (d : LimineData) (sp : Z) : Z := Z.land (sp - hhdm_offset d) (not64 0xFFF).
Definition released_list (d : LimineData) (sp : Z) : list (Z * Z) :=
  reclaim_parts (hhdm_offset d) (stack_page d sp) (reclaimable_regions d).
Definition boot_stack_of (d : LimineData) (sp : Z) : option (Z * Z) :=
  stack_region (hhdm_offset d) (stack_page d sp) (reclaimable_regions d).

(** The end of the memory map. *)
Definition mem_size (d : LimineData) : Z := foldr (fun r n => Z.max (r_base r + r_length r) n) 0 (regions d).

(** The tables that mapping the framebuffer may take. *)
Definition fb_tables (d : LimineData) : Z :=
  match framebuffer d with
  | Some fb => mmio_tables (virt_addr fb) (page_count (byte_size fb) PAGE_SIZE)
  | None => 0
  end.

(** The bytes of a framebuffer that the console uses. *)
Definition fb_byte (d : LimineData) (x : Z) : Prop :=
  exists fb, framebuffer d = Some fb /\ bits_per_pixel fb = 32 /\ in_fb (fresh_console fb) x.

(** The kernel image and the direct map fit the address space side by side. *)
Record layout_ok (d : LimineData) : Prop := mkLayout {
  la_hhdm : hhdm_offset d mod HUGE_2M = 0;
  la_mem : 0 <= mem_size d /\ page_count (mem_size d) HUGE_2M <= 2 ^ 27 /\
    hhdm_offset d + page_count (mem_size d) HUGE_2M * HUGE_2M <= W64 /\ mem_size d + HUGE_2M < W64;
  la_image : 0 <= kernel_virt_start d <= kernel_virt_end d /\ kernel_virt_start d mod 4096 = 0 /\
    0 <= kernel_phys_start d /\ kernel_phys_start d mod 4096 = 0;
  la_image_end : let n := page_count (kernel_virt_end d - kernel_virt_start d) PAGE_SIZE in
    kernel_virt_start d + n * 4096 <= W64 /\ kernel_phys_start d + n * 4096 <= 2 ^ 52 /\
    kernel_virt_end d - kernel_virt_start d + 4096 < W64 /\ n <= 2 ^ 36;
  la_apart : forall j, 0 <= j < page_count (kernel_virt_end d - kernel_virt_start d) PAGE_SIZE ->
    page_count (mem_size d) HUGE_2M <= big_off (hhdm_offset d) (kernel_virt_start d + j * 4096)
}.

(** The tables of the kernel's own address space, at most. *)
Definition kernel_tables (d : LimineData) : Z :=
  1 + 2 * page_count (mem_size d) HUGE_2M + 3 * page_count (kernel_virt_end d - kernel_virt_start d) PAGE_SIZE.

Lemma layout_install d lo rs wlo whi X b A :
  layout_ok d -> hhdm_offset d <= wlo /\ whi <= hhdm_offset d + 2 ^ 52 /\ whi < W64 ->
  kernel_tables d <= frames b -> alloc_count (stats b) + 2 ^ 40 < W64 ->
  install_ok (PA := buddy_over lo rs wlo whi X) (hhdm_offset d) (kernel_virt_start d) (kernel_virt_end d)
    (kernel_phys_start d) (mem_size d) b A.
Proof.
  intros [H1 H2 H3 H4 H5] (W1 & W2 & W3) Hf Hc. cbv zeta in H4. split; try done; [split_and!; try done; unfold W64 in *; simpl; lia|].
  pose proof (page_count_nonneg (mem_size d) HUGE_2M ltac:(done) ltac:(lia)).
  pose proof (page_count_nonneg (kernel_virt_end d - kernel_virt_start d) PAGE_SIZE ltac:(done) ltac:(lia)).
  match goal with |- pa_can_alloc ?n _ => change (alloc_count (stats b) + Z.of_nat n < W64) end. lia.
Qed.

(** A framebuffer the kernel can map and draw on: its pixels lie in blocks that
    are neither page tables nor reclaimed. *)
Record fb_ok (d : LimineData) (sp root : Z) (m : mem) (T : gmap (list Z) Z) (X : gset (Z * Z)) (fb : FramebufferInfo) : Prop := mkFbOk {
  fk_window : window_ok (virt_addr fb) (phys_addr fb) (byte_size fb);
  fk_small : window_small (hhdm_offset d) root m (virt_addr fb) (byte_size fb);
  fk_info : bits_per_pixel fb = 32 -> info_ok fb;
  fk_bytes : forall x, bits_per_pixel fb = 32 -> in_fb (fresh_console fb) x ->
    (exists bl, bl ∈ X /\ protected (hhdm_offset d) T X bl /\ in_block bl x) /\
    ~ covers (released_list d sp ++ option_list (boot_stack_of d sp)) x
}.

(** What the kernel relies on: the boot loader's answers, its page tables in
    blocks [X] that it does not offer as usable memory, and enough memory. *)
Record machine_ok (r : Responses) (edx sp rsp : Z) (d : LimineData) (lo wlo whi : Z) (X : gset (Z * Z))
    (c : Cpu) (m : mem) (root : Z) (T : gmap (list Z) Z) : Prop := mkMachine {
  mo_harvest : harvest r false = Ok (d, true);
  mo_process : assert_slab_compatible size_of_Process align_of_Process = true;
  mo_map : boot_map_ok (regions d) (kernel_phys_start d) (kernel_phys_end d) (hhdm_offset d) lo;
  mo_sp : hhdm_offset d <= sp < W64 /\ hhdm_offset d <= rsp < W64 /\
    forall g, g ∈ reclaimable_regions d -> holds g (stack_page d sp) <-> holds g (stack_page d rsp);
  mo_one : forall g g' x, g ∈ reclaimable_regions d -> g' ∈ reclaimable_regions d -> holds g x -> holds g' x -> g = g';
  mo_reclaim : registrable lo (page_sum (usable_list d)) (usable_regs d lo)
    (released_list d sp ++ option_list (boot_stack_of d sp));
  mo_tables : tree (hhdm_offset d) root m T /\ active_root c = root /\
    forall p t, T !! p = Some t -> (0, t + hhdm_offset d) ∈ X;
  mo_foreign : foreign lo (usable_regs d lo) wlo whi X;
  mo_window : hhdm_offset d <= wlo /\ whi <= hhdm_offset d + 2 ^ 52 /\ whi < W64;
  mo_lapic : apic_supported edx = true -> hhdm_offset d + LAPIC_PHYS + 4096 <= W64 /\
    small (hhdm_offset d) root m (hhdm_offset d + LAPIC_PHYS);
  mo_fb : forall fb, framebuffer d = Some fb -> fb_ok d sp root m T X fb;
  mo_layout : layout_ok d;
  mo_frames : 1043 + fb_tables d + kernel_tables d <= page_sum (usable_list d);
  mo_run : exists v n, (v, n) ∈ usable_list d /\ 16 * (1029 + fb_tables d) <= n
}.

(** ** The stages of [kernel_main] *)

Context {r : Responses} {edx sp rsp : Z} {d : LimineData} {lo wlo whi : Z} {X : gset (Z * Z)} {c0 : Cpu} {m0 : mem}
  {root0 : Z} {T0 : gmap (list Z) Z} (MO : machine_ok r edx sp rsp d lo wlo whi X c0 m0 root0 T0).

Notation hhdm := (hhdm_offset d).
Notation urs := (usable_regs d lo).
Notation paging_ok := (paging_ok (PA := buddy_over lo urs wlo whi X) hhdm).

Lemma mo_hhdm : 0 <= hhdm /\ hhdm mod 4096 = 0.
Proof. apply (mo_map _ _ _ _ _ _ _ _ _ _ _ _ _ MO). Qed.

Definition heap_at (t : TlsfInner) (m : mem) (p : Z) : Prop :=
  let ptr := page_addr lo p in
  tlsf t m ptr (ptr + (4194304 - HEADER)) (pool_hdrs ptr 4194304) (<[cls (4194304 - 2 * HEADER) := [ptr]]> no_blocks).

(** A console showing [term] on the machine's framebuffer. *)
Definition console_at (con : option FbWriter) (m : mem) (term : terminal) : Prop :=
  forall w, con = Some w -> displays w m term /\ forall x, in_fb w x -> fb_byte d x.

(** The state between two steps: [T] are the active page tables, [p] is the
    heap's block. *)
Record stage (root : Z) (T : gmap (list Z) Z) (A : gset (Z * Z)) (p : Z) (t : TlsfInner) (con : option FbWriter)
    (s : Cpu * BuddyAllocator * mem) : Prop := mkStage {
  sg_ok : paging_ok root s T A;
  sg_block : protected hhdm T A (10, page_addr lo p);
  sg_heap : heap_at t (snd s) p;
  sg_fb : forall x, fb_byte d x -> exists bl, bl <> (10, page_addr lo p) /\ protected hhdm T A bl /\ in_block bl x;
  sg_console : console_at con (snd s) t_blank
}.

Lemma heap_frame t m m' p : heap_at t m p ->
  (forall x, in_block (10, page_addr lo p) x -> rd m' x = rd m x) -> heap_at t m' p.
Proof.
  intros Ht Hm. eapply tlsf_frame; [exact Ht|]. intros x Hx. apply Hm. unfold in_block, Pages.block_size. cbn [fst snd].
  change (2 ^ 10 * 4096) with 4194304. lia.
Qed.

Lemma console_frame con m m' term : console_at con m term -> (forall x, fb_byte d x -> rd m' x = rd m x) -> console_at con m' term.
Proof. intros Hc Hm w Hw. destruct (Hc w Hw) as [D Hin]. split; [|done]. eapply displays_frame; [exact D|]. auto. Qed.

(** A step that keeps the protected blocks leads to the next stage. *)
Lemma stage_step root T A p t con s root' T' A' s' :
  stage root T A p t con s -> paging_ok root' s' T' A' -> keeps hhdm T A (snd s) T' A' (snd s') ->
  stage root' T' A' p t con s'.
Proof.
  intros [H1 H2 H3 H4 H5] Hok Hk. split; [done|by apply Hk| | |].
  - eapply heap_frame; [exact H3|]. by apply Hk.
  - intros x Hx. destruct (H4 x Hx) as (bl & Hbl & Hp & Hin). exists bl. split_and!; [done|by apply Hk|done].
  - eapply console_frame; [exact H5|]. intros x Hx. destruct (H4 x Hx) as (bl & _ & Hp & Hin). by apply (Hk bl Hp).
Qed.

(** The bounds that [mo_run] gives for a block next to everything held. *)
Lemma usable_region : exists off n, (off, n) ∈ urs /\ 16 * (1029 + fb_tables d) <= n.
Proof.
  destruct (mo_run _ _ _ _ _ _ _ _ _ _ _ _ _ MO) as (v & n & Hin & Hn). exists ((v - lo) / 4096), n. split; [|done].
  apply list_elem_of_In. unfold usable_regs. rewrite <- in_rev. apply in_map_iff. exists (v, n). split; [done|by apply list_elem_of_In].
Qed.

Lemma page_sum_app l1 l2 : page_sum (l1 ++ l2) = page_sum l1 + page_sum l2.
Proof. induction l1 as [|x l1 IH]; unfold page_sum in *; cbn [foldr app]; lia. Qed.

Lemma page_sum_in_pages a l : page_sum (rev (List.map (in_pages a) l)) = page_sum l.
Proof.
  induction l as [|x l IH]; [done|]. cbn [List.map rev]. rewrite page_sum_app, IH. unfold page_sum, in_pages. cbn [foldr fst snd]. lia.
Qed.

Lemma usable_sum : page_sum urs = page_sum (usable_list d).
Proof. apply page_sum_in_pages. Qed.

Lemma fb_tables_nonneg : 0 <= fb_tables d.
Proof.
  unfold fb_tables. destruct (framebuffer d) as [fb|] eqn:E; [|done].
  destruct (mo_fb _ _ _ _ _ _ _ _ _ _ _ _ _ MO fb E) as [[[H1 H2] _ (H3 & _) _] _ _ _].
  pose proof (page_count_nonneg (byte_size fb) PAGE_SIZE ltac:(done) H3). unfold mmio_tables, leaf_no. change (2 ^ 21) with 2097152.
  assert (virt_addr fb / 2097152 + -1 <= (virt_addr fb + page_count (byte_size fb) PAGE_SIZE * 4096 - 1) / 2097152); [|lia].
  rewrite <- Z.div_add by lia. apply Z.div_le_mono; lia.
Qed.

(** After the heap is set up. *)
Lemma boot_heap : exists p t b m,
  heap_init (regions d) (kernel_phys_start d) (kernel_phys_end d) hhdm ((TlsfInner_new, BuddyAllocator_new), m0) = Ok (tt, ((t, b), m)) /\
  stage root0 T0 (set_map (byte_block lo) ({[(10, p)]} : gset block) ∪ X) p t None ((c0, b), m) /\
  alloc_count (stats b) = 1 /\ frames b = page_sum (usable_list d) - 1024 /\
  (10, page_addr lo p) ∉ X /\ (forall v, walk hhdm 4 m root0 v = walk hhdm 4 m0 root0 v).
Proof.
  pose proof (mo_map _ _ _ _ _ _ _ _ _ _ _ _ _ MO) as Hmap. pose proof (mo_foreign _ _ _ _ _ _ _ _ _ _ _ _ _ MO) as FO.
  destruct (usable_registered _ _ _ _ _ m0 Hmap) as (s & Hr & Hb & Hheld & Hac & Hrun & _ & Hw & Hrs & Hun). fold (usable_list d) in Hrs.
  rewrite (heap_init_after _ _ _ _ _ _ _ Hmap Hrun). fold heap_block.
  destruct (run_heap_block s Hr Hheld) as [(p & t & b & m & Hblk & _ & _ & Hreach & Hb' & Hac' & Hw' & Ht)|[_ Hno]];
    [rewrite Hb; exact (bm_positive _ _ _ _ _ Hmap)|rewrite Hb; by eapply lo_aligned|done|done| |exfalso].
  2: { destruct usable_region as (off & n & Hin & Hn). pose proof fb_tables_nonneg.
       destruct (run_exists s 10 off n Hr ltac:(done)) as (p & [Hal _] & Hone); [by rewrite Hrs| |by apply (Hno p)].
       rewrite Hheld. assert (block_pages (∅ : gset block) = 0) as -> by done. change (2 ^ 10) with 1024. lia. }
  rewrite Hb in *. assert (sy_regions s = urs) as Ers by exact Hrs. rewrite Ers in *.
  assert (pages_kept X m0 m) as Hk.
  { intros bl x Hbl Hx. assert (forall y, pages_of lo urs y -> y <> x) as Hne by (intros y Hy ->; exact (fo_free _ _ _ _ _ FO bl x Hbl Hx Hy)).
    rewrite Hw', Hw; [done|intros Hx'; by apply (Hne x)..]. }
  destruct (mo_tables _ _ _ _ _ _ _ _ _ _ _ _ _ MO) as (IT & Hroot & HT). destruct (mo_window _ _ _ _ _ _ _ _ _ _ _ _ _ MO) as (W1 & W2 & W3).
  destruct (pt_over lo urs wlo whi X hhdm root0 m0 T0 (mkSys b m urs {[(10, p)]}) IT HT FO Hreach Hb' eq_refl Hk W1 W2 ltac:(lia)) as [I W].
  assert (forall bl, bl ∈ X -> forall x, in_block bl x -> ~ in_block (10, page_addr lo p) x) as Hapart.
  { intros bl Hbl x Hx Hp. apply (fo_free _ _ _ _ _ FO bl x Hbl Hx). destruct (reach_inv _ Hreach) as [F SI].
    apply (si_held _ _ SI (10, p)); [cbn; set_solver|]. by apply (in_byte_block lo (10, p)). }
  assert ((10, page_addr lo p) ∉ X) as HpX.
  { intros Hin. apply (Hapart _ Hin (page_addr lo p)); unfold in_block, Pages.block_size; cbn [fst snd]; lia. }
  exists p, t, b, m. split; [exact Hblk|]. split; [|split; [done|split; [|split; [exact HpX|exact W]]]].
  - split; [by split| |exact Ht| |done].
    + split; [apply elem_of_union_l, elem_of_map; exists (10, p); set_solver|]. intros q u _ [= E].
    + intros x (fb & Hfb & Hbits & Hx). destruct (mo_fb _ _ _ _ _ _ _ _ _ _ _ _ _ MO fb Hfb) as [_ _ _ Hbytes].
      destruct (Hbytes x Hbits Hx) as [(bl & Hbl & [_ Hnt] & Hin) _]. exists bl. split_and!; [|split; [set_solver|done]|done].
      intros ->. apply (Hapart _ Hbl x); done.
  - unfold frames. pose proof (reach_frames _ Hreach) as Hf. cbn [sy_b sy_regions sy_held] in Hf. rewrite Hf, usable_sum.
    rewrite <- (union_empty_r_L {[(10, p)]}), block_pages_insert by set_solver. by assert (block_pages (∅ : gset block) = 0) as -> by done.
Qed.

(** Mapping small pages leaves no huge page where there was none. *)
Lemma range_small root vs ps m m' k v : range_walk hhdm root vs ps m m' 0 k -> 0 <= v -> small hhdm root m v -> small hhdm root m' v.
Proof. intros W Hv Hs sz f. rewrite W by done. case_decide; [by intros [= <- _]|apply Hs]. Qed.

Lemma mmio_tables_page v : 0 <= v -> v mod 4096 = 0 -> mmio_tables v 1 = 3.
Proof.
  intros Hv Ha. unfold mmio_tables, leaf_no. change (2 ^ 21) with 2097152.
  enough ((v + 1 * 4096 - 1) / 2097152 = v / 2097152) as -> by lia.
  pose proof (Z.div_mod v 2097152 ltac:(lia)). pose proof (Z.mod_pos_bound v 2097152 ltac:(lia)). pose proof (Z.div_mod v 4096 ltac:(lia)).
  symmetry. apply Z.div_unique with (v + 1 * 4096 - 1 - 2097152 * (v / 2097152)); lia.
Qed.

(** Frames and calls left of those the machine has. *)
Definition spent (s : Cpu * BuddyAllocator * mem) (used calls : Z) : Prop :=
  page_sum (usable_list d) - used <= frames (snd (fst s)) /\ alloc_count (stats (snd (fst s))) <= calls.

Lemma kernel_tables_pos : 0 <= kernel_tables d.
Proof.
  destruct (mo_layout _ _ _ _ _ _ _ _ _ _ _ _ _ MO) as [_ [? _] [? _] _ _]. unfold kernel_tables.
  pose proof (page_count_nonneg (mem_size d) HUGE_2M ltac:(done) ltac:(lia)).
  pose proof (page_count_nonneg (kernel_virt_end d - kernel_virt_start d) PAGE_SIZE ltac:(done) ltac:(lia)). lia.
Qed.

Lemma mmio_flags : flags_ok MMIO_UC /\ flags_ok MMIO_WC.
Proof.
  unfold MMIO_UC, MMIO_WC. rewrite ?writable_bit, ?write_through_bit, ?cache_disable_bit, ?no_execute_bit, ?huge_bit, ?pat_bit.
  split; repeat apply flags_lor; apply flag_bit; lia.
Qed.

Lemma boot_lapic A p t s :
  stage root0 T0 A p t None s -> (forall v, walk hhdm 4 (snd s) root0 v = walk hhdm 4 m0 root0 v) ->
  apic_supported edx = true -> spent s 1024 1 ->
  exists s' T' A', hhdm + LAPIC_PHYS < W64 /\
    map_mmio hhdm (hhdm + LAPIC_PHYS) LAPIC_PHYS LAPIC_SIZE MMIO_UC s = Ok (inr tt, s') /\
    stage root0 T' A' p t None s' /\ (forall v, 0 <= v -> small hhdm root0 m0 v -> small hhdm root0 (snd s') v) /\ spent s' 1027 4.
Proof.
  intros S W Hap [Hf Hc]. destruct (mo_lapic _ _ _ _ _ _ _ _ _ _ _ _ _ MO Hap) as [Hend Hs]. destruct mo_hhdm as [Hh Hha].
  pose proof (mo_frames _ _ _ _ _ _ _ _ _ _ _ _ _ MO). pose proof fb_tables_nonneg. pose proof kernel_tables_pos.
  assert ((hhdm + LAPIC_PHYS) mod 4096 = 0) as Hal by (rewrite Z.add_mod, Hha by lia; done).
  assert (0 <= hhdm + LAPIC_PHYS) as Hpos by (unfold LAPIC_PHYS; lia).
  assert (page_count LAPIC_SIZE PAGE_SIZE = 1) as En by done.
  destruct (boot_mmio hhdm lo urs wlo whi X mo_hhdm root0 s T0 A (hhdm + LAPIC_PHYS) LAPIC_PHYS LAPIC_SIZE MMIO_UC (sg_ok _ _ _ _ _ _ _ S))
    as (s' & T' & A' & Hrun & Hok & Hk & Hc' & Hf' & W').
  - split; [by split|done|by vm_compute|]. rewrite En. split; [lia|by vm_compute].
  - apply mmio_flags.
  - intros j Hj. rewrite En in Hj. replace j with 0 by lia. rewrite Z.add_0_r. intros sz f. rewrite W. apply Hs.
  - rewrite En. unfold W64. lia.
  - rewrite En, mmio_tables_page by done. lia.
  - rewrite En, ?mmio_tables_page in * by done. exists s', T', A'. split; [lia|]. split; [done|]. split; [by eapply stage_step|]. split.
    + intros v Hv Hsv. eapply range_small; [exact W'|done|]. intros sz f. rewrite W. apply Hsv.
    + split; lia.
Qed.

(** The console once the framebuffer is set up. *)
Definition console_of : option FbWriter :=
  match framebuffer d with
  | Some fb => if bits_per_pixel fb =? 32 then Some (fresh_console fb) else None
  | None => None
  end.

Lemma boot_fb fb T A p t s calls :
  framebuffer d = Some fb -> stage root0 T A p t None s ->
  (forall v, 0 <= v -> small hhdm root0 m0 v -> small hhdm root0 (snd s) v) -> spent s 1027 calls -> calls <= 4 ->
  exists s' m' T' A', map_mmio hhdm (virt_addr fb) (phys_addr fb) (byte_size fb) MMIO_WC s = Ok (inr tt, s') /\
    init_from_info fb (None, snd s') = Ok (tt, (console_of, m')) /\
    stage root0 T' A' p t console_of (fst s', m') /\ spent (fst s', m') (1027 + fb_tables d) (2 ^ 39).
Proof.
  intros Hfb S Hsm [Hf Hc] Hcalls. destruct (mo_fb _ _ _ _ _ _ _ _ _ _ _ _ _ MO fb Hfb) as [WO Hs Hinfo Hbytes].
  pose proof (mo_frames _ _ _ _ _ _ _ _ _ _ _ _ _ MO) as Hfr. pose proof kernel_tables_pos.
  pose proof WO as [[H1 H2] _ (H3 & H4 & H5) _]. pose proof (page_count_nonneg (byte_size fb) PAGE_SIZE ltac:(done) H3) as Hn.
  assert (fb_tables d = mmio_tables (virt_addr fb) (page_count (byte_size fb) PAGE_SIZE)) as Eft by (unfold fb_tables; by rewrite Hfb).
  destruct (boot_mmio hhdm lo urs wlo whi X mo_hhdm root0 s T A (virt_addr fb) (phys_addr fb) (byte_size fb) MMIO_WC (sg_ok _ _ _ _ _ _ _ S) WO)
    as (s' & T' & A' & Hrun & Hok & Hk & Hc' & Hf' & _).
  - apply mmio_flags.
  - intros j Hj. apply Hsm; [lia|]. by apply Hs.
  - unfold W64. lia.
  - rewrite <- Eft. lia.
  - pose proof (stage_step _ _ _ _ _ _ _ _ _ _ _ S Hok Hk) as S'. assert (spent s' (1027 + fb_tables d) (2 ^ 39)) as Hsp by (split; lia).
    unfold console_of. rewrite Hfb. destruct (Z.eqb_spec (bits_per_pixel fb) 32) as [Hb|Hb].
    2: { exists s', (snd s'), T', A'. split; [done|]. split; [unfold init_from_info; by rewrite (proj2 (Z.eqb_neq _ _) Hb)|].
         rewrite <- surjective_pairing. by split. }
    destruct (run_init_from_info fb None (snd s') (Hinfo Hb) Hb) as (m' & Hi & D & Hch). exists s', m', T', A'.
    split; [done|]. split; [done|]. split; [|exact Hsp]. destruct S' as [[I Hroot] Hblk Hheap Hfbb _].
    destruct (pt_write (PA := buddy_over lo urs wlo whi X) hhdm mo_hhdm root0 _ _ T' A' m' I) as [I' _].
    { eapply changes_weaken; [|exact Hch]. intros x Hx. destruct (Hfbb x) as (bl & _ & [Hbl Hnt] & Hin); [by exists fb|by exists bl]. }
    split; [by split|done| |done|].
    + eapply heap_frame; [exact Hheap|]. intros x Hx. eapply changes_eq; [exact Hch|]. intros Hxf.
      destruct (Hfbb x) as (bl & Hne & [Hbl _] & Hin); [by exists fb|].
      by apply (pa_disj _ _ _ _ _ (pt_pages _ _ _ _ _ _ I) Hbl (proj1 Hblk) Hne x Hin).
    + intros w [= <-]. split; [exact D|]. intros x Hx. by exists fb.
Qed.

(** The kernel's stack. *)
Lemma boot_kstack T A p t con s calls :
  stage root0 T A p t con s -> spent s (1027 + fb_tables d) calls -> calls <= 2 ^ 39 ->
  exists k s', alloc_kernel_stack hhdm 8 s = Ok (k, s') /\ top k = guard_virt k + 65536 /\
    stage root0 T ({[(4, guard_virt k)]} ∪ A) p t con s' /\ (4, guard_virt k) ∉ A /\ spent s' (1043 + fb_tables d) (calls + 1).
Proof.
  intros S [Hf Hc] Hcalls. destruct usable_region as (off & n & Hin & Hn). destruct (mo_window _ _ _ _ _ _ _ _ _ _ _ _ _ MO) as (_ & _ & Hhi).
  assert (stack_order 8 = 4) as Eo by done.
  destruct (boot_stack hhdm lo urs wlo whi X mo_hhdm Hhi root0 s T A 8 off n (sg_ok _ _ _ _ _ _ _ S)) as (k & s' & Hrun & P);
    [lia|unfold W64; lia|done| |].
  { rewrite Eo, usable_sum. change (2 ^ 4) with 16. lia. }
  rewrite Eo in P. exists k, s'. pose proof (sp_top _ _ _ _ _ _ _ _ _ _ _ _ _ P) as Htop. split; [done|]. split; [rewrite Htop; lia|]. split; [|split; [|split]].
  - eapply stage_step; [exact S|exact (sp_ok _ _ _ _ _ _ _ _ _ _ _ _ _ P)|exact (stack_keeps hhdm lo urs wlo whi X mo_hhdm Hhi root0 s T A 4 k s' P)].
  - intros HA. apply (sp_fresh _ _ _ _ _ _ _ _ _ _ _ _ _ P _ HA (guard_virt k)); unfold in_block, Pages.block_size; cbn [fst snd]; lia.
  - unfold frames. rewrite (sp_frames _ _ _ _ _ _ _ _ _ _ _ _ _ P). unfold frames in Hf. change (2 ^ 4) with 16. lia.
  - rewrite (sp_count _ _ _ _ _ _ _ _ _ _ _ _ _ P). lia.
Qed.

Lemma keeps_weaken T A m T' A' m' : keeps hhdm ∅ A m T' A' m' -> keeps hhdm T A m T' A' m'.
Proof. intros H bl Hbl. apply H. by eapply protected_none. Qed.

(** The kernel's own tables. *)
Lemma boot_install T A p t con s calls :
  stage root0 T A p t con s -> spent s (1043 + fb_tables d) calls -> calls <= 2 ^ 39 + 1 ->
  exists s' root T' A',
    Pml4.install_kernel_pml4 hhdm (kernel_virt_start d) (kernel_virt_end d) (kernel_phys_start d) (mem_size d) s = Ok (tt, s') /\
    stage root T' A' p t con s' /\ (forall bl, bl ∈ A -> bl ∈ A') /\
    (forall q u, T' !! q = Some u -> (0, u + hhdm) ∉ A) /\
    installed hhdm root (snd s') (kernel_virt_start d) (kernel_virt_end d) (kernel_phys_start d) (mem_size d).
Proof.
  intros S [Hf Hc] Hcalls. pose proof (mo_frames _ _ _ _ _ _ _ _ _ _ _ _ _ MO). pose proof (sg_ok _ _ _ _ _ _ _ S) as [I _].
  assert (install_ok (PA := buddy_over lo urs wlo whi X) hhdm (kernel_virt_start d) (kernel_virt_end d) (kernel_phys_start d) (mem_size d) (snd (fst s)) A) as HI.
  { apply layout_install; [apply MO|apply MO|lia|unfold W64; lia]. }
  destruct (install_run (PA := buddy_over lo urs wlo whi X) hhdm mo_hhdm s A _ _ _ _ (pt_pages _ _ _ _ _ _ I) HI)
    as (s' & root & T' & A' & Hrun & Hok & [_ Ev] & W).
  exists s', root, T', A'. split; [done|]. split; [|split; [apply Ev|split; [|exact W]]].
  - eapply stage_step; [exact S|exact Hok|]. eapply keeps_weaken, evolved_keeps, Ev.
  - intros q u Hu Hin. destruct (ev_new _ _ _ _ _ _ _ _ _ _ Ev q u Hu Hin) as [q' Hq']. by apply lookup_empty_Some in Hq'.
Qed.

(** ** The kernel on its own page tables *)

(** The allocator has the regions [regs] and its clients hold [held]: among
    them the heap's pool and every page table.  The active tables give the
    direct map and the kernel image; the console, on memory the allocator does
    not manage, shows [term]. *)
Record running (regs : list (Z * Z)) (held : gset block) (term : terminal)
    (c : Cpu) (b : BuddyAllocator) (t : TlsfInner) (con : option FbWriter) (m : mem) : Prop := mkRunning {
  ru_alloc : sys_reach (mkSys b m regs held) /\ base b = lo;
  ru_heap : exists p, (10, p) ∈ held /\ heap_at t m p;
  ru_tables : exists root T, active_root c = root /\ tree hhdm root m T /\
    (forall q u, T !! q = Some u -> exists j, (0, j) ∈ held /\ u + hhdm = page_addr lo j) /\
    installed hhdm root m (kernel_virt_start d) (kernel_virt_end d) (kernel_phys_start d) (mem_size d);
  ru_fb : forall x, fb_byte d x -> ~ in_regions regs (page_of lo x);
  ru_console : match console_of with
    | Some w0 => exists w, con = Some w /\ same_screen w0 w /\ displays w m term
    | None => con = None
    end
}.

(** Changes to memory that nobody holds, and to the allocator. *)
Lemma running_change regs held term c b t con m regs' term' b' con' m' :
  running regs held term c b t con m -> sys_reach (mkSys b' m' regs' held) -> base b' = lo ->
  (forall x, fb_byte d x -> ~ in_regions regs' (page_of lo x)) -> pages_kept (set_map (byte_block lo) held) m m' ->
  match console_of with
  | Some w0 => exists w, con' = Some w /\ same_screen w0 w /\ displays w m' term'
  | None => con' = None
  end ->
  running regs' held term' c b' t con' m'.
Proof.
  intros [_ (p & Hp & Hh) (root & T & Hroot & IT & HT & W) _ _] Hr Hb Hfb Hk Hcon. split; [done| | |done|done].
  - exists p. split; [done|]. eapply heap_frame; [exact Hh|]. intros x Hx. eapply Hk; [|exact Hx]. apply elem_of_map. by exists (10, p).
  - destruct (tree_kept hhdm root m m' T IT) as [IT' W'].
    { intros q u i Hu Hi. destruct (HT q u Hu) as (j & Hj & E). unfold PageTree.entry.
      apply (Hk (0, u + hhdm)); [|by apply table_cell]. rewrite E. apply elem_of_map. by exists (0, j). }
    exists root, T. split_and!; [done|done|done|]. intros v Hv. by rewrite W', W.
Qed.

Lemma console_kept con m m' term :
  (forall x, fb_byte d x -> rd m' x = rd m x) ->
  match console_of with Some w0 => exists w, con = Some w /\ same_screen w0 w /\ displays w m term | None => con = None end ->
  match console_of with Some w0 => exists w, con = Some w /\ same_screen w0 w /\ displays w m' term | None => con = None end.
Proof.
  intros Hm. assert (forall w0, console_of = Some w0 -> forall x, in_fb w0 x -> fb_byte d x) as Hin.
  { unfold console_of. intros w0. destruct (framebuffer d) as [fb|] eqn:E; [|done].
    destruct (Z.eqb_spec (bits_per_pixel fb) 32); [|done]. intros [= <-] x Hx. by exists fb. }
  destruct console_of as [w0|] eqn:E; [|done]. intros (w & -> & Hs & D). exists w. split; [done|]. split; [done|].
  eapply displays_frame; [exact D|]. intros x Hx. apply Hm, (Hin w0); [done|]. unfold same_screen in Hs. by rewrite Hs in Hx.
Qed.

(** A block of the allocator is known by its held block. *)
Lemma held_of b m A bl : over_inv lo urs wlo whi X b m A -> bl ∈ A -> bl ∉ X ->
  exists held, sys_reach (mkSys b m urs held) /\ base b = lo /\ A = set_map (byte_block lo) held ∪ X /\
    exists q, (fst bl, q) ∈ held /\ snd bl = page_addr lo q.
Proof.
  intros (Hb & _ & held & Hr & ->) [([k q] & -> & Hq)%elem_of_map|?]%elem_of_union HX; [|done].
  exists held. split_and!; try done. by exists q.
Qed.

Lemma fb_unmanaged x : fb_byte d x ->
  ~ in_regions urs (page_of lo x) /\ ~ covers (released_list d sp ++ option_list (boot_stack_of d sp)) x.
Proof.
  intros (fb & Hfb & Hb & Hx). destruct (mo_fb _ _ _ _ _ _ _ _ _ _ _ _ _ MO fb Hfb) as [_ _ _ Hbytes].
  destruct (Hbytes x Hb Hx) as [(bl & Hbl & _ & Hin) Hc]. split; [|done].
  by apply (fo_free _ _ _ _ _ (mo_foreign _ _ _ _ _ _ _ _ _ _ _ _ _ MO) bl x).
Qed.

(** The kernel runs once its tables are installed. *)
Lemma stage_running root T A p t g s :
  stage root T A p t console_of s -> (10, page_addr lo p) ∉ X -> (4, g) ∈ A -> (4, g) ∉ X ->
  (forall q u, T !! q = Some u -> (0, u + hhdm) ∉ X) ->
  installed hhdm root (snd s) (kernel_virt_start d) (kernel_virt_end d) (kernel_phys_start d) (mem_size d) ->
  exists held, running urs held t_blank (fst (fst s)) (snd (fst s)) t console_of (snd s) /\
    exists q, (4, q) ∈ held /\ g = page_addr lo q.
Proof.
  intros [[I Hroot] [Hblk _] Hheap Hfb Hcon] HpX Hg HgX HTX W. pose proof (pt_pages _ _ _ _ _ _ I) as Ipa.
  destruct (held_of _ _ _ _ Ipa Hg HgX) as (held & Hr & Hb & EA & q & Hq & Eq). exists held. split; [|by exists q].
  assert (forall k y, (k, y) ∈ A -> (k, y) ∉ X -> exists j, (k, j) ∈ held /\ y = page_addr lo j) as Hin.
  { intros k y Hy HyX. rewrite EA in Hy. apply elem_of_union in Hy as [([k' j] & [= -> ->] & Hj)%elem_of_map|?]; [by exists j|done]. }
  split; [done| | |by intros x Hx; apply fb_unmanaged|].
  - destruct (Hin _ _ Hblk HpX) as (j & Hj & E). exists p. split; [|done]. apply (inj (page_addr lo)) in E. by subst j.
  - exists root, T. split_and!; [done|apply I| |done]. intros u v Hv. apply (Hin 0 (v + hhdm)); [by apply (pt_held _ _ _ _ _ _ I u)|by apply (HTX u)].
  - destruct console_of as [w|] eqn:E; [|done]. exists w. split; [done|]. split; [by destruct w|]. by apply (Hcon w).
Qed.

(** ** Reclaiming the boot loader's memory *)

Lemma registrable_rest a n rs l1 l2 : registrable a n rs (l1 ++ l2) ->
  registrable a (n + page_sum l1) (rev (List.map (in_pages a) l1) ++ rs) l2.
Proof.
  revert n rs. induction l1 as [|x l1 IH]; intros n rs Hr.
  - unfold page_sum. cbn [foldr List.map rev app] in *. by rewrite Z.add_0_r.
  - apply registrable_head, IH in Hr. cbn [List.map rev]. rewrite <- app_assoc. cbn [app].
    unfold page_sum in *. cbn [foldr]. by rewrite <- Z.add_assoc in Hr.
Qed.

Definition regs1 : list (Z * Z) := rev (List.map (in_pages lo) (released_list d sp)) ++ urs.
Definition regs2 : list (Z * Z) := rev (List.map (in_pages lo) (option_list (boot_stack_of d sp))) ++ regs1.

Lemma reclaim_registrable :
  registrable lo (page_sum urs) urs (released_list d sp) /\
  registrable lo (page_sum regs1) regs1 (option_list (boot_stack_of d sp)).
Proof.
  pose proof (mo_reclaim _ _ _ _ _ _ _ _ _ _ _ _ _ MO) as Hr. rewrite <- usable_sum in Hr. split; [by eapply registrable_app|].
  assert (page_sum regs1 = page_sum urs + page_sum (released_list d sp)) as ->; [|by apply registrable_rest].
  unfold regs1. rewrite page_sum_app, page_sum_in_pages. lia.
Qed.

(** Only the page of the stack pointer matters, and which region it is in. *)
Lemma release_same g x y : (forall r, r ∈ g -> holds r x <-> holds r y) -> reclaim_parts hhdm x g = reclaim_parts hhdm y g.
Proof.
  induction g as [|r' g IH]; intros H; [done|]. unfold reclaim_parts. cbn [List.map concat]. f_equal; [|by apply IH; intros; apply H; right].
  specialize (H r' ltac:(by left)). unfold holds in H. unfold reclaim_part.
  replace ((page_base r' <=? y) && (y <? page_end r')) with ((page_base r' <=? x) && (x <? page_end r')); [done|].
  apply eq_true_iff_eq. rewrite !andb_true_iff, !Z.leb_le, !Z.ltb_lt. lia.
Qed.

Lemma regions_fit : Forall (fits hhdm) (reclaimable_regions d).
Proof.
  apply Forall_forall. intros g [_ Hg]%list_elem_of_filter. pose proof (bm_fits _ _ _ _ _ (mo_map _ _ _ _ _ _ _ _ _ _ _ _ _ MO)) as HF.
  rewrite Forall_forall in HF. by apply HF.
Qed.

(** Bytes outside the listed regions are outside the registered pages. *)
Lemma in_regions_covers l x : Forall (fun y => lo <= fst y /\ (fst y - lo) mod 4096 = 0) l ->
  in_regions (rev (List.map (in_pages lo) l)) (page_of lo x) -> covers l x.
Proof.
  intros HF. rewrite in_regions_rev, in_regions_pages by done. rewrite Forall_forall in HF. intros (v & n & Hin & Hr). exists v, n. split; [done|].
  destruct (HF _ Hin) as [_ Hm]. cbn [fst] in Hm. unfold page_of, Buddy.PAGE_SIZE in Hr.
  pose proof (Z.div_mod (x - lo) 4096 ltac:(lia)). pose proof (Z.mod_pos_bound (x - lo) 4096 ltac:(lia)). pose proof (Z.div_mod (v - lo) 4096 ltac:(lia)). lia.
Qed.

(** Registering more of the boot loader's memory. *)
Lemma running_register l regs held term c b t con m :
  running regs held term c b t con m -> registrable lo (page_sum regs) regs l -> (forall x, fb_byte d x -> ~ covers l x) ->
  exists b' m', register_list l (b, m) = Ok (tt, (b', m')) /\
    running (rev (List.map (in_pages lo) l) ++ regs) held term c b' t con m'.
Proof.
  intros R Hreg Hl. pose proof (ru_alloc _ _ _ _ _ _ _ _ R) as [Hr Hb]. pose proof (reach_total _ Hr) as Ht. cbn [sy_b sy_regions] in Ht.
  assert (registrable (base b) (total_pages b) regs l) as Hreg' by by rewrite Hb, Ht.
  destruct (register_all l _ Hr Hreg') as (b' & m' & Hrun & Hr' & Hb' & _ & Hw & _ & Hk & _). cbn [sy_b sy_m sy_regions sy_held] in *. rewrite Hb in *.
  assert (forall x, fb_byte d x -> ~ in_regions (rev (List.map (in_pages lo) l) ++ regs) (page_of lo x)) as Hfb.
  { intros x Hx (g & Hg & Hp). apply elem_of_app in Hg as [Hg|Hg]; [|apply (ru_fb _ _ _ _ _ _ _ _ R x Hx); by exists g].
    apply (Hl x Hx), in_regions_covers; [|by exists g]. destruct Hreg as [Hp' _ _ _]. eapply Forall_impl; [exact Hp'|]. by intros y (? & ? & _). }
  exists b', m'. split; [done|]. eapply running_change; [exact R|exact Hr'|done|exact Hfb|exact Hk|].
  eapply console_kept; [|exact (ru_console _ _ _ _ _ _ _ _ R)]. intros x Hx. apply Hw. by apply Hfb.
Qed.

Lemma run_release s : release rsp d s = register_list (released_list d sp) s.
Proof.
  destruct (mo_sp _ _ _ _ _ _ _ _ _ _ _ _ _ MO) as (H1 & H2 & H3). unfold release, bind, usub. rewrite (proj2 (Z.leb_le hhdm rsp)) by lia. cbn [ret].
  rewrite run_release_loop by (apply mo_hhdm || apply regions_fit). fold (stack_page d rsp). unfold released_list. by rewrite (release_same _ _ _ H3).
Qed.

Lemma run_max_end {S} (s : S) : max_end (regions d) s = Ok (mem_size d, s).
Proof.
  unfold mem_size. pose proof (bm_fits _ _ _ _ _ (mo_map _ _ _ _ _ _ _ _ _ _ _ _ _ MO)) as HF. pose proof mo_hhdm.
  induction HF as [|g l (? & ? & ?) _ IH]; [done|]. cbn [max_end foldr]. unfold region_end, bind, uadd. rewrite (proj2 (Z.ltb_lt _ W64)) by lia.
  cbn [ret]. by rewrite IH.
Qed.

(** ** Running the kernel *)

Lemma wp_zoom {Y A} (view : Kernel -> Y) set (f : M Y A) k a y (Q : A -> Kernel -> Prop) :
  f (view k) = Ok (a, y) -> Q a (set y k) -> wp (zoom view set f) k Q.
Proof. intros Hf HQ. unfold wp, zoom. by rewrite Hf. Qed.

Lemma wp_from {A} k' (f : M Kernel A) k (Q : A -> Kernel -> Prop) : k = k' -> wp f k' Q -> wp f k Q.
Proof. by intros ->. Qed.

(** The interrupt controllers and the timer after the boot sequence. *)
Definition irq_init : IState := final (interrupts_init ;; Timer.init) boot_state.
Definition boot_irq : IState := if apic_supported edx then final (init_lapic (hhdm + LAPIC_PHYS)) irq_init else irq_init.

Lemma run_irq_init : interrupts_init boot_state = Ok (tt, final interrupts_init boot_state) /\
  Timer.init (final interrupts_init boot_state) = Ok (tt, irq_init) /\ LAPIC irq_init = None.
Proof. split_and!; by vm_compute. Qed.

Lemma run_init_lapic v s : LAPIC s = None -> v + 0xF0 < W64 -> init_lapic v s = Ok (tt, final (init_lapic v) s).
Proof.
  intros Hs Hv. apply (run_ok _ _ tt). unfold result, init_lapic, lapic_init, lapic_write, bind, gets, uadd. rewrite Hs.
  by rewrite (proj2 (Z.ltb_lt _ _) Hv).
Qed.

(** The process table's cache before its first slab. *)
Definition process_cache : SlabCacheInner :=
  mkSlab 0 (capacity_for size_of_Process align_of_Process 0) 0 (mkSlabStats 0 0 0 0 0 0).

Definition loaded_segments : option Segments := final gdt_init None.

(** The kernel between the VMM's initialisation and the release. *)
Definition kernel_at (irq : IState) (con : option FbWriter) (t : TlsfInner) (ls : list (list Z)) (s : Cpu * BuddyAllocator * mem) : Kernel :=
  mkKernel (fst (fst s)) (snd (fst s)) t (snd s) irq con true (Some hhdm) (Some process_cache) (mkCell false false None) sp false
    (port ls) loaded_segments.

Lemma log_at irq con t ls s x : log x (kernel_at irq con t ls s) = Ok (tt, kernel_at irq con t (ls ++ [x]) s).
Proof. exact (run_log x (kernel_at irq con t [] s) ls). Qed.

Lemma wp_log {A} irq con t ls s x (f : M Kernel A) Q :
  wp f (kernel_at irq con t (ls ++ [x]) s) Q -> wp (log x ;; f) (kernel_at irq con t ls s) Q.
Proof. intros H. apply wp_bind, wp_run. do 2 eexists. split; [apply log_at|exact H]. Qed.

Definition lapic_lines : list (list Z) := if apic_supported edx then [text "[kernel] lapic ok"] else [].
Definition fb_lines : list (list Z) :=
  match framebuffer d with
  | Some fb => [text "[kernel] fb: virt=" ++ hex (virt_addr fb) ++ text " phys=" ++ hex (phys_addr fb) ++
      text " size=" ++ hex (byte_size fb); text "[kernel] fb mapped"; text "[kernel] fb init ok"]
  | None => []
  end.

Lemma wp_boot_lapic A p t ls s :
  stage root0 T0 A p t None s -> (forall v, walk hhdm 4 (snd s) root0 v = walk hhdm 4 m0 root0 v) -> spent s 1024 1 ->
  wp (if apic_supported edx then
      let* lapic_virt := uadd hhdm LAPIC_PHYS in
      let* hhdm' := vmm_get in
      let* m := on_pages (map_mmio hhdm' lapic_virt LAPIC_PHYS LAPIC_SIZE MMIO_UC) in
      expect_ok m ;;
      on_irq (init_lapic lapic_virt) ;;
      log (text "[kernel] lapic ok")
    else ret tt) (kernel_at irq_init None t ls s)
    (fun _ k => exists s' T' A', k = kernel_at boot_irq None t (ls ++ lapic_lines) s' /\ stage root0 T' A' p t None s' /\
       (forall v, 0 <= v -> small hhdm root0 m0 v -> small hhdm root0 (snd s') v) /\ spent s' 1027 4).
Proof.
  intros S W Hsp. unfold boot_irq, lapic_lines. destruct (apic_supported edx) eqn:Hap.
  - destruct (boot_lapic A p t s S W Hap Hsp) as (s' & T' & A' & Hend & Hrun & S' & Hsm & Hsp').
    apply wp_bind, wp_uadd; [done|]. unfold vmm_get. do 3 wp_step. eapply wp_expect; [done|]. apply wp_bind.
    eapply wp_zoom; [destruct s as [[c b] m]; exact Hrun|]. apply wp_bind. apply wp_ret.
    destruct (mo_lapic _ _ _ _ _ _ _ _ _ _ _ _ _ MO Hap) as [Hl _].
    apply wp_bind. eapply wp_zoom; [apply run_init_lapic; [apply run_irq_init|unfold W64 in *; lia]|].
    set (irq := final (init_lapic (hhdm + LAPIC_PHYS)) irq_init).
    eapply (wp_from (kernel_at irq None t ls s')); [by destruct s as [[c b] m]|]. apply wp_run. do 2 eexists. split; [apply log_at|].
    exists s', T', A'. split; [done|]. split_and!; try done; apply Hsp'.
  - apply wp_ret. rewrite app_nil_r. exists s, T0, A. split; [done|]. split; [done|]. split; [|destruct Hsp; split; lia].
    intros v _ Hs sz f. rewrite W. apply Hs.
Qed.

Lemma wp_boot_fb T A p t ls s irq :
  stage root0 T A p t None s -> (forall v, 0 <= v -> small hhdm root0 m0 v -> small hhdm root0 (snd s) v) -> spent s 1027 4 ->
  wp (match framebuffer d with
      | Some fb =>
          log (text "[kernel] fb: virt=" ++ hex (virt_addr fb) ++ text " phys=" ++ hex (phys_addr fb) ++
            text " size=" ++ hex (byte_size fb)) ;;
          let* hhdm' := vmm_get in
          let* m := on_pages (map_mmio hhdm' (virt_addr fb) (phys_addr fb) (byte_size fb) MMIO_WC) in
          expect_ok m ;;
          log (text "[kernel] fb mapped") ;;
          on_console (init_from_info fb) ;;
          log (text "[kernel] fb init ok")
      | None => ret tt
      end) (kernel_at irq None t ls s)
    (fun _ k => exists s' T' A', k = kernel_at irq console_of t (ls ++ fb_lines) s' /\ stage root0 T' A' p t console_of s' /\
       spent s' (1027 + fb_tables d) (2 ^ 39)).
Proof.
  intros S Hsm Hsp. unfold fb_lines. destruct (framebuffer d) as [fb|] eqn:Hfb.
  - destruct (boot_fb fb T A p t s 4 Hfb S Hsm Hsp ltac:(lia)) as (s' & m' & T' & A' & Hrun & Hi & S' & Hsp').
    apply wp_log. unfold vmm_get. do 3 wp_step. eapply wp_expect; [done|]. apply wp_bind.
    eapply wp_zoom; [destruct s as [[c b] m]; exact Hrun|]. apply wp_bind. apply wp_ret.
    match goal with |- wp _ _ ?Q => eapply (wp_from (kernel_at irq None t _ s')); [by destruct s as [[c b] m]|] end.
    apply wp_log. apply wp_bind. eapply wp_zoom; [exact Hi|].
    eapply (wp_from (kernel_at irq console_of t _ (fst s', m'))); [reflexivity|]. apply wp_run. do 2 eexists. split; [apply log_at|].
    exists (fst s', m'), T', A'. split; [by rewrite <- !app_assoc|]. by split.
  - apply wp_ret. unfold console_of. rewrite Hfb, app_nil_r. exists s, T, A. split; [done|]. split; [done|]. destruct Hsp. unfold fb_tables. rewrite Hfb. split; lia.
Qed.

Lemma run_init_pat (c : Cpu) (b : BuddyAllocator) (m : mem) :
  init_pat ((c, b), m) = Ok (tt, ((mkCpu (cr3 c) (invalidated c) ((IA32_PAT, PAT_VALUE) :: msr_writes c), b), m)).
Proof. reflexivity. Qed.

(** One call on a part of the kernel whose run is known; the new state is
    written out, since every field of a state mentions the whole of it. *)
Ltac flat := cbn [k_cpu k_buddy k_heap k_mem k_irq k_console k_harvested k_vmm k_processes k_post k_sp k_IF k_serial k_gdt fst snd].
Ltac zoom H := apply wp_bind; eapply wp_zoom; [first [exact H|idtac]|]; flat.

(** What [kernel_main_setup] leaves besides the running components. *)
Record main_done (ks : KernelStack) (held : gset block) (k : Kernel) : Prop := mkMainDone {
  md_running : running regs1 held t_blank (k_cpu k) (k_buddy k) (k_heap k) (k_console k) (k_mem k);
  md_stack : exists q, (4, q) ∈ held /\ guard_virt ks = page_addr lo q /\ top ks = guard_virt ks + 65536;
  md_irq : k_irq k = boot_irq;
  md_post : k_post k = mkCell true false (Some (mkPost (rsdp_phys d) (boot_stack_of d sp)));
  md_flags : k_harvested k = true /\ k_vmm k = Some hhdm /\ k_processes k = Some process_cache /\ k_sp k = sp /\ k_IF k = false;
  md_gdt : k_gdt k = loaded_segments;
  md_serial : k_serial k = port (setup_log r edx d ks)
}.

(** The lines before those of the framebuffer. *)
Definition early_log : list (list Z) :=
  [text "[kernel] booting..."; text "[kernel] hhdm=" ++ hex hhdm;
   text "[kernel] phys=" ++ hex (kernel_phys_start d) ++ text ".." ++ hex (kernel_phys_end d)] ++
  bootloader_line r ++ List.map (fun r => text "[memmap] " ++ region_line r) (regions d) ++
  [text "[kernel] gdt ok"; text "[kernel] idt ok"; text "[kernel] timer ok"] ++ List.map heap_line (regions d) ++
  [text "[kernel] heap ok"; text "[kernel] process table ok"; text "[kernel] vmm ok"].

Lemma setup_log_parts ks : setup_log r edx d ks = ((early_log ++ lapic_lines) ++ fb_lines) ++
  [text "[kernel] stack: top=" ++ hex (top ks) ++ text " guard=" ++ hex (guard_virt ks); text "[kernel] pml4 ok";
   text "[kernel] boot pages released (boot stack region deferred)"].
Proof. unfold setup_log, early_log, lapic_lines, fb_lines. by rewrite <- !app_assoc. Qed.

(** From the framebuffer on. *)
Lemma wp_main_tail T A p t s :
  stage root0 T A p t console_of s -> (10, page_addr lo p) ∉ X -> spent s (1027 + fb_tables d) (2 ^ 39) ->
  wp (let* sp' := usub sp hhdm in
      let* stack_region := find_boot_stack hhdm (Z.land sp' (not64 0xFFF)) (reclaimable_regions d) in
      let* hhdm' := vmm_get in
      let* kstack := on_pages (alloc_kernel_stack hhdm' 8) in
      log (text "[kernel] stack: top=" ++ hex (top kstack) ++ text " guard=" ++ hex (guard_virt kstack)) ;;
      let* phys_mem_size := max_end (regions d) in
      on_pages (Pml4.install_kernel_pml4 hhdm (kernel_virt_start d) (kernel_virt_end d) (kernel_phys_start d) phys_mem_size) ;;
      log (text "[kernel] pml4 ok") ;;
      on_buddy (release rsp d) ;;
      log (text "[kernel] boot pages released (boot stack region deferred)") ;;
      on_post (post_store (mkPost (rsdp_phys d) stack_region)) ;;
      ret kstack)
    (kernel_at boot_irq console_of t ((early_log ++ lapic_lines) ++ fb_lines) s) (fun ks k => exists held, main_done ks held k).
Proof.
  intros S HpX Hsp. destruct (mo_sp _ _ _ _ _ _ _ _ _ _ _ _ _ MO) as ([Hsp1 Hsp2] & _). destruct reclaim_registrable as [Hreg1 _].
  destruct (boot_kstack T A p t console_of s _ S Hsp ltac:(done)) as (ks & [[c4 b4] m4] & Hks & Htop & S4 & Hnew & Hsp4).
  destruct (boot_install T _ p t console_of _ _ S4 Hsp4 ltac:(done)) as ([[c5 b5] m5] & root & T5 & A5 & Hinst & S5 & HA5 & HT5 & W5).
  assert (forall bl, bl ∈ X -> bl ∈ A) as HX.
  { destruct (pt_pages _ _ _ _ _ _ (proj1 (sg_ok _ _ _ _ _ _ _ S))) as (_ & _ & held & _ & ->). set_solver. }
  destruct (stage_running root T5 A5 p t (guard_virt ks) _ S5 HpX) as (held & R & q & Hq & Eq); [apply HA5; set_solver|auto| |done|].
  { intros u v Hv HvX. apply (HT5 u v Hv). apply elem_of_union_r. auto. }
  cbn [fst snd] in R. destruct (running_register _ _ _ _ _ _ _ _ _ R Hreg1) as (b6 & m6 & Hrel & R6).
  { intros x Hx Hc. destruct (fb_unmanaged x Hx) as [_ Hno]. apply Hno, covers_app. by left. }
  destruct s as [[c3 b3] m3]. apply wp_bind, wp_usub; [lia|]. fold (stack_page d sp). apply wp_bind, wp_run.
  eexists (boot_stack_of d sp), _. split; [apply run_find_boot_stack; [apply mo_hhdm|apply regions_fit]|].
  unfold vmm_get. apply wp_bind, wp_bind, wp_get. eapply wp_expect; [done|].
  apply wp_bind. eapply wp_zoom; [exact Hks|]. eapply (wp_from (kernel_at _ _ t _ ((c4, b4), m4))); [reflexivity|]. apply wp_log.
  apply wp_bind, wp_run. eexists _, _. split; [apply run_max_end|].
  apply wp_bind. eapply wp_zoom; [exact Hinst|]. eapply (wp_from (kernel_at _ _ t _ ((c5, b5), m5))); [reflexivity|]. apply wp_log.
  apply wp_bind. eapply wp_zoom; [rewrite run_release; exact Hrel|]. eapply (wp_from (kernel_at _ _ t _ ((c5, b6), m6))); [reflexivity|]. apply wp_log.
  unfold kernel_at. zoom (eq_refl (post_store (mkPost (rsdp_phys d) (boot_stack_of d sp)) (mkCell false false None))). apply wp_ret. exists held.
  split; flat; try done.
  - by exists q.
  - by rewrite setup_log_parts, <- !app_assoc.
Qed.

(** The kernel before the heap's initialisation, with nothing logged. *)
Definition early (irq : IState) (hv : bool) (seg : option Segments) : Kernel :=
  mkKernel c0 BuddyAllocator_new TlsfInner_new m0 irq None hv None None (mkCell false false None) sp false (port []) seg.

Lemma wp_logged {A} x k ls (f : M Kernel A) Q : wp f (with_log k (ls ++ [x])) Q -> wp (log x ;; f) (with_log k ls) Q.
Proof. intros H. apply wp_bind, wp_run. do 2 eexists. split; [apply run_log|exact H]. Qed.

Lemma wp_logged_alloc {A} x k b t m ls (f : M Kernel A) Q :
  wp f (with_alloc k b t m (ls ++ [x])) Q -> wp (log x ;; f) (with_alloc k b t m ls) Q.
Proof. intros H. apply wp_bind, wp_run. do 2 eexists. split; [apply run_log_alloc|exact H]. Qed.

Lemma wp_kernel_main_setup : wp (kernel_main_setup r edx sp rsp) (at_entry c0 m0 sp) (fun ks k => exists held, main_done ks held k).
Proof.
  destruct boot_heap as (p & t & b & m & Hheap & S0 & Hc0 & Hf0 & HpX & W0). destruct run_irq_init as (Hi1 & Hi2 & _).
  pose proof (mo_harvest _ _ _ _ _ _ _ _ _ _ _ _ _ MO) as Hh.
  assert (harvested_from r d) as Hfrom.
  { destruct (harvest_inv _ _ _ _ Hh) as [_ Hr]. pose proof (wp_harvest r Hr) as W. unfold wp in W. rewrite Hh in W. apply W. }
  pose proof (bm_fits _ _ _ _ _ (mo_map _ _ _ _ _ _ _ _ _ _ _ _ _ MO)) as HF.
  unfold kernel_main_setup. apply wp_bind, wp_run. exists tt, (with_log (early boot_state false None) [text "[kernel] booting..."]). split; [done|].
  apply wp_bind. eapply wp_zoom; [exact Hh|]. eapply (wp_from (with_log (early boot_state true None) _)); [reflexivity|].
  do 2 apply wp_logged. apply wp_bind, wp_run. do 2 eexists. split; [by apply run_log_bootloader|].
  apply wp_bind, wp_run. do 2 eexists. split; [apply run_log_memmap|].
  apply wp_bind. eapply (wp_zoom _ _ _ _ tt); [reflexivity|].
  eapply (wp_from (with_log (early boot_state true loaded_segments) _)); [reflexivity|]. apply wp_logged.
  apply wp_bind. eapply wp_zoom; [exact Hi1|]. eapply (wp_from (with_log (early _ true loaded_segments) _)); [reflexivity|]. apply wp_logged.
  apply wp_bind. eapply wp_zoom; [exact Hi2|]. eapply (wp_from (with_log (early _ true loaded_segments) _)); [reflexivity|]. apply wp_logged.
  apply wp_bind, wp_run. do 2 eexists. split; [exact (run_memory_heap_init _ _ _ _ _ _ _ _ _ _ _ _ (proj1 mo_hhdm) HF Hheap)|].
  apply wp_logged_alloc. apply wp_bind. unfold process_init at 1. apply wp_bind, wp_get. flat.
  unfold SlabCacheInner_new. rewrite (mo_process _ _ _ _ _ _ _ _ _ _ _ _ _ MO). apply wp_bind. eapply wp_expect; [done|]. apply wp_modify.
  set (c1 := mkCpu (cr3 c0) (invalidated c0) ((IA32_PAT, PAT_VALUE) :: msr_writes c0)).
  eapply (wp_from (with_log (mkKernel c0 b t m irq_init None true None (Some process_cache) (mkCell false false None) sp false (port []) loaded_segments) _)); [reflexivity|].
  apply wp_logged. apply wp_bind. unfold vmm_init at 1. apply wp_bind, wp_get. flat. zoom (run_init_pat c0 b m). apply wp_modify. flat.
  eapply (wp_from (kernel_at irq_init None t _ ((c1, b), m))); [reflexivity|]. apply wp_log.
  assert (stage root0 T0 (set_map (byte_block lo) ({[(10, p)]} : gset block) ∪ X) p t None ((c1, b), m)) as S1.
  { destruct S0 as [[I Hr] ? ? ? ?]. split; [by split|done..]. }
  apply wp_bind. eapply wp_mono; [apply (wp_boot_lapic _ _ _ _ _ S1 W0); split; cbn [fst snd]; lia|].
  intros [] ? (s2 & T2 & A2 & -> & S2 & Hsm2 & Hsp2).
  apply wp_bind. eapply wp_mono; [by apply (wp_boot_fb T2 A2 p t _ s2)|]. intros [] ? (s3 & T3 & A3 & -> & S3 & Hsp3).
  eapply (wp_from (kernel_at boot_irq console_of t ((early_log ++ lapic_lines) ++ fb_lines) s3)); [|by apply (wp_main_tail T3 A3 p t s3)].
  f_equal. f_equal. f_equal. unfold early_log. by rewrite <- !app_assoc.
Qed.

(** ** On the kernel's own stack *)

Definition printed (text : list Z) (term : terminal) : terminal :=
  match console_of with Some w => t_print (cols w) (rows w) text term | None => term end.

Lemma printed_app s1 s2 term : printed (s1 ++ s2) term = printed s2 (printed s1 term).
Proof. unfold printed. destruct console_of; [|done]. unfold t_print. by rewrite foldl_app. Qed.

(** Printing changes the screen and nothing else. *)
Lemma running_print text regs held term c b t con m :
  running regs held term c b t con m ->
  exists con' m', _print text (con, m) = Ok (tt, (con', m')) /\ running regs held (printed text term) c b t con' m'.
Proof.
  intros R. pose proof (ru_alloc _ _ _ _ _ _ _ _ R) as [Hr Hb]. pose proof (ru_console _ _ _ _ _ _ _ _ R) as Hcon.
  unfold printed. assert (forall w0, console_of = Some w0 -> forall x, in_fb w0 x -> fb_byte d x) as Hin.
  { unfold console_of. intros w0. destruct (framebuffer d) as [fb|] eqn:E; [|done].
    destruct (Z.eqb_spec (bits_per_pixel fb) 32); [|done]. intros [= <-] x Hx. by exists fb. }
  destruct console_of as [w0|] eqn:Ecw; [|subst con; by exists None, m]. destruct Hcon as (w & -> & Hs & D).
  destruct (run_print text w m term D) as (w' & m' & Hrun & D' & Hs' & Hch). cbn [fst snd] in *. exists (Some w'), m'. split; [done|].
  assert (cols w = cols w0 /\ rows w = rows w0) as [Ec Er] by (unfold same_screen in Hs; by rewrite Hs). rewrite Ec, Er in D'.
  assert (forall x, in_fb w x -> fb_byte d x) as Hwin by (intros x Hx; apply (Hin w0 eq_refl); unfold same_screen in Hs; by rewrite Hs in Hx).
  assert (forall x, in_regions regs (page_of lo x) -> rd m' x = rd m x) as Hm.
  { intros x Hx. eapply changes_eq; [exact Hch|]. intros Hf. by apply (ru_fb _ _ _ _ _ _ _ _ R x (Hwin x Hf)). }
  eapply running_change; [exact R| |done|apply R| |].
  - destruct Hr as (s0 & H0 & Hst). exists s0. split; [done|]. eapply rtc_r; [exact Hst|]. exists BuddySpec.EWrite.
    apply (step_write (mkSys b m regs held)). cbn [sy_b sy_m sy_regions sy_held]. rewrite Hb. intros x [Hx _]. by apply Hm.
  - intros bl x (bl0 & -> & Hbl)%elem_of_map Hx%in_byte_block. apply Hm. destruct (reach_inv _ Hr) as [F SI]. by apply (si_held _ _ SI bl0).
  - rewrite Ecw. exists w'. split; [done|]. split; [|done]. unfold same_screen in *. by rewrite Hs', Hs.
Qed.

Lemma run_post_take (v : PostStackState) : post_take (mkCell true false (Some v)) = Ok (v, mkCell true true None).
Proof. done. Qed.

(** The lines that [kernel_main_continue] prints. *)
Definition boot_text : list Z :=
  (text "my-kernel booting..." ++ [10]) ++ (text "heap: ok  vmm: ok" ++ [10]) ++
  (text "interrupts: enabled" ++ [10]) ++ (text "kernel ready." ++ [10]).

(** What [kernel_main] leaves. *)
Record boot_done (ks : KernelStack) (held : gset block) (k : Kernel) : Prop := mkBootDone {
  bd_running : running regs2 held (printed boot_text t_blank) (k_cpu k) (k_buddy k) (k_heap k) (k_console k) (k_mem k);
  bd_stack : exists q, (4, q) ∈ held /\ guard_virt ks = page_addr lo q /\ top ks = guard_virt ks + 65536 /\ k_sp k = top ks - 8;
  bd_irq : k_irq k = boot_irq;
  bd_post : k_post k = mkCell true true None;
  bd_flags : k_harvested k = true /\ k_vmm k = Some hhdm /\ k_processes k = Some process_cache /\ k_IF k = true;
  bd_gdt : k_gdt k = loaded_segments;
  bd_serial : k_serial k = port (setup_log r edx d ks ++ continue_log d (boot_stack_of d sp))
}.

(** The kernel on its own stack. *)
Definition kernel_after (c : Cpu) (b : BuddyAllocator) (t : TlsfInner) (m : mem) (con : option FbWriter) (ksp : Z) (fl : bool)
    (ls : list (list Z)) : Kernel :=
  mkKernel c b t m boot_irq con true (Some hhdm) (Some process_cache) (mkCell true true None) ksp fl (port ls) loaded_segments.

Lemma wp_log_after {A} c b t m con ksp fl ls x (f : M Kernel A) Q :
  wp f (kernel_after c b t m con ksp fl (ls ++ [x])) Q -> wp (log x ;; f) (kernel_after c b t m con ksp fl ls) Q.
Proof. intros H. apply (wp_logged x (kernel_after c b t m con ksp fl [])). exact H. Qed.

Lemma wp_println_after {A} c b t m con ksp fl ls x con' m' (f : M Kernel A) Q :
  _print (x ++ [10]) (con, m) = Ok (tt, (con', m')) ->
  wp f (kernel_after c b t m' con' ksp fl ls) Q -> wp (println x ;; f) (kernel_after c b t m con ksp fl ls) Q.
Proof. intros Hp H. apply wp_bind. eapply wp_zoom; [exact Hp|exact H]. Qed.

(** The deferred region of the boot stack. *)
Lemma wp_boot_stack_region {A} held c b t m con ksp fl ls (f : M Kernel A) Q :
  running regs1 held t_blank c b t con m ->
  (forall b' m', running regs2 held t_blank c b' t con m' ->
     wp f (kernel_after c b' t m' con ksp fl (ls ++ match boot_stack_of d sp with
       | Some (v, n) => [text "[kernel] boot stack pages released: base=" ++ hex v ++ text " pages=" ++ dec n]
       | None => []
       end)) Q) ->
  wp (match boot_stack_of d sp with
      | Some (v, n) => on_buddy (add_region v n) ;;
          log (text "[kernel] boot stack pages released: base=" ++ hex v ++ text " pages=" ++ dec n)
      | None => ret tt
      end ;; f) (kernel_after c b t m con ksp fl ls) Q.
Proof.
  intros R0 HQ. destruct reclaim_registrable as [_ Hreg2].
  destruct (running_register _ _ _ _ _ _ _ _ _ R0 Hreg2) as (b1 & m1 & Hrun & R1).
  { intros x Hx Hc. destruct (fb_unmanaged x Hx) as [_ Hno]. apply Hno, covers_app. by right. }
  fold regs2 in R1. specialize (HQ b1 m1 R1).
  rewrite register_option in Hrun. destruct (boot_stack_of d sp) as [[v n]|].
  - apply wp_bind, wp_bind. eapply wp_zoom; [exact Hrun|]. eapply (wp_from (kernel_after c b1 t m1 con ksp fl ls)); [reflexivity|].
    apply wp_run. do 2 eexists. split; [apply (run_log _ (kernel_after c b1 t m1 con ksp fl []))|]. exact HQ.
  - injection Hrun as -> ->. apply wp_bind, wp_ret. by rewrite app_nil_r in HQ.
Qed.

Lemma wp_kernel_main_continue ks held k : main_done ks held k ->
  wp (switch_stack (top ks) kernel_main_continue) k (fun _ k' => boot_done ks held k').
Proof.
  intros [R0 (q & Hq & Hg & Htop) Hirq Hpost (Hh & Hv & Hpr & Hsp & Hfl) Hgdt Hser].
  destruct k as [c b t m irq con hv vmm pr post ksp fl ser gdt]. cbn [k_cpu k_buddy k_heap k_mem k_irq k_console k_harvested k_vmm k_processes k_post k_sp k_IF k_serial k_gdt] in *. subst.
  unfold switch_stack. apply wp_bind, wp_modify. flat. unfold kernel_main_continue. zoom (run_post_take (mkPost (rsdp_phys d) (boot_stack_of d sp))).
  cbn [boot_stack_region post_rsdp_phys]. eapply (wp_from (kernel_after c b t m con _ false _)); [reflexivity|].
  eapply wp_boot_stack_region; [exact R0|]. intros b1 m1 R1.
  destruct (running_print (text "my-kernel booting..." ++ [10]) _ _ _ _ _ _ _ _ R1) as (con2 & m2 & H2 & R2).
  destruct (running_print (text "heap: ok  vmm: ok" ++ [10]) _ _ _ _ _ _ _ _ R2) as (con3 & m3 & H3 & R3).
  destruct (running_print (text "interrupts: enabled" ++ [10]) _ _ _ _ _ _ _ _ R3) as (con4 & m4 & H4 & R4).
  destruct (running_print (text "kernel ready." ++ [10]) _ _ _ _ _ _ _ _ R4) as (con5 & m5 & H5 & R5).
  rewrite <- !printed_app in R5. fold boot_text in R5.
  eapply wp_println_after; [exact H2|]. eapply wp_println_after; [exact H3|]. apply wp_bind, wp_modify.
  eapply (wp_from (kernel_after c b1 t m3 con3 _ true _)); [reflexivity|]. eapply wp_println_after; [exact H4|].
  apply wp_bind. eapply (wp_mono _ _ (fun _ k => k = kernel_after c b1 t m4 con4 (top ks - 8) true _)).
  { instantiate (1 := _ ++ match rsdp_phys d with Some a => [text "[kernel] rsdp: phys=" ++ hex a] | None => [] end).
    destruct (rsdp_phys d) as [a|]; [|apply wp_ret; by rewrite app_nil_r].
    apply wp_run. do 2 eexists. split; [apply (run_log _ (kernel_after c b1 t m4 con4 _ true []))|done]. }
  intros [] ? ->. eapply wp_println_after; [exact H5|]. apply wp_run. do 2 eexists.
  split; [apply (run_log _ (kernel_after c b1 t m5 con5 _ true []))|].
  split; flat; try done; [by exists q|]. unfold continue_log. cbn. by rewrite <- !app_assoc.
Qed.

Lemma wp_kernel_main : wp (kernel_main r edx sp rsp) (at_entry c0 m0 sp) (fun _ k => exists ks held, boot_done ks held k).
Proof.
  apply wp_bind. eapply wp_mono; [apply wp_kernel_main_setup|]. intros ks k1 (held & Hd).
  eapply wp_mono; [by apply (wp_kernel_main_continue ks held)|]. intros [] k2 Hb. by exists ks, held.
Qed.

(** ** The memory the kernel manages in the end *)

Lemma usable_regs_pages p : in_regions urs p <->
  usable_page (regions d) (align_down (kernel_phys_start d) 4096) (page_up (kernel_phys_end d)) (lo + p * 4096 - hhdm).
Proof.
  destruct (usable_registered _ _ _ _ _ m0 (mo_map _ _ _ _ _ _ _ _ _ _ _ _ _ MO)) as (s & _ & _ & _ & _ & _ & Hp & _ & Hrs & _).
  rewrite <- Hp, Hrs. done.
Qed.

Lemma phys_aligned p : (lo + p * 4096 - hhdm) mod 4096 = 0.
Proof.
  pose proof (lo_aligned _ _ _ _ _ (mo_map _ _ _ _ _ _ _ _ _ _ _ _ _ MO)) as Hl. destruct mo_hhdm as [_ Hh].
  pose proof (Z.div_mod lo 4096 ltac:(lia)). pose proof (Z.div_mod hhdm 4096 ltac:(lia)).
  replace (lo + p * 4096 - hhdm) with ((lo / 4096 + p - hhdm / 4096) * 4096) by lia. by apply Z.mod_mul.
Qed.

Lemma more_regs_pages l n regs p : registrable lo n regs l ->
  in_regions (rev (List.map (in_pages lo) l) ++ regs) p <-> in_regions regs p \/ covers l (hhdm + (lo + p * 4096 - hhdm)).
Proof.
  intros [Hp _ _ _]. replace (hhdm + (lo + p * 4096 - hhdm)) with (lo + p * 4096) by lia. unfold covers.
  rewrite <- (in_regions_pages lo) by (eapply Forall_impl; [exact Hp|]; by intros y (? & ? & _)).
  rewrite <- (in_regions_rev (List.map _ _)). unfold in_regions. setoid_rewrite elem_of_app. naive_solver.
Qed.

Lemma regs1_pages p : in_regions regs1 p <->
  usable_page (regions d) (align_down (kernel_phys_start d) 4096) (page_up (kernel_phys_end d)) (lo + p * 4096 - hhdm) \/
  released_page (reclaimable_regions d) (stack_page d sp) (lo + p * 4096 - hhdm).
Proof.
  destruct reclaim_registrable as [H1 _]. unfold regs1. rewrite (more_regs_pages _ _ _ _ H1), usable_regs_pages.
  unfold released_list. by rewrite reclaim_parts_pages by apply phys_aligned.
Qed.

Lemma regs2_pages p : in_regions regs2 p <->
  usable_page (regions d) (align_down (kernel_phys_start d) 4096) (page_up (kernel_phys_end d)) (lo + p * 4096 - hhdm) \/
  reclaimable_page (reclaimable_regions d) (lo + p * 4096 - hhdm).
Proof.
  destruct reclaim_registrable as [_ H2]. unfold regs2. rewrite (more_regs_pages _ _ _ _ H2), regs1_pages. unfold boot_stack_of.
  rewrite stack_region_pages by (apply phys_aligned || (intros; by eapply (mo_one _ _ _ _ _ _ _ _ _ _ _ _ _ MO))).
  unfold released_page, reclaimable_page, holds. split.
  - intros [[?|(g & ? & ? & ? & _)]|(g & ? & ? & ? & _)]; eauto.
  - intros [?|(g & ? & ? & ?)]; [by do 2 left|].
    destruct (decide (page_base g <= stack_page d sp < page_end g)); [right|left; right]; eauto.
Qed.
End machine.

(** On a machine that meets [machine_ok], [kernel_main_setup] returns: the allocator
    is consistent and manages exactly the usable and the released pages; the
    heap's pool, the kernel's stack and all page tables are held blocks, the
    heap is consistent; CR3 is on tables that give the direct map and the kernel
    image and nothing else; the segments are loaded, the console is blank; the
    state for after the switch of the stack is stored, with the region of the
    boot stack. *)
Theorem kernel_main_correct {LT : LimineTypes} {AL : Align} {LAWS : AlignLaws AL} {B : Bitwise} {BL : BitwiseLaws B}
    {GC : GdtCrate} {IMG : Image} {PT : ProcessType} r edx sp rsp d lo wlo whi X c m root T :
  machine_ok r edx sp rsp d lo wlo whi X c m root T ->
  exists ks k held, kernel_main_setup r edx sp rsp (at_entry c m sp) = Ok (ks, k) /\
    main_done (r := r) (edx := edx) (sp := sp) (d := d) (lo := lo) ks held k /\
    forall p, in_regions (regs1 (sp := sp) (d := d) (lo := lo)) p <->
      usable_page (regions d) (align_down (kernel_phys_start d) 4096) (page_up (kernel_phys_end d)) (lo + p * 4096 - hhdm_offset d) \/
      released_page (reclaimable_regions d) (stack_page d sp) (lo + p * 4096 - hhdm_offset d).
Proof.
  intros MO. pose proof (wp_kernel_main_setup MO) as Hw. apply wp_run in Hw as (ks & k & Hrun & held & Hd).
  exists ks, k, held. split; [done|]. split; [done|]. intros p. apply (regs1_pages MO).
Qed.


(** ** A concrete machine *)

(** 80 MiB of usable memory at 1 GiB, two reclaimable regions above it (the
    boot stack is in the first), and a small framebuffer; the boot loader's
    tables are those of [PagingProps], in the second MiB. *)
Definition fb_base : Z := 0x68000000.
Definition r1 : Responses :=
  mkResponses (Some 0) (Some (4194304, 2147483648))
    (Some [mkEntry seed_base (80 * MiB) 0; mkEntry (seed_base + 80 * MiB) MiB 5; mkEntry (seed_base + 110 * MiB) 65536 2;
           mkEntry 4194304 4096 6; mkEntry fb_base 4096 7])
    (Some [mkRawFb fb_base 24 32 96 32 16 8 0]) (Some 983040) None 2147483648 2147487744.
Definition fb1 : FramebufferInfo := mkFbInfo fb_base fb_base 24 32 96 32 3072 16 8 0.
Definition map2 : list MemoryRegion := [
  mkRegion seed_base (80 * MiB) Usable;
  mkRegion (seed_base + 80 * MiB) MiB BootloaderReclaimable;
  mkRegion (seed_base + 110 * MiB) 65536 AcpiReclaimable;
  mkRegion 4194304 4096 ExecutableAndModules;
  mkRegion fb_base 4096 Limine.Framebuffer].
Definition d1 : LimineData :=
  mkLimine 0 4194304 4198400 2147483648 2147487744 (map2 ++ replicate 507 (mkRegion 0 0 Reserved)) 5 (Some fb1) (Some 983040) None.
#[local] Instance image1 : Image :=
  { DOUBLE_FAULT_STACK := 0x80100000; NMI_STACK := 0x80105000; MACHINE_CHECK_STACK := 0x8010a000 }.
#[local] Instance process1 : ProcessType := { size_of_Process := 1024; align_of_Process := 16 }.
Definition bsp : Z := seed_base + 80 * MiB + 65536.
Definition brsp : Z := bsp - 256.

Lemma r1_harvest : harvest r1 false = Ok (d1, true).
Proof. by vm_compute. Qed.

Lemma d1_regions : regions d1 = map2.
Proof. by vm_compute. Qed.

Lemma d1_map : boot_map_ok (regions d1) (kernel_phys_start d1) (kernel_phys_end d1) (hhdm_offset d1) seed_base.
Proof.
  rewrite d1_regions. split; [by vm_compute|by vm_compute| |by vm_compute|by vm_compute|].
  - repeat constructor; by vm_compute.
  - match goal with |- registrable _ _ _ ?l => let l' := eval vm_compute in l in change l with l' end.
    split; repeat constructor; by vm_compute.
Qed.

Lemma d1_usable : usable_list d1 = [(seed_base, 20480)] /\ usable_regs d1 seed_base = [(0, 20480)].
Proof. split; by vm_compute. Qed.

Lemma d1_reclaim : released_list d1 bsp = [(seed_base + 110 * MiB, 16)] /\ boot_stack_of d1 bsp = Some (seed_base + 80 * MiB, 256).
Proof. split; by vm_compute. Qed.

Lemma d1_reclaimable : reclaimable_regions d1 =
  [mkRegion (seed_base + 80 * MiB) MiB BootloaderReclaimable; mkRegion (seed_base + 110 * MiB) 65536 AcpiReclaimable].
Proof. by vm_compute. Qed.

(** The bounds of the two reclaimable regions. *)
Lemma d1_holds g x : g ∈ reclaimable_regions d1 -> holds g x <->
  g = mkRegion (seed_base + 80 * MiB) MiB BootloaderReclaimable /\ seed_base + 80 * MiB <= x < seed_base + 81 * MiB \/
  g = mkRegion (seed_base + 110 * MiB) 65536 AcpiReclaimable /\ seed_base + 110 * MiB <= x < seed_base + 110 * MiB + 65536.
Proof.
  assert (page_base (mkRegion (seed_base + 80 * MiB) MiB BootloaderReclaimable) = seed_base + 80 * MiB) as E1 by by vm_compute.
  assert (page_end (mkRegion (seed_base + 80 * MiB) MiB BootloaderReclaimable) = seed_base + 81 * MiB) as E2 by by vm_compute.
  assert (page_base (mkRegion (seed_base + 110 * MiB) 65536 AcpiReclaimable) = seed_base + 110 * MiB) as E3 by by vm_compute.
  assert (page_end (mkRegion (seed_base + 110 * MiB) 65536 AcpiReclaimable) = seed_base + 110 * MiB + 65536) as E4 by by vm_compute.
  rewrite d1_reclaimable. unfold holds. intros [->|[->|?%elem_of_nil]%elem_of_cons]%elem_of_cons; [rewrite E1, E2|rewrite E3, E4|done].
  - split; [by left|]. intros [[_ H]|[[=] _]]. done.
  - split; [by right|]. intros [[[=] _]|[_ H]]. done.
Qed.

Lemma d1_sp : hhdm_offset d1 <= bsp < W64 /\ hhdm_offset d1 <= brsp < W64 /\
  forall g, g ∈ reclaimable_regions d1 -> holds g (stack_page d1 bsp) <-> holds g (stack_page d1 brsp).
Proof.
  split; [by vm_compute|]. split; [by vm_compute|]. intros g Hg. rewrite !d1_holds by done.
  assert (stack_page d1 bsp = seed_base + 80 * MiB + 65536) as -> by by vm_compute.
  assert (stack_page d1 brsp = seed_base + 80 * MiB + 61440) as -> by by vm_compute. unfold MiB.
  split; (intros [[-> ?]|[-> ?]]; [left; split; [done|lia]|lia]).
Qed.

Lemma d1_one g g' x : g ∈ reclaimable_regions d1 -> g' ∈ reclaimable_regions d1 -> holds g x -> holds g' x -> g = g'.
Proof. intros Hg Hg'. rewrite !d1_holds by done. unfold MiB. intros [[-> ?]|[-> ?]] [[-> ?]|[-> ?]]; (done || lia). Qed.

Lemma d1_registrable : registrable seed_base (page_sum (usable_list d1)) (usable_regs d1 seed_base)
  (released_list d1 bsp ++ option_list (boot_stack_of d1 bsp)).
Proof.
  destruct d1_usable as [-> ->], d1_reclaim as [-> ->]. split; repeat constructor; by vm_compute.
Qed.

Lemma d1_mem : mem_size d1 = 1744834560.
Proof. by vm_compute. Qed.

Lemma d1_layout : layout_ok d1.
Proof.
  assert (page_count (mem_size d1) HUGE_2M = 833) as E1 by by vm_compute.
  assert (page_count (kernel_virt_end d1 - kernel_virt_start d1) PAGE_SIZE = 1) as E2 by by vm_compute.
  split; cbv zeta; rewrite ?E1, ?E2; [done|rewrite d1_mem; by vm_compute|by vm_compute|by vm_compute|].
  intros j Hj. replace j with 0 by lia. by vm_compute.
Qed.

(** The framebuffer's page, next to the tables' blocks. *)
Definition fb_block : Z * Z := (0, fb_base).

Lemma fb_block_in x : in_fb (fresh_console fb1) x -> in_block fb_block x.
Proof. unfold in_fb, in_block, fb_block, Pages.block_size, fresh_console. cbn. lia. Qed.

Lemma d1_foreign A : (forall bl, bl ∈ A -> 1048576 <= snd bl /\ snd bl + Pages.block_size (fst bl) <= seed_base) ->
  (forall b1 b2, b1 ∈ A -> b2 ∈ A -> b1 <> b2 -> block_disj b1 b2) ->
  foreign seed_base (usable_regs d1 seed_base) 1048576 2147483648 ({[fb_block]} ∪ A).
Proof.
  intros HA Hd. destruct d1_usable as [_ ->].
  assert (forall bl, bl ∈ ({[fb_block]} ∪ A : gset (Z * Z)) -> bl = fb_block \/ bl ∈ A) as Hin by set_solver.
  assert (forall bl, bl ∈ A -> block_disj fb_block bl) as Hfb.
  { intros bl Hbl x H1 H2. destruct (HA bl Hbl). unfold in_block, fb_block, Pages.block_size, fb_base, seed_base in *. cbn [fst snd] in *. lia. }
  split; [done|by vm_compute| | |].
  - intros bl [->|Hbl]%Hin; [by vm_compute|]. destruct (HA bl Hbl). unfold seed_base in *. lia.
  - intros b1 b2 [->|H1]%Hin [->|H2]%Hin Hne; [done|by apply Hfb| |by apply Hd]. intros x Hx1 Hx2. by apply (Hfb b1 H1 x).
  - intros bl x Hbl Hx (g & ->%list_elem_of_singleton & Hr). cbn [fst snd] in Hr. unfold page_of, Buddy.PAGE_SIZE in Hr.
    pose proof (Z.div_mod (x - seed_base) 4096 ltac:(lia)). pose proof (Z.mod_pos_bound (x - seed_base) 4096 ltac:(lia)).
    apply Hin in Hbl as [->|Hbl]; [|destruct (HA bl Hbl)]; unfold in_block, fb_block, Pages.block_size, fb_base, seed_base in *; cbn [fst snd] in *; lia.
Qed.

Lemma d1_window : hhdm_offset d1 <= 1048576 /\ 2147483648 <= hhdm_offset d1 + 2 ^ 52 /\ 2147483648 < W64.
Proof. by vm_compute. Qed.
Lemma d1_lapic : hhdm_offset d1 + LAPIC_PHYS + 4096 <= W64 /\
  1 <= big_off 0 (0 + LAPIC_PHYS) /\ 1 <= page_off 2147483648 (0 + LAPIC_PHYS) /\ 0 <= 0 + LAPIC_PHYS.
Proof. by vm_compute. Qed.
Lemma d1_fb_window : window_ok fb_base fb_base 3072.
Proof. split; by vm_compute. Qed.
Lemma d1_fb_off : 1 <= big_off 0 fb_base /\ 1 <= page_off 2147483648 fb_base /\ 0 <= fb_base.
Proof. by vm_compute. Qed.
Lemma d1_frames : 1043 + fb_tables d1 + kernel_tables d1 <= page_sum (usable_list d1) /\ 16 * (1029 + fb_tables d1) <= 20480.
Proof. by vm_compute. Qed.
Lemma d1_fb_apart x : in_fb (fresh_console fb1) x ->
  ~ covers ([(seed_base + 110 * MiB, 16)] ++ option_list (Some (seed_base + 80 * MiB, 256))) x.
Proof.
  intros Hx%fb_block_in (v & n & Hvn & Hr). unfold in_block, fb_block, Pages.block_size in Hx. cbn [fst snd] in Hx.
  unfold fb_base, seed_base, MiB in *. apply elem_of_cons in Hvn as [[= -> ->]|[[= -> ->]|?%elem_of_nil]%elem_of_cons]; [lia|lia|done].
Qed.
Lemma fb1_ok : info_ok fb1.
Proof. by constructor. Qed.
Lemma fb_block_end : ~ (snd fb_block + Pages.block_size (fst fb_block) <= seed_base).
Proof. by vm_compute; intros H. Qed.

#[local] Opaque pg1.

Lemma d1_machine : exists X root T, machine_ok r1 (2 ^ 9) bsp brsp d1 seed_base 1048576 2147483648 X (fst (fst pg1)) (snd pg1) root T.
Proof.
  destruct pg1_ok as (root & T & A & [[I1 I2 I3 I4 I5] Hr] & Hs). destruct pg1_window as [Hw1 Hw2].
  assert (forall bl, bl ∈ A -> 1048576 <= snd bl /\ snd bl + Pages.block_size (fst bl) <= seed_base) as HA.
  { intros [k q] Hbl. destruct (pa_window _ _ _ k q I2 Hbl) as [H1 H2]. cbn [fst snd]. split; [by eapply Z.le_trans|by eapply Z.le_trans]. }
  assert (forall v, 1 <= big_off 0 v -> 1 <= page_off 2147483648 v -> 0 <= v -> small 0 root (snd pg1) v) as Hsm by (intros; by apply Hs).
  exists ({[fb_block]} ∪ A), root, T. split.
  - exact r1_harvest.
  - done.
  - exact d1_map.
  - exact d1_sp.
  - exact d1_one.
  - exact d1_registrable.
  - split_and!; [exact I1|exact Hr|]. intros p t Ht. apply elem_of_union_r. by eapply I3.
  - apply d1_foreign; [exact HA|]. intros b1 b2. apply (pa_disj _ _ _ _ _ I2).
  - exact d1_window.
  - intros _. destruct d1_lapic as (H1 & H2 & H3 & H4). split; [exact H1|exact (Hsm _ H2 H3 H4)].
  - intros fb [= <-]. split.
    + exact d1_fb_window.
    + intros j Hj. change (page_count (byte_size fb1) PAGE_SIZE) with 1 in Hj. replace j with 0 by lia. rewrite Z.add_0_r.
      destruct d1_fb_off as (H1 & H2 & H3). exact (Hsm _ H1 H2 H3).
    + intros _. exact fb1_ok.
    + intros x _ Hx. split; [exists fb_block; apply fb_block_in in Hx; split; [set_solver|]; split; [|exact Hx]; split; [set_solver|]|].
      * intros p t Ht E. assert (fb_block ∈ A) as Hin by (rewrite E; exact (I3 _ _ Ht)). exact (fb_block_end (proj2 (HA _ Hin))).
      * destruct d1_reclaim as [-> ->]. by apply d1_fb_apart.
  - exact d1_layout.
  - exact (proj1 d1_frames).
  - destruct d1_usable as [-> _]. exists seed_base, 20480. split; [by left|exact (proj2 d1_frames)].
Qed.

Lemma d1_printed s term : printed (d := d1) s term = t_print 3 2 s term.
Proof. reflexivity. Qed.

Lemma kernel_main_correct_witness : exists ks k,
  kernel_main_setup r1 (2 ^ 9) bsp brsp (at_entry (fst (fst pg1)) (snd pg1) bsp) = Ok (ks, k) /\
  k_IF k = false /\ LAPIC (k_irq k) = Some 0xFEE00000.
Proof.
  destruct d1_machine as (X & root & T & MO).
  destruct (kernel_main_correct _ _ _ _ _ _ _ _ _ _ _ _ _ MO) as (ks & k & held & Hrun & [_ _ Hirq _ Hfl _ _] & _).
  exists ks, k. split; [exact Hrun|]. split; [apply Hfl|]. rewrite Hirq. by vm_compute.
Defined.

