(* ===== verification/BootRun.v ===== *)
(** * The kernel in operation

    After [kernel_main] the components share one state: the slab cache of the
    process table (src/src/process.rs) takes its pages from the buddy allocator,
    whose other blocks hold the heap's pool, the kernel's stack and the page
    tables, and the console draws on memory that nobody else may touch.  Here
    clients allocate from the heap and from the process table, write into what
    they hold and print; the theorems compose those of the components. *)

From Stdlib Require Import Sorted.
From stdpp Require Import relations strings.
From S2P Require Import Prelude Dll Pages Slab SlabSpec Serial Gdt Buddy BuddySpec Tlsf TlsfSpec Paging PageTree PagingSpec PagingProps.
From S2P Require Import Interrupts Timer Framebuffer FramebufferSpec Limine LimineSpec Boot BootSpec BootPaging BootLog BootMain.

(** ** The page allocator with its regions *)

(** The buddy allocator at base [a] with the regions [rs], in a memory that
    agrees with [m0] outside them. *)
Section regions.
Context (a : Z) (rs : list (Z * Z)) (m0 : mem).

Definition run_inv (b : BuddyAllocator) (m : mem) (A : gset block) : Prop :=
  base b = a /\ a mod 4096 = 0 /\ (forall x, ~ in_regions rs (page_of a x) -> rd m x = rd m0 x) /\
  exists held, sys_reach (mkSys b m rs held) /\ A = set_map (byte_block a) held.

Lemma reach_step s s' e : sys_reach s -> sys_step e s s' -> sys_reach s'.
Proof. intros (s0 & H0 & Hs) H. exists s0. split; [done|]. eapply rtc_r; [exact Hs|]. by exists e. Qed.

Lemma run_buddy_inv b m A : run_inv b m A -> buddy_inv b m A.
Proof.
  intros (Hb & Ha & _ & held & Hr & ->). destruct (reach_inv _ Hr) as [F I]. exists F, held. rewrite Hb. by split_and!; [apply I|..].
Qed.

(** Free pages are in the regions. *)
Lemma free_regions b m held F x : base b = a -> sys_inv (mkSys b m rs held) F -> in_free (base b) F x -> in_regions rs (page_of a x).
Proof. intros Hb I [Hx _]%(si_cover _ _ I). by rewrite Hb in Hx. Qed.

Lemma run_alloc b m A order :
  run_inv b m A -> alloc_count (stats b) + 1 < W64 -> 0 <= order < 17 ->
  wp (alloc_pages order) (b, m) (fun r s' =>
    match r with
    | None => s' = (b, m) /\ (order = 0 -> free_bytes (stats b) / PAGE_SIZE <= 0)
    | Some ptr =>
        run_inv (fst s') (snd s') ({[(order, ptr)]} ∪ A) /\
        0 < ptr /\ ptr + Pages.block_size order <= W64 /\ ptr mod 4096 = 0 /\
        (forall bl, bl ∈ A -> block_disj (order, ptr) bl) /\ pages_kept A m (snd s') /\
        (dealloc_count (stats (fst s')) = dealloc_count (stats b) /\ alloc_count (stats (fst s')) = alloc_count (stats b) + 1) /\
        base (fst s') = base b /\
        free_bytes (stats (fst s')) / PAGE_SIZE = free_bytes (stats b) / PAGE_SIZE - 2 ^ order
    end).
Proof.
  intros HI Hc Ho. pose proof (run_buddy_inv _ _ _ HI) as Hbi. destruct HI as (Hb & Ha & Hm & held & Hr & ->).
  destruct (reach_inv _ Hr) as [F I]. pose proof (si_owned _ _ I) as O. cbn [sy_b sy_m sy_held] in O.
  pose proof (wp_and _ _ _ _ (buddy_alloc_spec b m _ order Hbi Hc Ho) (wp_alloc_pages b m F held order O Ho Hc)) as Hw.
  apply wp_run in Hw as (r & [b' m'] & Hrun & H1 & H2). apply wp_run. exists r, (b', m'). split; [done|].
  destruct r as [ptr|]; cbn [fst snd] in *; [|exact H1].
  destruct H1 as (_ & Hp0 & Hend & Hpal & Hdisj & Hkept & Hcnt & Hb' & Hfr). destruct H2 as (p & F' & _ & Hall & _).
  destruct (step_alloc_inv _ F order ptr b' m' I Ho Hc Hrun) as (Eptr & _). cbn [sy_b snd] in Eptr. rewrite Hb in Eptr.
  split_and!; try done; [|apply Hcnt..]. split; [by rewrite Hb'|]. split; [done|]. split.
  - intros x Hx. rewrite <- Hm by done. apply (al_writes _ _ _ _ _ _ _ _ Hall). intros Hf. by apply Hx, (free_regions b m held F).
  - exists ({[(order, page_of a ptr)]} ∪ held). split.
    + eapply reach_step; [exact Hr|]. rewrite <- Hb. by apply (step_alloc (mkSys b m rs held)).
    + rewrite set_map_union_L, set_map_singleton_L. unfold byte_block. cbn [fst snd]. by rewrite <- Eptr.
Qed.

Lemma run_dealloc b m A order ptr :
  run_inv b m A -> dealloc_count (stats b) + 1 < W64 -> (order, ptr) ∈ A ->
  wp (dealloc_pages ptr order) (b, m) (fun _ s' =>
    run_inv (fst s') (snd s') (A ∖ {[(order, ptr)]}) /\ pages_kept (A ∖ {[(order, ptr)]}) m (snd s')).
Proof.
  intros HI Hc Hin. pose proof (run_buddy_inv _ _ _ HI) as Hbi. destruct HI as (Hb & Ha & Hm & held & Hr & ->).
  destruct (reach_inv _ Hr) as [F I]. pose proof (si_owned _ _ I) as O. cbn [sy_b sy_m sy_held] in O.
  pose proof Hin as ([k p] & [= -> Ep] & Hp)%elem_of_map. subst ptr.
  assert (wp (dealloc_pages (page_addr a p) k) (b, m) (fun _ s' => exists F', deallocated b m F held (k, p) (fst s') (snd s') F')) as Hw2.
  { rewrite <- Hb. by apply wp_dealloc_pages. }
  apply wp_run in Hw2 as ([] & [b' m'] & Hrun & F' & Hde). pose proof (buddy_dealloc_spec b m _ k _ Hbi Hc Hin) as Hw.
  unfold wp in *. rewrite Hrun in *. cbn [fst snd] in *. destruct Hw as [_ Hk]. split; [|exact Hk].
  destruct Hde as [O' Hcov Hb' _ Hwr _]. cbn [fst snd] in *. split; [by rewrite Hb'|]. split; [done|]. split.
  - intros x Hx. rewrite <- Hm by done. apply Hwr. intros Hf. apply Hx. destruct Hf as [Hf|Hf].
    + by apply (free_regions b m held F).
    + rewrite Hb in Hf. by apply (si_held _ _ I (k, p)).
  - exists (held ∖ {[(k, p)]}). split.
    + eapply reach_step; [exact Hr|]. apply (step_dealloc (mkSys b m rs held)); [done|done|]. cbn [sy_b]. by rewrite Hb.
    + apply set_eq. intros x. rewrite elem_of_difference, !elem_of_map, elem_of_singleton.
      setoid_rewrite elem_of_difference. setoid_rewrite elem_of_singleton. split.
      * intros [(y & -> & Hy) Hne]. exists y. split_and!; [done..|]. by intros ->.
      * intros (y & -> & Hy & Hne). split; [eauto|]. by intros E%(inj (byte_block a) y (k, p)).
Qed.

#[program] Definition run_frames : FrameSource BuddyAllocator := {|
  pa_alloc := alloc_pages;
  pa_inv := run_inv;
  pa_can_alloc n b := alloc_count (stats b) + Z.of_nat n < W64;
  pa_lo b := base b;
  pa_hi b := base b + CAPACITY * PAGE_SIZE;
  pa_frames b := free_bytes (stats b) / PAGE_SIZE
|}.
Next Obligation. intros n b H. cbv beta in *. lia. Qed.
Next Obligation. intros b m A order ptr HI. by apply (pa_window (FrameSource := buddy_frames) b m), run_buddy_inv. Qed.
Next Obligation. intros b m A b1 b2 HI. by apply (pa_disj (FrameSource := buddy_frames) b m), run_buddy_inv. Qed.
Next Obligation.
  intros b m A order n HI Hr Ho. cbv beta in Hr. eapply wp_mono; [apply run_alloc; [done|lia|done]|].
  intros [ptr|] s' Hs; [|done]. destruct Hs as (? & ? & ? & ? & ? & ? & [_ ->] & -> & ->). split_and!; try done; lia.
Qed.
Next Obligation.
  intros b m m' A (Hb & Ha & Hm & held & Hr & ->) Hch. destruct (reach_inv _ Hr) as [F I].
  assert (forall x, rd m' x <> rd m x -> exists bl, bl ∈ held /\ bpage bl (page_of a x)) as Hin.
  { intros x (bl & (bl0 & -> & Hbl)%elem_of_map & Hx%in_byte_block)%Hch. by exists bl0. }
  split; [done|]. split; [done|]. split.
  - intros x Hx. rewrite <- Hm by done. destruct (decide (rd m' x = rd m x)) as [|Hne]; [done|].
    destruct (Hin x Hne) as (bl & Hbl & Hp). destruct Hx. by apply (si_held _ _ I bl).
  - exists held. split; [|done]. eapply reach_step; [exact Hr|]. apply (step_write (mkSys b m rs held)). cbn [sy_b sy_m sy_regions sy_held].
    rewrite Hb. intros x [_ Hno]. destruct (decide (rd m' x = rd m x)) as [|Hne]; [done|].
    destruct (Hin x Hne) as (bl & Hbl & Hp). by destruct (Hno bl).
Qed.

#[program] Definition buddy_run : PageAllocator BuddyAllocator := {|
  pa_source := run_frames;
  pa_dealloc := dealloc_pages;
  pa_can_free b := dealloc_count (stats b) + 1 < W64
|}.
Next Obligation.
  intros b m A order n HI Hr Ho. simpl in *. eapply wp_mono; [apply run_alloc; [done|lia|done]|].
  intros [ptr|] s' Hs; [|by destruct Hs as [-> _]]. by destruct Hs as (_ & _ & _ & _ & _ & _ & [-> _] & _).
Qed.
Next Obligation. intros b m A order ptr HI Hr Hin. by apply run_dealloc. Qed.
End regions.

(** A slab cache depends on its allocator's invariant and its slabs' bytes. *)
Lemma slab_inv_frame {C} (PA PA' : PageAllocator C) size_T align_T order c pc m pc' m' S P A :
  Slab.layout_ok size_T align_T order ->
  slab_inv (PA := PA) size_T align_T order c pc m S P A -> pa_inv (FrameSource := pa_source (PageAllocator := PA')) pc' m' A ->
  (forall s l x, S !! s = Some l -> in_block (order, s) x -> rd m' x = rd m x) ->
  slab_inv (PA := PA') size_T align_T order c pc' m' S P A.
Proof.
  intros LO [I1 I2 I3 I4 I5 I6 I7 I8 I9 I10 I11] I3' Hm. pose proof (slab_size_facts _ _ _ LO) as (Hb & _).
  assert (forall s l x, S !! s = Some l -> s <= x < s + slab_size order -> rd m' x = rd m x) as Hm'.
  { intros s l x Hs Hx. by apply (Hm s l). }
  split; try done.
  - intros s l Hs. eapply slab_ok_ext; [exact LO|by apply I5|]. intros x Hx _ _. by apply (Hm' s l).
  - eapply dlist_ext; [|exact I6]. intros x (l & Hx & _)%I8. unfold SH_PREV, SH_NEXT.
    split; apply (Hm' x l); done || lia.
Qed.

Lemma held_inj (a : Z) (X Y : gset block) : set_map (byte_block a) X = (set_map (byte_block a) Y : gset (Z * Z)) -> X = Y.
Proof.
  intros E. apply set_eq. intros x. split; intros Hx.
  - assert (byte_block a x ∈ (set_map (byte_block a) Y : gset (Z * Z))) as (y & Exy%(inj _) & Hy)%elem_of_map by (rewrite <- E; apply elem_of_map; eauto).
    by rewrite Exy.
  - assert (byte_block a x ∈ (set_map (byte_block a) X : gset (Z * Z))) as (y & Exy%(inj _) & Hy)%elem_of_map by (rewrite E; apply elem_of_map; eauto).
    by rewrite Exy.
Qed.

(** ** Kernel and clients *)

Section runs.
Context {LT : LimineTypes} {AL : Align} {LAWS : AlignLaws AL} {B : Bitwise} {BL : BitwiseLaws B}
  {GC : GdtCrate} {IMG : Image} {PT : ProcessType} (PL : Slab.layout_ok size_of_Process align_of_Process 0)
  {d : LimineData} {lo : Z} {regs : list (Z * Z)}.

Notation hhdm := (hhdm_offset d).
Abbreviation slot := (Slab.slot size_of_Process align_of_Process).
Abbreviation slive := (Slab.live size_of_Process align_of_Process 0).

(** The kernel; the heap pointers its clients hold, with their sizes; the
    processes they hold; what the screen should show. *)
Record world : Type := mkWorld {
  w_k : Kernel;
  w_heap : gmap Z Z;
  w_procs : gset Z;
  w_term : terminal
}.

(** What the components know: the held blocks, the first page of the heap's
    pool, its headers and free lists, the slabs and the partial ones. *)
Record view : Type := mkView {
  v_held : gset block;
  v_pool : Z;
  v_hdrs : gmap Z hdr;
  v_lists : class -> list Z;
  v_slabs : gmap Z (list Z);
  v_partial : list Z
}.

Definition pool_lo (v : view) : Z := page_addr lo (v_pool v).
Definition pool_hi (v : view) : Z := pool_lo v + (4194304 - HEADER).
Definition blocks (v : view) : gset (Z * Z) := set_map (byte_block lo) (v_held v).

(** A held page that is a table or anything else but a slab. *)
Definition table_page (v : view) (y : Z) : Prop := (0, y) ∈ blocks v /\ v_slabs v !! y = None.

Definition heap_objects (v : view) (objs : gmap Z Z) : Prop :=
  forall p n, objs !! p = Some n -> exists a h, p = payload a /\ v_hdrs v !! a = Some h /\
    h_free h = false /\ a <> pool_hi v /\ n <= h_size h.

Definition tables_ok (c : Cpu) (m : mem) (v : view) : Prop := exists root T,
  active_root c = root /\ tree hhdm root m T /\ (forall q u, T !! q = Some u -> table_page v (u + hhdm)) /\
  installed hhdm root m (kernel_virt_start d) (kernel_virt_end d) (kernel_phys_start d) (mem_size d).

Definition console_ok (con : option FbWriter) (m : mem) (term : terminal) : Prop :=
  match console_of (d := d) with
  | Some w0 => exists w, con = Some w /\ same_screen w0 w /\ displays w m term
  | None => con = None
  end.

Record kernel_inv (w : world) (v : view) : Prop := mkKernelInv {
  ki_cache : exists c, k_processes (w_k w) = Some c /\
    slab_inv (PA := buddy_run lo regs (k_mem (w_k w))) size_of_Process align_of_Process 0 c (k_buddy (w_k w)) (k_mem (w_k w)) (v_slabs v) (v_partial v) (blocks v);
  ki_pool : (10, pool_lo v) ∈ blocks v;
  ki_heap : tlsf (k_heap (w_k w)) (k_mem (w_k w)) (pool_lo v) (pool_hi v) (v_hdrs v) (v_lists v);
  ki_objs : heap_objects v (w_heap w);
  ki_procs : forall p, p ∈ w_procs w <-> exists t j, slive (v_slabs v) t j /\ p = slot t j;
  ki_tables : tables_ok (k_cpu (w_k w)) (k_mem (w_k w)) v;
  ki_stack : exists g, (4, g) ∈ blocks v /\ k_sp (w_k w) = g + 65536 - 8;
  ki_fb : forall x, fb_byte d x -> ~ in_regions regs (page_of lo x);
  ki_console : console_ok (k_console (w_k w)) (k_mem (w_k w)) (w_term w);
  ki_IF : k_IF (w_k w) = true;
  ki_serial : idle (k_serial (w_k w))
}.

(** ** Frames *)

Lemma ki_run w v : kernel_inv w v -> run_inv lo regs (k_mem (w_k w)) (k_buddy (w_k w)) (k_mem (w_k w)) (blocks v).
Proof. intros I. destruct (ki_cache _ _ I) as (c & _ & Ic). exact (si_pages _ _ _ _ _ _ _ _ _ Ic). Qed.

Lemma blocks_disj b m m0 A b1 b2 : run_inv lo regs m0 b m A -> b1 ∈ A -> b2 ∈ A -> b1 <> b2 -> block_disj b1 b2.
Proof. intros R%run_buddy_inv. by apply (pa_disj (FrameSource := buddy_frames) b m). Qed.

Lemma block_regions b m m0 A bl x : run_inv lo regs m0 b m A -> bl ∈ A -> in_block bl x -> in_regions regs (page_of lo x).
Proof.
  intros (_ & _ & _ & held & Hr & ->) (bl0 & -> & Hbl)%elem_of_map Hx%in_byte_block. destruct (reach_inv _ Hr) as [F I].
  by apply (si_held _ _ I bl0).
Qed.

Lemma tables_frame c m m' v v' : tables_ok c m v -> (forall y, table_page v y -> table_page v' y) ->
  (forall y x, table_page v y -> in_block (0, y) x -> rd m' x = rd m x) -> tables_ok c m' v'.
Proof.
  intros (root & T & Hroot & IT & HT & W) Hp Hm. destruct (tree_kept hhdm root m m' T IT) as [IT' W'].
  { intros q u i Hu Hi. apply (Hm (u + hhdm)); [by apply (HT q)|by apply table_cell]. }
  exists root, T. split_and!; [done|done|by eauto|]. intros x Hx. by rewrite W', W.
Qed.

Lemma fb_in_console w0 x : console_of (d := d) = Some w0 -> in_fb w0 x -> fb_byte d x.
Proof.
  unfold console_of. destruct (framebuffer d) as [fb|] eqn:E; [|done]. destruct (Z.eqb_spec (bits_per_pixel fb) 32); [|done].
  intros [= <-] Hx. by exists fb.
Qed.

Lemma console_ok_frame con m m' term : console_ok con m term -> (forall x, fb_byte d x -> rd m' x = rd m x) -> console_ok con m' term.
Proof.
  unfold console_ok. destruct console_of as [w0|] eqn:E; [|done]. intros (w & -> & Hs & D) Hm. exists w. split; [done|]. split; [done|].
  eapply displays_frame; [exact D|]. intros x Hx. apply Hm, (fb_in_console w0); [done|]. unfold same_screen in Hs. by rewrite Hs in Hx.
Qed.
Lemma run_inv_self m0 b m A : run_inv lo regs m0 b m A -> run_inv lo regs m b m A.
Proof. by intros (? & ? & _ & ?). Qed.

Lemma run_inv_mem m0 b m m' A : run_inv lo regs m0 b m A -> changes (fun x => exists bl, bl ∈ A /\ in_block bl x) m m' ->
  run_inv lo regs m' b m' A.
Proof.
  intros R Hc. pose proof (pa_changes (PA := run_frames lo regs m0) b m m' A R Hc) as R'. exact (run_inv_self _ _ _ _ R').
Qed.

(** ** Operations keep the invariant *)

Definition with_heap (t : TlsfInner) (m : mem) (k : Kernel) : Kernel :=
  mkKernel (k_cpu k) (k_buddy k) t m (k_irq k) (k_console k) (k_harvested k) (k_vmm k) (k_processes k) (k_post k) (k_sp k) (k_IF k)
    (k_serial k) (k_gdt k).
Definition with_cache (c : SlabCacheInner) (b : BuddyAllocator) (m : mem) (k : Kernel) : Kernel :=
  mkKernel (k_cpu k) b (k_heap k) m (k_irq k) (k_console k) (k_harvested k) (k_vmm k) (Some c) (k_post k) (k_sp k) (k_IF k)
    (k_serial k) (k_gdt k).
Definition with_screen (con : option FbWriter) (m : mem) (k : Kernel) : Kernel :=
  mkKernel (k_cpu k) (k_buddy k) (k_heap k) m (k_irq k) con (k_harvested k) (k_vmm k) (k_processes k) (k_post k) (k_sp k) (k_IF k)
    (k_serial k) (k_gdt k).

(** Changes in the heap's pool. *)
Lemma inv_pool w v t' m' H' G' objs :
  kernel_inv w v -> changes (in_block (10, pool_lo v)) (k_mem (w_k w)) m' -> tlsf t' m' (pool_lo v) (pool_hi v) H' G' ->
  let v' := mkView (v_held v) (v_pool v) H' G' (v_slabs v) (v_partial v) in
  heap_objects v' objs -> kernel_inv (mkWorld (with_heap t' m' (w_k w)) objs (w_procs w) (w_term w)) v'.
Proof.
  intros I Hc HT v' Hobjs. pose proof (ki_run _ _ I) as R. destruct I as [(c & Hk & Ic) I2 I3 I4 I5 I6 I7 I8 I9 I10 I11].
  assert (forall bl x, bl ∈ blocks v -> bl <> (10, pool_lo v) -> in_block bl x -> rd m' x = rd (k_mem (w_k w)) x) as Hm.
  { intros bl x Hbl Hne Hx. eapply changes_eq; [exact Hc|]. intros Hin. by apply (blocks_disj _ _ _ _ bl (10, pool_lo v) R Hbl I2 Hne x). }
  split; try done.
  - exists c. split; [done|]. eapply (slab_inv_frame (buddy_run lo regs (k_mem (w_k w)))); [exact PL|exact Ic| |].
    + apply (run_inv_mem _ _ _ _ _ R). eapply changes_weaken; [|exact Hc]. intros x Hx. by exists (10, pool_lo v).
    + intros s l x Hs Hx. apply (Hm (0, s)); [by apply (Slab.si_held _ _ _ _ _ _ _ _ _ Ic s l)|by intros [=]|done].
  - eapply tables_frame; [exact I6|done|]. intros y x [Hy _] Hx. apply (Hm (0, y)); [done|by intros [=]|done].
  - eapply console_ok_frame; [exact I9|]. intros x Hx. eapply changes_eq; [exact Hc|]. intros Hin.
    apply (I8 x Hx). by eapply block_regions.
Qed.

(** Blocks that are not slabs. *)
Definition other (S : gmap Z (list Z)) (bl : Z * Z) : Prop := fst bl = 0 -> S !! snd bl = None.

(** Changes in the process table's slabs, and to the allocator. *)
Lemma inv_slab w v c' b' m' S' P' A' procs :
  kernel_inv w v ->
  slab_inv (PA := buddy_run lo regs (k_mem (w_k w))) size_of_Process align_of_Process 0 c' b' m' S' P' A' ->
  (forall bl, bl ∈ blocks v -> other (v_slabs v) bl -> bl ∈ A' /\ other S' bl /\ forall x, in_block bl x -> rd m' x = rd (k_mem (w_k w)) x) ->
  (forall p, p ∈ procs <-> exists t j, slive S' t j /\ p = slot t j) ->
  exists held', kernel_inv (mkWorld (with_cache c' b' m' (w_k w)) (w_heap w) procs (w_term w))
    (mkView held' (v_pool v) (v_hdrs v) (v_lists v) S' P').
Proof.
  intros I Ic' Hkeep Hprocs. destruct I as [(c & Hk & Ic) I2 I3 I4 I5 I6 (g & Hg & Hsp) I8 I9 I10 I11].
  pose proof (si_pages _ _ _ _ _ _ _ _ _ Ic') as (Hb & Ha & Hout & held' & Hr & EA). subst A'. exists held'.
  assert (forall y, table_page v y -> (0, y) ∈ blocks v /\ other (v_slabs v) (0, y)) as Htab by (intros y [? Hs]; split; [done|by intros _]).
  split; cbn [w_k w_heap w_procs w_term with_cache k_processes k_buddy k_mem k_heap k_cpu k_sp k_IF k_console k_serial]; try done.
  - exists c'. split; [done|]. eapply (slab_inv_frame (buddy_run lo regs (k_mem (w_k w)))); [exact PL|exact Ic'|exact (run_inv_self _ _ _ _ (si_pages _ _ _ _ _ _ _ _ _ Ic'))|done].
  - by apply (Hkeep (10, pool_lo v)).
  - eapply tlsf_frame; [exact I3|]. intros x Hx. apply (Hkeep (10, pool_lo v)); [done|by intros [=]|].
    unfold in_block, Pages.block_size. cbn [fst snd]. change (2 ^ 10 * 4096) with 4194304. unfold pool_hi, pool_lo in *. cbn [v_pool] in *. lia.
  - eapply tables_frame; [exact I6| |].
    + intros y Hy. destruct (Htab y Hy) as [H1 H2]. destruct (Hkeep _ H1 H2) as (? & Ho & _). split; [done|]. by apply Ho.
    + intros y x Hy. destruct (Htab y Hy) as [H1 H2]. by apply Hkeep.
  - exists g. split; [|done]. by apply (Hkeep (4, g)).
  - eapply console_ok_frame; [exact I9|]. intros x Hx. apply Hout. by apply I8.
Qed.

(** Printing. *)
Lemma inv_print w v t : kernel_inv w v ->
  exists con' m', _print t (k_console (w_k w), k_mem (w_k w)) = Ok (tt, (con', m')) /\
    kernel_inv (mkWorld (with_screen con' m' (w_k w)) (w_heap w) (w_procs w) (printed (d := d) t (w_term w))) v.
Proof.
  intros I. pose proof (ki_run _ _ I) as R. destruct I as [(c & Hk & Ic) I2 I3 I4 I5 I6 I7 I8 I9 I10 I11].
  assert (exists con' m', _print t (k_console (w_k w), k_mem (w_k w)) = Ok (tt, (con', m')) /\
    console_ok con' m' (printed (d := d) t (w_term w)) /\ changes (fb_byte d) (k_mem (w_k w)) m') as (con' & m' & Hrun & Hcon & Hc).
  { unfold console_ok, printed in *. destruct console_of as [w0|] eqn:E.
    - destruct I9 as (wr & -> & Hs & D). destruct (run_print t wr (k_mem (w_k w)) _ D) as (wr' & m' & Hrun & D' & Hs' & Hch). cbn [fst snd] in *.
      assert (cols wr = cols w0 /\ rows wr = rows w0) as [Ec Er] by (unfold same_screen in Hs; by rewrite Hs). rewrite Ec, Er in D'.
      exists (Some wr'), m'. split; [done|]. split.
      + exists wr'. split; [done|]. split; [|done]. unfold same_screen in *. by rewrite Hs', Hs.
      + eapply changes_weaken; [|exact Hch]. intros x Hx. apply (fb_in_console w0 x E). unfold same_screen in Hs. by rewrite Hs in Hx.
    - exists None, (k_mem (w_k w)). rewrite I9. split; [done|]. split; [done|apply changes_refl]. }
  exists con', m'. split; [done|].
  assert (forall bl x, bl ∈ blocks v -> in_block bl x -> rd m' x = rd (k_mem (w_k w)) x) as Hm.
  { intros bl x Hbl Hx. eapply changes_eq; [exact Hc|]. intros Hf. apply (I8 x Hf). by eapply block_regions. }
  split; try done.
  - exists c. split; [done|]. eapply (slab_inv_frame (buddy_run lo regs (k_mem (w_k w)))); [exact PL|exact Ic| |].
    + destruct R as (Hb & Ha & _ & held & Hr & EA). split; [done|]. split; [done|]. split; [done|]. exists held. split; [|done].
      eapply reach_step; [exact Hr|]. apply (step_write (mkSys (k_buddy (w_k w)) (k_mem (w_k w)) regs held)). cbn [sy_b sy_m sy_regions sy_held].
      intros x [Hx _]. rewrite Hb in Hx. eapply changes_eq; [exact Hc|]. intros Hf. by apply (I8 x Hf).
    + intros s l x Hs. apply Hm. by apply (Slab.si_held _ _ _ _ _ _ _ _ _ Ic s l).
  - eapply tlsf_frame; [exact I3|]. intros x Hx. apply (Hm (10, pool_lo v)); [done|].
    unfold in_block, Pages.block_size. cbn [fst snd]. change (2 ^ 10 * 4096) with 4194304. unfold pool_hi in *. lia.
  - eapply tables_frame; [exact I6|done|]. intros y x [Hy _]. by apply Hm.
Qed.
(** *** The heap *)

Lemma run_on_heap {A} (f : M (TlsfInner * mem) A) k a t m :
  f (k_heap k, k_mem k) = Ok (a, (t, m)) -> on_heap (heap_call f) k = Ok (a, with_heap t m k).
Proof. intros Hf. unfold on_heap, zoom, heap_call. cbn [fst snd]. by rewrite Hf. Qed.

Lemma pool_changes v G H m m' t : tlsf t m (pool_lo v) (pool_hi v) H G \/ tlsf t m' (pool_lo v) (pool_hi v) H G ->
  writes_only (hdr_cell H) m m' -> changes (in_block (10, pool_lo v)) m m'.
Proof.
  intros HT Hw x Hx. assert (heap 0 (pool_lo v) (pool_hi v) H G) as Hp by (by destruct HT as [[_ ?]|[_ ?]]).
  destruct (decide (in_block (10, pool_lo v) x)) as [|Hno]; [done|]. destruct Hx. apply Hw. intros (b & h & Hb & Hr). apply Hno.
  destruct (hp_range _ _ _ _ _ Hp _ _ Hb). unfold in_block, Pages.block_size, pool_hi in *. cbn [fst snd].
  change (2 ^ 10 * 4096) with 4194304. lia.
Qed.

Lemma ki_heap_alloc w v size : kernel_inv w v -> 0 <= size -> round_up (adjusted size) < 2 ^ 30 ->
  exists r k', on_heap (heap_call (tlsf_alloc size)) (w_k w) = Ok (r, k') /\
    match r with
    | None => k' = w_k w /\ forall a h, v_hdrs v !! a = Some h -> h_free h = true ->
        ~ class_le (cls (round_up (adjusted size))) (cls (h_size h))
    | Some p => w_heap w !! p = None /\ exists v' a, kernel_inv (mkWorld k' (<[p := size]> (w_heap w)) (w_procs w) (w_term w)) v' /\
        p = payload a /\ v_pool v' = v_pool v /\ allocated (pool_lo v) (v_hdrs v) a (adjusted size) (v_hdrs v')
    end.
Proof.
  intros I Hs Hru. pose proof (wp_tlsf_alloc _ _ _ _ _ _ size (ki_heap _ _ I) Hs Hru) as Hw.
  apply wp_run in Hw as (r & [t' m'] & Hrun & Hpost). exists r, (with_heap t' m' (w_k w)). split; [by apply run_on_heap|].
  destruct r as [p|]; [|destruct Hpost as [[= -> ->] Hno]; split; [by destruct (w_k w)|exact Hno]].
  destruct Hpost as (a & H' & G' & -> & HT & Hal & Hwr & _). cbn [fst snd] in *. pose proof Hal as Hal'.
  destruct Hal as [(h & h' & Ha & Hf & Ha' & Hf' & Hsz) Hkeep _ _ _]. pose proof (proj1 (proj2 (adjusted_facts size))) as Hadj.
  assert (forall q n, w_heap w !! q = Some n -> q <> payload a) as Hne.
  { intros q n Hq ->. destruct (ki_objs _ _ I _ _ Hq) as (b & hb & Eb & Hb & Hfb & _). assert (b = a) as -> by (unfold payload in Eb; lia). congruence. }
  split; [destruct (w_heap w !! payload a) as [n|] eqn:E; [by destruct (Hne _ _ E)|done]|].
  exists (mkView (v_held v) (v_pool v) H' G' (v_slabs v) (v_partial v)), a. split; [|done].
  eapply inv_pool; [exact I|by eapply pool_changes; [right; exact HT|]|exact HT|].
  assert (a <> pool_hi v) as Hah.
  { intros ->. destruct (hp_hi _ _ _ _ _ (proj2 (ki_heap _ _ I))) as (h0 & H0 & _ & Hf0). congruence. }
  intros q n [[<- <-]|[Hq0 Hq]]%lookup_insert_Some.
  - exists a, h'. cbn [v_hdrs]. split_and!; try done. lia.
  - destruct (ki_objs _ _ I _ _ Hq) as (b & hb & Eb & Hb & Hfb & Hbh & Hn).
    assert (b <> a) as Hba by (intros ->; by apply Hq0). destruct (Hkeep b hb Hb Hba) as (hb' & Hb' & Es & Ef).
    exists b, hb'. cbn [v_hdrs]. split_and!; [done|done|congruence|done|lia].
Qed.

(** The header of the object says that the block in front of it is in use, or
    else its back link is right, whatever blocks the pool is made of. *)
Definition link_ok (w : world) (p : Z) : Prop :=
  prev_free_of_word (rd (k_mem (w_k w)) (p - HEADER)) = true ->
  forall plo phi H G, tlsf (k_heap (w_k w)) (k_mem (w_k w)) plo phi H G -> prev_ok plo H (p - HEADER).

Lemma link_ok_header w v a h : kernel_inv w v -> v_hdrs v !! a = Some h -> link_ok w (payload a) ->
  h_pf h = true -> prev_ok (pool_lo v) (v_hdrs v) a.
Proof.
  intros I Ha Hl Hpf. pose proof (proj1 (ki_heap _ _ I)) as R. unfold link_ok, payload in Hl.
  replace (a + HEADER - HEADER) with a in Hl by lia. refine (Hl _ _ _ _ _ (ki_heap _ _ I)).
  pose proof (raw_word _ _ _ _ R a h Ha) as Hw. unfold H_SIZE in Hw. rewrite Z.add_0_r in Hw.
  rewrite Hw, prev_free_of_word_word; [done|]. by apply (raw_ok _ _ _ _ R a).
Qed.

Lemma ki_heap_free w v p : kernel_inv w v -> is_Some (w_heap w !! p) ->
  (forall a h, p = payload a -> v_hdrs v !! a = Some h -> h_pf h = true -> prev_ok (pool_lo v) (v_hdrs v) a) ->
  exists k' v' a h, on_heap (heap_call (tlsf_dealloc p)) (w_k w) = Ok (tt, k') /\
    kernel_inv (mkWorld k' (delete p (w_heap w)) (w_procs w) (w_term w)) v' /\
    p = payload a /\ v_hdrs v !! a = Some h /\ a <> pool_hi v /\ v_pool v' = v_pool v /\ released (pool_lo v) (v_hdrs v) a h (v_hdrs v').
Proof.
  intros I [n0 Hp] Hl. destruct (ki_objs _ _ I _ _ Hp) as (a & h & -> & Ha & Hf & Hah & _).
  pose proof (wp_tlsf_dealloc _ _ _ _ _ _ a h (ki_heap _ _ I) Ha Hf Hah (Hl a h eq_refl Ha)) as Hw.
  apply wp_run in Hw as ([] & [t' m'] & Hrun & H' & G' & HT & Hrel & Hwr). cbn [fst snd] in *. pose proof (re_live _ _ _ _ _ Hrel) as Hlive.
  exists (with_heap t' m' (w_k w)). exists (mkView (v_held v) (v_pool v) H' G' (v_slabs v) (v_partial v)), a, h. split; [by apply run_on_heap|]. split; [|done].
  eapply inv_pool; [exact I|by eapply pool_changes; [left; exact (ki_heap _ _ I)|]|exact HT|].
  intros q n [Hq0 Hq]%lookup_delete_Some. destruct (ki_objs _ _ I _ _ Hq) as (b & hb & -> & Hb & Hfb & Hbh & Hn).
  assert (b <> a) as Hba by (intros ->; by apply Hq0).
  destruct (proj2 (Hlive b (h_size hb))) as (hb' & Hb' & Hfb' & Es); [split; [done|by exists hb]|].
  exists b, hb'. cbn [v_hdrs]. split_and!; try done. lia.
Qed.

(** The other operations leave the heap's blocks alone. *)
Definition same_blocks (v v' : view) : Prop := v_pool v' = v_pool v /\ v_hdrs v' = v_hdrs v.

(** A client writes into an object of the heap. *)
Lemma ki_heap_write w v p n m' : kernel_inv w v -> w_heap w !! p = Some n -> changes (fun x => p <= x < p + n) (k_mem (w_k w)) m' ->
  exists v', same_blocks v v' /\ kernel_inv (mkWorld (with_heap (k_heap (w_k w)) m' (w_k w)) (w_heap w) (w_procs w) (w_term w)) v'.
Proof.
  intros I Hp Hc. destruct (ki_objs _ _ I _ _ Hp) as (a & h & -> & Ha & Hf & Hah & Hn). pose proof (ki_heap _ _ I) as [R Hh].
  assert (forall x, payload a <= x < payload a + n -> payload_byte (v_hdrs v) a x) as Hpb.
  { intros x Hx. exists (h_size h). split; [by exists h|lia]. }
  eexists (mkView (v_held v) (v_pool v) (v_hdrs v) (v_lists v) (v_slabs v) (v_partial v)). split; [done|].
  eapply inv_pool; [exact I| | |exact (ki_objs _ _ I)].
  - eapply changes_weaken; [|exact Hc]. intros x Hx. destruct (next_pos _ _ _ _ _ _ _ Hh Ha Hah) as (_ & _ & Hend).
    destruct (hp_range _ _ _ _ _ Hh _ _ Ha). unfold in_block, Pages.block_size, payload, HEADER, pool_hi in *. cbn [fst snd].
    change (2 ^ 10 * 4096) with 4194304. unfold HEADER in *. lia.
  - split; [|exact Hh]. eapply raw_frame; [exact R|]. intros x Hx. eapply changes_eq; [exact Hc|]. intros Hin. apply Hx.
    exact (payload_not_header 0 _ _ _ _ a x Hh (Hpb x Hin)).
Qed.
(** *** The process table *)

Lemma run_on_processes {A} (f : M (SlabCacheInner * BuddyAllocator * mem) A) k c a s :
  k_processes k = Some c -> f ((c, k_buddy k), k_mem k) = Ok (a, s) ->
  on_processes f k = Ok (a, with_cache (fst (fst s)) (snd (fst s)) (snd s) k).
Proof. intros Hk Hf. unfold on_processes, process_get, bind, get, expect, zoom. rewrite Hk. cbn [ret]. by rewrite Hf. Qed.

(** The counters of the cache and of the buddy allocator can take one more
    operation. *)
Definition proc_room (w : world) : Prop := exists c, k_processes (w_k w) = Some c /\
  Slab.room (PA := buddy_pages) size_of_Process 0 c (k_buddy (w_k w)).

Definition process_byte (p x : Z) : Prop := p <= x < p + size_of_Process.

Section process.
Context (w : world) (v : view) (I : kernel_inv w v).

(** Slabs are held pages. *)
Lemma slab_held s l : v_slabs v !! s = Some l -> (0, s) ∈ blocks v.
Proof. destruct (ki_cache _ _ I) as (c & _ & Ic). by apply (Slab.si_held _ _ _ _ _ _ _ _ _ Ic s l). Qed.

Lemma slab_other s l bl x : v_slabs v !! s = Some l -> bl ∈ blocks v -> other (v_slabs v) bl -> in_block bl x -> ~ in_block (0, s) x.
Proof.
  intros Hs Hbl Ho Hx Hs'. assert (bl <> (0, s)) as Hne by (intros ->; specialize (Ho eq_refl); cbn [snd] in Ho; congruence).
  exact (blocks_disj _ _ _ _ bl (0, s) (ki_run _ _ I) Hbl (slab_held s l Hs) Hne x Hx Hs').
Qed.

Lemma header_in_slab q x : q <= x < q + SLAB_HEADER -> in_block (0, q) x.
Proof. unfold in_block, Pages.block_size, SLAB_HEADER. cbn [fst snd]. change (2 ^ 0 * 4096) with 4096. lia. Qed.

Lemma slot_in_slab s i l x : v_slabs v !! s = Some l -> 0 <= i < Slab.cap size_of_Process align_of_Process 0 ->
  process_byte (slot s i) x -> in_block (0, s) x.
Proof.
  intros Hs Hi Hx. destruct (slot_range _ _ _ PL i s Hi). unfold process_byte, in_block in *. cbn [fst snd].
  unfold slab_size, Pages.block_size in *. lia.
Qed.

Lemma ki_proc_alloc : proc_room w ->
  exists r k', SlabBacked_alloc (w_k w) = Ok (r, k') /\
    match r with
    | None => exists v', same_blocks v v' /\ kernel_inv (mkWorld k' (w_heap w) (w_procs w) (w_term w)) v'
    | Some p => p ∉ w_procs w /\ exists v', same_blocks v v' /\ kernel_inv (mkWorld k' (w_heap w) ({[p]} ∪ w_procs w) (w_term w)) v'
    end.
Proof.
  intros (c & Hk & Hroom). destruct (ki_cache _ _ I) as (c' & Hk' & Ic). rewrite Hk in Hk'. injection Hk' as <-.
  pose proof (wp_alloc (PA := buddy_run lo regs (k_mem (w_k w))) _ _ 0 PL _ _ _ _ _ _ Ic Hroom) as Hw.
  apply wp_run in Hw as (r & s' & Hrun & Hpost). exists r. eexists. split; [exact (run_on_processes _ _ _ _ _ Hk Hrun)|].
  destruct s' as [[c' b'] m']. cbn [fst snd] in *. destruct r as [p|].
  - destruct Hpost as (s & i & S' & P' & A' & -> & [Hi Ha Hfr Hlv Hal Hbl Hsl] & Ic' & Hch). split.
    { intros (t & j & Ht & E)%(ki_procs _ _ I). assert (slive S' s i) as H1 by (apply Hlv; auto). assert (slive S' t j) as H2 by (apply Hlv; auto).
      destruct (live_slot_inj _ _ _ PL _ _ _ _ _ _ _ _ _ _ Ic' H1 H2 E) as [-> ->]. done. }
    destruct (inv_slab w v c' b' m' S' P' A' ({[slot s i]} ∪ w_procs w) I Ic') as [held' I'].
    + intros bl Hin Ho. split; [destruct Hbl as [->|(_ & _ & -> & _)]; set_solver|]. split.
      * intros H0. destruct (S' !! snd bl) as [lt|] eqn:E; [exfalso|done]. destruct (Hsl (snd bl)) as [[l Hl]|(Es & _ & Hd)]; [by exists lt|by rewrite Ho in Hl|].
        apply (Hd bl Hin s); unfold in_block, Pages.block_size; destruct bl; cbn [fst snd] in *; subst; lia.
      * intros x Hx. eapply changes_eq; [exact Hch|]. intros [Hno|(q & lq & Hq & Hxq)]; [by apply (Hno bl)|].
        by apply (slab_other q lq bl x Hq Hin Ho Hx), header_in_slab.
    + intros p. rewrite elem_of_union, elem_of_singleton, (ki_procs _ _ I). setoid_rewrite Hlv. naive_solver.
    + eexists. by split; [|exact I'].
  - destruct Hpost as (_ & Ic' & Hkept). destruct (inv_slab w v c' b' m' _ _ _ (w_procs w) I Ic') as [held' I']; [|exact (ki_procs _ _ I)|by eexists; split; [|exact I']].
    intros bl Hin Ho. split; [done|]. split; [done|]. intros x Hx. by apply (Hkept bl).
Qed.

Lemma ki_proc_free p : proc_room w -> p ∈ w_procs w -> p + 4096 < W64 ->
  exists k' v', SlabBacked_dealloc p (w_k w) = Ok (tt, k') /\ same_blocks v v' /\
    kernel_inv (mkWorld k' (w_heap w) (w_procs w ∖ {[p]}) (w_term w)) v'.
Proof.
  intros (c & Hk & Hroom) Hp Hend. destruct (ki_cache _ _ I) as (c' & Hk' & Ic). rewrite Hk in Hk'. injection Hk' as <-.
  pose proof Hp as (s & i & Hlive & ->)%(ki_procs _ _ I). pose proof Hlive as (l & Hl & Hi & Hni).
  destruct (slot_range _ _ _ PL i s Hi) as [Hlo Hhi].
  assert (slab_size 0 = 4096) as Esz by done.
  pose proof (wp_dealloc (PA := buddy_run lo regs (k_mem (w_k w))) _ _ 0 PL _ _ _ _ _ _ s i l Ic Hroom Hl Hi Hni ltac:(rewrite Esz; unfold Slab.slot in *; lia)) as Hw.
  apply wp_run in Hw as ([] & [[c' b'] m'] & Hrun & S' & P' & A' & [Hlv (l' & Hl' & Hbl) Hsl] & Ic' & Hch). cbn [fst snd] in *.
  rewrite Hl in Hl'. injection Hl' as <-. eexists. 
  destruct (inv_slab w v c' b' m' S' P' A' (w_procs w ∖ {[slot s i]}) I Ic') as [held' I'].
  - intros bl Hin Ho. assert (bl <> (0, s)) as Hne by (intros ->; specialize (Ho eq_refl); cbn [snd] in Ho; congruence).
    assert (bl ∈ A') as HinA' by (destruct (bool_decide _) in Hbl; destruct Hbl as [-> _]; set_solver).
    split; [done|]. split.
    + intros H0. destruct (S' !! snd bl) as [lt|] eqn:E; [exfalso|done]. destruct (Hsl (snd bl)) as [lt' Ht]; [by exists lt|]. by rewrite Ho in Ht.
    + intros x Hx. eapply changes_eq; [exact Hch|]. intros [->|[(q & lq & Hq & Hxq)|[_ Hno]]].
      * apply (slab_other s l bl _ Hl Hin Ho Hx), (slot_in_slab s i l); [done|done|]. destruct (lo_size _ _ _ PL). unfold process_byte, Slab.slot in *. lia.
      * by apply (slab_other q lq bl x Hq Hin Ho Hx), header_in_slab.
      * by apply (Hno bl).
  - intros p. rewrite elem_of_difference, elem_of_singleton, (ki_procs _ _ I). setoid_rewrite Hlv. split.
    + intros [(t & j & H' & ->) Hne]. exists t, j. split_and!; [done| |done]. by intros [-> ->].
    + intros (t & j & [H' Hne] & ->). split; [by eauto|]. intros E. apply Hne.
      exact (live_slot_inj _ _ _ PL _ _ _ _ _ _ _ _ _ _ Ic H' Hlive E).
  - eexists. split; [exact (run_on_processes _ _ _ _ _ Hk Hrun)|]. by split; [|exact I'].
Qed.

Lemma ki_proc_write p m' : p ∈ w_procs w -> changes (process_byte p) (k_mem (w_k w)) m' ->
  exists k' v', k' = with_heap (k_heap (w_k w)) m' (w_k w) /\ same_blocks v v' /\ kernel_inv (mkWorld k' (w_heap w) (w_procs w) (w_term w)) v'.
Proof.
  intros Hp Hc. destruct (ki_cache _ _ I) as (c & Hk & Ic). pose proof Hp as (s & i & Hlive & ->)%(ki_procs _ _ I).
  pose proof Hlive as (l & Hl & Hi & Hni). eexists. 
  pose proof (slab_inv_write _ _ _ PL _ _ _ m' _ _ _ s i Ic Hlive Hc) as Ic'.
  destruct (inv_slab w v c (k_buddy (w_k w)) m' _ _ _ (w_procs w) I Ic') as [held' I'].
  - intros bl Hin Ho. split; [done|]. split; [done|]. intros x Hx. eapply changes_eq; [exact Hc|]. intros Hob.
    by apply (slab_other s l bl x Hl Hin Ho Hx), (slot_in_slab s i l).
  - exact (ki_procs _ _ I).
  - eexists. split; [done|]. split; [|unfold with_heap; unfold with_cache in I'; rewrite Hk; exact I']. done.
Qed.
End process.

(** ** Runs *)

Definition client_write (m' : mem) (k : Kernel) : Kernel := with_heap (k_heap k) m' k.

Inductive run_step : world -> world -> Prop :=
| rs_heap_alloc w size p k' :
    0 <= size -> round_up (adjusted size) < 2 ^ 30 ->
    on_heap (heap_call (tlsf_alloc size)) (w_k w) = Ok (Some p, k') ->
    run_step w (mkWorld k' (<[p := size]> (w_heap w)) (w_procs w) (w_term w))
| rs_heap_free w p k' :
    is_Some (w_heap w !! p) -> link_ok w p ->
    on_heap (heap_call (tlsf_dealloc p)) (w_k w) = Ok (tt, k') ->
    run_step w (mkWorld k' (delete p (w_heap w)) (w_procs w) (w_term w))
| rs_heap_write w p n m' :
    w_heap w !! p = Some n -> changes (fun x => p <= x < p + n) (k_mem (w_k w)) m' ->
    run_step w (mkWorld (client_write m' (w_k w)) (w_heap w) (w_procs w) (w_term w))
| rs_proc_alloc w p k' :
    proc_room w -> SlabBacked_alloc (w_k w) = Ok (Some p, k') ->
    run_step w (mkWorld k' (w_heap w) ({[p]} ∪ w_procs w) (w_term w))
| rs_proc_fail w k' :
    proc_room w -> SlabBacked_alloc (w_k w) = Ok (None, k') ->
    run_step w (mkWorld k' (w_heap w) (w_procs w) (w_term w))
| rs_proc_free w p k' :
    proc_room w -> p ∈ w_procs w -> p + 4096 < W64 -> SlabBacked_dealloc p (w_k w) = Ok (tt, k') ->
    run_step w (mkWorld k' (w_heap w) (w_procs w ∖ {[p]}) (w_term w))
| rs_proc_write w p m' :
    p ∈ w_procs w -> changes (process_byte p) (k_mem (w_k w)) m' ->
    run_step w (mkWorld (client_write m' (w_k w)) (w_heap w) (w_procs w) (w_term w))
| rs_print w t k' :
    println t (w_k w) = Ok (tt, k') ->
    run_step w (mkWorld k' (w_heap w) (w_procs w) (printed (d := d) (t ++ [10]) (w_term w)))
| rs_log w t k' :
    log t (w_k w) = Ok (tt, k') -> run_step w (mkWorld k' (w_heap w) (w_procs w) (w_term w))
| rs_irq w (handler : M IState unit) k' :
    on_irq handler (w_k w) = Ok (tt, k') -> run_step w (mkWorld k' (w_heap w) (w_procs w) (w_term w)).

(** The log and the interrupt controllers are nobody else's. *)
Definition with_io (irq : IState) (ser : Serial) (k : Kernel) : Kernel :=
  mkKernel (k_cpu k) (k_buddy k) (k_heap k) (k_mem k) irq (k_console k) (k_harvested k) (k_vmm k) (k_processes k) (k_post k) (k_sp k) (k_IF k)
    ser (k_gdt k).

Lemma inv_io w v irq ser : kernel_inv w v -> idle ser -> kernel_inv (mkWorld (with_io irq ser (w_k w)) (w_heap w) (w_procs w) (w_term w)) v.
Proof. intros [I1 I2 I3 I4 I5 I6 I7 I8 I9 I10 I11] Hs. by split. Qed.

Lemma run_log_at w v t : kernel_inv w v -> exists k', log t (w_k w) = Ok (tt, k') /\
  kernel_inv (mkWorld k' (w_heap w) (w_procs w) (w_term w)) v.
Proof.
  intros I. eexists. split; [|apply (inv_io w v (k_irq (w_k w)) (after (k_serial (w_k w)) (t ++ [10])) I), after_idle].
  unfold log, on_port, zoom. by rewrite run_serial_println by apply (ki_serial _ _ I).
Qed.

Lemma run_irq_at w v f k' : kernel_inv w v -> on_irq f (w_k w) = Ok (tt, k') ->
  kernel_inv (mkWorld k' (w_heap w) (w_procs w) (w_term w)) v.
Proof.
  intros I. unfold on_irq, zoom. destruct (f (k_irq (w_k w))) as [[[] s]| |]; [|done|done]. intros [= <-].
  apply (inv_io w v s (k_serial (w_k w)) I (ki_serial _ _ I)).
Qed.

Lemma run_println_at w v t : kernel_inv w v -> exists k', println t (w_k w) = Ok (tt, k') /\
  kernel_inv (mkWorld k' (w_heap w) (w_procs w) (printed (d := d) (t ++ [10]) (w_term w))) v.
Proof.
  intros I. destruct (inv_print w v (t ++ [10]) I) as (con' & m' & Hrun & I'). eexists. split; [|exact I'].
  unfold println, print, on_console, zoom. by rewrite Hrun.
Qed.

Lemma run_step_inv w v w' : kernel_inv w v -> run_step w w' ->
  exists v', kernel_inv w' v' /\ (w_heap w' = w_heap w -> same_blocks v v').
Proof.
  intros I Hs. destruct Hs as [w size p k' Hsz Hru Hrun|w p k' Hp Hl Hrun|w p n m' Hp Hc|w p k' Hr Hrun|w k' Hr Hrun|w p k' Hr Hp He Hrun|w p m' Hp Hc|w t k' Hrun|w t k' Hrun|w f k' Hrun].
  - destruct (ki_heap_alloc w v size I Hsz Hru) as (r & k & Hrun' & Hpost). rewrite Hrun in Hrun'. injection Hrun' as <- <-.
    destruct Hpost as (Hn & v' & _ & I' & _). exists v'. split; [done|]. intros E%(f_equal (lookup p)). cbn [w_heap] in E.
    by rewrite lookup_insert_eq, Hn in E.
  - destruct (ki_heap_free w v p I Hp) as (k & v' & a & h & Hrun' & I' & _); [intros a h -> Ha; by apply (link_ok_header w)|].
    rewrite Hrun in Hrun'. injection Hrun' as <-. exists v'. split; [done|]. intros E%(f_equal (lookup p)). cbn [w_heap] in E.
    rewrite lookup_delete_eq in E. destruct Hp as [n Hn]. congruence.
  - destruct (ki_heap_write w v p n m' I Hp Hc) as (v' & Hv & I'). by exists v'.
  - destruct (ki_proc_alloc w v I Hr) as (r & k & Hrun' & Hpost). rewrite Hrun in Hrun'. injection Hrun' as <- <-.
    destruct Hpost as (_ & v' & Hv & I'). by exists v'.
  - destruct (ki_proc_alloc w v I Hr) as (r & k & Hrun' & Hpost). rewrite Hrun in Hrun'. injection Hrun' as <- <-.
    destruct Hpost as (v' & Hv & I'). by exists v'.
  - destruct (ki_proc_free w v I p Hr Hp He) as (k & v' & Hrun' & Hv & I'). rewrite Hrun in Hrun'. injection Hrun' as <-. by exists v'.
  - destruct (ki_proc_write w v I p m' Hp Hc) as (k & v' & -> & Hv & I'). by exists v'.
  - destruct (run_println_at w v t I) as (k & Hrun' & I'). rewrite Hrun in Hrun'. injection Hrun' as <-. by exists v.
  - destruct (run_log_at w v t I) as (k & Hrun' & I'). rewrite Hrun in Hrun'. injection Hrun' as <-. by exists v.
  - exists v. split; [by apply (run_irq_at w v f k' I)|done].
Qed.

Lemma run_steps_inv w v w' : kernel_inv w v -> rtc run_step w w' -> exists v', kernel_inv w' v'.
Proof.
  intros I Hs. revert v I. induction Hs as [w|w1 w2 w3 Hs _ IH]; intros v I; [by exists v|].
  destruct (run_step_inv w1 v w2 I Hs) as (v2 & I2 & _). by apply (IH v2).
Qed.

(** *** Clients that release heap objects in reverse order

    The second component lists the objects of the heap, the last one first. *)
Inductive lifo_step : world * list Z -> world * list Z -> Prop :=
| lf_alloc w st size p k' :
    0 <= size -> round_up (adjusted size) < 2 ^ 30 ->
    on_heap (heap_call (tlsf_alloc size)) (w_k w) = Ok (Some p, k') ->
    lifo_step (w, st) (mkWorld k' (<[p := size]> (w_heap w)) (w_procs w) (w_term w), p :: st)
| lf_free w st p k' :
    on_heap (heap_call (tlsf_dealloc p)) (w_k w) = Ok (tt, k') ->
    lifo_step (w, p :: st) (mkWorld k' (delete p (w_heap w)) (w_procs w) (w_term w), st)
| lf_other w st w' :
    run_step w w' -> w_heap w' = w_heap w -> lifo_step (w, st) (w', st).

Record lifo_inv (w : world) (st : list Z) (v : view) : Prop := mkLifoInv {
  li_kernel : kernel_inv w v;
  li_stacked : stacked (pool_hi v) (v_hdrs v) st;
  li_objs : forall p, p ∈ st <-> is_Some (w_heap w !! p)
}.

(** The last object is released without a look at the back link. *)
Lemma lifo_free w st p v : lifo_inv w (p :: st) v ->
  exists k' v', on_heap (heap_call (tlsf_dealloc p)) (w_k w) = Ok (tt, k') /\
    lifo_inv (mkWorld k' (delete p (w_heap w)) (w_procs w) (w_term w)) st v'.
Proof.
  intros [I St Ho]. pose proof (ki_heap _ _ I) as [_ Hh].
  destruct (ki_heap_free w v p I) as (k' & v' & a & h & Hrun & I' & -> & Ha & Hah & Ep & Hrel).
  { apply Ho. by left. }
  { intros a h Ea Ha Hpf. destruct (stk_held _ _ _ St p) as (b & sz & Eb & _ & Hbh); [by left|].
    assert (b = a) as -> by (unfold payload in *; lia). by rewrite (stacked_pf _ _ _ _ _ _ _ Hh St Ha Hbh) in Hpf. }
  exists k', v'. split; [done|]. assert (pool_lo v' = pool_lo v /\ pool_hi v' = pool_hi v) as [El Eh] by (unfold pool_hi, pool_lo; by rewrite Ep).
  pose proof (ki_heap _ _ I') as [_ Hh']. rewrite El, Eh in Hh'. pose proof (stk_sorted _ _ _ St) as Hso. inversion Hso as [|? ? _ Habove]; subst.
  split; [done|rewrite Eh; exact (stacked_free _ _ _ _ _ _ _ _ _ Hh Hh' St Ha Hah Hrel)|]. intros q. cbn [w_heap]. rewrite lookup_delete_is_Some, <- Ho, elem_of_cons. split.
  - intros Hq. split; [|by right]. intros <-. apply list_elem_of_In in Hq. rewrite List.Forall_forall in Habove. specialize (Habove _ Hq). lia.
  - intros [Hne [->|Hq]]; done.
Qed.

Lemma lifo_step_inv w st w' st' v : lifo_inv w st v -> lifo_step (w, st) (w', st') -> exists v', lifo_inv w' st' v'.
Proof.
  intros LI Hs. inversion Hs as [w0 st0 size p k' Hsz Hru Hrun|w0 st0 p k' Hrun|w0 st0 w1 Hst E]; subst.
  - destruct LI as [I St Ho]. destruct (ki_heap_alloc w v size I Hsz Hru) as (r & k & Hrun' & Hpost). rewrite Hrun in Hrun'. injection Hrun' as <- <-.
    destruct Hpost as (_ & v' & a & I' & -> & Ep & Hal). exists v'.
    assert (pool_lo v' = pool_lo v /\ pool_hi v' = pool_hi v) as [El Eh] by (unfold pool_hi, pool_lo; by rewrite Ep).
    pose proof (ki_heap _ _ I) as [_ Hh]. pose proof (ki_heap _ _ I') as [_ Hh']. rewrite El, Eh in Hh'.
    split; [done|rewrite Eh; exact (stacked_alloc _ _ _ _ _ _ _ _ _ Hh Hh' St Hal)|]. intros q. cbn [w_heap]. rewrite lookup_insert_is_Some, <- Ho, elem_of_cons.
    destruct (decide (payload a = q)); naive_solver.
  - destruct (lifo_free w st' p v LI) as (k & v' & Hrun' & LI'). rewrite Hrun in Hrun'. injection Hrun' as <-. by exists v'.
  - destruct LI as [I St Ho]. destruct (run_step_inv w v w' I Hst) as (v' & I' & Hsame). destruct (Hsame E) as [Ep Eh]. exists v'.
    split; [done| |by rewrite E]. unfold pool_hi, pool_lo in *. by rewrite Ep, Eh.
Qed.

Lemma lifo_steps_inv w st w' st' v : lifo_inv w st v -> rtc lifo_step (w, st) (w', st') -> exists v', lifo_inv w' st' v'.
Proof.
  intros LI Hs. remember (w, st) as x eqn:Ex. remember (w', st') as y eqn:Ey. revert w st v LI Ex.
  induction Hs as [x|x [w1 st1] z Hs _ IH]; intros w st v LI ->; [injection Ey as -> ->; by exists v|].
  destruct (lifo_step_inv w st w1 st1 v LI Hs) as [v1 LI1]. by apply (IH Ey w1 st1 v1).
Qed.

(** An empty stack: the pool is one free block again. *)
Lemma lifo_empty w v size : lifo_inv w [] v -> 0 <= size -> round_up (adjusted size) <= 4194304 - 2 * HEADER ->
  exists p k', on_heap (heap_call (tlsf_alloc size)) (w_k w) = Ok (Some p, k').
Proof.
  intros [I St _] Hs Hru. destruct (ki_heap_alloc w v size I Hs ltac:(unfold HEADER in *; lia)) as (r & k' & Hrun & Hpost).
  destruct r as [p|]; [by exists p, k'|]. destruct Hpost as [_ Hno]. pose proof (ki_heap _ _ I) as [_ Hh].
  destruct (hp_lo _ _ _ _ _ Hh) as (h & Hl & _). destruct (stacked_nil _ _ _ _ _ Hh St Hl) as (_ & Hf & Hend).
  destruct (Hno _ _ Hl Hf). apply cls_mono. destruct (adjusted_facts size) as (H32 & _). pose proof (log2_ge5 _ H32).
  pose proof (Z.pow_pos_nonneg 2 (Z.log2 (adjusted size) - 5) ltac:(lia) ltac:(lia)).
  unfold round_up, end_of, pool_hi, HEADER in *. lia.
Qed.

(** An object of the heap or of the process table, and its bytes. *)
Definition obj_byte (w : world) (o : Z + Z) (x : Z) : Prop :=
  match o with
  | inl p => exists n, w_heap w !! p = Some n /\ p <= x < p + n
  | inr p => p ∈ w_procs w /\ process_byte p x
  end.

(** Objects are in a block of the heap's or in a slab. *)
Lemma obj_block w v o x : kernel_inv w v -> obj_byte w o x -> exists bl, bl ∈ blocks v /\ in_block bl x /\
  match o with inl _ => bl = (10, pool_lo v) | inr _ => fst bl = 0 /\ is_Some (v_slabs v !! snd bl) end.
Proof.
  intros I. destruct o as [p|p]; cbn [obj_byte].
  - intros (n & Hp & Hx). exists (10, pool_lo v). split; [apply (ki_pool _ _ I)|]. split; [|done].
    destruct (ki_objs _ _ I _ _ Hp) as (a & h & -> & Ha & Hf & Hah & Hn). pose proof (ki_heap _ _ I) as [_ Hh].
    destruct (next_pos _ _ _ _ _ _ _ Hh Ha Hah) as (_ & _ & Hend). destruct (hp_range _ _ _ _ _ Hh _ _ Ha).
    unfold in_block, Pages.block_size, payload, HEADER, pool_hi in *. cbn [fst snd]. change (2 ^ 10 * 4096) with 4194304. unfold HEADER in *. lia.
  - intros [(s & i & (l & Hl & Hi & Hni) & ->)%(ki_procs _ _ I) Hx]. exists (0, s). split; [by apply (slab_held w v I s l)|].
    split; [by apply (slot_in_slab v s i l)|]. split; [done|by exists l].
Qed.

Lemma obj_apart w v o o' x : kernel_inv w v -> o <> o' -> obj_byte w o x -> obj_byte w o' x -> False.
Proof.
  intros I Hne H1 H2. destruct (obj_block w v o x I H1) as (b1 & Hb1 & Hx1 & Hk1), (obj_block w v o' x I H2) as (b2 & Hb2 & Hx2 & Hk2).
  assert (b1 = b2) as E.
  { destruct (decide (b1 = b2)) as [|Hn]; [done|]. by destruct (blocks_disj _ _ _ _ b1 b2 (ki_run _ _ I) Hb1 Hb2 Hn x). }
  destruct o as [p|p], o' as [q|q]; cbn [obj_byte] in *; subst; try (by destruct Hk2); try (by destruct Hk1).
  - destruct H1 as (n & Hp & Hx), H2 as (n' & Hq & Hx'). destruct (ki_objs _ _ I _ _ Hp) as (a & h & -> & Ha & Hf & Hah & Hn).
    destruct (ki_objs _ _ I _ _ Hq) as (a' & h' & -> & Ha' & Hf' & Hah' & Hn').
    apply (payload_disjoint _ _ _ _ _ _ a a' x x (ki_heap _ _ I)); [by intros ->| | |done].
    + exists (h_size h). split; [by exists h|lia].
    + exists (h_size h'). split; [by exists h'|lia].
  - destruct H1 as [(s & i & Hl & ->)%(ki_procs _ _ I) Hx], H2 as [(s' & i' & Hl' & ->)%(ki_procs _ _ I) Hx'].
    destruct (ki_cache _ _ I) as (c & _ & Ic). unfold process_byte in *.
    destruct (live_apart _ _ _ PL _ _ _ _ _ _ _ _ _ _ Ic Hl Hl') as [[-> ->]|?]; [by apply Hne|lia].
Qed.

(** What holds of a kernel that serves its clients. *)
Record kernel_safe (w : world) : Prop := mkKernelSafe {
  (** the objects do not overlap, and lie in memory the kernel may use *)
  ks_apart : forall o o' x, o <> o' -> obj_byte w o x -> obj_byte w o' x -> False;
  ks_usable : forall o x, obj_byte w o x -> in_regions regs (page_of lo x);
  (** the page tables give the direct map and the kernel image, and no object
      touches them *)
  ks_tables : exists root T, active_root (k_cpu (w_k w)) = root /\ tree hhdm root (k_mem (w_k w)) T /\
    installed hhdm root (k_mem (w_k w)) (kernel_virt_start d) (kernel_virt_end d) (kernel_phys_start d) (mem_size d) /\
    forall q u o x, T !! q = Some u -> in_block (0, u + hhdm) x -> obj_byte w o x -> False;
  (** nor the stack *)
  ks_stack : forall o x, k_sp (w_k w) + 8 - 65536 <= x < k_sp (w_k w) + 8 -> obj_byte w o x -> False;
  (** the screen shows what was printed *)
  ks_screen : console_ok (k_console (w_k w)) (k_mem (w_k w)) (w_term w);
  ks_IF : k_IF (w_k w) = true
}.

Lemma inv_safe w v : kernel_inv w v -> kernel_safe w.
Proof.
  intros I. split; [intros o o' x; by apply (obj_apart w v)| | | |apply (ki_console _ _ I)|apply (ki_IF _ _ I)].
  - intros o x Hx. destruct (obj_block w v o x I Hx) as (bl & Hbl & Hin & _). by eapply block_regions; [exact (ki_run _ _ I)|..].
  - destruct (ki_tables _ _ I) as (root & T & H1 & H2 & HT & W). exists root, T. split_and!; try done. intros q u o x Hu Hin Hx.
    destruct (HT q u Hu) as [Htb Hno]. destruct (obj_block w v o x I Hx) as (bl & Hbl & Hin' & Hk).
    destruct (decide (bl = (0, u + hhdm))) as [->|Hne]; [|exact (blocks_disj _ _ _ _ _ _ (ki_run _ _ I) Hbl Htb Hne x Hin' Hin)].
    destruct o; [done|]. cbn [snd] in Hk. destruct Hk as [_ [? ?]]. congruence.
  - intros o x Hx Hob. destruct (ki_stack _ _ I) as (g & Hg & Hsp). destruct (obj_block w v o x I Hob) as (bl & Hbl & Hin & Hk).
    assert (bl <> (4, g)) as Hne by (intros ->; destruct o; [done|by destruct Hk]).
    apply (blocks_disj _ _ _ _ _ _ (ki_run _ _ I) Hbl Hg Hne x Hin). unfold in_block, Pages.block_size. cbn [fst snd].
    change (2 ^ 4 * 4096) with 65536. lia.
Qed.
End runs.

(** ** From the boot on *)

(** The clients' world when [kernel_main] reaches its final halt. *)
Definition booted {d : LimineData} (k : Kernel) : world := mkWorld k ∅ ∅ (printed (d := d) boot_text t_blank).

Lemma boot_lifo {LT : LimineTypes} {AL : Align} {LAWS : AlignLaws AL} {B : Bitwise} {BL : BitwiseLaws B}
    {GC : GdtCrate} {IMG : Image} {PT : ProcessType} r edx sp rsp d lo wlo whi X c m root T ks held k :
  machine_ok r edx sp rsp d lo wlo whi X c m root T ->
  boot_done (r := r) (edx := edx) (sp := sp) (d := d) (lo := lo) ks held k ->
  exists v, lifo_inv (d := d) (lo := lo) (regs := regs2 (sp := sp) (d := d) (lo := lo)) (booted (d := d) k) [] v.
Proof.
  intros MO [[[Hr Hb] (p & Hp & Hheap) (root' & T' & H1 & H2 & H3 & H4) Hfb Hcon] (q & Hq & Hg & Htop & Hsp) _ _ (_ & _ & Hpr & Hfl) _ Hser].
  pose proof (lo_aligned _ _ _ _ _ (mo_map _ _ _ _ _ _ _ _ _ _ _ _ _ MO)) as Hal.
  assert (forall j o, (o, j) ∈ held -> (o, page_addr lo j) ∈ (set_map (byte_block lo) held : gset (Z * Z))) as Hin.
  { intros j o Hj. apply elem_of_map. by exists (o, j). }
  unfold heap_at in Hheap.
  eexists (mkView held p _ _ ∅ []). split.
  2: { unfold pool_hi, pool_lo. cbn [v_pool v_hdrs]. apply stacked_pool. }
  2: { intros y. cbn [booted w_heap]. rewrite lookup_empty. split; [by intros ?%not_elem_of_nil|by intros [? ?]]. }
  split; cbn [booted w_k w_heap w_procs w_term].
  - exists process_cache. split; [done|]. apply slab_inv_new.
    + unfold SlabCacheInner_new. by rewrite (mo_process _ _ _ _ _ _ _ _ _ _ _ _ _ MO).
    + split; [done|]. split; [done|]. split; [done|]. by exists held.
  - by apply (Hin p 10).
  - exact Hheap.
  - intros x n Hx. by apply lookup_empty_Some in Hx.
  - intros x. split; [by intros ?%elem_of_empty|]. by intros (t & j & (l & Hl & _) & _).
  - exists root', T'. split_and!; try done. intros u y Hy. destruct (H3 u y Hy) as (j & Hj & ->). split; [by apply (Hin j 0)|done].
  - exists (page_addr lo q). split; [by apply (Hin q 4)|]. by rewrite Hsp, Htop, Hg.
  - exact Hfb.
  - exact Hcon.
  - done.
  - by rewrite Hser.
Qed.

Lemma boot_inv {LT : LimineTypes} {AL : Align} {LAWS : AlignLaws AL} {B : Bitwise} {BL : BitwiseLaws B}
    {GC : GdtCrate} {IMG : Image} {PT : ProcessType} r edx sp rsp d lo wlo whi X c m root T ks held k :
  machine_ok r edx sp rsp d lo wlo whi X c m root T ->
  boot_done (r := r) (edx := edx) (sp := sp) (d := d) (lo := lo) ks held k ->
  exists v, kernel_inv (d := d) (lo := lo) (regs := regs2 (sp := sp) (d := d) (lo := lo)) (booted (d := d) k) v.
Proof. intros MO Hd. destruct (boot_lifo _ _ _ _ _ _ _ _ _ _ _ _ _ _ _ _ MO Hd) as [v LI]. exists v. exact (li_kernel _ _ _ LI). Qed.




(** *** On the machine of [BootMain] *)
#[local] Existing Instance image1.
#[local] Existing Instance process1.

Lemma process1_layout : Slab.layout_ok size_of_Process align_of_Process 0.
Proof. split; [done| | |done|by vm_compute|by exists 128]; [by exists 4|by exists 64]. Qed.

#[local] Opaque pg1.



