(* ===== verification/Conformance.v ===== *)
(** * The repository's own tests, run on the model

    src/src/tests.rs and the [tests] modules of abalone/src/buddy.rs,
    src/limine_data.rs, src/timer.rs and src/interrupts/ run in the kernel
    under QEMU.  Here the tests of the modelled components are programs of the
    model, with the names of the source, and they pass: the definitions agree
    with what the authors observe.  The tests of the pincer and seastar crates,
    which are not part of the repository, and those that need a running
    processor are left out. *)

From S2P Require Import Prelude Pages Slab Paging PagingProps Interrupts Timer Framebuffer Limine.
From S2P Require Import Tlsf Buddy BuddySpec.

(** ** Assertions *)

(** [assert_eq!] and [assert_ne!]. *)
Definition assert_eq {S} (a b : Z) : M S unit := assert (a =? b).
Definition assert_ne {S} (a b : Z) : M S unit := assert (negb (a =? b)).

Definition is_none {S A} (o : option A) : M S unit := match o with None => ret tt | Some _ => panic end.

(** A test passes when it ends without a panic. *)
Definition passes {S} (s : S) (t : M S unit) : bool := match t s with Ok _ => true | _ => false end.

(** [a.unsigned_abs_diff(b) >= n]. *)
Definition assert_apart {S} (a b n : Z) : M S unit := assert (n <=? Z.abs (a - b)).

(** ** Buddy allocator (buddy.rs, tests) *)
Module buddy_tests.

Definition test_base : Z := 0x200000.

(** A new allocator over [n] pages. *)
Definition with_pages (n : Z) : M BState unit := set_base test_base ;; add_region test_base n.
Definition stat (f : AllocStats -> Z) : M BState Z := gets (fun s => f (stats (fst s))).
Definition assert_stat (f : AllocStats -> Z) (n : Z) : M BState unit := let* x := stat f in assert_eq x n.
Definition alloc_expect (order : Z) : M BState Z := let* r := alloc_pages order in expect r.

Definition alloc_and_dealloc_single_page : M BState unit :=
  with_pages 4 ;;
  let* ptr := alloc_expect 0 in
  assert (test_base <=? ptr) ;;
  assert_stat alloc_count 1 ;;
  dealloc_pages ptr 0 ;;
  assert_stat dealloc_count 1 ;;
  assert_stat used_bytes 0.

Definition alloc_order1_spans_two_pages : M BState unit :=
  with_pages 4 ;;
  let* ptr := alloc_expect 1 in
  assert_stat used_bytes (2 * Buddy.PAGE_SIZE) ;;
  dealloc_pages ptr 1 ;;
  assert_stat used_bytes 0.

Definition two_order0_allocs_do_not_overlap : M BState unit :=
  with_pages 4 ;;
  let* p0 := alloc_expect 0 in
  let* p1 := alloc_expect 0 in
  assert_apart p0 p1 Buddy.PAGE_SIZE ;;
  dealloc_pages p0 0 ;;
  dealloc_pages p1 0.

Definition coalescing_restores_higher_order_block : M BState unit :=
  with_pages 4 ;;
  let* a := alloc_expect 1 in
  let* b := alloc_expect 1 in
  let* r := alloc_pages 0 in
  is_none r ;;
  dealloc_pages a 1 ;;
  dealloc_pages b 1 ;;
  let* full := alloc_expect 2 in
  dealloc_pages full 2.

Definition oom_returns_none : M BState unit :=
  with_pages 1 ;;
  alloc_expect 0 ;;
  let* r := alloc_pages 0 in
  is_none r.

Definition stats_track_used_and_free_bytes : M BState unit :=
  with_pages 4 ;;
  let* initial_free := stat free_bytes in
  assert_stat used_bytes 0 ;;
  let* p := alloc_expect 0 in
  assert_stat used_bytes Buddy.PAGE_SIZE ;;
  assert_stat free_bytes (initial_free - Buddy.PAGE_SIZE) ;;
  assert_stat alloc_count 1 ;;
  dealloc_pages p 0 ;;
  assert_stat used_bytes 0 ;;
  assert_stat free_bytes initial_free ;;
  assert_stat dealloc_count 1.

Definition peak_bytes_tracks_high_water_mark : M BState unit :=
  with_pages 4 ;;
  let* p0 := alloc_expect 0 in
  let* p1 := alloc_expect 0 in
  let* peak_after_two := stat peak_bytes in
  assert_eq peak_after_two (2 * Buddy.PAGE_SIZE) ;;
  dealloc_pages p1 0 ;;
  assert_stat peak_bytes peak_after_two ;;
  dealloc_pages p0 0 ;;
  assert_stat peak_bytes peak_after_two.

Lemma buddy_tests_pass : forallb (passes (BuddyAllocator_new, ∅))
  [alloc_and_dealloc_single_page; alloc_order1_spans_two_pages; two_order0_allocs_do_not_overlap;
   coalescing_restores_higher_order_block; oom_returns_none; stats_track_used_and_free_bytes;
   peak_bytes_tracks_high_water_mark] = true.
Proof. by vm_compute. Qed.
End buddy_tests.

(** ** Kernel heap (tests.rs) *)
Module tlsf_tests.

Definition TLSF_POOL : Z := 65536.
Definition TLSF_MEM : Z := 0x300000.

Definition fresh_tlsf : M (TlsfInner * mem) unit := init_from_ptr TLSF_MEM TLSF_POOL.
Definition alloc_non_null (size align : Z) : M (TlsfInner * mem) Z :=
  let* ptr := global_alloc size align in assert_ne ptr 0 ;; ret ptr.

Definition tlsf_alloc_returns_non_null : M (TlsfInner * mem) unit :=
  fresh_tlsf ;;
  let* ptr := alloc_non_null 64 8 in
  global_dealloc ptr 64 8.

Definition tlsf_alloc_returns_null_when_oom : M (TlsfInner * mem) unit :=
  fresh_tlsf ;;
  let* ptr := global_alloc (TLSF_POOL * 2) 8 in
  assert_eq ptr 0.

Definition tlsf_alloc_multiple_non_overlapping_regions : M (TlsfInner * mem) unit :=
  fresh_tlsf ;;
  let* p0 := alloc_non_null 64 8 in
  let* p1 := alloc_non_null 64 8 in
  assert_apart p0 p1 64 ;;
  global_dealloc p0 64 8 ;;
  global_dealloc p1 64 8.

Definition tlsf_dealloc_and_realloc_succeeds : M (TlsfInner * mem) unit :=
  fresh_tlsf ;;
  let* p0 := alloc_non_null 128 8 in
  global_dealloc p0 128 8 ;;
  let* p1 := alloc_non_null 128 8 in
  global_dealloc p1 128 8.

Lemma tlsf_tests_pass : forallb (passes (TlsfInner_new, ∅))
  [tlsf_alloc_returns_non_null; tlsf_alloc_returns_null_when_oom;
   tlsf_alloc_multiple_non_overlapping_regions; tlsf_dealloc_and_realloc_succeeds] = true.
Proof. by vm_compute. Qed.
End tlsf_tests.

(** ** Slab caches (tests.rs) *)
Module slab_tests.

(** A cache of objects of some size and alignment over a buddy allocator with
    64 pages. *)
Abbreviation CState := (SlabCacheInner * BuddyAllocator * mem)%type.
Definition pages : BState := final (buddy_tests.with_pages 64) (BuddyAllocator_new, ∅).
Definition cache_of (size align order : Z) : CState :=
  ((default (mkSlab 0 0 0 (mkSlabStats 0 0 0 0 0 0)) (SlabCacheInner_new size align order), fst pages), snd pages).

Section tests.
Context (size align : Z).

Definition alloc_expect : M CState Z := let* r := Slab.alloc size align in expect r.
Definition free_ (p : Z) : M CState unit := Slab.dealloc size align p.
Definition read_eq (p v : Z) : M CState unit := let* x := load p in assert_eq x v.

(** [for i in 0..n], collecting the pointers. *)
Fixpoint alloc_each (n : nat) (value : Z -> option Z) (i : Z) : M CState (list Z) :=
  match n with
  | O => ret []
  | Datatypes.S n' =>
      let* p := alloc_expect in
      match value i with Some v => store p v | None => ret tt end ;;
      let* ps := alloc_each n' value (i + 1) in
      ret (p :: ps)
  end.

Fixpoint each {A} (l : list A) (f : A -> M CState unit) : M CState unit :=
  match l with [] => ret tt | x :: l' => f x ;; each l' f end.

Fixpoint distinct (l : list Z) : bool :=
  match l with [] => true | x :: l' => negb (existsb (Z.eqb x) l') && distinct l' end.

Definition slab_alloc_returns_valid_pointer : M CState unit :=
  let* ptr := alloc_expect in
  store ptr 0xCAFEBABEDEADBEEF ;;
  read_eq ptr 0xCAFEBABEDEADBEEF ;;
  free_ ptr.

Definition slab_two_allocs_do_not_overlap : M CState unit :=
  let* p0 := alloc_expect in
  let* p1 := alloc_expect in
  assert_apart p0 p1 32 ;;
  free_ p0 ;;
  free_ p1.

Definition slab_dealloc_and_realloc_succeeds : M CState unit :=
  let* p0 := alloc_expect in
  free_ p0 ;;
  let* p1 := alloc_expect in
  free_ p1.

Definition slab_realloc_reuses_freed_slot : M CState unit :=
  let* p0 := alloc_expect in
  let* p1 := alloc_expect in
  free_ p0 ;;
  let* p2 := alloc_expect in
  assert_eq p2 p0 ;;
  store p2 0x123456789ABCDEF0 ;;
  read_eq p2 0x123456789ABCDEF0 ;;
  free_ p1 ;;
  free_ p2.

Definition slab_fills_first_slab_and_grows : M CState unit :=
  let* ptrs := alloc_each 64 (fun _ => None) 0 in
  assert (distinct ptrs) ;;
  each ptrs free_.

Definition slab_empty_slab_is_released : M CState unit :=
  let* ptrs := alloc_each 63 (fun _ => None) 0 in
  each ptrs free_ ;;
  let* p := alloc_expect in
  free_ p.

Definition slab_multiple_slots_hold_independent_values : M CState unit :=
  let value i := i * 0x1111111111111111 in
  let* ptrs := alloc_each 16 (fun i => Some (value i)) 0 in
  each (zip ptrs (seqZ 0 16)) (fun x => read_eq (fst x) (value (snd x))) ;;
  each ptrs free_.

Definition evens (l : list (Z * Z)) : list (Z * Z) := filter (fun x => Z.even (snd x) = true) l.
Definition odds (l : list (Z * Z)) : list (Z * Z) := filter (fun x => Z.odd (snd x) = true) l.

Definition slab_interleaved_alloc_dealloc_stays_consistent : M CState unit :=
  let* first := alloc_each 8 (fun i => Some i) 0 in
  let live := zip first (seqZ 0 8) in
  each (evens live) (fun x => free_ (fst x)) ;;
  let* second := alloc_each 4 (fun i => Some (0x100 + i)) 0 in
  each (odds live) (fun x => read_eq (fst x) (snd x)) ;;
  each (zip second (seqZ 0 4)) (fun x => read_eq (fst x) (0x100 + snd x)) ;;
  each (odds live) (fun x => free_ (fst x)) ;;
  each second free_.

Definition slab_pointers_are_aligned_for_type : M CState unit :=
  let* ptrs := alloc_each 8 (fun _ => None) 0 in
  each ptrs (fun p => assert_eq (p mod align) 0) ;;
  each ptrs free_.

Definition slab_order1_alloc_and_dealloc : M CState unit :=
  let* r := Slab.alloc size align in
  match r with
  | None => ret tt
  | Some p0 =>
      store p0 0xDEADC0DEBEEFCAFE ;;
      read_eq p0 0xDEADC0DEBEEFCAFE ;;
      assert_eq (p0 mod align) 0 ;;
      free_ p0
  end.
End tests.

(** [u64], [[u64; 32]], [[u8; 64]] and [u128]. *)
Lemma slab_tests_pass :
  forallb (passes (cache_of 8 8 0))
    [slab_alloc_returns_valid_pointer 8 8; slab_dealloc_and_realloc_succeeds 8 8;
     slab_realloc_reuses_freed_slot 8 8; slab_multiple_slots_hold_independent_values 8 8;
     slab_interleaved_alloc_dealloc_stays_consistent 8 8] = true /\
  passes (cache_of 256 8 0) (slab_two_allocs_do_not_overlap 256 8) = true /\
  forallb (passes (cache_of 64 1 0)) [slab_fills_first_slab_and_grows 64 1; slab_empty_slab_is_released 64 1] = true /\
  passes (cache_of 16 16 0) (slab_pointers_are_aligned_for_type 16 16) = true /\
  passes (cache_of 8 8 1) (slab_order1_alloc_and_dealloc 8 8) = true.
Proof. by vm_compute. Qed.
End slab_tests.

(** ** Protection flags and page tables (tests.rs) *)
Module paging_tests.

Definition has {S} (b flag : Z) : M S unit := assert_ne (Z.land b flag) 0.
Definition lacks {S} (b flag : Z) : M S unit := assert_eq (Z.land b flag) 0.

Section tests.
Context {B : Bitwise} {S : Type}.

Definition kernel_rw_is_writable_nx_and_global : M S unit :=
  let b := bits KERNEL_RW in has b WRITABLE ;; has b NO_EXECUTE ;; has b GLOBAL.
Definition kernel_rx_is_executable_not_writable : M S unit :=
  let b := bits KERNEL_RX in lacks b NO_EXECUTE ;; lacks b WRITABLE ;; has b GLOBAL.
Definition kernel_ro_is_not_writable_and_not_executable : M S unit :=
  let b := bits KERNEL_RO in lacks b WRITABLE ;; has b NO_EXECUTE ;; has b GLOBAL.
Definition mmio_uc_sets_cache_disable_and_write_through_not_pat : M S unit :=
  let b := bits MMIO_UC in
  has b WRITABLE ;; has b NO_EXECUTE ;; has b CACHE_DISABLE ;; has b WRITE_THROUGH ;; lacks b PAT.
Definition mmio_wc_adds_pat_bit_to_mmio_uc : M S unit :=
  let uc := bits MMIO_UC in
  let wc := bits MMIO_WC in
  has wc PAT ;; assert_eq (Z.land wc (not64 PAT)) uc.
End tests.

Definition test_page_table : Z := 0x400000.
Abbreviation PState := (Cpu * BuddyAllocator * mem)%type.
Definition pt_read (i : Z) : M PState Z := table_read test_page_table i.
Definition pt_write (i v : Z) : M PState unit := table_write test_page_table i v.
Definition pt_is (i v : Z) : M PState unit := let* x := pt_read i in assert_eq x v.

Definition page_table_write_then_read_roundtrip : M PState unit :=
  pt_write 0 0xDEADBEEF00000001 ;;
  pt_write 511 0x1234567800000003 ;;
  pt_is 0 0xDEADBEEF00000001 ;;
  pt_is 511 0x1234567800000003.

Definition page_table_zero_clears_all_512_entries : M PState unit :=
  for_range 0 512 (fun i => pt_write i 0xFFFFFFFFFFFFFFFF) ;;
  table_zero test_page_table ;;
  for_range 0 512 (fun i => pt_is i 0).

Definition page_table_write_does_not_corrupt_neighbors : M PState unit :=
  table_zero test_page_table ;;
  pt_write 100 0xABCDEF0012345678 ;;
  pt_is 99 0 ;;
  pt_is 100 0xABCDEF0012345678 ;;
  pt_is 101 0.

Lemma paging_tests_pass : forallb (passes ((mkCpu 0 [] [], BuddyAllocator_new), ∅))
  [kernel_rw_is_writable_nx_and_global; kernel_rx_is_executable_not_writable;
   kernel_ro_is_not_writable_and_not_executable; mmio_uc_sets_cache_disable_and_write_through_not_pat;
   mmio_wc_adds_pat_bit_to_mmio_uc; page_table_write_then_read_roundtrip;
   page_table_zero_clears_all_512_entries; page_table_write_does_not_corrupt_neighbors] = true.
Proof. by vm_compute. Qed.
End paging_tests.

(** ** Interrupts (dispatch.rs, stats.rs, vectors.rs, tests) *)
Module interrupt_tests.

(** The functions the tests register, as opaque pointers; a call of one is an
    event of the history, which stands for the flag the function sets. *)
Definition handler_3 : Z := 0x1003.
Definition handler_6 : Z := 0x1006.
Definition h1 : Z := 0x1001.
Definition h2 : Z := 0x1002.

Definition register_ok (irq h : Z) (ok : bool) : M IState unit :=
  let* r := dispatch.register irq h in assert (Bool.eqb r ok).
Definition fired (h : Z) (b : bool) : M IState unit :=
  let* s := get in
  assert (Bool.eqb (existsb (fun e => match e with Run p => p =? h | _ => false end) (io s)) b).

Definition register_and_dispatch_calls_handler : M IState unit :=
  register_ok 3 handler_3 true ;;
  dispatch.dispatch 3 ;;
  fired handler_3 true ;;
  dispatch.unregister 3.
Definition dispatch_with_no_handler_does_not_fault : M IState unit := dispatch.dispatch 4.
Definition duplicate_register_is_rejected : M IState unit :=
  register_ok 5 h1 true ;;
  register_ok 5 h2 false ;;
  dispatch.unregister 5.
Definition unregister_prevents_dispatch : M IState unit :=
  register_ok 6 handler_6 true ;;
  dispatch.unregister 6 ;;
  dispatch.dispatch 6 ;;
  fired handler_6 false.
Definition reregister_after_unregister_succeeds : M IState unit :=
  register_ok 3 h1 true ;;
  dispatch.unregister 3 ;;
  register_ok 3 h1 true ;;
  dispatch.unregister 3.

Definition V_A : Z := 4.
Definition V_B : Z := 5.
Definition count_is (v n : Z) : M IState unit := let* x := stats.count v in assert_eq x n.

Definition record_increments_count_by_one : M IState unit :=
  let* before := stats.count V_A in
  stats.record V_A ;;
  count_is V_A (before + 1).
Definition multiple_records_accumulate : M IState unit :=
  let* before := stats.count V_B in
  stats.record V_B ;;
  stats.record V_B ;;
  stats.record V_B ;;
  count_is V_B (before + 3).
Definition reset_all_zeroes_counters : M IState unit :=
  stats.record V_A ;;
  stats.record V_B ;;
  stats.reset_all ;;
  count_is V_A 0 ;;
  count_is V_B 0.
Definition count_for_unrecorded_vector_starts_at_zero_after_reset : M IState unit :=
  stats.reset_all ;;
  count_is 6 0.

Definition pic_irq_offsets_match_8259_remapping : M IState unit :=
  assert_eq PIC_IRQ_TIMER 0x20 ;; assert_eq PIC_IRQ_KEYBOARD 0x21 ;; assert_eq PIC_IRQ_SPURIOUS_MASTER 0x27 ;;
  assert_eq PIC_IRQ_RTC 0x28 ;; assert_eq PIC_IRQ_MOUSE 0x2C ;; assert_eq PIC_IRQ_ATA_PRIMARY 0x2E ;;
  assert_eq PIC_IRQ_ATA_SECONDARY 0x2F.
Definition interrupt_vector_as_u8_matches_constant : M IState unit :=
  assert_eq (as_u8 Interrupts.Timer) PIC_IRQ_TIMER ;; assert_eq (as_u8 Keyboard) PIC_IRQ_KEYBOARD ;;
  assert_eq (as_u8 SpuriousMaster) PIC_IRQ_SPURIOUS_MASTER ;; assert_eq (as_u8 Rtc) PIC_IRQ_RTC ;;
  assert_eq (as_u8 Mouse) PIC_IRQ_MOUSE ;; assert_eq (as_u8 AtaPrimary) PIC_IRQ_ATA_PRIMARY ;;
  assert_eq (as_u8 AtaSecondary) PIC_IRQ_ATA_SECONDARY.
Definition as_usize_matches_as_u8_cast : M IState unit :=
  assert_eq (as_usize Interrupts.Timer) PIC_IRQ_TIMER ;; assert_eq (as_usize Rtc) PIC_IRQ_RTC.
Definition is_spurious_only_for_spurious_vectors : M IState unit :=
  assert (is_spurious SpuriousMaster) ;; assert (is_spurious AtaSecondary) ;;
  assert (negb (is_spurious Interrupts.Timer)) ;; assert (negb (is_spurious Keyboard)) ;;
  assert (negb (is_spurious Rtc)) ;; assert (negb (is_spurious Mouse)) ;; assert (negb (is_spurious AtaPrimary)).

Lemma interrupt_tests_pass : forallb (passes boot_state)
  [register_and_dispatch_calls_handler; dispatch_with_no_handler_does_not_fault; duplicate_register_is_rejected;
   unregister_prevents_dispatch; reregister_after_unregister_succeeds;
   record_increments_count_by_one; multiple_records_accumulate; reset_all_zeroes_counters;
   count_for_unrecorded_vector_starts_at_zero_after_reset;
   pic_irq_offsets_match_8259_remapping; interrupt_vector_as_u8_matches_constant;
   as_usize_matches_as_u8_cast; is_spurious_only_for_spurious_vectors] = true.
Proof. by vm_compute. Qed.
End interrupt_tests.

(** ** Timer (timer.rs, tests) *)
Module timer_tests.

(** [sched] tells the ticks that arrive between the polls of a wait; it stands
    for the clock that the last test first probes. *)
Section tests.
Context (sched : list nat).

Definition tick_increases_uptime_ms : M IState unit :=
  let* before := uptime_ms in
  tick ;;
  let* now := uptime_ms in
  assert (before + 1 <=? now).
Definition uptime_ms_is_non_decreasing : M IState unit :=
  let* a := uptime_ms in
  let* b := uptime_ms in
  let* c := uptime_ms in
  assert (a <=? b) ;; assert (b <=? c).
Definition sleep_ms_zero_returns_without_spinning : M IState unit :=
  let* before := uptime_ms in
  sleep_ms 0 sched ;;
  let* now := uptime_ms in
  assert (before <=? now).
Definition sleep_ms_advances_uptime_by_at_least_requested_duration : M IState unit :=
  let* before := uptime_ms in
  sleep_ms 5 sched ;;
  let* after := uptime_ms in
  assert (before + 5 <=? after).
End tests.

Lemma timer_tests_pass : forallb (passes boot_state)
  [tick_increases_uptime_ms; uptime_ms_is_non_decreasing; sleep_ms_zero_returns_without_spinning [0%nat];
   sleep_ms_advances_uptime_by_at_least_requested_duration [1; 0; 2; 1; 0; 3]%nat] = true.
Proof. by vm_compute. Qed.
End timer_tests.

(** ** Boot data (limine_data.rs, tests) *)
Module limine_tests.

Definition usable (base length : Z) : MemoryRegion := mkRegion base length Usable.
Definition assert_is {S} (c : M S Z) (n : Z) : M S unit := let* x := c in assert_eq x n.

Section tests.
Context {AL : Align} {S : Type}.

Definition end_is_base_plus_length : M S unit :=
  assert_is (region_end (usable 0x1000 0x3000)) 0x4000 ;; assert_is (region_end (usable 0 0)) 0.
Definition aligned_base_rounds_up_to_page_boundary : M S unit :=
  assert_is (aligned_base (usable 0x1001 0x5000)) 0x2000 ;; assert_is (aligned_base (usable 0x0FFF 0x5000)) 0x1000.
Definition aligned_base_of_page_aligned_region_is_unchanged : M S unit :=
  assert_is (aligned_base (usable 0x2000 0x1000)) 0x2000 ;; assert_is (aligned_base (usable 0 0x1000)) 0.
Definition aligned_end_rounds_down_to_page_boundary : M S unit :=
  assert_is (aligned_end (usable 0x1000 0x1FFF)) 0x2000.
Definition aligned_end_of_page_aligned_region_is_unchanged : M S unit :=
  assert_is (aligned_end (usable 0x1000 0x2000)) 0x3000.
Definition has_pages_true_when_at_least_one_full_page_fits : M S unit :=
  let* a := has_pages (usable 0x1000 0x1000) in
  assert a ;;
  let* b := has_pages (usable 0x1000 0x2000) in
  assert b.
Definition has_pages_false_when_region_has_no_full_page : M S unit :=
  let* a := has_pages (usable 0x1001 0x0FFF) in
  assert (negb a) ;;
  let* b := has_pages (usable 0x1000 0) in
  assert (negb b).
Definition only_usable_is_immediately_usable : M S unit :=
  assert (is_immediately_usable Usable) ;; assert (negb (is_immediately_usable BootloaderReclaimable)) ;;
  assert (negb (is_immediately_usable AcpiReclaimable)) ;; assert (negb (is_immediately_usable Reserved)) ;;
  assert (negb (is_immediately_usable Limine.Framebuffer)).
Definition reclaimable_types_are_reclaimable : M S unit :=
  assert (is_reclaimable BootloaderReclaimable) ;; assert (is_reclaimable AcpiReclaimable) ;;
  assert (negb (is_reclaimable Usable)) ;; assert (negb (is_reclaimable Reserved)) ;;
  assert (negb (is_reclaimable ExecutableAndModules)).
End tests.

Lemma limine_tests_pass : forallb (passes tt)
  [end_is_base_plus_length; aligned_base_rounds_up_to_page_boundary;
   aligned_base_of_page_aligned_region_is_unchanged; aligned_end_rounds_down_to_page_boundary;
   aligned_end_of_page_aligned_region_is_unchanged; has_pages_true_when_at_least_one_full_page_fits;
   has_pages_false_when_region_has_no_full_page; only_usable_is_immediately_usable;
   reclaimable_types_are_reclaimable] = true.
Proof. by vm_compute. Qed.
End limine_tests.
